(* ===== verification/_CoqProject ===== *)
-Q . S2P
Prelude.v
GoStrings.v
GoPath.v
Decimal.v
Json.v
Config.v
ControlPath.v
Validate.v
Load.v
Host.v
Registry.v
RegistryInv.v
RegistryOps.v
RegistryRun.v
RegistrySpec.v
Interleave.v
InterleaveInv.v
InterleaveRun.v
InterleaveSpec.v
InterleaveLive.v
InterleaveRaces.v
Route.v
Rewrite.v
Auth.v
Directory.v
Server.v
ServerSpec.v
ServerDirectory.v
Fields.v
HopHeaders.v
Proxy.v
Redirect.v
InterleaveProxy.v
PublicSpec.v
Status.v
StatusPage.v
Streams.v
Serve.v
Shutdown.v
ServerMain.v
Lock.v
Bridge.v
Client.v
Handler.v
ClientMain.v
EndToEnd.v
Health.v
