(* ===== verification/Prelude.v ===== *)
(** * HttpHop: verification library

    HttpHop publishes services of a private network: a client inside opens a long-polling
    (or WebSocket) session to a public server, both sides run a yamux multiplexer over it,
    and the server's reverse proxy sends every public request through a stream of the
    tunnel that its host and path select.  The session layer is the pollmux package; this
    library models HttpHop's own code under internal/ and the two processes under cmd/.

    ** The parts, and how they interact

    - Configuration (internal/config): [LoadServer] and [LoadClient] read a file, fill in
      defaults, read token files and validate.  Files Config (structs, defaults),
      ControlPath (control_path.go), Validate ([ValidateServer], [ValidateClient],
      [validatePathPrefixConflicts] of load.go), Load (token.go and the loading half of
      load.go).
    - Routing (internal/router): Host (host.go: [HostKey], [FQDN], the certificate host
      policy) and Route (route.go: the route table, [Match], [StripPathPrefix]).
    - Registry (internal/registry, with [OpenStream] and [countedConn] of
      internal/server/bridge.go): Registry holds the definitions, on a heap of tunnels
      ([tref]) and pools ([pref]), because a tunnel is shared by its pool, the session index
      and the goroutine that drains it.  RegistryInv, RegistryOps and RegistryRun prove the
      invariant and the effect of each operation; RegistrySpec states the contract.
    - The registry under concurrency: Interleave gives each operation a program counter, so
      that [Register], [RemoveBySessionID], [SetLocalHealth], [Snapshot], the closing of a
      drained tunnel and a public request from [Pick] to the end of its stream interleave
      between their accesses to shared memory, with the registry's and the pools' mutexes
      derived from the program counters.  InterleaveInv and InterleaveRun prove the
      invariant, InterleaveSpec what remains true of each operation, InterleaveLive that
      they finish, InterleaveRaces what goes wrong when a client reconnects while requests
      look for its tunnel; InterleaveRaces and InterleaveProxy also check that an operation
      left alone does what its rendering in Registry and Proxy does.
    - Server (internal/server): Auth (auth.go), Server (server.go, tls.go: [NewServer], the
      pollmux hooks [authenticateConnect], [onConnect], [onPoll], [onDisconnect], the
      session guard [authenticateSession], [Start]), ServerSpec (what the hooks guarantee),
      Directory (an interface: a state whose clients are served by sessions, as a class with
      its laws, and what follows from them for every run) and ServerDirectory (the running
      server as an instance), Fields (which fields of a tunnel the steps leave alone), Proxy
      (proxy.go, errors.go), Redirect (the plain HTTP listener of tls.go), PublicSpec (a
      reference for [servePublic]), HopHeaders (the headers httputil.ReverseProxy keeps to
      itself), Rewrite (proxy_rewrite.go), Status (status.go and [Registry.Snapshot]),
      StatusPage (a reader of the status page), Streams (the counter of open streams against
      the connections that are open), Serve (a request from [rootHandler] to its answer,
      control endpoints included), Shutdown ([Stop]) and ServerMain (cmd/server/main.go).
    - Client (internal/client, cmd/client/main.go): Lock (preflight.go, preflight_pgrep.go),
      Bridge (the byte pumps of handler.go and of internal/server/bridge.go), Client
      (connector, health checker, stream handler, diagnostics, restart loop), Handler (a
      stream through [StreamHandler.Handle] and [bridgeWithHostRewrite], byte by byte,
      ending in the bridge of Bridge) and ClientMain ([Client.Run] and cmd/client/main.go).
    - Both together: EndToEnd puts the client's stream handler at the other end of the
      server's proxy; Health follows the client's checker through its polls to the choice of
      a tunnel.
    - Prelude, GoStrings, GoPath, Decimal and Json hold what all of them use: results of
      fallible functions, 64-bit wrap-around, the functions of Go's strings, strconv, path
      and path/filepath packages the code calls, the texts encoding/json writes with a
      reader that undoes them, and the view of a rooted path as a list of segments under
      which the code's tests on prefixes become the prefix order.

    ** How the code is rendered

    A function that returns an error returns a [result]; one that changes shared state takes
    and returns the [store] (or the configuration, which [ValidateServer] rewrites).  An
    operation that runs under the registry's lock is one step of [reg_step], which is what
    the theorems about runs of the server use; Interleave takes these operations apart into
    their accesses to shared memory, and [fine_grained_refines] relates the two.  Whatever the code leaves unlocked (the check of the stream limit against the
    opening of the stream, the drain goroutines, the two copies of a bridge, the client
    processes at the lock file) is interleaved, as a step relation ([reg_step], [hook_step],
    [server_step], [traffic_step], [copy_step], [bridgeWithHostRewrite], [lock_step]); in
    Serve it is a function of the definitions, [rest], that stands for any run of the server
    between two operations of a request, and in Shutdown one, [meanwhile], that stands for any
    run between two actions of [Stop] in which requests are taken until the public listener has
    been shut down. A Go [map] is a [gmap]; the order in which one is
    ranged over is left open by stating theorems that do not depend on it.  Go [int],
    [int64] and [time.Duration] are [Z]; the counters that are added to wrap at 64 bits
    ([wrap64]), values that are only compared and copied need no wrap.  Clock readings are
    arguments.  Log lines are left out, except where they are what a function computes
    ([record], [probe]).

    What is not in the repository is a parameter, a type class with the operations the code
    calls: [PollmuxConsts], [Transport], [PollmuxServer], [PollmuxStop] and [SessionStats]
    (pollmux and yamux; [TransportOk] states that closing closes, [PollmuxStopOk] that
    closing a session calls the hook, [genuine_step] of EndToEnd that [OnConnect] is given what
    [Authenticate] returned for the client at the other end of the session), [Viper] and [FileSystem], [Zap], [Mux] (gorilla/mux,
    which dispatches to its own routes by their method, [MuxOk]), [Backend] (the HTTP
    exchange over an open stream; in EndToEnd the client, with [Tunnels] for who is at the
    other end and its local service), [NetURL], [Probe] (dialing), [PollWire]
    (the polls of pollmux's connector), [HTTPWire] (reading and writing a request; [HTTPWireOk]: a reader that has decided does not change its mind as
    more bytes arrive), [TimeText] (the text of a time, which depends on the machine's time
    zone) and [SliceSort] ([sort.Slice], with its contract: a permutation that is sorted,
    ties in any order; an instance is given).  Letters outside ASCII are lowered by
    [UnicodeTables].  Witnesses instantiate all of them with concrete functions.

    ** What the theorems show

    - Configuration: validation decides the declarative conditions [server_valid] and
      [client_valid] ([ValidateServer_decides], [ValidateClient_decides]); whatever is
      loaded is valid, defaulted and has its tokens ([LoadServer_sound], [LoadClient_sound],
      [loadMultiClient_decides]); validating twice changes nothing
      ([ValidateServer_idempotent]), except that a relative control path can climb out of
      the conflict check ([climbing_control_path_escapes_check]).
    - Routing: [HostKey] inverts [FQDN], the host policy admits exactly the registered
      names, [Match] finds the longest covering prefix and nothing else, the same one for
      every sort; where match and strip agree and where they do not.
    - Registry: the invariant [reg_inv] of every reachable store; [registry_refines], every
      step is a step of the abstract registry, the map from subdomain and client id to the
      current tunnel; [Register_outcome], [disconnect_outcome], [Pick_first_serving],
      [pool_bound]; the replaced tunnel's late disconnect is harmless; drain goroutines end,
      wait for the streams, and close only tunnels that are out of service.
    - Concurrency: the invariant of every interleaving ([fine_grained_invariant]) and the
      abstract registry it implements ([fine_grained_refines]); each registration takes
      effect once ([register_takes_effect_once]); [Pick] returns a tunnel that is current as
      it returns ([pick_returns_current]), a snapshot is one moment's
      ([snapshot_is_consistent]), the stream counter is exact and a drained tunnel is closed
      only when it is zero or late ([counter_and_drain_interleaved]); every operation
      finishes ([operations_finish]); and two races of a client that reconnects, each from
      every reachable configuration in which it can begin: a request is refused though a tunnel
      of its host is alive ([reconnect_refuses_request]), and the drain closes a tunnel under a
      request that has opened its stream ([drain_cuts_uncounted_stream]).
    - Server: [server_invariant] for every run of a server [NewServer] built; who may
      connect and use a session; what [onConnect], [onDisconnect] and [onPoll] do; which
      tunnel serves a public request, what each error answer means, which path, headers,
      redirects and cookies the two sides see; the status page never panics and its JSON
      reads back as the clients that are served ([status_page_roundtrip]); the redirect of
      the plain listener keeps host and path ([redirect_same_address]); the counter of
      a tunnel is the number of its open streams ([open_streams_counted]); [Stop] leaves a
      tunnel only to clients that connect while it runs ([Stop_outcome]), and to such clients it
      does ([reconnect_outlives_Stop]).
    - The server as a whole: the session that serves a client is the last one that connected
      it, until it ends ([sessions_follow_events]); [servePublic] is the reference
      ([servePublic_implements_reference]); every public request is answered, without a nil
      dereference under any interleaving, and gives its stream back
      ([public_request_answered]), by the local service of a client that is configured for
      the request's host and runs under that client's id and token
      ([request_reaches_client]); the backend's path is stripped of the prefix of a binding that
      asks for it, and of nothing else ([proxied_path_stripped]); no session handler is reached without
      the client's token ([control_requires_token]); how the process starts and ends
      ([server_process_outcome]).
    - Health: the health the server holds of a client is its last report since it was
      registered ([health_follows_reports]), a report is the outcome of its last probe, and a
      client whose service is down gets no public request until it reports or registers again
      ([health_check_decides_service]).
    - Client: at most one process holds the lock as long as the file stays
      ([lock_exclusive]), and how the release function breaks this ([lock_release_race]); a
      bridge that ends well has delivered every byte both ways and always ends, well if
      nothing fails ([bridge_completes]); a stream whose host is rewritten delivers the
      rewritten request and all that follows it ([host_rewrite_delivers]); fast failures are
      counted; how the process ends, the panic of a health checker included
      ([client_process_outcome]).
    - Where the code does not do what it or its documents say, the theorem states what it
      does: [prefix_siblings_share_tunnel], [detour_matched_not_stripped],
      [root_prefix_doubles_slash], [foreign_redirect_rewritten],
      [location_double_slash_collapses], [stream_limit_overrun], [Bridge_truncates],
      [early_data_blocks], [negative_interval_panics], [superseded_checkers_pile_up],
      [stale_report_counts], [reconnect_outlives_Stop].

    ** Fuel

    Trimming blanks takes the length of the string, which every blank shortens; printing a
    number takes as many digits as it has bits ([parse_digits_digits] shows that they are
    enough); reading JSON takes the length of the text ([json_size_length]).  All other
    recursion is structural; drain goroutines are run by a schedule of clock readings and
    stores, and bridges by their step relation, with termination proved.

    ** Not modelled

    Listening, TLS, and of autocert all but the options the certificate manager is given and
    the hosts it may serve; the inside of pollmux and yamux (reconnecting, session
    resumption, the accept loop, the sweeper); of [httputil.ReverseProxy] the streaming of
    bodies, trailers and the cleaning of query parameters; the grammar of HTTP messages and
    of times; the parsing of flags, the delivery of signals and the inside of zap.

    ** Plan

    Next: the client's session loop against an abstract reconnect loop, and the requests of
    EndToEnd as the bytes that Handler forwards. *)

From Stdlib Require Export Ascii ZArith Lia Bool.
From stdpp Require Export base gmap strings option list.

Declare Scope hop_scope.
Delimit Scope hop_scope with hop.
#[global] Open Scope hop_scope.

(** ** Results of fallible Go functions *)

Inductive result (E A : Type) : Type :=
| Ok (a : A)
| Err (e : E).
Arguments Ok {E A} _.
Arguments Err {E A} _.

Definition is_ok {E A} (r : result E A) : bool :=
  match r with Ok _ => true | Err _ => false end.

Definition res_bind {E A B} (r : result E A) (k : A → result E B) : result E B :=
  match r with Ok a => k a | Err e => Err e end.

(** [if err := f(); err != nil { return err }; k]. *)
Notation "'try' x <- m ; k" := (res_bind m (fun x => k))
  (at level 100, x pattern, m at next level, k at level 200, right associativity) : hop_scope.

(** [if c { return e }; k]: a guard with an early error return. *)
Notation "'guard' c 'else' e ; k" := (if c then Err e else k)
  (at level 100, c at level 99, e at level 99, k at level 200, right associativity) : hop_scope.

#[global] Instance result_eq_dec {E A} `{EqDecision E, EqDecision A} : EqDecision (result E A).
Proof. solve_decision. Defined.

Lemma res_bind_ok {E A B} (r : result E A) (k : A → result E B) b :
  res_bind r k = Ok b ↔ ∃ a, r = Ok a ∧ k a = Ok b.
Proof. destruct r; simpl; split; [eauto | by intros (? & [= ->] & ?) | done | by intros (? & ? & ?)]. Qed.

Lemma guard_ok {E A} (c : bool) (e : E) (k : result E A) a :
  (if c then Err e else k) = Ok a ↔ c = false ∧ k = Ok a.
Proof. destruct c; split; [done | by intros [? ?] | done | by intros [_ ?]]. Qed.

(** A loop over a slice that returns at the first error. *)
Fixpoint for_each {E A S} (f : S → A → result E S) (s : S) (l : list A) : result E S :=
  match l with
  | [] => Ok s
  | a :: l' => try s' <- f s a ; for_each f s' l'
  end.

Lemma for_each_app {E A S} (f : S → A → result E S) l1 l2 s :
  for_each f s (l1 ++ l2) = (try s' <- for_each f s l1 ; for_each f s' l2).
Proof.
  revert s. induction l1 as [|a l1 IH]; intros s; simpl; [done|].
  destruct (f s a); simpl; [apply IH | done].
Qed.

(** ** Lists *)

Lemma not_elem_of_map {A B} (f : A → B) (l : list A) y :
  y ∉ map f l ↔ ∀ x, x ∈ l → f x ≠ y.
Proof.
  split.
  - intros H x Hx <-. by apply H, (list_elem_of_fmap_2 f).
  - intros H (x & -> & Hx)%(list_elem_of_fmap f). by apply (H x).
Qed.

Lemma NoDup_map_inj {A B} (f : A → B) (l : list A) x y :
  NoDup (map f l) → x ∈ l → y ∈ l → f x = f y → x = y.
Proof.
  intros Hnd [i Hi]%list_elem_of_lookup [j Hj]%list_elem_of_lookup Heq.
  assert (i = j) as ->; [|congruence].
  eapply (NoDup_lookup (map f l)); [done | |]; change (map f l) with (f <$> l).
  - by rewrite list_lookup_fmap, Hi.
  - by rewrite list_lookup_fmap, Hj, Heq.
Qed.

(** ** Machine integers: Go's [int], [int64] and [time.Duration] on 64-bit targets *)

Definition wrap64 (z : Z) : Z :=
  let m := Z.modulo z (2 ^ 64) in
  if Z.ltb m (2 ^ 63) then m else (m - 2 ^ 64)%Z.

Definition int64 (z : Z) : Prop := (- 2 ^ 63 ≤ z < 2 ^ 63)%Z.

Lemma wrap64_id z : int64 z → wrap64 z = z.
Proof.
  unfold int64, wrap64. intros Hz.
  destruct (decide (0 ≤ z)%Z).
  - rewrite Z.mod_small by lia. destruct (Z.ltb_spec z (2 ^ 63)); lia.
  - replace (z mod 2 ^ 64)%Z with (z + 2 ^ 64)%Z.
    + destruct (Z.ltb_spec (z + 2 ^ 64) (2 ^ 63)); lia.
    + apply Z.mod_unique with (q := (-1)%Z); lia.
Qed.

Lemma wrap64_int64 z : int64 (wrap64 z).
Proof.
  unfold int64, wrap64.
  pose proof (Z.mod_pos_bound z (2 ^ 64) ltac:(lia)).
  destruct (Z.ltb_spec (z mod 2 ^ 64) (2 ^ 63)); lia.
Qed.

(** Additions may wrap in any order. *)
Lemma wrap64_add_l a b : wrap64 (wrap64 a + b) = wrap64 (a + b).
Proof.
  assert (∀ z, ∃ k, wrap64 z = z + k * 2 ^ 64)%Z as Hk.
  { intros z. unfold wrap64. pose proof (Z.div_mod z (2 ^ 64) ltac:(lia)).
    destruct (Z.ltb _ _); [exists (- (z / 2 ^ 64))%Z | exists (- (z / 2 ^ 64) - 1)%Z]; lia. }
  destruct (Hk a) as [k Ha]. rewrite Ha. unfold wrap64.
  replace (a + k * 2 ^ 64 + b)%Z with (a + b + k * 2 ^ 64)%Z by lia.
  by rewrite Z.mod_add by lia.
Qed.

(** ** Booleans *)

Lemma bool_decide_negb (P : Prop) `{Decision P} :
  negb (bool_decide P) = true ↔ ¬ P.
Proof. case_bool_decide; naive_solver. Qed.

(** Splits the goal and the hypotheses at boolean connectives and decisions. *)
Ltac breflect :=
  repeat first
    [ progress rewrite ?andb_true_iff, ?orb_true_iff, ?andb_false_iff, ?orb_false_iff,
        ?negb_true_iff, ?negb_false_iff, ?bool_decide_eq_true, ?bool_decide_eq_false,
        ?Nat.leb_le, ?Nat.leb_gt, ?Nat.eqb_eq, ?Nat.eqb_neq, ?Nat.ltb_lt, ?Nat.ltb_ge,
        ?Z.leb_le, ?Z.leb_gt, ?Z.eqb_eq, ?Z.eqb_neq, ?Z.ltb_lt, ?Z.ltb_ge in * ].

(** Opens one [try]/[guard] of a hypothesis that says a computation returned [Ok]. *)
Ltac open_ok H :=
  repeat first
    [ apply res_bind_ok in H; let a := fresh "v" in let Ha := fresh "Hv" in
      destruct H as (a & Ha & H); cbv beta in H
    | apply guard_ok in H; let Hc := fresh "Hc" in destruct H as [Hc H] ].
