(* ===== verification/GoStrings.v ===== *)
(** The functions of Go's [strings] package that HttpHop calls, on Go strings as
    sequences of bytes ([string] of 8-bit [ascii]), with the lemmas the
    components share.  Indices and lengths are byte counts, as in Go. *)

From S2P Require Import Prelude.

#[global] Arguments String.append : simpl nomatch.

(** ** Slices of strings: [s[:n]] and [s[n:]] *)

Fixpoint str_take (n : nat) (s : string) : string :=
  match n, s with
  | S n', String c s' => String c (str_take n' s')
  | _, _ => EmptyString
  end.

Fixpoint str_drop (n : nat) (s : string) : string :=
  match n, s with
  | S n', String _ s' => str_drop n' s'
  | _, _ => s
  end.

(** ** [strings.HasPrefix], [strings.HasSuffix], [strings.TrimPrefix], [strings.TrimSuffix] *)

Definition HasPrefix (s p : string) : bool :=
  (String.length p <=? String.length s) && bool_decide (str_take (String.length p) s = p).

Definition HasSuffix (s t : string) : bool :=
  (String.length t <=? String.length s)
  && bool_decide (str_drop (String.length s - String.length t) s = t).

Definition TrimPrefix (s p : string) : string :=
  if HasPrefix s p then str_drop (String.length p) s else s.

Definition TrimSuffix (s t : string) : string :=
  if HasSuffix s t then str_take (String.length s - String.length t) s else s.

(** ** [strings.Contains], [strings.Split] on a one-byte separator, [strings.Join] *)

Fixpoint Contains (s sub : string) : bool :=
  HasPrefix s sub
  || match s with
     | EmptyString => false
     | String _ s' => Contains s' sub
     end.

(** [Split s sep] never returns the empty list: [Split "" sep] is [[""]]. *)
Fixpoint Split (sep : ascii) (s : string) : list string :=
  match s with
  | EmptyString => [EmptyString]
  | String c s' =>
      if bool_decide (c = sep) then EmptyString :: Split sep s'
      else match Split sep s' with
           | [] => [String c EmptyString]
           | x :: l => String c x :: l
           end
  end.

Fixpoint Join (l : list string) (sep : string) : string :=
  match l with
  | [] => EmptyString
  | [x] => x
  | x :: l' => x +:+ (sep +:+ Join l' sep)
  end.

(** ** [strings.ToLower] *)

Definition byte_val (c : ascii) : nat := nat_of_ascii c.

Definition is_upper (c : ascii) : bool := (65 <=? byte_val c) && (byte_val c <=? 90).

Definition lower_byte (c : ascii) : ascii :=
  if is_upper c then ascii_of_nat (byte_val c + 32) else c.

Fixpoint str_map (f : ascii → ascii) (s : string) : string :=
  match s with
  | EmptyString => EmptyString
  | String c s' => String (f c) (str_map f s')
  end.

Fixpoint str_forall (p : ascii → bool) (s : string) : bool :=
  match s with
  | EmptyString => true
  | String c s' => p c && str_forall p s'
  end.

Definition is_ascii (s : string) : bool := str_forall (λ c, byte_val c <? 128) s.

(** [strings.ToLower] has a fast path for ASCII strings; any other string is
    mapped rune by rune through the Unicode tables, which are an operation of
    this class. *)
Class UnicodeTables := { unicode_ToLower : string → string }.

Definition ToLower `{UnicodeTables} (s : string) : string :=
  if is_ascii s then str_map lower_byte s else unicode_ToLower s.

(** [strings.EqualFold(s, "path=")]: no rune outside ASCII folds to one of these
    letters, so the test is the byte-wise one. *)
Definition EqualFold_ascii (s t : string) : bool :=
  bool_decide (str_map lower_byte s = str_map lower_byte t).

(** ** [strings.TrimSpace]: the code points of [unicode.IsSpace], in UTF-8 *)

Definition byte_str (n : nat) : string := String (ascii_of_nat n) EmptyString.

Definition bytes (l : list nat) : string :=
  foldr (λ n s, String (ascii_of_nat n) s) EmptyString l.

Definition unicode_spaces : list string :=
  map byte_str [9; 10; 11; 12; 13; 32]
  ++ map bytes [[194; 133]; [194; 160]; [225; 154; 128]]
  ++ map (λ n, bytes [226; 128; n]) (seq 128 11)
  ++ map bytes [[226; 128; 168]; [226; 128; 169]; [226; 128; 175]; [226; 129; 159];
                [227; 128; 128]].

(** UTF-8 is self-synchronizing, so a space rune at an end of a string is one of
    the byte sequences above at that end. *)
Fixpoint trim_left (fuel : nat) (s : string) : string :=
  match fuel with
  | 0 => s
  | S n =>
      match list_find (λ w, HasPrefix s w = true) unicode_spaces with
      | Some (_, w) => trim_left n (TrimPrefix s w)
      | None => s
      end
  end.

Fixpoint trim_right (fuel : nat) (s : string) : string :=
  match fuel with
  | 0 => s
  | S n =>
      match list_find (λ w, HasSuffix s w = true) unicode_spaces with
      | Some (_, w) => trim_right n (TrimSuffix s w)
      | None => s
      end
  end.

(** Every space removed shortens the string, so its length is enough fuel. *)
Definition TrimSpace (s : string) : string :=
  let l := trim_left (String.length s) s in trim_right (String.length l) l.

(** ** Append, length and slices *)

#[global] Instance str_app_assoc : Assoc (=) String.append.
Proof. intros s1 s2 s3. induction s1 as [|c s IH]; simpl; [done | by rewrite IH]. Qed.

Lemma str_app_nil_r s : s +:+ "" = s.
Proof. induction s as [|c s IH]; simpl; [done | by rewrite IH]. Qed.

Lemma str_app_nil_l s : "" +:+ s = s.
Proof. done. Qed.

Lemma str_length_app s t : String.length (s +:+ t) = String.length s + String.length t.
Proof. induction s as [|c s IH]; simpl; [done | by rewrite IH]. Qed.

Lemma str_app_inj_r s t1 t2 : s +:+ t1 = s +:+ t2 → t1 = t2.
Proof. induction s; simpl; [done|]. intros [= ?]; auto. Qed.

Lemma str_app_inj_len s1 s2 t1 t2 :
  String.length s1 = String.length s2 → s1 +:+ t1 = s2 +:+ t2 → s1 = s2 ∧ t1 = t2.
Proof.
  revert s2. induction s1 as [|c s1 IH]; intros [|c' s2]; simpl; try done.
  intros [= Hl] [= -> H]. destruct (IH s2 Hl H) as [-> ->]. done.
Qed.

Lemma str_app_inj_l s1 s2 t : s1 +:+ t = s2 +:+ t → s1 = s2.
Proof.
  intros H. apply (str_app_inj_len s1 s2 t t); [|done].
  apply (f_equal String.length) in H. rewrite !str_length_app in H. lia.
Qed.

Lemma str_app_eq_nil s t : s +:+ t = "" ↔ s = "" ∧ t = "".
Proof. destruct s, t; simpl; split; try done; by intros []. Qed.

Lemma str_length_zero s : String.length s = 0 ↔ s = "".
Proof. by destruct s. Qed.

Lemma str_take_app s t : str_take (String.length s) (s +:+ t) = s.
Proof. induction s as [|c s IH]; simpl; [by destruct t | by rewrite IH]. Qed.

Lemma str_drop_app s t : str_drop (String.length s) (s +:+ t) = t.
Proof. induction s as [|c s IH]; simpl; [by destruct t | apply IH]. Qed.

Lemma str_take_drop n s : str_take n s +:+ str_drop n s = s.
Proof. revert s. induction n as [|n IH]; intros [|c s]; simpl; try done. by rewrite IH. Qed.

Lemma str_length_take n s : n ≤ String.length s → String.length (str_take n s) = n.
Proof.
  revert s. induction n as [|n IH]; intros [|c s]; simpl; intros; try lia.
  rewrite IH; lia.
Qed.

Lemma str_length_drop n s : String.length (str_drop n s) = String.length s - n.
Proof. revert s. induction n; intros [|c s]; simpl; try done. Qed.

(** ** Prefixes and suffixes *)

Lemma HasPrefix_spec s p : HasPrefix s p = true ↔ ∃ t, s = p +:+ t.
Proof.
  unfold HasPrefix. rewrite andb_true_iff, bool_decide_eq_true, Nat.leb_le. split.
  - intros [_ H]. exists (str_drop (String.length p) s).
    rewrite <- (str_take_drop (String.length p) s) at 1. by rewrite H.
  - intros [t ->]. rewrite str_take_app, str_length_app. split; [lia | done].
Qed.

Lemma HasSuffix_spec s p : HasSuffix s p = true ↔ ∃ t, s = t +:+ p.
Proof.
  unfold HasSuffix. rewrite andb_true_iff, bool_decide_eq_true, Nat.leb_le. split.
  - intros [_ H]. set (n := String.length s - String.length p) in *.
    exists (str_take n s). rewrite <- (str_take_drop n s) at 1. by rewrite H.
  - intros [t ->]. rewrite str_length_app. split; [lia|].
    replace (String.length t + String.length p - String.length p)
      with (String.length t) by lia. apply str_drop_app.
Qed.

Lemma HasPrefix_app s t : HasPrefix (s +:+ t) s = true.
Proof. apply HasPrefix_spec. eauto. Qed.

Lemma HasPrefix_refl s : HasPrefix s s = true.
Proof. apply HasPrefix_spec. exists "". by rewrite str_app_nil_r. Qed.

Lemma HasSuffix_app s t : HasSuffix (s +:+ t) t = true.
Proof. apply HasSuffix_spec. eauto. Qed.

Lemma HasPrefix_trans a b c :
  HasPrefix a b = true → HasPrefix b c = true → HasPrefix a c = true.
Proof.
  rewrite !HasPrefix_spec. intros [t1 ->] [t2 ->]. exists (t2 +:+ t1).
  by rewrite (assoc_L String.append).
Qed.

Lemma HasPrefix_length s p : HasPrefix s p = true → String.length p ≤ String.length s.
Proof. rewrite HasPrefix_spec. intros [t ->]. rewrite str_length_app. lia. Qed.

(** Two prefixes of one string are prefixes of one another. *)
Lemma HasPrefix_total s p q :
  HasPrefix s p = true → HasPrefix s q = true → String.length p ≤ String.length q →
  HasPrefix q p = true.
Proof.
  rewrite !HasPrefix_spec. intros [t1 ->] [t2 H] Hl.
  exists (str_drop (String.length p) q).
  rewrite <- (str_take_drop (String.length p) q) in H.
  rewrite <- (assoc_L String.append) in H.
  apply str_app_inj_len in H as [H _]; [|by rewrite str_length_take].
  rewrite H at 1. by rewrite str_take_drop.
Qed.

Lemma HasPrefix_cons c s p : HasPrefix (String c s) (String c p) = HasPrefix s p.
Proof.
  apply eq_true_iff_eq. rewrite !HasPrefix_spec. simpl.
  split; intros [t H]; exists t; congruence.
Qed.

Lemma HasPrefix_eq_len s p :
  HasPrefix s p = true → String.length p = String.length s → s = p.
Proof.
  rewrite HasPrefix_spec. intros [t ->]. rewrite str_length_app. intros Hl.
  assert (t = "") as -> by (apply str_length_zero; lia). by rewrite str_app_nil_r.
Qed.

Lemma str_drop_app_ge n s t : str_drop (String.length s + n) (s +:+ t) = str_drop n t.
Proof. by induction s. Qed.

(** A suffix no longer than [t] is one of [s +:+ t] exactly when it is one of [t]. *)
Lemma HasSuffix_app_ge s t u :
  String.length u ≤ String.length t → HasSuffix (s +:+ t) u = HasSuffix t u.
Proof.
  intros Hl. unfold HasSuffix. rewrite str_length_app.
  replace (String.length s + String.length t - String.length u)
    with (String.length s + (String.length t - String.length u)) by lia.
  rewrite str_drop_app_ge. f_equal. apply eq_true_iff_eq. rewrite !Nat.leb_le. lia.
Qed.

Lemma TrimPrefix_app p s : TrimPrefix (p +:+ s) p = s.
Proof. unfold TrimPrefix. rewrite HasPrefix_app. apply str_drop_app. Qed.

Lemma TrimPrefix_no s p : HasPrefix s p = false → TrimPrefix s p = s.
Proof. unfold TrimPrefix. by intros ->. Qed.

Lemma TrimSuffix_app s t : TrimSuffix (s +:+ t) t = s.
Proof.
  unfold TrimSuffix. rewrite HasSuffix_app, str_length_app.
  replace (String.length s + String.length t - String.length t)
    with (String.length s) by lia. apply str_take_app.
Qed.

Lemma TrimSuffix_no s t : HasSuffix s t = false → TrimSuffix s t = s.
Proof. unfold TrimSuffix. by intros ->. Qed.

(** ** Split and Join *)

Definition char_free (c : ascii) (s : string) : bool :=
  str_forall (λ d, bool_decide (d ≠ c)) s.

Lemma str_forall_app p s t : str_forall p (s +:+ t) = str_forall p s && str_forall p t.
Proof. induction s as [|c s IH]; simpl; [done|]. by rewrite IH, andb_assoc. Qed.

Lemma char_free_app c s t : char_free c (s +:+ t) = char_free c s && char_free c t.
Proof. apply str_forall_app. Qed.

Lemma char_free_cons c d s : char_free c (String d s) = true ↔ d ≠ c ∧ char_free c s = true.
Proof. unfold char_free. simpl. by rewrite andb_true_iff, bool_decide_eq_true. Qed.

Lemma Split_nonempty c s : Split c s ≠ [].
Proof.
  destruct s as [|d s]; simpl; [done|].
  case_bool_decide; [done|]. by destruct (Split c s).
Qed.

Lemma Split_free c s : Forall (λ x, char_free c x = true) (Split c s).
Proof.
  induction s as [|d s IH]; simpl; [by repeat constructor|].
  case_bool_decide as Hd; [by constructor|].
  destruct (Split c s) as [|x l] eqn:E; [by destruct (Split_nonempty c s E)|].
  apply Forall_cons_iff in IH as [Hx Hl]. constructor; [by apply char_free_cons | done].
Qed.

Lemma Split_char_free c s : char_free c s = true → Split c s = [s].
Proof.
  induction s as [|d s IH]; simpl; [done|]. intros [Hd Hs]%char_free_cons.
  rewrite bool_decide_eq_false_2 by done. by rewrite (IH Hs).
Qed.

Lemma Split_app c x s :
  char_free c x = true → Split c (x +:+ String c s) = x :: Split c s.
Proof.
  induction x as [|d x IH]; simpl.
  - intros _. by rewrite bool_decide_eq_true_2.
  - intros [Hd Hx]%char_free_cons. rewrite bool_decide_eq_false_2 by done.
    by rewrite (IH Hx).
Qed.

Lemma Split_app_sep c x s : Split c (x +:+ String c s) = Split c x ++ Split c s.
Proof.
  induction x as [|d x IH]; simpl; [by rewrite bool_decide_eq_true_2|].
  case_bool_decide; [by rewrite IH|]. rewrite IH.
  destruct (Split c x) as [|y l] eqn:E; [by destruct (Split_nonempty c x E) | done].
Qed.

Lemma Join_cons x l sep : l ≠ [] → Join (x :: l) sep = x +:+ (sep +:+ Join l sep).
Proof. by destruct l. Qed.

Lemma Join_Split c s : Join (Split c s) (String c "") = s.
Proof.
  induction s as [|d s IH]; simpl; [done|].
  case_bool_decide as Hd.
  - subst. rewrite Join_cons by apply Split_nonempty. simpl. by rewrite IH.
  - destruct (Split c s) as [|x [|y l]] eqn:E; [by destruct (Split_nonempty c s)| |];
      simpl in *; by rewrite <- IH.
Qed.

Lemma Split_Join c l :
  l ≠ [] → Forall (λ x, char_free c x = true) l → Split c (Join l (String c "")) = l.
Proof.
  induction l as [|x l IH]; [done|]. intros _ [Hx Hl]%Forall_cons_iff.
  destruct l as [|y l]; [by apply Split_char_free|].
  rewrite Join_cons by done.
  change (String c "" +:+ Join (y :: l) (String c ""))
    with (String c (Join (y :: l) (String c ""))).
  rewrite Split_app by done. by rewrite IH.
Qed.

(** A separator-free prefix is determined by what follows it. *)
Lemma char_free_split_eq c x y s t :
  char_free c x = true → char_free c y = true →
  x +:+ String c s = y +:+ String c t → x = y ∧ s = t.
Proof.
  revert y. induction x as [|d x IH]; intros [|e y]; simpl.
  - by intros _ _ [= ->].
  - intros _ [He _]%char_free_cons [= Heq _]. congruence.
  - intros [Hd _]%char_free_cons _ [= Heq _]. congruence.
  - intros [_ Hx]%char_free_cons [_ Hy]%char_free_cons [= -> H].
    by destruct (IH y Hx Hy H) as [-> ->].
Qed.

Lemma Contains_byte_false c s : Contains s (String c "") = false ↔ char_free c s = true.
Proof.
  induction s as [|d s IH]; [done|].
  rewrite char_free_cons, <- IH. simpl Contains. rewrite orb_false_iff.
  assert (HasPrefix (String d s) (String c "") = bool_decide (d = c)) as ->.
  { apply eq_true_iff_eq. rewrite HasPrefix_spec, bool_decide_eq_true. simpl.
    split; [by intros [? [= ->]] | intros ->; by eexists]. }
  by rewrite bool_decide_eq_false.
Qed.

(** ** Lower case *)

Lemma str_forall_impl (p q : ascii → bool) s :
  (∀ c, p c = true → q c = true) → str_forall p s = true → str_forall q s = true.
Proof.
  intros Hpq. induction s as [|c s IH]; simpl; [done|].
  rewrite !andb_true_iff. intros [? ?]; auto.
Qed.

Lemma str_forall_map p f s : str_forall p (str_map f s) = str_forall (λ c, p (f c)) s.
Proof. induction s as [|c s IH]; simpl; [done | by rewrite IH]. Qed.

Lemma str_map_app f s t : str_map f (s +:+ t) = str_map f s +:+ str_map f t.
Proof. induction s as [|c s IH]; simpl; [done | by rewrite IH]. Qed.

Lemma str_map_id f s : str_forall (λ c, bool_decide (f c = c)) s = true → str_map f s = s.
Proof.
  induction s as [|c s IH]; simpl; [done|].
  rewrite andb_true_iff, bool_decide_eq_true. intros [-> Hs]. by rewrite IH.
Qed.

(** Properties of single bytes, by going through all 256 of them. *)
Definition all_bytes (p : ascii → bool) : bool :=
  forallb (λ n, p (ascii_of_nat n)) (seq 0 256).

Lemma all_bytes_spec p : all_bytes p = true → ∀ c, p c = true.
Proof.
  intros H c. unfold all_bytes in H. rewrite forallb_forall in H.
  rewrite <- (ascii_nat_embedding c). apply H, in_seq.
  pose proof (nat_ascii_bounded c). lia.
Qed.

Lemma lower_byte_not_upper c : is_upper (lower_byte c) = false.
Proof.
  apply negb_true_iff. revert c. apply (all_bytes_spec (λ c, negb (is_upper (lower_byte c)))).
  vm_compute. done.
Qed.

Lemma lower_byte_ascii c : (byte_val c <? 128) = true → (byte_val (lower_byte c) <? 128) = true.
Proof.
  assert (H := all_bytes_spec
    (λ c, implb (byte_val c <? 128) (byte_val (lower_byte c) <? 128)) ltac:(vm_compute; done) c).
  intros Hc. cbv beta in H. rewrite Hc in H. done.
Qed.

(** No byte of [s] is an ASCII capital. *)
Definition no_upper (s : string) : bool := str_forall (λ c, negb (is_upper c)) s.

Lemma no_upper_app s t : no_upper (s +:+ t) = no_upper s && no_upper t.
Proof. apply str_forall_app. Qed.

Lemma lower_no_upper s : no_upper (str_map lower_byte s) = true.
Proof.
  induction s as [|c s IH]; simpl; [done|].
  unfold no_upper in *. simpl. by rewrite lower_byte_not_upper, IH.
Qed.

Lemma no_upper_lower s : no_upper s = true → str_map lower_byte s = s.
Proof.
  intros H. apply str_map_id. revert H. apply str_forall_impl. intros c Hc.
  apply negb_true_iff in Hc. unfold lower_byte. rewrite Hc. by apply bool_decide_eq_true.
Qed.

Lemma is_ascii_lower s : is_ascii s = true → is_ascii (str_map lower_byte s) = true.
Proof.
  unfold is_ascii. rewrite str_forall_map. apply str_forall_impl. apply lower_byte_ascii.
Qed.

Lemma is_ascii_app s t : is_ascii (s +:+ t) = is_ascii s && is_ascii t.
Proof. apply str_forall_app. Qed.

Section ToLower.
  Context `{UnicodeTables}.

Lemma ToLower_ascii s : is_ascii s = true → ToLower s = str_map lower_byte s.
Proof. unfold ToLower. by intros ->. Qed.

Lemma ToLower_id s : is_ascii s = true → no_upper s = true → ToLower s = s.
Proof. intros Ha Hu. rewrite ToLower_ascii by done. by apply no_upper_lower. Qed.

Lemma ToLower_no_upper s : is_ascii s = true → no_upper (ToLower s) = true.
Proof. intros Ha. rewrite ToLower_ascii by done. apply lower_no_upper. Qed.

Lemma ToLower_is_ascii s : is_ascii s = true → is_ascii (ToLower s) = true.
Proof. intros Ha. rewrite ToLower_ascii by done. by apply is_ascii_lower. Qed.
End ToLower.
