(* ===== verification/GoPath.v ===== *)
(** Go's [path.Clean] and the Unix [path/filepath] functions HttpHop calls, and
    the segment view of rooted paths: a cleaned rooted path is a list of
    segments, and the code's tests [p == q || strings.HasPrefix(p, q+"/")] are
    the prefix order on such lists. *)

From S2P Require Import Prelude GoStrings.

Definition slash : ascii := "/"%char.

(** ** [path.Clean] *)

(** One path element against the elements kept so far (last one first): empty
    and ["."] elements are dropped, [".."] removes the element before it, stays
    when there is none in a relative path and is dropped at the root. *)
Definition clean_step (rooted : bool) (kept : list string) (seg : string) : list string :=
  if bool_decide (seg = "") then kept
  else if bool_decide (seg = ".") then kept
  else if bool_decide (seg = "..") then
    match kept with
    | [] => if rooted then [] else [".."]
    | top :: rest => if bool_decide (top = "..") then ".." :: kept else rest
    end
  else seg :: kept.

Definition clean_segs (rooted : bool) (p : string) : list string :=
  rev (fold_left (clean_step rooted) (Split slash p) []).

Definition is_rooted (p : string) : bool := HasPrefix p "/".

Definition Clean (p : string) : string :=
  if bool_decide (p = "") then "."
  else if is_rooted p then "/" +:+ Join (clean_segs true p) "/"
  else match clean_segs false p with
       | [] => "."
       | segs => Join segs "/"
       end.

(** ** [filepath.IsAbs], [filepath.Dir], [filepath.Join] on Unix *)

Definition IsAbs (p : string) : bool := HasPrefix p "/".

(** [path[:i+1]] for the last slash at index [i]. *)
Fixpoint upto_last_slash (s : string) : string :=
  match s with
  | EmptyString => EmptyString
  | String c s' =>
      match upto_last_slash s' with
      | EmptyString => if bool_decide (c = slash) then String c EmptyString else EmptyString
      | r => String c r
      end
  end.

Definition Dir (p : string) : string := Clean (upto_last_slash p).

Definition FilepathJoin (dir file : string) : string :=
  if bool_decide (dir = "") then
    if bool_decide (file = "") then "" else Clean file
  else Clean (Join [dir; file] "/").

(** ** Segments and the rooted path they spell *)

Definition plain_seg (s : string) : Prop :=
  s ≠ "" ∧ s ≠ "." ∧ s ≠ ".." ∧ char_free slash s = true.

#[global] Instance plain_seg_dec s : Decision (plain_seg s).
Proof. unfold plain_seg. apply _. Defined.

Definition no_slash (s : string) : Prop := char_free slash s = true.

Lemma plain_no_slash segs : Forall plain_seg segs → Forall no_slash segs.
Proof. intros H. eapply Forall_impl; [apply H|]. by intros s (_ & _ & _ & ?). Qed.

Definition abs_path (segs : list string) : string := "/" +:+ Join segs "/".

(** [/a/b/c] without the special case of the root. *)
Definition segs_str (segs : list string) : string :=
  foldr (λ s acc, String slash (s +:+ acc)) "" segs.

Example clean_1 : map Clean [""; "/"; "abc"; "abc/def/"; "/abc//def//ghi"; "./abc"; "abc/./../def"]
  = ["."; "/"; "abc"; "abc/def"; "/abc/def/ghi"; "abc"; "def"].
Proof. vm_compute. reflexivity. Qed.

Example clean_2 : map Clean ["/.."; "/../abc"; "../../abc"; "abc/../../././../def"; "/abc/..//"; "."; ".."]
  = ["/"; "/abc"; "../../abc"; "../../def"; "/"; "."; ".."].
Proof. vm_compute. reflexivity. Qed.

Example dir_1 : map Dir ["configs/local/server.yaml"; "server.yaml"; "/etc/httphop/server.yaml"; "/x"]
  = ["configs/local"; "."; "/etc/httphop"; "/"].
Proof. vm_compute. reflexivity. Qed.

Example join_1 : FilepathJoin "configs/local" "../secrets/a.token" = "configs/secrets/a.token".
Proof. vm_compute. reflexivity. Qed.

(** ** Cleaning keeps plain segments *)

Lemma clean_step_plain kept seg :
  char_free slash seg = true → Forall plain_seg kept →
  Forall plain_seg (clean_step true kept seg).
Proof.
  intros Hf Hk. unfold clean_step. repeat case_bool_decide; try done.
  - destruct kept as [|top rest]; [done|].
    apply Forall_cons_iff in Hk as [Ht Hr]. destruct Ht as (_ & _ & Ht & _).
    by rewrite bool_decide_eq_false_2.
  - by constructor.
Qed.

Lemma clean_segs_plain p : Forall plain_seg (clean_segs true p).
Proof.
  unfold clean_segs. apply Forall_rev.
  assert (∀ l kept, Forall (λ x, char_free slash x = true) l → Forall plain_seg kept →
    Forall plain_seg (fold_left (clean_step true) l kept)) as H.
  { induction l as [|x l IH]; intros kept Hl Hk; simpl; [done|].
    apply Forall_cons_iff in Hl as [Hx Hl]. apply IH; [done | by apply clean_step_plain]. }
  apply H; [apply Split_free | done].
Qed.

Lemma fold_clean_plain rooted segs kept :
  Forall plain_seg segs → fold_left (clean_step rooted) segs kept = rev segs ++ kept.
Proof.
  revert kept. induction segs as [|s segs IH]; intros kept; [done|].
  intros [(H1 & H2 & H3 & _) Hs]%Forall_cons_iff. simpl.
  unfold clean_step at 2. rewrite !bool_decide_eq_false_2 by done.
  rewrite IH by done. by rewrite <- (assoc_L (++)).
Qed.

Lemma Split_abs_path segs :
  Forall plain_seg segs →
  Split slash (abs_path segs) = "" :: match segs with [] => [""] | _ => segs end.
Proof.
  intros Hs. change (abs_path segs) with ("" +:+ String slash (Join segs "/")).
  rewrite Split_app by done. f_equal. destruct segs as [|s segs]; [done|].
  apply (Split_Join slash); [done|]. by apply plain_no_slash.
Qed.

Lemma clean_segs_abs segs : Forall plain_seg segs → clean_segs true (abs_path segs) = segs.
Proof.
  intros Hs. unfold clean_segs. rewrite Split_abs_path by done. simpl.
  destruct segs as [|s segs]; [done|].
  change (clean_step true [] "") with (@nil string).
  rewrite fold_clean_plain by done. by rewrite app_nil_r, rev_involutive.
Qed.

Lemma is_rooted_spec p : is_rooted p = true ↔ ∃ q, p = String slash q.
Proof. unfold is_rooted. rewrite HasPrefix_spec. done. Qed.

Lemma is_rooted_abs segs : is_rooted (abs_path segs) = true.
Proof. by apply is_rooted_spec; eexists. Qed.

(** A rooted path cleans to the rooted path of its plain segments. *)
Lemma Clean_rooted p : is_rooted p = true → Clean p = abs_path (clean_segs true p).
Proof.
  intros Hr. unfold Clean. rewrite Hr, bool_decide_eq_false_2; [done|].
  apply is_rooted_spec in Hr as [q ->]. done.
Qed.

Lemma Clean_abs segs : Forall plain_seg segs → Clean (abs_path segs) = abs_path segs.
Proof.
  intros Hs. rewrite Clean_rooted by apply is_rooted_abs. by rewrite clean_segs_abs.
Qed.

Lemma Clean_rooted_ex p :
  is_rooted p = true → ∃ segs, Forall plain_seg segs ∧ Clean p = abs_path segs.
Proof. intros Hr. exists (clean_segs true p). split; [apply clean_segs_plain | by apply Clean_rooted]. Qed.

Lemma Clean_is_rooted p : is_rooted p = true → is_rooted (Clean p) = true.
Proof. intros Hr. rewrite Clean_rooted by done. apply is_rooted_abs. Qed.

Lemma Clean_idem_rooted p : is_rooted p = true → Clean (Clean p) = Clean p.
Proof. intros (segs & Hs & ->)%Clean_rooted_ex. by apply Clean_abs. Qed.

(** ** The prefix order *)

Lemma abs_path_segs_str segs : segs ≠ [] → abs_path segs = segs_str segs.
Proof.
  unfold abs_path. induction segs as [|s segs IH]; [done|]. intros _.
  destruct segs as [|s' segs]; [by rewrite <- (str_app_nil_r s) at 1|].
  rewrite Join_cons by done. simpl in *. by rewrite IH.
Qed.

Lemma segs_str_app a b : segs_str (a ++ b) = segs_str a +:+ segs_str b.
Proof.
  induction a as [|s a IH]; simpl; [done|]. rewrite IH.
  by rewrite (assoc_L String.append).
Qed.

(** What follows a plain segment in a cleaned path is nothing or a slash. *)
Lemma segs_str_shape segs : segs_str segs = "" ∨ ∃ q, segs_str segs = String slash q.
Proof. destruct segs; simpl; eauto. Qed.

Lemma plain_seg_tail_eq x y s t :
  char_free slash x = true → char_free slash y = true →
  (s = "" ∨ ∃ q, s = String slash q) → x +:+ s = y +:+ String slash t →
  x = y ∧ s = String slash t.
Proof.
  intros Hx Hy [->|[q ->]] H.
  - rewrite str_app_nil_r in H. subst x. exfalso.
    rewrite char_free_app, andb_true_iff in Hx. destruct Hx as [_ Hx].
    by apply char_free_cons in Hx as [? _].
  - apply (char_free_split_eq slash) in H as [-> ->]; done.
Qed.

Lemma segs_str_prefix a b :
  Forall no_slash a → Forall no_slash b →
  (HasPrefix (segs_str a) (segs_str b +:+ "/") = true ↔ ∃ x l, a = b ++ x :: l).
Proof.
  revert a. induction b as [|y b IH]; intros a Ha Hb.
  - destruct a as [|x a]; simpl; [split; [done | by intros (? & ? & ?)]|].
    split; [by intros; eexists _, _ | intros _; by apply HasPrefix_spec; eexists].
  - apply Forall_cons in Hb as [Hy Hb].
    destruct a as [|x a]; simpl.
    { rewrite HasPrefix_spec. split; [by intros [? ?] | by intros (? & ? & ?)]. }
    apply Forall_cons in Ha as [Hx Ha]. specialize (IH a Ha Hb).
    rewrite HasPrefix_cons, <- (assoc_L String.append).
    assert (∃ q, segs_str b +:+ "/" = String slash q) as [q Hq].
    { destruct (segs_str_shape b) as [->|[q ->]]; by eexists. }
    split.
    + rewrite HasPrefix_spec. intros [t H].
      rewrite Hq, <- (assoc_L String.append) in H.
      apply plain_seg_tail_eq in H as [-> H];
        [| done | done | apply segs_str_shape].
      destruct IH as [(x' & l & ->) _]; [|by eexists _, _].
      apply HasPrefix_spec. exists t. by rewrite H, Hq.
    + intros (x' & l & [= -> ->]).
      assert (HasPrefix (segs_str (b ++ x' :: l)) (segs_str b +:+ "/") = true) as H
        by (apply IH; eauto).
      apply HasPrefix_spec in H as [t ->]. apply HasPrefix_spec. exists t.
      by rewrite !(assoc_L String.append).
Qed.

Lemma abs_path_inj a b :
  Forall plain_seg a → Forall plain_seg b → abs_path a = abs_path b → a = b.
Proof.
  intros Ha Hb H. rewrite <- (clean_segs_abs a), <- (clean_segs_abs b) by done. by rewrite H.
Qed.

(** The code's test for a path under a (non-root) prefix is the prefix order. *)
Lemma under_prefix a b :
  Forall plain_seg a → Forall plain_seg b → b ≠ [] →
  (abs_path a = abs_path b ∨ HasPrefix (abs_path a) (abs_path b +:+ "/") = true
   ↔ b `prefix_of` a).
Proof.
  intros Ha Hb Hne. rewrite (abs_path_segs_str b) at 2 by done. split.
  - intros [->%abs_path_inj|H]; [done | done | done |].
    destruct (decide (a = [])) as [->|Hna].
    { exfalso. destruct b as [|y b]; [done|].
      apply HasPrefix_length in H. apply Forall_cons in Hb as [[Hy _] _].
      simpl in H. rewrite !str_length_app in H. destruct y; [done | simpl in H; lia]. }
    rewrite abs_path_segs_str in H by done.
    apply segs_str_prefix in H as (x & l & ->); auto using plain_no_slash. by exists (x :: l).
  - intros [[|x l] ->]; [left; by rewrite app_nil_r|]. right.
    rewrite abs_path_segs_str by by destruct b.
    apply segs_str_prefix; eauto using plain_no_slash.
Qed.

Lemma plain_no_suffix s : plain_seg s → HasSuffix s "/" = false.
Proof.
  intros (_ & _ & _ & Hf). apply not_true_is_false. rewrite HasSuffix_spec.
  intros [t ->]. rewrite char_free_app, andb_true_iff in Hf.
  destruct Hf as [_ Hf]. by apply char_free_cons in Hf as [? _].
Qed.

Lemma plain_length s : plain_seg s → 1 ≤ String.length s.
Proof. intros [Hne _]. destruct s; [done | simpl; lia]. Qed.

Lemma segs_str_no_suffix segs :
  Forall plain_seg segs → segs ≠ [] → HasSuffix (segs_str segs) "/" = false.
Proof.
  induction segs as [|s segs IH]; [done|]. intros [Hs Hr]%Forall_cons _.
  pose proof (plain_length s Hs). simpl.
  change (String slash (s +:+ segs_str segs)) with (("/" +:+ s) +:+ segs_str segs).
  destruct segs as [|s' segs].
  - simpl segs_str. rewrite str_app_nil_r, HasSuffix_app_ge by (simpl; lia).
    by apply plain_no_suffix.
  - rewrite HasSuffix_app_ge by (simpl; lia). by apply IH.
Qed.

(** A cleaned rooted path other than the root does not end in a slash. *)
Lemma abs_path_no_suffix segs :
  Forall plain_seg segs → segs ≠ [] → HasSuffix (abs_path segs) "/" = false.
Proof. intros. rewrite abs_path_segs_str by done. by apply segs_str_no_suffix. Qed.

Lemma TrimSuffix_abs segs :
  Forall plain_seg segs → segs ≠ [] → TrimSuffix (abs_path segs) "/" = abs_path segs.
Proof. intros. by apply TrimSuffix_no, abs_path_no_suffix. Qed.
