(* ===== verification/Decimal.v ===== *)
(** Decimal integers as Go prints and reads them: [strconv.Atoi], and the [%d] of [fmt]
    and the integers of encoding/json. *)

From S2P Require Import Prelude GoStrings.

Definition newline : ascii := ascii_of_nat 10.

Definition digit_of (n : nat) : ascii := ascii_of_nat (48 + n).

Definition digit_val (c : ascii) : option Z :=
  let n := byte_val c in
  if (48 <=? n) && (n <=? 57) then Some (Z.of_nat n - 48)%Z else None.

(** The digits of a natural number, most significant first, before an accumulator. *)
Fixpoint digits_acc (fuel : nat) (n : Z) (acc : string) : string :=
  match fuel with
  | 0 => acc
  | S fuel =>
      let acc := String (digit_of (Z.to_nat (n mod 10))) acc in
      if Z.ltb n 10 then acc else digits_acc fuel (n / 10) acc
  end.

(** A number has no more decimal digits than bits. *)
Definition digits (n : Z) : string := digits_acc (S (Z.to_nat (Z.log2 n))) n "".

Definition Itoa (n : Z) : string := if Z.ltb n 0 then "-" +:+ digits (- n) else digits n.

Fixpoint parse_digits (s : string) (n : Z) : option Z :=
  match s with
  | EmptyString => Some n
  | String c s' =>
      match digit_val c with
      | None => None
      | Some d => parse_digits s' (10 * n + d)%Z
      end
  end.

(** [None] is an error: not a number, or out of the range of [int]. *)
Definition Atoi (s : string) : option Z :=
  let '(neg, body) :=
    match s with
    | String c s' =>
        if bool_decide (c = "-"%char) then (true, s')
        else if bool_decide (c = "+"%char) then (false, s') else (false, s)
    | EmptyString => (false, s)
    end in
  if bool_decide (body = "") then None
  else
    match parse_digits body 0 with
    | None => None
    | Some n =>
        let n := if neg : bool then (- n)%Z else n in
        if Z.leb (- 2 ^ 63) n && Z.ltb n (2 ^ 63) then Some n else None
    end.

Lemma digit_val_of d : (0 ≤ d < 10)%Z → digit_val (digit_of (Z.to_nat d)) = Some d.
Proof.
  intros Hd. unfold digit_val, digit_of, byte_val. rewrite nat_ascii_embedding by lia.
  assert ((48 <=? 48 + Z.to_nat d) && (48 + Z.to_nat d <=? 57) = true) as ->
    by (apply andb_true_iff; rewrite !Nat.leb_le; lia).
  f_equal. lia.
Qed.

Lemma parse_digits_acc fuel n acc :
  (0 ≤ n < 10 ^ Z.of_nat fuel)%Z → 1 ≤ fuel →
  parse_digits (digits_acc fuel n acc) 0 = parse_digits acc n.
Proof.
  revert n acc. induction fuel as [|fuel IH]; intros n acc Hn Hf; [lia|].
  pose proof (Z.mod_pos_bound n 10 ltac:(lia)) as Hm. cbn [digits_acc].
  destruct (Z.ltb_spec n 10).
  - cbn [parse_digits]. rewrite digit_val_of by done. by rewrite Z.mod_small by lia.
  - assert (1 ≤ fuel) by (destruct fuel; [simpl in Hn; lia | lia]).
    rewrite IH; [|split; [apply Z.div_pos; lia | apply Z.div_lt_upper_bound; [lia|]] | done].
    + cbn [parse_digits]. rewrite digit_val_of by done.
      by rewrite <-(Z.div_mod n 10) by lia.
    + replace (Z.of_nat (S fuel)) with (Z.succ (Z.of_nat fuel)) in Hn by lia.
      rewrite Z.pow_succ_r in Hn by lia. lia.
Qed.

Definition is_digit (c : ascii) : bool := bool_decide (is_Some (digit_val c)).

Lemma digits_acc_digits fuel n acc :
  str_forall is_digit acc = true → str_forall is_digit (digits_acc fuel n acc) = true.
Proof.
  revert n acc. induction fuel as [|fuel IH]; intros n acc Hacc; [done|]. cbn [digits_acc].
  pose proof (Z.mod_pos_bound n 10 ltac:(lia)) as Hm.
  assert (str_forall is_digit (String (digit_of (Z.to_nat (n mod 10))) acc) = true) as H1.
  { cbn [str_forall]. rewrite Hacc, andb_true_r. unfold is_digit. rewrite digit_val_of by done.
    by apply bool_decide_eq_true_2. }
  destruct (Z.ltb n 10); [done | by apply IH].
Qed.

Lemma digits_acc_nonempty fuel n acc : acc ≠ "" ∨ fuel ≠ 0 → digits_acc fuel n acc ≠ "".
Proof.
  revert n acc. induction fuel as [|fuel IH]; intros n acc Hacc; simpl; [by destruct Hacc|].
  destruct (Z.ltb n 10); [done|]. apply IH. by left.
Qed.

Lemma digits_nonempty n : digits n ≠ "".
Proof. apply digits_acc_nonempty. by right. Qed.

Lemma digits_digits n : str_forall is_digit (digits n) = true.
Proof. by apply digits_acc_digits. Qed.

Lemma parse_digits_digits n : (0 ≤ n)%Z → parse_digits (digits n) 0 = Some n.
Proof.
  intros Hn. unfold digits. rewrite parse_digits_acc; [done| |lia]. split; [done|].
  destruct (Z.eq_dec n 0%Z) as [->|]; [vm_compute; done|].
  pose proof (Z.log2_spec n ltac:(lia)) as [_ Hl]. pose proof (Z.log2_nonneg n).
  eapply Z.lt_le_trans; [exact Hl|]. rewrite Nat2Z.inj_succ, Z2Nat.id by done.
  apply Z.pow_le_mono_l. lia.
Qed.

Lemma Atoi_digits n : (0 ≤ n < 2 ^ 63)%Z → Atoi (digits n) = Some n.
Proof.
  intros Hn. pose proof (digits_digits n) as Hd. pose proof (digits_nonempty n) as Hne.
  pose proof (parse_digits_digits n ltac:(lia)) as Hp.
  unfold Atoi. destruct (digits n) as [|c s] eqn:E; [done|]. cbn [str_forall] in Hd.
  apply andb_true_iff in Hd as [Hc _].
  rewrite (bool_decide_eq_false_2 (c = "-"%char)) by (intros ->; done).
  rewrite (bool_decide_eq_false_2 (c = "+"%char)) by (intros ->; done).
  rewrite bool_decide_eq_false_2, Hp by done.
  assert ((- 2 ^ 63 <=? n) && (n <? 2 ^ 63) = true)%Z as ->; [|done].
  apply andb_true_iff. rewrite Z.leb_le, Z.ltb_lt. lia.
Qed.
