(* ===== verification/Json.v ===== *)
(** encoding/json as the server uses it: the text that the encoder prints for a document of
    strings, integers, lists and structs, and a reader of such texts, with the theorem that
    reading undoes printing. *)

From S2P Require Import Prelude GoStrings Decimal.

(** ** Strings *)

Definition dquote : ascii := ascii_of_nat 34.
Definition backslash : ascii := ascii_of_nat 92.

Definition in_range (lo hi : nat) (c : ascii) : bool :=
  (lo <=? byte_val c) && (byte_val c <=? hi).

(** The length of the UTF-8 sequence at the start of a string whose first byte is not ASCII,
    as [utf8.DecodeRuneInString] decides it; 0 when there is none. *)
Definition rune_len (s : string) : nat :=
  match s with
  | String c (String c1 t) =>
      if in_range 194 223 c then if in_range 128 191 c1 then 2 else 0
      else
        match t with
        | EmptyString => 0
        | String c2 t' =>
            let lo := if bool_decide (byte_val c = 224) then 160
                      else if bool_decide (byte_val c = 240) then 144 else 128 in
            let hi := if bool_decide (byte_val c = 237) then 159
                      else if bool_decide (byte_val c = 244) then 143 else 191 in
            if negb (in_range lo hi c1 && in_range 128 191 c2) then 0
            else if in_range 224 239 c then 3
            else if in_range 240 244 c then
              match t' with
              | String c3 _ => if in_range 128 191 c3 then 4 else 0
              | EmptyString => 0
              end
            else 0
        end
  | _ => 0
  end.

Definition hex_digit (n : nat) : ascii := ascii_of_nat (if n <? 10 then 48 + n else 87 + n).

(** The encoder also escapes what is special in HTML. *)
Definition escape_byte (c : ascii) : string :=
  let n := byte_val c in
  if bool_decide (n = 34 ∨ n = 92) then String backslash (String c "")
  else if bool_decide (n = 8) then String backslash "b"
  else if bool_decide (n = 9) then String backslash "t"
  else if bool_decide (n = 10) then String backslash "n"
  else if bool_decide (n = 12) then String backslash "f"
  else if bool_decide (n = 13) then String backslash "r"
  else if (n <? 32) || bool_decide (n = 38 ∨ n = 60 ∨ n = 62)
  then String backslash "u00" +:+ String (hex_digit (n / 16)) (String (hex_digit (n mod 16)) "")
  else String c "".

(** The line separators U+2028 and U+2029, which are escaped too. *)
Definition is_line_sep (s : string) : bool :=
  HasPrefix s (bytes [226; 128; 168]) || HasPrefix s (bytes [226; 128; 169]).

(** [k] counts the bytes that are still to be copied of the rune under way. *)
Fixpoint escape (k : nat) (s : string) : string :=
  match s with
  | EmptyString => ""
  | String c s' =>
      match k with
      | S k' => String c (escape k' s')
      | 0 =>
          if byte_val c <? 128 then escape_byte c +:+ escape 0 s'
          else match rune_len s with
               | 0 => String backslash "ufffd" +:+ escape 0 s'
               | S k' =>
                   if is_line_sep s then
                     match s' with
                     | String _ (String c2 s3) =>
                         String backslash "u202"
                           +:+ String (hex_digit (byte_val c2 - 160)) (escape 0 s3)
                     | _ => ""
                     end
                   else String c (escape k' s')
               end
      end
  end.

Definition quote (s : string) : string := String dquote (escape 0 s +:+ String dquote "").

(** What the reader gets back: every byte that is not part of a rune becomes U+FFFD. *)
Fixpoint to_utf8 (k : nat) (s : string) : string :=
  match s with
  | EmptyString => ""
  | String c s' =>
      match k with
      | S k' => String c (to_utf8 k' s')
      | 0 =>
          if byte_val c <? 128 then String c (to_utf8 0 s')
          else match rune_len s with
               | 0 => bytes [239; 191; 189] +:+ to_utf8 0 s'
               | S k' => String c (to_utf8 k' s')
               end
      end
  end.

(** A valid UTF-8 string is read back as it was. *)
Definition valid_utf8 (s : string) : bool := bool_decide (to_utf8 0 s = s).

Definition hex_val (c : ascii) : option N :=
  let n := N_of_ascii c in
  if N.leb 48 n && N.leb n 57 then Some (n - 48)%N
  else if N.leb 97 n && N.leb n 102 then Some (n - 87)%N
  else if N.leb 65 n && N.leb n 70 then Some (n - 55)%N
  else None.

(** The UTF-8 encoding of a code point below U+10000. *)
Definition utf8_encode (n : N) : string :=
  foldr (λ b, String (ascii_of_N b)) ""
    (if N.ltb n 128 then [n]
     else if N.ltb n 2048 then [192 + n / 64; 128 + n mod 64]
     else [224 + n / 4096; 128 + (n / 64) mod 64; 128 + n mod 64])%N.

Definition simple_escape (c : ascii) : option ascii :=
  match byte_val c with
  | 34 => Some dquote
  | 92 => Some backslash
  | 47 => Some "/"%char
  | 98 => Some (ascii_of_nat 8)
  | 116 => Some (ascii_of_nat 9)
  | 110 => Some (ascii_of_nat 10)
  | 102 => Some (ascii_of_nat 12)
  | 114 => Some (ascii_of_nat 13)
  | _ => None
  end.

Definition hex4 (a b c d : ascii) : option N :=
  a ← hex_val a; b ← hex_val b; c ← hex_val c; d ← hex_val d;
  Some (a * 4096 + b * 256 + c * 16 + d)%N.

Definition prepend {A} (x : string) (r : option (string * A)) : option (string * A) :=
  '(s, rest) ← r; Some (x +:+ s, rest).

(** A string literal after its opening quote, and what follows it.  Surrogates, which the
    encoder does not print, are refused. *)
Fixpoint unquote (s : string) : option (string * string) :=
  match s with
  | EmptyString => None
  | String c s' =>
      if bool_decide (c = dquote) then Some ("", s')
      else if bool_decide (c = backslash) then
        match s' with
        | EmptyString => None
        | String e t =>
            match simple_escape e with
            | Some b => prepend (String b "") (unquote t)
            | None =>
                match bool_decide (e = "u"%char), t with
                | true, String h1 (String h2 (String h3 (String h4 t'))) =>
                    match hex4 h1 h2 h3 h4 with
                    | Some n => if N.leb 55296 n && N.leb n 57343 then None
                                else prepend (utf8_encode n) (unquote t')
                    | None => None
                    end
                | _, _ => None
                end
            end
        end
      else if byte_val c <? 32 then None
      else prepend (String c "") (unquote s')
  end.

Example escape_examples :
  map (escape 0) [bytes [97; 34; 92; 60; 47; 10; 7]; bytes [195; 169; 255]; bytes [226; 128; 168]]
  = ["a" +:+ bytes [92; 34; 92; 92] +:+ String backslash "u003c/" +:+ String backslash "n"
       +:+ String backslash "u0007";
     bytes [195; 169] +:+ String backslash "ufffd"; String backslash "u2028"].
Proof. vm_compute. reflexivity. Qed.

(** *** Reading a printed string *)

Lemma unquote_escape_byte c x :
  (byte_val c <? 128) = true → unquote (escape_byte c +:+ x) = prepend (String c "") (unquote x).
Proof. destruct c as [[] [] [] [] [] [] [] []]; intros H; try discriminate; reflexivity. Qed.

Definition is_high (c : ascii) : bool := 128 <=? byte_val c.

Lemma high_byte c : is_high c = true →
  bool_decide (c = dquote) = false ∧ bool_decide (c = backslash) = false ∧ (byte_val c <? 32) = false.
Proof.
  unfold is_high. rewrite Nat.leb_le. intros Hc.
  split_and!; [apply bool_decide_eq_false_2; intros -> | apply bool_decide_eq_false_2; intros -> |
    apply Nat.ltb_ge; lia]; apply Nat.leb_le in Hc; discriminate Hc.
Qed.

Lemma unquote_high c x : is_high c = true → unquote (String c x) = prepend (String c "") (unquote x).
Proof. intros (H1 & H2 & H3)%high_byte. cbn [unquote]. by rewrite H1, H2, H3. Qed.

(** The bytes of a rune beyond ASCII are beyond ASCII. *)
Definition high_bytes (k : nat) (s : string) : Prop :=
  k ≤ String.length s ∧ str_forall is_high (str_take k s) = true.

Lemma in_range_high lo hi c : 128 ≤ lo → in_range lo hi c = true → is_high c = true.
Proof. unfold in_range, is_high. rewrite andb_true_iff, !Nat.leb_le. lia. Qed.

Lemma rune_len_high c s k :
  is_high c = true → rune_len (String c s) = k → k ≠ 0 → high_bytes k (String c s).
Proof.
  unfold high_bytes. intros Hc. simpl. destruct s as [|c1 [|c2 s]]; simpl; [lia| |].
  { destruct (in_range 194 223 c); [|lia]. destruct (in_range 128 191 c1) eqn:H1; [|lia].
    intros <- _. simpl. apply in_range_high in H1; [|lia]. rewrite Hc, H1. split; [lia | done]. }
  destruct (in_range 194 223 c).
  { destruct (in_range 128 191 c1) eqn:H1; [|lia]. intros <- _. simpl.
    apply in_range_high in H1; [|lia]. rewrite Hc, H1. split; [lia | done]. }
  destruct (in_range (if bool_decide (byte_val c = 224) then _ else _) _ c1) eqn:H1; [|simpl; lia].
  destruct (in_range 128 191 c2) eqn:H2; [|simpl; lia]. simpl.
  apply in_range_high in H2; [|lia].
  apply in_range_high in H1; [|destruct (bool_decide _), (bool_decide _); lia].
  destruct (in_range 224 239 c).
  { intros <- _. simpl. rewrite Hc, H1, H2. split; [lia | done]. }
  destruct (in_range 240 244 c); [|lia]. destruct s as [|c3 s]; [lia|].
  destruct (in_range 128 191 c3) eqn:H3; [|lia]. apply in_range_high in H3; [|lia].
  intros <- _. simpl. rewrite Hc, H1, H2, H3. split; [lia | done].
Qed.

Lemma to_utf8_0 k s : str_drop k s = "" → to_utf8 k s = str_take k s.
Proof. revert s. induction k as [|k IH]; intros [|c s]; simpl; try done. intros H. by rewrite IH. Qed.

Lemma escape_copy k s : escape k s = str_take k s +:+ escape 0 (str_drop k s).
Proof. revert s. induction k as [|k IH]; intros [|c s]; try done. simpl. by rewrite IH. Qed.

Lemma to_utf8_copy k s : to_utf8 k s = str_take k s +:+ to_utf8 0 (str_drop k s).
Proof. revert s. induction k as [|k IH]; intros [|c s]; try done. simpl. by rewrite IH. Qed.

Lemma prepend_app {A} x y (r : option (string * A)) : prepend x (prepend y r) = prepend (x +:+ y) r.
Proof. destruct r as [[s rest]|]; simpl; [by rewrite (assoc_L String.append) | done]. Qed.

Lemma unquote_high_bytes h x :
  str_forall is_high h = true → unquote (h +:+ x) = prepend h (unquote x).
Proof.
  induction h as [|c h IH].
  - intros _. simpl. by destruct (unquote x) as [[]|].
  - cbn [str_forall]. intros [Hc Hh]%andb_true_iff.
    change (String c h +:+ x) with (String c (h +:+ x)). rewrite unquote_high, IH by done.
    by rewrite prepend_app.
Qed.

(** Both separators print the last hexadecimal digit of their code point. *)
Lemma line_sep_spec s :
  is_line_sep s = true → ∃ c s3, (c = ascii_of_nat 168 ∨ c = ascii_of_nat 169)
    ∧ s = bytes [226; 128] +:+ String c s3.
Proof.
  unfold is_line_sep. rewrite orb_true_iff. intros [[t ->]%HasPrefix_spec | [t ->]%HasPrefix_spec].
  - exists (ascii_of_nat 168), t. split; [by left | done].
  - exists (ascii_of_nat 169), t. split; [by right | done].
Qed.

Lemma str_length_drop_lt k c s : String.length (str_drop (S k) (String c s)) < S (String.length s).
Proof. revert s. induction k as [|k IH]; intros s; simpl; [lia|]. destruct s; simpl; [lia|].
  specialize (IH s). simpl in IH. lia. Qed.

Lemma unquote_escape s t : unquote (escape 0 s +:+ String dquote t) = Some (to_utf8 0 s, t).
Proof.
  remember (String.length s) as n eqn:Hn. revert s Hn.
  induction n as [n IH] using lt_wf_ind. intros [|c s] ->; [done|]. cbn [escape to_utf8].
  destruct (byte_val c <? 128) eqn:Hc.
  { rewrite <-(assoc_L String.append), unquote_escape_byte by done.
    by rewrite (IH (String.length s)) by (simpl; lia). }
  assert (is_high c = true) as Hh by (apply Nat.ltb_ge in Hc; by apply Nat.leb_le).
  destruct (rune_len (String c s)) as [|k] eqn:Hk.
  { rewrite <-(assoc_L String.append).
    change (unquote (String backslash "ufffd" +:+ ?x)) with (prepend (bytes [239; 191; 189]) (unquote x)).
    by rewrite (IH (String.length s)) by (simpl; lia). }
  destruct (is_line_sep (String c s)) eqn:Hsep.
  - apply line_sep_spec in Hsep as (c2 & s3 & Hc2 & [= -> ->]).
    pose proof (IH (String.length s3) ltac:(simpl; lia) s3 eq_refl) as Hs3.
    assert (k = 2) as -> by (destruct Hc2 as [-> | ->]; vm_compute in Hk; congruence).
    destruct Hc2 as [-> | ->]; simpl in Hs3 |- *; by rewrite Hs3.
  - destruct (rune_len_high c s (S k) Hh Hk ltac:(lia)) as [_ Hb]. cbn [str_take str_forall] in Hb.
    apply andb_true_iff in Hb as [_ Hb]. rewrite escape_copy, to_utf8_copy.
    change (String c ?x +:+ ?y) with (String c (x +:+ y)).
    rewrite unquote_high, <-(assoc_L String.append), unquote_high_bytes, prepend_app by done.
    rewrite (IH (String.length (str_drop k s)))
      by (first [done | pose proof (str_length_drop_lt k c s) as Hl; simpl in *; lia]).
    done.
Qed.

(** ** Documents *)

Inductive json :=
| JNull
| JBool (b : bool)
| JInt (z : Z)
| JString (s : string)
| JArray (l : list json)
| JObject (l : list (string * json)).

Definition json_member (print : json → string) (m : string * json) : string :=
  quote m.1 +:+ (":" +:+ print m.2).

Fixpoint json_print (j : json) : string :=
  match j with
  | JNull => "null"
  | JBool b => if b then "true" else "false"
  | JInt z => Itoa z
  | JString s => quote s
  | JArray l => "[" +:+ (Join (map json_print l) "," +:+ "]")
  | JObject l => "{" +:+ (Join (map (json_member json_print) l) "," +:+ "}")
  end.

(** ** The reader *)

(** The digits at the start of a string, and what follows them. *)
Fixpoint span_digits (s : string) : string * string :=
  match s with
  | String c s' =>
      if is_digit c then (String c (span_digits s').1, (span_digits s').2) else ("", s)
  | EmptyString => ("", "")
  end.

Definition read_nat (s : string) : option (Z * string) :=
  let '(d, rest) := span_digits s in
  if bool_decide (d = "") then None else z ← parse_digits d 0; Some (z, rest).

Definition read_int (s : string) : option (Z * string) :=
  match s with
  | String c s' =>
      if bool_decide (c = "-"%char) then '(z, rest) ← read_nat s'; Some ((- z)%Z, rest)
      else read_nat s
  | EmptyString => None
  end.

Definition expect (w s : string) : option string :=
  if HasPrefix s w then Some (str_drop (String.length w) s) else None.

(** Items separated by commas up to [close]; [fuel] bounds their number. *)
Fixpoint read_items {A} (item : string → option (A * string)) (close : ascii) (fuel : nat)
    (s : string) : option (list A * string) :=
  match fuel with
  | 0 => None
  | S fuel =>
      match item s with
      | Some (x, String c s') =>
          if bool_decide (c = ","%char)
          then '(l, rest) ← read_items item close fuel s'; Some (x :: l, rest)
          else if bool_decide (c = close) then Some ([x], s') else None
      | _ => None
      end
  end.

Definition read_seq {A} (item : string → option (A * string)) (close : ascii) (fuel : nat)
    (s : string) : option (list A * string) :=
  match expect (String close "") s with
  | Some rest => Some ([], rest)
  | None => read_items item close fuel s
  end.

Definition read_string (s : string) : option (string * string) :=
  s' ← expect (String dquote "") s; unquote s'.

Definition read_member (value : string → option (json * string)) (s : string)
    : option ((string * json) * string) :=
  '(k, s) ← read_string s; s ← expect ":" s; '(j, s) ← value s; Some ((k, j), s).

Definition read_word (w : string) (j : json) (s : string) : option (json * string) :=
  s ← expect w s; Some (j, s).

(** A document at the start of a text, and what follows it; [fuel] bounds its depth and the
    number of items in each of its parts. *)
Fixpoint json_read (fuel : nat) (s : string) : option (json * string) :=
  match fuel with
  | 0 => None
  | S fuel =>
      match s with
      | EmptyString => None
      | String c s' =>
          if bool_decide (c = dquote) then '(x, rest) ← unquote s'; Some (JString x, rest)
          else if bool_decide (c = "["%char)
          then '(l, rest) ← read_seq (json_read fuel) "]"%char fuel s'; Some (JArray l, rest)
          else if bool_decide (c = "{"%char)
          then '(l, rest) ← read_seq (read_member (json_read fuel)) "}"%char fuel s';
               Some (JObject l, rest)
          else if bool_decide (c = "n"%char) then read_word "null" JNull s
          else if bool_decide (c = "t"%char) then read_word "true" (JBool true) s
          else if bool_decide (c = "f"%char) then read_word "false" (JBool false) s
          else '(z, rest) ← read_int s; Some (JInt z, rest)
      end
  end.

(** What reading a printed document gives: its strings as they are read back. *)
Fixpoint json_utf8 (j : json) : json :=
  match j with
  | JString s => JString (to_utf8 0 s)
  | JArray l => JArray (map json_utf8 l)
  | JObject l => JObject (map (λ m, (to_utf8 0 m.1, json_utf8 m.2)) l)
  | _ => j
  end.

(** The whole text, which [Encode] ends with a newline.  No document has more parts than its
    text has bytes. *)
Definition json_parse (s : string) : option json :=
  match json_read (S (String.length s)) s with
  | Some (j, rest) => if bool_decide (rest = byte_str 10) then Some j else None
  | None => None
  end.

(** [json.NewEncoder(w).Encode(v)] of a value that marshals to [j]. *)
Definition json_encode (j : json) : string := json_print j +:+ byte_str 10.

Definition json_example : json :=
  JObject [("a", JArray [JInt (-12); JNull; JBool true; JArray []; JString "x,y"]);
           ("b", JObject [])].

Example json_print_example :
  json_print json_example
  = let q := String dquote "" in
    "{" +:+ q +:+ "a" +:+ q +:+ ":[-12,null,true,[]," +:+ q +:+ "x,y" +:+ q +:+ "]," +:+ q +:+ "b"
    +:+ q +:+ ":{}}".
Proof. vm_compute. reflexivity. Qed.

Example json_parse_example : json_parse (json_encode json_example) = Some json_example.
Proof. vm_compute. reflexivity. Qed.

(** ** Reading undoes printing *)

Lemma json_ind_nested (P : json → Prop) :
  P JNull → (∀ b, P (JBool b)) → (∀ z, P (JInt z)) → (∀ s, P (JString s)) →
  (∀ l, Forall P l → P (JArray l)) → (∀ l, Forall (λ m, P m.2) l → P (JObject l)) →
  ∀ j, P j.
Proof.
  intros Hn Hb Hi Hs Ha Ho. fix IH 1. intros [| | | |l|l]; [done | done | done | done | |].
  - apply Ha. induction l as [|j l IHl]; constructor; [apply IH | apply IHl].
  - apply Ho. induction l as [|m l IHl]; constructor; [apply IH | apply IHl].
Qed.

(** The parts of a document. *)
Fixpoint json_size (j : json) : nat :=
  match j with
  | JArray l => S (sum_list_with json_size l)
  | JObject l => S (sum_list_with (λ m, json_size m.2) l)
  | _ => 1
  end.

Lemma json_size_pos j : 1 ≤ json_size j.
Proof. destruct j; simpl; lia. Qed.

Lemma sum_list_with_length {A} (f : A → nat) l :
  (∀ x, 1 ≤ f x) → length l ≤ sum_list_with f l.
Proof. intros Hf. induction l as [|x l IH]; simpl; [lia|]. pose proof (Hf x). lia. Qed.

Lemma sum_list_with_elem {A} (f : A → nat) l x : x ∈ l → f x ≤ sum_list_with f l.
Proof. induction 1; simpl; lia. Qed.

(** A text that does not go on with a digit. *)
Definition no_digit (s : string) : Prop :=
  match s with String c _ => is_digit c = false | EmptyString => True end.

Lemma span_digits_app d rest :
  str_forall is_digit d = true → no_digit rest → span_digits (d +:+ rest) = (d, rest).
Proof.
  intros Hd Hr. induction d as [|c d IH].
  - destruct rest as [|c rest]; [done|]. cbn in Hr |- *. by rewrite Hr.
  - cbn [str_forall] in Hd. apply andb_true_iff in Hd as [Hc Hd].
    change (String c d +:+ rest) with (String c (d +:+ rest)). cbn [span_digits].
    by rewrite Hc, (IH Hd).
Qed.

Lemma read_nat_digits z rest :
  (0 ≤ z)%Z → no_digit rest → read_nat (digits z +:+ rest) = Some (z, rest).
Proof.
  intros Hz Hr. unfold read_nat. rewrite span_digits_app by (done || apply digits_digits).
  rewrite bool_decide_eq_false_2 by apply digits_nonempty. by rewrite parse_digits_digits.
Qed.

(** A printed number starts with a digit or with its sign. *)
Lemma digits_head z : ∃ c s, digits z = String c s ∧ is_digit c = true.
Proof.
  pose proof (digits_nonempty z) as Hne. pose proof (digits_digits z) as Hd.
  destruct (digits z) as [|c s]; [done|]. exists c, s. split; [done|].
  by apply andb_true_iff in Hd as [Hc _].
Qed.

Lemma Itoa_head z : ∃ c s, Itoa z = String c s ∧ (c = "-"%char ∨ is_digit c = true).
Proof.
  unfold Itoa. destruct (Z.ltb z 0); [by eexists _, _; split; [|left]|].
  destruct (digits_head z) as (c & s & -> & Hc). eauto.
Qed.

Lemma read_int_Itoa z rest : no_digit rest → read_int (Itoa z +:+ rest) = Some (z, rest).
Proof.
  intros Hr. unfold Itoa. destruct (Z.ltb_spec z 0).
  - change (("-" +:+ ?d) +:+ rest) with (String "-"%char (d +:+ rest)). cbn [read_int].
    rewrite bool_decide_eq_true_2, read_nat_digits by (done || lia). simpl.
    by rewrite Z.opp_involutive.
  - pose proof (read_nat_digits z rest ltac:(done) Hr) as H1.
    destruct (digits_head z) as (c & s & Hcs & Hc). rewrite Hcs in H1 |- *.
    change (String c s +:+ rest) with (String c (s +:+ rest)) in H1 |- *. cbn [read_int].
    by rewrite bool_decide_eq_false_2 by (intros ->; done).
Qed.

Lemma expect_app w s : expect w (w +:+ s) = Some s.
Proof.
  unfold expect. assert (HasPrefix (w +:+ s) w = true) as -> by (apply HasPrefix_spec; eauto).
  f_equal. induction w as [|c w IH]; [by destruct s | done].
Qed.

Lemma expect_other c d s : c ≠ d → expect (String c "") (String d s) = None.
Proof.
  intros Hcd. unfold expect. destruct (HasPrefix _ _) eqn:E; [|done].
  apply HasPrefix_spec in E as [t Ht]. by injection Ht.
Qed.

Lemma read_string_quote s rest : read_string (quote s +:+ rest) = Some (to_utf8 0 s, rest).
Proof.
  unfold read_string, quote. change (String dquote ?x +:+ ?y) with (String dquote "" +:+ (x +:+ y)).
  rewrite expect_app. simpl. rewrite <-(assoc_L String.append). apply unquote_escape.
Qed.

(** Lists of items, given that each is read back before anything but a digit. *)
Section Items.
  Context {A B} (item : string → option (A * string)) (show : B → string) (f : B → A).
  Context (close : ascii) (Hcomma : close ≠ ","%char) (Hdigit : is_digit close = false).

Lemma read_items_join l fuel rest :
  l ≠ [] → length l ≤ fuel →
  (∀ x rest', x ∈ l → no_digit rest' → item (show x +:+ rest') = Some (f x, rest')) →
  read_items item close fuel (Join (map show l) "," +:+ String close rest) = Some (map f l, rest).
Proof.
  revert fuel. induction l as [|x l IH]; intros [|fuel] Hne Hf Hi; simpl in Hf; [done | done | lia |].
  destruct l as [|y l].
  - simpl. rewrite Hi by (first [left | exact Hdigit]).
    rewrite bool_decide_eq_false_2 by done. by rewrite bool_decide_eq_true_2.
  - change (Join (map show (x :: y :: l)) ",") with (show x +:+ ("," +:+ Join (map show (y :: l)) ",")).
    rewrite <-!(assoc_L String.append). cbn [read_items].
    rewrite Hi by (first [left | reflexivity]). cbn [String.append].
    rewrite bool_decide_eq_true_2 by done.
    rewrite IH; [done | done | simpl in *; lia | intros; apply Hi; [by right | done]].
Qed.

Lemma read_seq_join l fuel rest :
  length l ≤ fuel →
  (∀ x rest', x ∈ l → no_digit rest' → item (show x +:+ rest') = Some (f x, rest')) →
  (∀ x, x ∈ l → ∃ c s, show x = String c s ∧ c ≠ close) →
  read_seq item close fuel (Join (map show l) "," +:+ String close rest) = Some (map f l, rest).
Proof.
  intros Hf Hi Hh. unfold read_seq. destruct l as [|x l].
  { change (String close rest) with (String close "" +:+ rest). simpl Join.
    rewrite str_app_nil_l. by rewrite expect_app. }
  destruct (Hh x ltac:(left)) as (c & s & Hx & Hc).
  assert (∃ s', Join (map show (x :: l)) "," +:+ String close rest = String c s') as [s' Hs'].
  { destruct l; simpl; rewrite Hx; simpl; eauto. }
  rewrite Hs', expect_other, <-Hs' by done. by apply read_items_join.
Qed.

End Items.

Lemma json_print_head j : ∃ c s, json_print j = String c s ∧ c ≠ "]"%char.
Proof.
  destruct j as [|[]|z|s|l|l]; [by eexists _, _.. | | by eexists _, _ | by eexists _, _ | by eexists _, _].
  destruct (Itoa_head z) as (c & s & Hcs & Hc). exists c, s. split; [done|]. by intros ->; destruct Hc.
Qed.

Lemma read_member_print value m rest :
  (∀ rest', no_digit rest' → value (json_print m.2 +:+ rest') = Some (json_utf8 m.2, rest')) →
  no_digit rest →
  read_member value (json_member json_print m +:+ rest)
  = Some ((to_utf8 0 m.1, json_utf8 m.2), rest).
Proof.
  intros Hv Hr. unfold read_member, json_member. rewrite <-!(assoc_L String.append).
  rewrite read_string_quote. cbn [mbind option_bind]. rewrite expect_app.
  cbn [mbind option_bind]. by rewrite Hv.
Qed.

(** A number is told from the other values by its first byte. *)
Lemma json_read_int fuel z rest :
  no_digit rest → json_read (S fuel) (Itoa z +:+ rest) = Some (JInt z, rest).
Proof.
  intros Hr. pose proof (read_int_Itoa z rest Hr) as Hi.
  destruct (Itoa_head z) as (c & s & Hcs & Hc). rewrite Hcs in Hi |- *.
  change (String c s +:+ rest) with (String c (s +:+ rest)) in Hi |- *. cbn [json_read].
  rewrite !bool_decide_eq_false_2 by (intros ->; by destruct Hc). by rewrite Hi.
Qed.

Lemma read_word_app w j rest : read_word w j (w +:+ rest) = Some (j, rest).
Proof. unfold read_word. by rewrite expect_app. Qed.

Lemma json_read_print j fuel rest :
  json_size j ≤ fuel → no_digit rest →
  json_read fuel (json_print j +:+ rest) = Some (json_utf8 j, rest).
Proof.
  revert fuel rest. induction j as [|b|z|s|l IH|l IH] using json_ind_nested;
    intros [|fuel] rest Hf Hr; simpl in Hf; try lia.
  - exact (read_word_app "null" JNull rest).
  - destruct b; [exact (read_word_app "true" _ rest) | exact (read_word_app "false" _ rest)].
  - by apply json_read_int.
  - simpl. rewrite <-(assoc_L String.append).
    change (String dquote "" +:+ rest) with (String dquote rest). by rewrite unquote_escape.
  - rewrite Forall_forall in IH.
    change (json_print (JArray l) +:+ rest)
      with (String "["%char ((Join (map json_print l) "," +:+ "]") +:+ rest)).
    rewrite <-(assoc_L String.append). cbn [json_read].
    change ("]" +:+ rest) with (String "]"%char rest).
    rewrite (read_seq_join _ json_print json_utf8); [done | done | done | | |].
    + pose proof (sum_list_with_length json_size l json_size_pos). lia.
    + intros x rest' Hx Hr'. apply IH; [done | | done].
      pose proof (sum_list_with_elem json_size l x Hx). lia.
    + intros x _. apply json_print_head.
  - rewrite Forall_forall in IH.
    change (json_print (JObject l) +:+ rest)
      with (String "{"%char ((Join (map (json_member json_print) l) "," +:+ "}") +:+ rest)).
    rewrite <-(assoc_L String.append). cbn [json_read].
    change ("}" +:+ rest) with (String "}"%char rest).
    rewrite (read_seq_join _ (json_member json_print) (λ m, (to_utf8 0 m.1, json_utf8 m.2)));
      [done | done | done | | |].
    + pose proof (sum_list_with_length (λ m : string * json, json_size m.2) l
        (λ m, json_size_pos m.2)). lia.
    + intros x rest' Hx Hr'. apply read_member_print; [|done]. intros rest'' Hr''.
      apply IH; [done | | done].
      pose proof (sum_list_with_elem (λ m : string * json, json_size m.2) l x Hx). simpl in *. lia.
    + intros x _. by eexists _, _.
Qed.

(** A text is at least as long as its document has parts. *)
Lemma Join_length {A} (show : A → string) (size : A → nat) l :
  (∀ x, x ∈ l → size x ≤ String.length (show x)) →
  sum_list_with size l ≤ String.length (Join (map show l) ",").
Proof.
  induction l as [|x l IH]; intros Hs; [simpl; lia|]. pose proof (Hs x ltac:(left)).
  destruct l as [|y l]; [simpl; lia|].
  change (Join (map show (x :: y :: l)) ",") with (show x +:+ ("," +:+ Join (map show (y :: l)) ",")).
  rewrite !str_length_app. specialize (IH ltac:(intros; apply Hs; by right)). simpl in *. lia.
Qed.

Lemma json_size_length j : json_size j ≤ String.length (json_print j).
Proof.
  induction j as [|b|z|s|l IH|l IH] using json_ind_nested; simpl.
  - lia.
  - destruct b; simpl; lia.
  - destruct (Itoa_head z) as (c & s & -> & _). simpl. lia.
  - lia.
  - rewrite Forall_forall in IH. pose proof (Join_length json_print json_size l IH).
    rewrite str_length_app. lia.
  - rewrite Forall_forall in IH. rewrite str_length_app.
    pose proof (Join_length (json_member json_print) (λ m, json_size m.2) l) as H.
    enough (∀ x, x ∈ l → json_size x.2 ≤ String.length (json_member json_print x)) by intuition lia.
    intros x Hx. unfold json_member. rewrite !str_length_app. specialize (IH x Hx). simpl in *. lia.
Qed.

(** What the encoder writes is read back, up to the bytes that are not UTF-8. *)
Lemma json_parse_encode j : json_parse (json_encode j) = Some (json_utf8 j).
Proof.
  unfold json_parse, json_encode. rewrite json_read_print; [done| |done].
  pose proof (json_size_length j). rewrite str_length_app. lia.
Qed.

(** A document all of whose strings are UTF-8 is read back as it is. *)
Fixpoint json_valid (j : json) : bool :=
  match j with
  | JString s => valid_utf8 s
  | JArray l => forallb json_valid l
  | JObject l => forallb (λ m, valid_utf8 m.1 && json_valid m.2) l
  | _ => true
  end.

Lemma valid_utf8_id s : valid_utf8 s = true → to_utf8 0 s = s.
Proof. apply bool_decide_eq_true_1. Qed.

Lemma map_id_on {A} (f : A → A) l : (∀ x, x ∈ l → f x = x) → map f l = l.
Proof.
  induction l as [|x l IH]; intros Hf; [done|]. simpl.
  rewrite (Hf x) by left. rewrite IH; [done|]. intros. apply Hf. by right.
Qed.

Lemma json_valid_id j : json_valid j = true → json_utf8 j = j.
Proof.
  induction j as [|b|z|s|l IH|l IH] using json_ind_nested; simpl; try done.
  - by intros ->%valid_utf8_id.
  - rewrite forallb_forall, Forall_forall in *. intros Hv. f_equal. apply map_id_on.
    intros x Hx. apply IH; [done|]. by apply Hv, list_elem_of_In.
  - rewrite forallb_forall, Forall_forall in *. intros Hv. f_equal. apply map_id_on.
    intros [k j] Hx. pose proof (Hv _ (proj1 (list_elem_of_In _ _) Hx)) as [Hk Hj]%andb_true_iff.
    simpl in *. rewrite (valid_utf8_id k Hk). f_equal. by apply (IH _ Hx).
Qed.

Lemma json_parse_valid j : json_valid j = true → json_parse (json_encode j) = Some j.
Proof. intros Hv. by rewrite json_parse_encode, json_valid_id. Qed.
