(* ===== verification/Config.v ===== *)
(** internal/config/config.go and the defaulting half of load.go: the
    configuration structs, their defaults, and what [applyServerDefaults] and
    [applyClientDefaults] make of a configuration read from a file.  A Go [int]
    or [time.Duration] field is a [Z]; durations are in nanoseconds. *)

From S2P Require Import Prelude GoStrings.

(** ** Constants of the pollmux module, which is not part of the repository *)

Class PollmuxConsts := {
  PollModeBatch : string;
  PollModeStream : string;
  DefaultHeartbeatInterval : Z;
  DefaultStreamMaxDuration : Z;
  DefaultResumeGrace : Z;
  MaxResumeGrace : Z;
  DefaultMaxReplayBytes : Z;
  DefaultMaxDetachedResumable : Z
}.

(** What the code relies on: the modes are two different nonempty words and the
    defaults pass the validation of the program that uses them. *)
Class PollmuxConstsOk `{PollmuxConsts} : Prop := {
  batch_nonempty : PollModeBatch ≠ "";
  stream_nonempty : PollModeStream ≠ "";
  batch_not_stream : PollModeBatch ≠ PollModeStream;
  resume_grace_pos : (0 < DefaultResumeGrace)%Z;
  resume_grace_max : (DefaultResumeGrace ≤ MaxResumeGrace)%Z;
  replay_bytes_pos : (0 < DefaultMaxReplayBytes)%Z
}.

(** ** [time] units *)

Definition Millisecond : Z := 1000000.
Definition Second : Z := 1000000000.
Definition Minute : Z := 60 * Second.

(** ** Structs *)

Record TLSConfig := mkTLSConfig {
  tls_CacheDir : string;
  tls_Email : string;
  tls_Disable : bool
}.

Record TunnelConfig := mkTunnelConfig {
  tn_PollTimeout : Z;
  tn_SessionTimeout : Z;
  tn_SweepInterval : Z;
  tn_CoalesceWindow : Z;
  tn_PollBufferSize : Z;
  tn_MaxSendBytes : Z;
  tn_HighWaterWarn : Z;
  tn_PollMode : string;
  tn_HeartbeatInterval : Z;
  tn_StreamMaxDuration : Z;
  tn_EnableWebSocket : bool;
  tn_EnableResume : bool;
  tn_ResumeGrace : Z;
  tn_MaxReplayBytes : Z;
  tn_MaxDetachedResumable : Z;
  tn_MaxStreamsPerTunnel : Z;
  tn_SupersedeDrainTimeout : Z
}.

Record ProxyConfig := mkProxyConfig {
  px_ResponseHeaderTimeout : Z;
  px_ReadHeaderTimeout : Z;
  px_MaxHeaderBytes : Z
}.

Record ClientBinding := mkClientBinding {
  cb_ClientID : string;
  cb_Subdomain : string;
  cb_PathPrefix : string;
  cb_StripPrefix : bool;
  cb_TokenFile : string;
  cb_Token : string;
  cb_MaxClients : Z
}.

Record StatusConfig := mkStatusConfig {
  st_Enabled : bool;
  st_Listen : string
}.

Record LoggingConfig := mkLoggingConfig {
  lg_Level : string
}.

Record ServerConfig := mkServerConfig {
  sc_PublicListen : string;
  sc_HTTPListen : string;
  sc_RootDomain : string;
  sc_ControlPath : string;
  sc_DevListen : string;
  sc_TLS : TLSConfig;
  sc_Tunnel : TunnelConfig;
  sc_Proxy : ProxyConfig;
  sc_Clients : list ClientBinding;
  sc_Status : StatusConfig;
  sc_Logging : LoggingConfig
}.

Record ServerRef := mkServerRef {
  sr_URL : string;
  sr_Token : string;
  sr_TokenFile : string;
  sr_ControlPath : string;
  sr_InsecureSkipVerify : bool
}.

Record LocalConfig := mkLocalConfig {
  lc_Target : string;
  lc_HostRewrite : string
}.

Record TransportConfig := mkTransportConfig {
  tr_PollInterval : Z;
  tr_PollGrace : Z;
  tr_SendTimeout : Z;
  tr_DialTimeout : Z;
  tr_CoalesceWindow : Z;
  tr_MaxSendChunk : Z;
  tr_PreferStream : bool;
  tr_UploadStreamPreference : string;
  tr_UploadProbeTimeout : Z;
  tr_PreferWebSocket : bool;
  tr_PreferResume : bool;
  tr_MaxReplayBytes : Z
}.

Record HealthConfig := mkHealthConfig {
  hc_Enabled : bool;
  hc_Mode : string;
  hc_Path : string;
  hc_Interval : Z;
  hc_Timeout : Z
}.

(** [Server] and [Health] are pointers, nil when the YAML omits the block. *)
Record ServiceEntry := mkServiceEntry {
  se_ClientID : string;
  se_TokenFile : string;
  se_Token : string;
  se_Local : LocalConfig;
  se_Server : option ServerRef;
  se_Health : option HealthConfig
}.

Record MultiClientConfig := mkMultiClientConfig {
  mc_Server : ServerRef;
  mc_Transport : TransportConfig;
  mc_Health : HealthConfig;
  mc_Logging : LoggingConfig;
  mc_Services : list ServiceEntry
}.

Record ClientConfig := mkClientConfig {
  cc_ClientID : string;
  cc_Server : ServerRef;
  cc_Local : LocalConfig;
  cc_Transport : TransportConfig;
  cc_Health : HealthConfig;
  cc_Logging : LoggingConfig
}.

(** Assignments to one field. *)
Definition set_ControlPath (p : string) (c : ServerConfig) : ServerConfig :=
  mkServerConfig (sc_PublicListen c) (sc_HTTPListen c) (sc_RootDomain c) p (sc_DevListen c)
    (sc_TLS c) (sc_Tunnel c) (sc_Proxy c) (sc_Clients c) (sc_Status c) (sc_Logging c).

Definition set_Clients (l : list ClientBinding) (c : ServerConfig) : ServerConfig :=
  mkServerConfig (sc_PublicListen c) (sc_HTTPListen c) (sc_RootDomain c) (sc_ControlPath c)
    (sc_DevListen c) (sc_TLS c) (sc_Tunnel c) (sc_Proxy c) l (sc_Status c) (sc_Logging c).

Definition set_cb_Token (t : string) (b : ClientBinding) : ClientBinding :=
  mkClientBinding (cb_ClientID b) (cb_Subdomain b) (cb_PathPrefix b) (cb_StripPrefix b)
    (cb_TokenFile b) t (cb_MaxClients b).

Definition set_cb_MaxClients (n : Z) (b : ClientBinding) : ClientBinding :=
  mkClientBinding (cb_ClientID b) (cb_Subdomain b) (cb_PathPrefix b) (cb_StripPrefix b)
    (cb_TokenFile b) (cb_Token b) n.

Definition set_se_Token (t : string) (s : ServiceEntry) : ServiceEntry :=
  mkServiceEntry (se_ClientID s) (se_TokenFile s) t (se_Local s) (se_Server s) (se_Health s).

Definition set_sr_Token (t : string) (s : ServerRef) : ServerRef :=
  mkServerRef (sr_URL s) t (sr_TokenFile s) (sr_ControlPath s) (sr_InsecureSkipVerify s).

Definition set_cc_Server (s : ServerRef) (c : ClientConfig) : ClientConfig :=
  mkClientConfig (cc_ClientID c) s (cc_Local c) (cc_Transport c) (cc_Health c) (cc_Logging c).

(** Zero values, which a field keeps when nothing sets it. *)
Definition zero_TLS : TLSConfig := mkTLSConfig "" "" false.
Definition zero_ServerRef : ServerRef := mkServerRef "" "" "" "" false.
Definition zero_Local : LocalConfig := mkLocalConfig "" "".
Definition zero_Health : HealthConfig := mkHealthConfig false "" "" 0 0.

(** [if x == "" { x = d }] and [if x == 0 { x = d }]. *)
Definition or_str (x d : string) : string := if bool_decide (x = "") then d else x.
Definition or_int (x d : Z) : Z := if bool_decide (x = 0%Z) then d else x.

Section Defaults.
  Context `{PollmuxConsts}.

Definition Defaults : ServerConfig := {|
  sc_PublicListen := ":443";
  sc_HTTPListen := ":80";
  sc_RootDomain := "";
  sc_ControlPath := "/tunnel";
  sc_DevListen := ":8443";
  sc_TLS := zero_TLS;
  sc_Tunnel := {|
    tn_PollTimeout := 30 * Second;
    tn_SessionTimeout := 60 * Second;
    tn_SweepInterval := 5 * Second;
    tn_CoalesceWindow := 2 * Millisecond;
    tn_PollBufferSize := Z.shiftl 256 10;
    tn_MaxSendBytes := Z.shiftl 1 20;
    tn_HighWaterWarn := 0;
    tn_PollMode := PollModeBatch;
    tn_HeartbeatInterval := DefaultHeartbeatInterval;
    tn_StreamMaxDuration := DefaultStreamMaxDuration;
    tn_EnableWebSocket := false;
    tn_EnableResume := true;
    tn_ResumeGrace := DefaultResumeGrace;
    tn_MaxReplayBytes := DefaultMaxReplayBytes;
    tn_MaxDetachedResumable := DefaultMaxDetachedResumable;
    tn_MaxStreamsPerTunnel := 256;
    tn_SupersedeDrainTimeout := 10 * Minute
  |};
  sc_Proxy := {|
    px_ResponseHeaderTimeout := 60 * Second;
    px_ReadHeaderTimeout := 10 * Second;
    px_MaxHeaderBytes := 65536
  |};
  sc_Clients := [];
  sc_Status := {| st_Enabled := false; st_Listen := "127.0.0.1:9090" |};
  sc_Logging := {| lg_Level := "info" |}
|}.

Definition DefaultClient : ClientConfig := {|
  cc_ClientID := "";
  cc_Server := zero_ServerRef;
  cc_Local := zero_Local;
  cc_Transport := {|
    tr_PollInterval := 0;
    tr_PollGrace := 10 * Second;
    tr_SendTimeout := 15 * Second;
    tr_DialTimeout := 10 * Second;
    tr_CoalesceWindow := 2 * Millisecond;
    tr_MaxSendChunk := Z.shiftl 512 10;
    tr_PreferStream := false;
    tr_UploadStreamPreference := "";
    tr_UploadProbeTimeout := 0;
    tr_PreferWebSocket := false;
    tr_PreferResume := true;
    tr_MaxReplayBytes := DefaultMaxReplayBytes
  |};
  cc_Health := {|
    hc_Enabled := true;
    hc_Mode := "tcp";
    hc_Path := "/healthz";
    hc_Interval := 15 * Second;
    hc_Timeout := 3 * Second
  |};
  cc_Logging := {| lg_Level := "info" |}
|}.

(** ** [applyServerDefaults], [applyClientDefaults] *)

Definition apply_max_clients (b : ClientBinding) : ClientBinding :=
  if bool_decide (cb_MaxClients b = 0%Z) then set_cb_MaxClients 1 b else b.

Definition applyTunnelDefaults (t d : TunnelConfig) : TunnelConfig := {|
  tn_PollTimeout := or_int (tn_PollTimeout t) (tn_PollTimeout d);
  tn_SessionTimeout := or_int (tn_SessionTimeout t) (tn_SessionTimeout d);
  tn_SweepInterval := or_int (tn_SweepInterval t) (tn_SweepInterval d);
  tn_CoalesceWindow := or_int (tn_CoalesceWindow t) (tn_CoalesceWindow d);
  tn_PollBufferSize := or_int (tn_PollBufferSize t) (tn_PollBufferSize d);
  tn_MaxSendBytes := or_int (tn_MaxSendBytes t) (tn_MaxSendBytes d);
  tn_HighWaterWarn := tn_HighWaterWarn t;
  tn_PollMode := or_str (tn_PollMode t) (tn_PollMode d);
  tn_HeartbeatInterval := or_int (tn_HeartbeatInterval t) (tn_HeartbeatInterval d);
  tn_StreamMaxDuration := or_int (tn_StreamMaxDuration t) (tn_StreamMaxDuration d);
  tn_EnableWebSocket := tn_EnableWebSocket t;
  tn_EnableResume := tn_EnableResume t;
  tn_ResumeGrace := or_int (tn_ResumeGrace t) (tn_ResumeGrace d);
  tn_MaxReplayBytes := or_int (tn_MaxReplayBytes t) (tn_MaxReplayBytes d);
  tn_MaxDetachedResumable := tn_MaxDetachedResumable t;
  tn_MaxStreamsPerTunnel := or_int (tn_MaxStreamsPerTunnel t) (tn_MaxStreamsPerTunnel d);
  tn_SupersedeDrainTimeout := tn_SupersedeDrainTimeout t
|}.

Definition applyServerDefaults (c : ServerConfig) : ServerConfig :=
  let d := Defaults in {|
  sc_PublicListen := or_str (sc_PublicListen c) (sc_PublicListen d);
  sc_HTTPListen := or_str (sc_HTTPListen c) (sc_HTTPListen d);
  sc_RootDomain := sc_RootDomain c;
  sc_ControlPath := or_str (sc_ControlPath c) (sc_ControlPath d);
  sc_DevListen := or_str (sc_DevListen c) (sc_DevListen d);
  sc_TLS := sc_TLS c;
  sc_Tunnel := applyTunnelDefaults (sc_Tunnel c) (sc_Tunnel d);
  sc_Proxy := {|
    px_ResponseHeaderTimeout :=
      or_int (px_ResponseHeaderTimeout (sc_Proxy c)) (px_ResponseHeaderTimeout (sc_Proxy d));
    px_ReadHeaderTimeout :=
      or_int (px_ReadHeaderTimeout (sc_Proxy c)) (px_ReadHeaderTimeout (sc_Proxy d));
    px_MaxHeaderBytes := or_int (px_MaxHeaderBytes (sc_Proxy c)) (px_MaxHeaderBytes (sc_Proxy d))
  |};
  sc_Clients := map apply_max_clients (sc_Clients c);
  sc_Status := {|
    st_Enabled := st_Enabled (sc_Status c);
    st_Listen := or_str (st_Listen (sc_Status c)) (st_Listen (sc_Status d))
  |};
  sc_Logging := {| lg_Level := or_str (lg_Level (sc_Logging c)) (lg_Level (sc_Logging d)) |}
|}.

Definition applyClientDefaults (c : ClientConfig) : ClientConfig :=
  let d := DefaultClient in
  let t := cc_Transport c in let td := cc_Transport d in
  let h := cc_Health c in let hd := cc_Health d in {|
  cc_ClientID := cc_ClientID c;
  cc_Server := cc_Server c;
  cc_Local := cc_Local c;
  cc_Transport := {|
    tr_PollInterval := tr_PollInterval t;
    tr_PollGrace := or_int (tr_PollGrace t) (tr_PollGrace td);
    tr_SendTimeout := or_int (tr_SendTimeout t) (tr_SendTimeout td);
    tr_DialTimeout := or_int (tr_DialTimeout t) (tr_DialTimeout td);
    tr_CoalesceWindow := or_int (tr_CoalesceWindow t) (tr_CoalesceWindow td);
    tr_MaxSendChunk := or_int (tr_MaxSendChunk t) (tr_MaxSendChunk td);
    tr_PreferStream := tr_PreferStream t;
    tr_UploadStreamPreference := tr_UploadStreamPreference t;
    tr_UploadProbeTimeout := tr_UploadProbeTimeout t;
    tr_PreferWebSocket := tr_PreferWebSocket t;
    tr_PreferResume := tr_PreferResume t;
    tr_MaxReplayBytes := or_int (tr_MaxReplayBytes t) (tr_MaxReplayBytes td)
  |};
  cc_Health := {|
    hc_Enabled := hc_Enabled h;
    hc_Mode := or_str (hc_Mode h) (hc_Mode hd);
    hc_Path := or_str (hc_Path h) (hc_Path hd);
    hc_Interval := or_int (hc_Interval h) (hc_Interval hd);
    hc_Timeout := or_int (hc_Timeout h) (hc_Timeout hd)
  |};
  cc_Logging := {| lg_Level := or_str (lg_Level (cc_Logging c)) (lg_Level (cc_Logging d)) |}
|}.

(** ** [ServerConfig.PollmuxServerConfig]: the fields of [pollmux.ServerConfig] it sets *)

Record PollmuxConfig := mkPollmuxConfig {
  pm_PollTimeout : Z;
  pm_SessionTimeout : Z;
  pm_SweepInterval : Z;
  pm_CoalesceWindow : Z;
  pm_PollBufferSize : Z;
  pm_MaxSendBytes : Z;
  pm_HighWaterWarn : Z;
  pm_PollMode : string;
  pm_HeartbeatInterval : Z;
  pm_StreamMaxDuration : Z;
  pm_EnableWebSocket : bool;
  pm_EnableResume : bool;
  pm_ResumeGrace : Z;
  pm_MaxReplayBytes : Z;
  pm_MaxDetachedResumable : Z
}.

Definition PollmuxServerConfig (c : ServerConfig) : PollmuxConfig :=
  let t := sc_Tunnel c in {|
  pm_PollTimeout := tn_PollTimeout t;
  pm_SessionTimeout := tn_SessionTimeout t;
  pm_SweepInterval := tn_SweepInterval t;
  pm_CoalesceWindow := tn_CoalesceWindow t;
  pm_PollBufferSize := tn_PollBufferSize t;
  pm_MaxSendBytes := tn_MaxSendBytes t;
  pm_HighWaterWarn := tn_HighWaterWarn t;
  pm_PollMode := or_str (tn_PollMode t) PollModeBatch;
  pm_HeartbeatInterval := tn_HeartbeatInterval t;
  pm_StreamMaxDuration := tn_StreamMaxDuration t;
  pm_EnableWebSocket := tn_EnableWebSocket t;
  pm_EnableResume := tn_EnableResume t;
  pm_ResumeGrace := tn_ResumeGrace t;
  pm_MaxReplayBytes := tn_MaxReplayBytes t;
  pm_MaxDetachedResumable := tn_MaxDetachedResumable t
|}.

End Defaults.

(** A concrete pollmux for evaluating examples. *)
Definition example_consts : PollmuxConsts := {|
  PollModeBatch := "batch";
  PollModeStream := "stream";
  DefaultHeartbeatInterval := 15 * Second;
  DefaultStreamMaxDuration := 300 * Second;
  DefaultResumeGrace := 30 * Second;
  MaxResumeGrace := 300 * Second;
  DefaultMaxReplayBytes := Z.shiftl 1 20;
  DefaultMaxDetachedResumable := 64
|}.

Lemma example_consts_ok : @PollmuxConstsOk example_consts.
Proof. by constructor. Qed.

(** ** Defaulting *)

Lemma or_str_idem x d : or_str (or_str x d) d = or_str x d.
Proof. unfold or_str. by repeat case_bool_decide. Qed.

Lemma or_int_idem x d : or_int (or_int x d) d = or_int x d.
Proof. unfold or_int. by repeat case_bool_decide. Qed.

Lemma or_str_set x d : x ≠ "" → or_str x d = x.
Proof. unfold or_str. by case_bool_decide. Qed.

Lemma or_int_set x d : x ≠ 0%Z → or_int x d = x.
Proof. unfold or_int. by case_bool_decide. Qed.

Lemma or_str_nonempty x d : d ≠ "" → or_str x d ≠ "".
Proof. unfold or_str. by case_bool_decide. Qed.

Lemma or_int_nonzero x d : d ≠ 0%Z → or_int x d ≠ 0%Z.
Proof. unfold or_int. by case_bool_decide. Qed.

Create HintDb defaults discriminated.
Create Rewrite HintDb defaults_rw.
#[export] Hint Rewrite or_str_idem or_int_idem : defaults_rw.
#[export] Hint Resolve or_str_nonempty or_int_nonzero : defaults.

Lemma apply_max_clients_idem b : apply_max_clients (apply_max_clients b) = apply_max_clients b.
Proof.
  destruct b as [i s p st f t n]. unfold apply_max_clients. simpl.
  destruct (decide (n = 0%Z)) as [->|Hn]; [done|].
  by rewrite !(bool_decide_eq_false_2 (n = 0%Z)) by done.
Qed.
