(* ===== verification/ControlPath.v ===== *)
(** internal/config/control_path.go and the path-prefix helper of load.go: the
    canonical form of the control-plane prefix and of a binding's path prefix,
    and the check that keeps the two apart. *)

From S2P Require Import Prelude GoStrings GoPath Config.

(** The errors of the configuration package, one constructor per message. *)
Inductive cfg_error :=
| EControlPathRoot
| EControlPathConflict (control_path prefix client_id : string)
| ERootDomainRequired
| ESessionTimeout (session_timeout poll_timeout : Z)
| EPollMode (poll_mode : string)
| EStreamMaxDuration (stream_max heartbeat : Z)
| EResumeGrace (grace : Z)
| EMaxReplayBytes
| ENoClients
| EBindingClientID
| ERequiresTokenFile (client_id : string)
| EDuplicateClientID (client_id : string)
| ETokenTooShort (client_id : string)
| EDuplicateToken (other client_id : string)
| EDuplicateRoute (subdomain prefix : string)
| EPathPrefixSlash (client_id : string)
| EPrefixConflict (host a b : string)
| EClientIDRequired
| EServerURLRequired
| EServerTokenRequired
| EServerTokenShort
| ELocalTargetRequired
| EHealthMode
| EUploadStreamPreference (pref : string)
| ETokenFileRead (path : string)
| ETokenFileEmpty (path : string)
| EServiceTokenFile (client_id : string)
| ETokenFileRequired
| EServicesEmpty
| EServiceClientID
| EDuplicateService (client_id : string)
| EService (client_id : string) (err : cfg_error)
| EReadConfig (msg : string)
| EParseConfig (msg : string).

(** ** [normalizePathPrefix] (load.go) *)

Definition normalizePathPrefix (p : string) : string :=
  if bool_decide (p = "") then ""
  else let cleaned := Clean p in
       if bool_decide (cleaned = "/") then "/" else TrimSuffix cleaned "/".

(** ** control_path.go *)

Definition defaultControlPath : string := "/tunnel".

Definition validateControlPath (p : string) : result cfg_error string :=
  if bool_decide (p = "") then Ok defaultControlPath
  else
    let cleaned := Clean p in
    let cleaned := if HasPrefix cleaned "/" then cleaned else "/" +:+ cleaned in
    if bool_decide (cleaned = "/") then Err EControlPathRoot
    else Ok (TrimSuffix cleaned "/").

Definition NormalizeControlPath (p : string) : string :=
  match validateControlPath p with
  | Err _ => defaultControlPath
  | Ok normalized => normalized
  end.

(** The test of the loop body: a binding's prefix meets the control path. *)
Definition control_conflict (controlPath pp : string) : bool :=
  bool_decide (pp = controlPath)
  || HasPrefix controlPath (pp +:+ "/")
  || HasPrefix pp (controlPath +:+ "/").

Fixpoint validateControlPathNotConflicting (controlPath : string)
    (clients : list ClientBinding) : result cfg_error unit :=
  match clients with
  | [] => Ok tt
  | cb :: rest =>
      let pp := normalizePathPrefix (cb_PathPrefix cb) in
      if bool_decide (pp = "") then validateControlPathNotConflicting controlPath rest
      else if control_conflict controlPath pp
      then Err (EControlPathConflict controlPath pp (cb_ClientID cb))
      else validateControlPathNotConflicting controlPath rest
  end.

(** ** Canonical prefixes *)

(** A canonical prefix: empty, the root, or a cleaned rooted path. *)
Definition canonical_prefix (p : string) : Prop :=
  p = "" ∨ ∃ segs, Forall plain_seg segs ∧ p = abs_path segs.

Lemma abs_path_root segs : Forall plain_seg segs → abs_path segs = "/" ↔ segs = [].
Proof.
  intros Hs. split; [|by intros ->].
  intros H. destruct segs as [|s segs]; [done|]. exfalso.
  apply Forall_cons in Hs as [Hs _]. apply (f_equal String.length) in H.
  rewrite abs_path_segs_str in H by done. simpl in H. rewrite str_length_app in H.
  pose proof (plain_length s Hs). lia.
Qed.

Lemma normalizePathPrefix_abs segs :
  Forall plain_seg segs → normalizePathPrefix (abs_path segs) = abs_path segs.
Proof.
  intros Hs. unfold normalizePathPrefix. rewrite bool_decide_eq_false_2 by done.
  rewrite Clean_abs by done. case_bool_decide as Hr; [done|].
  apply TrimSuffix_abs; [done|]. intros ->. done.
Qed.

Lemma normalizePathPrefix_rooted p :
  is_rooted p = true → normalizePathPrefix p = abs_path (clean_segs true p).
Proof.
  intros Hr. pose proof (clean_segs_plain p) as Hs.
  rewrite <- (normalizePathPrefix_abs (clean_segs true p)) by done.
  unfold normalizePathPrefix. rewrite <- Clean_rooted by done.
  rewrite Clean_idem_rooted by done.
  apply is_rooted_spec in Hr as [q ->]. rewrite bool_decide_eq_false_2 by done.
  rewrite Clean_rooted by (by apply is_rooted_spec; eexists). done.
Qed.

Lemma normalizePathPrefix_canonical p :
  p = "" ∨ is_rooted p = true → canonical_prefix (normalizePathPrefix p).
Proof.
  intros [->|Hr]; [by left|]. right. rewrite normalizePathPrefix_rooted by done.
  eexists. split; [apply clean_segs_plain | done].
Qed.

Lemma normalizePathPrefix_id p : canonical_prefix p → normalizePathPrefix p = p.
Proof. intros [->|(segs & Hs & ->)]; [done | by apply normalizePathPrefix_abs]. Qed.

Lemma validateControlPath_rooted p :
  is_rooted p = true →
  validateControlPath p =
    if bool_decide (clean_segs true p = []) then Err EControlPathRoot
    else Ok (abs_path (clean_segs true p)).
Proof.
  intros Hr. pose proof (clean_segs_plain p) as Hs. unfold validateControlPath.
  rewrite bool_decide_eq_false_2 by (by apply is_rooted_spec in Hr as [q ->]).
  rewrite Clean_rooted by done. fold (is_rooted (abs_path (clean_segs true p))).
  rewrite is_rooted_abs.
  rewrite (bool_decide_ext _ _ (abs_path_root _ Hs)).
  case_bool_decide; [done|]. by rewrite TrimSuffix_abs.
Qed.

Lemma validateControlPath_abs segs :
  Forall plain_seg segs → segs ≠ [] → validateControlPath (abs_path segs) = Ok (abs_path segs).
Proof.
  intros Hs Hne. rewrite validateControlPath_rooted by apply is_rooted_abs.
  rewrite clean_segs_abs by done. by rewrite bool_decide_eq_false_2.
Qed.

(** For the paths operators write (empty, or starting with a slash) validation
    yields a cleaned rooted path other than the root. *)
Lemma validateControlPath_ok_shape p cp :
  p = "" ∨ is_rooted p = true → validateControlPath p = Ok cp →
  ∃ segs, Forall plain_seg segs ∧ segs ≠ [] ∧ cp = abs_path segs.
Proof.
  intros [->|Hr].
  - intros [= <-]. exists ["tunnel"]. repeat split; try done.
    repeat constructor; done.
  - rewrite validateControlPath_rooted by done. case_bool_decide as Hs; [done|].
    intros [= <-]. eauto using clean_segs_plain.
Qed.

(** ** Properties *)

(** Validating a control path given as an absolute path
    (or left empty) fixes it: the server's own [NormalizeControlPath] of the
    validated path, and a second validation, give the same path. *)
Theorem control_path_stable p cp :
  p = "" ∨ is_rooted p = true → validateControlPath p = Ok cp →
  validateControlPath cp = Ok cp ∧ NormalizeControlPath cp = cp.
Proof.
  intros Hp Hv. destruct (validateControlPath_ok_shape p cp Hp Hv) as (segs & Hs & Hne & ->).
  unfold NormalizeControlPath. by rewrite validateControlPath_abs.
Qed.

Lemma control_path_stable_witness :
  validateControlPath "/hop//ctl/./" = Ok "/hop/ctl" ∧
  NormalizeControlPath "/hop/ctl" = "/hop/ctl".
Proof.
  split; [vm_compute; reflexivity|].
  apply (control_path_stable "/hop//ctl/./" "/hop/ctl").
  - right. vm_compute. reflexivity.
  - vm_compute. reflexivity.
Defined.

(** A relative control path that climbs: [../] followed by plain segments. *)
Definition climbing_path (segs : list string) : string := Join (".." :: segs) "/".

Lemma climbing_validated segs :
  Forall plain_seg segs → segs ≠ [] →
  validateControlPath (climbing_path segs) = Ok (segs_str (".." :: segs)).
Proof.
  intros Hs Hne. unfold validateControlPath, climbing_path.
  assert (Clean (Join (".." :: segs) "/") = Join (".." :: segs) "/") as ->.
  { unfold Clean. rewrite Join_cons by done.
    assert (is_rooted (".." +:+ ("/" +:+ Join segs "/")) = false) as ->
      by (apply not_true_is_false; rewrite is_rooted_spec; by intros [q ?]).
    rewrite bool_decide_eq_false_2 by done. unfold clean_segs.
    rewrite <- (Join_cons "..") by done. rewrite (Split_Join slash); [|done|].
    - simpl. change (clean_step false [] "..") with [".."].
      rewrite fold_clean_plain by done. rewrite rev_app_distr, rev_involutive.
      by destruct segs.
    - constructor; [done | by apply plain_no_slash]. }
  rewrite Join_cons by done.
  rewrite bool_decide_eq_false_2 by done.
  assert (HasPrefix (".." +:+ ("/" +:+ Join segs "/")) "/" = false) as ->
    by (apply not_true_is_false; rewrite HasPrefix_spec; by intros [q ?]).
  rewrite bool_decide_eq_false_2 by done. f_equal.
  change ("/" +:+ Join segs "/") with (abs_path segs).
  rewrite abs_path_segs_str by done. apply TrimSuffix_no.
  etransitivity; [|by apply (segs_str_no_suffix segs)].
  apply (HasSuffix_app_ge "/.."). destruct segs; [done | simpl; lia].
Qed.

Lemma climbing_normalized segs :
  Forall plain_seg segs → segs ≠ [] →
  NormalizeControlPath (segs_str (".." :: segs)) = abs_path segs.
Proof.
  intros Hs Hne. unfold NormalizeControlPath. rewrite <- abs_path_segs_str by done.
  rewrite validateControlPath_rooted by apply is_rooted_abs.
  assert (clean_segs true (abs_path (".." :: segs)) = segs) as ->.
  { unfold clean_segs, abs_path. change ("/" +:+ Join (".." :: segs) "/")
      with ("" +:+ String slash (Join (".." :: segs) "/")).
    rewrite Split_app by done. rewrite (Split_Join slash); [|done|].
    - simpl. rewrite fold_clean_plain by done. by rewrite app_nil_r, rev_involutive.
    - constructor; [done | by apply plain_no_slash]. }
  by rewrite bool_decide_eq_false_2.
Qed.

Lemma climbing_no_conflict segs :
  Forall plain_seg segs → segs ≠ [] →
  control_conflict (segs_str (".." :: segs)) (abs_path segs) = false.
Proof.
  intros Hs Hne. rewrite abs_path_segs_str by done. unfold control_conflict.
  assert (Forall no_slash segs) as Hf by by apply plain_no_slash.
  assert (Forall no_slash (".." :: segs)) as Hf' by by constructor.
  rewrite !orb_false_iff, bool_decide_eq_false. split_and!.
  - intros E. apply (f_equal String.length) in E. simpl in E.
    destruct segs; [done|]. simpl in E. lia.
  - apply not_true_is_false. rewrite segs_str_prefix by done.
    intros (x & l & E). destruct segs as [|s segs]; [done|]. injection E as Es _.
    apply Forall_cons in Hs as [(_ & _ & Hn & _) _]. by subst s.
  - apply not_true_is_false. rewrite segs_str_prefix by done.
    intros (x & l & E). apply (f_equal length) in E.
    rewrite length_app in E. simpl in E. lia.
Qed.

(** A relative control path that climbs out of the root ([../a/b]) is accepted
    by [ValidateServer]'s normalization in a form ([/../a/b]) against which no
    binding under [/a/b] conflicts, while the server, which normalizes it once
    more, serves the control plane at [/a/b] itself: the conflict check misses
    exactly the binding that owns that path. *)
Theorem climbing_control_path_escapes_check segs cb :
  Forall plain_seg segs → segs ≠ [] → cb_PathPrefix cb = abs_path segs →
  ∃ cp, validateControlPath (climbing_path segs) = Ok cp
    ∧ validateControlPathNotConflicting cp [cb] = Ok tt
    ∧ NormalizeControlPath cp = cb_PathPrefix cb.
Proof.
  intros Hs Hne Hp. exists (segs_str (".." :: segs)). split_and!.
  - by apply climbing_validated.
  - cbn [validateControlPathNotConflicting]. rewrite Hp, normalizePathPrefix_abs by done.
    rewrite bool_decide_eq_false_2 by done. by rewrite climbing_no_conflict.
  - rewrite Hp. by apply climbing_normalized.
Qed.

Lemma climbing_control_path_escapes_check_witness :
  ∃ cp, validateControlPath "../hop" = Ok cp
    ∧ validateControlPathNotConflicting cp
        [mkClientBinding "c1" "@" "/hop" true "t" "" 1] = Ok tt
    ∧ NormalizeControlPath cp = "/hop".
Proof.
  apply (climbing_control_path_escapes_check ["hop"]
           (mkClientBinding "c1" "@" "/hop" true "t" "" 1)).
  - repeat constructor; done.
  - done.
  - reflexivity.
Defined.
