(* ===== verification/Validate.v ===== *)
(** The validation half of internal/config/load.go: [ValidateServer],
    [validatePathPrefixConflicts] and [ValidateClient], the declarative
    condition each of them decides, and the proofs that they do. *)

From S2P Require Import Prelude GoStrings GoPath Config ControlPath.

(** ** [validatePathPrefixConflicts] *)

(** [entry] of the function's local struct. *)
Record prefix_entry := mkEntry { pe_prefix : string; pe_clientID : string }.

(** [byHost], built by appending one entry per binding that has a prefix. *)
Fixpoint entries_by_host (bindings : list ClientBinding)
    (m : gmap string (list prefix_entry)) : gmap string (list prefix_entry) :=
  match bindings with
  | [] => m
  | cb :: rest =>
      let p := normalizePathPrefix (cb_PathPrefix cb) in
      if bool_decide (p = "") then entries_by_host rest m
      else entries_by_host rest
             (<[cb_Subdomain cb :=
                  default [] (m !! cb_Subdomain cb) ++ [mkEntry p (cb_ClientID cb)]]> m)
  end.

(** The test of the inner loop on two entries of one host. *)
Definition prefix_conflict (a b : string) : bool :=
  HasPrefix a (b +:+ "/") || HasPrefix b (a +:+ "/") || bool_decide (a = b).

Definition entries_conflict (i j : nat) (ei ej : prefix_entry) : bool :=
  if bool_decide (i = j) || bool_decide (pe_clientID ei = pe_clientID ej) then false
  else prefix_conflict (pe_prefix ei) (pe_prefix ej).

(** The two nested loops over one host's entries, with their indices. *)
Fixpoint inner_loop (host : string) (i : nat) (ei : prefix_entry) (j : nat)
    (entries : list prefix_entry) : result cfg_error unit :=
  match entries with
  | [] => Ok tt
  | ej :: rest =>
      if entries_conflict i j ei ej
      then Err (EPrefixConflict host (pe_prefix ei) (pe_prefix ej))
      else inner_loop host i ei (S j) rest
  end.

Fixpoint outer_loop (host : string) (all : list prefix_entry) (i : nat)
    (entries : list prefix_entry) : result cfg_error unit :=
  match entries with
  | [] => Ok tt
  | ei :: rest =>
      try _ <- inner_loop host i ei 0 all ;
      outer_loop host all (S i) rest
  end.

(** [range byHost] visits the hosts in some order; which one only decides the
    conflict that is reported. *)
Definition check_hosts (hosts : list (string * list prefix_entry)) : result cfg_error unit :=
  for_each (λ _ he, outer_loop he.1 he.2 0 he.2) tt hosts.

Definition validatePathPrefixConflicts (bindings : list ClientBinding) : result cfg_error unit :=
  check_hosts (map_to_list (entries_by_host bindings ∅)).

(** ** [ValidateServer] *)

Section Validate.
  Context `{PollmuxConsts}.

(** The maps [seenClientID], [seenRoute] and [seenToken] of the loop. *)
Record seen := mkSeen {
  seenClientID : gset string;
  seenRoute : gset string;
  seenToken : gmap string string
}.

Definition no_seen : seen := mkSeen ∅ ∅ ∅.

(** [cb.Subdomain + "\x00" + normalizePathPrefix(cb.PathPrefix)]. *)
Definition routeKey (cb : ClientBinding) : string :=
  cb_Subdomain cb +:+ String (ascii_of_nat 0) (normalizePathPrefix (cb_PathPrefix cb)).

Definition validate_binding (s : seen) (cb : ClientBinding) : result cfg_error seen :=
  guard bool_decide (cb_ClientID cb = "") else EBindingClientID ;
  guard bool_decide (cb_TokenFile cb = "") && bool_decide (cb_Token cb = "")
    else ERequiresTokenFile (cb_ClientID cb) ;
  guard bool_decide (cb_ClientID cb ∈ seenClientID s)
    else EDuplicateClientID (cb_ClientID cb) ;
  guard String.length (cb_Token cb) <? 32 else ETokenTooShort (cb_ClientID cb) ;
  match seenToken s !! cb_Token cb with
  | Some other => Err (EDuplicateToken other (cb_ClientID cb))
  | None =>
      guard bool_decide (routeKey cb ∈ seenRoute s)
        else EDuplicateRoute (cb_Subdomain cb) (cb_PathPrefix cb) ;
      guard negb (bool_decide (cb_PathPrefix cb = "")) && negb (HasPrefix (cb_PathPrefix cb) "/")
        else EPathPrefixSlash (cb_ClientID cb) ;
      Ok (mkSeen ({[cb_ClientID cb]} ∪ seenClientID s) ({[routeKey cb]} ∪ seenRoute s)
            (<[cb_Token cb := cb_ClientID cb]> (seenToken s)))
  end.

(** The checks on [cfg.Tunnel]; [2*d] is a product of 64-bit durations. *)
Definition validate_tunnel (t : TunnelConfig) : result cfg_error unit :=
  guard Z.ltb (tn_SessionTimeout t) (wrap64 (2 * tn_PollTimeout t))
    else ESessionTimeout (tn_SessionTimeout t) (tn_PollTimeout t) ;
  let pollMode := or_str (tn_PollMode t) PollModeBatch in
  guard negb (bool_decide (pollMode = PollModeBatch) || bool_decide (pollMode = PollModeStream))
    else EPollMode pollMode ;
  guard bool_decide (pollMode = PollModeStream)
        && Z.ltb (tn_StreamMaxDuration t) (wrap64 (2 * tn_HeartbeatInterval t))
    else EStreamMaxDuration (tn_StreamMaxDuration t) (tn_HeartbeatInterval t) ;
  if tn_EnableResume t then
    guard Z.leb (tn_ResumeGrace t) 0 || Z.ltb MaxResumeGrace (tn_ResumeGrace t)
      else EResumeGrace (tn_ResumeGrace t) ;
    guard Z.leb (tn_MaxReplayBytes t) 0 else EMaxReplayBytes ;
    Ok tt
  else Ok tt.

(** Everything after [cfg.ControlPath] has been replaced by its canonical form. *)
Definition validate_rest (c : ServerConfig) : result cfg_error unit :=
  try _ <- validateControlPathNotConflicting (sc_ControlPath c) (sc_Clients c) ;
  try _ <- validate_tunnel (sc_Tunnel c) ;
  guard bool_decide (sc_Clients c = []) else ENoClients ;
  try _ <- for_each validate_binding no_seen (sc_Clients c) ;
  validatePathPrefixConflicts (sc_Clients c).

(** [ValidateServer(cfg *ServerConfig) error]: the configuration as the function
    leaves it, and its result. *)
Definition ValidateServer (c : ServerConfig) : ServerConfig * result cfg_error unit :=
  if bool_decide (sc_RootDomain c = "") then (c, Err ERootDomainRequired)
  else match validateControlPath (sc_ControlPath c) with
       | Err e => (c, Err e)
       | Ok p => let c' := set_ControlPath p c in (c', validate_rest c')
       end.

(** ** [ValidateClient] *)

Definition ValidateClient (c : ClientConfig) : result cfg_error unit :=
  guard bool_decide (cc_ClientID c = "") else EClientIDRequired ;
  guard bool_decide (sr_URL (cc_Server c) = "") else EServerURLRequired ;
  guard bool_decide (sr_Token (cc_Server c) = "") else EServerTokenRequired ;
  guard String.length (sr_Token (cc_Server c)) <? 32 else EServerTokenShort ;
  guard bool_decide (lc_Target (cc_Local c) = "") else ELocalTargetRequired ;
  guard hc_Enabled (cc_Health c)
        && negb (bool_decide (hc_Mode (cc_Health c) = "tcp")
                 || bool_decide (hc_Mode (cc_Health c) = "http"))
    else EHealthMode ;
  guard Z.leb (tr_MaxReplayBytes (cc_Transport c)) 0 else EMaxReplayBytes ;
  let u := tr_UploadStreamPreference (cc_Transport c) in
  guard negb (bool_decide (u = "") || bool_decide (u = PollModeBatch)
              || bool_decide (u = PollModeStream))
    else EUploadStreamPreference u ;
  Ok tt.

(** ** What the checks mean *)

Record tunnel_valid (t : TunnelConfig) : Prop := {
  tv_session : (wrap64 (2 * tn_PollTimeout t) ≤ tn_SessionTimeout t)%Z;
  tv_mode : tn_PollMode t = "" ∨ tn_PollMode t = PollModeBatch ∨ tn_PollMode t = PollModeStream;
  tv_stream : or_str (tn_PollMode t) PollModeBatch = PollModeStream →
    (wrap64 (2 * tn_HeartbeatInterval t) ≤ tn_StreamMaxDuration t)%Z;
  tv_resume : tn_EnableResume t = true →
    (0 < tn_ResumeGrace t ≤ MaxResumeGrace)%Z ∧ (0 < tn_MaxReplayBytes t)%Z
}.

Record binding_valid (cb : ClientBinding) : Prop := {
  bv_id : cb_ClientID cb ≠ "";
  bv_token : 32 ≤ String.length (cb_Token cb);
  bv_prefix : cb_PathPrefix cb = "" ∨ is_rooted (cb_PathPrefix cb) = true
}.

(** Two bindings of one host whose normalized prefixes nest belong to one client. *)
Definition prefixes_apart (l : list ClientBinding) : Prop :=
  ∀ a b, a ∈ l → b ∈ l → cb_Subdomain a = cb_Subdomain b →
    normalizePathPrefix (cb_PathPrefix a) ≠ "" → normalizePathPrefix (cb_PathPrefix b) ≠ "" →
    cb_ClientID a ≠ cb_ClientID b →
    prefix_conflict (normalizePathPrefix (cb_PathPrefix a))
      (normalizePathPrefix (cb_PathPrefix b)) = false.

Definition control_apart (cp : string) (l : list ClientBinding) : Prop :=
  ∀ cb, cb ∈ l → normalizePathPrefix (cb_PathPrefix cb) ≠ "" →
    control_conflict cp (normalizePathPrefix (cb_PathPrefix cb)) = false.

Record server_valid (c : ServerConfig) : Prop := {
  sv_root : sc_RootDomain c ≠ "";
  sv_control : control_apart (sc_ControlPath c) (sc_Clients c);
  sv_tunnel : tunnel_valid (sc_Tunnel c);
  sv_clients : sc_Clients c ≠ [];
  sv_bindings : Forall binding_valid (sc_Clients c);
  sv_ids : NoDup (map cb_ClientID (sc_Clients c));
  sv_tokens : NoDup (map cb_Token (sc_Clients c));
  sv_routes : NoDup (map routeKey (sc_Clients c));
  sv_prefixes : prefixes_apart (sc_Clients c)
}.

Record client_valid (c : ClientConfig) : Prop := {
  cv_id : cc_ClientID c ≠ "";
  cv_url : sr_URL (cc_Server c) ≠ "";
  cv_token : 32 ≤ String.length (sr_Token (cc_Server c));
  cv_target : lc_Target (cc_Local c) ≠ "";
  cv_health : hc_Enabled (cc_Health c) = true →
    hc_Mode (cc_Health c) = "tcp" ∨ hc_Mode (cc_Health c) = "http";
  cv_replay : (0 < tr_MaxReplayBytes (cc_Transport c))%Z;
  cv_upload : tr_UploadStreamPreference (cc_Transport c) ∈ [""; PollModeBatch; PollModeStream]
}.

(** ** The checks decide those conditions *)

Lemma validate_tunnel_spec t : validate_tunnel t = Ok tt ↔ tunnel_valid t.
Proof.
  unfold validate_tunnel. rewrite !guard_ok.
  assert (or_str (tn_PollMode t) PollModeBatch = PollModeBatch
          ∨ or_str (tn_PollMode t) PollModeBatch = PollModeStream
          ↔ tn_PollMode t = "" ∨ tn_PollMode t = PollModeBatch
            ∨ tn_PollMode t = PollModeStream) as Hmode.
  { unfold or_str. case_bool_decide; intuition. }
  rewrite negb_false_iff, orb_true_iff, !bool_decide_eq_true, Hmode.
  split.
  - intros (H1 & H2 & H3 & H4). breflect. constructor; [done | done | |].
    + intros Hs. rewrite Hs in H3. destruct H3; [done | lia].
    + intros He. rewrite He in H4. rewrite !guard_ok in H4. breflect. intuition lia.
  - intros [H1 H2 H3 H4]. breflect. repeat split; try done.
    + destruct (decide (or_str (tn_PollMode t) PollModeBatch = PollModeStream));
        [right; auto | by left].
    + destruct (tn_EnableResume t); [|done]. rewrite !guard_ok. breflect.
      destruct H4; [done|]. intuition lia.
Qed.

(** A binding collides with nothing seen so far. *)
Record fresh (s : seen) (cb : ClientBinding) : Prop := {
  fr_id : cb_ClientID cb ∉ seenClientID s;
  fr_route : routeKey cb ∉ seenRoute s;
  fr_token : seenToken s !! cb_Token cb = None
}.

Definition add_seen (s : seen) (cb : ClientBinding) : seen :=
  mkSeen ({[cb_ClientID cb]} ∪ seenClientID s) ({[routeKey cb]} ∪ seenRoute s)
    (<[cb_Token cb := cb_ClientID cb]> (seenToken s)).

Lemma validate_binding_spec s cb s' :
  validate_binding s cb = Ok s' ↔ binding_valid cb ∧ fresh s cb ∧ s' = add_seen s cb.
Proof.
  unfold validate_binding. rewrite !guard_ok. split.
  - intros (H1 & _ & H3 & H4 & H5). breflect.
    destruct (seenToken s !! cb_Token cb) eqn:E; [done|].
    rewrite !guard_ok in H5. destruct H5 as (H5 & H6 & [= <-]). breflect.
    split_and!; [|done|done]. constructor; [done | done |].
    unfold is_rooted. destruct H6; auto.
  - intros ([H1 H2 H3] & [H4 H5 H6] & ->). rewrite H6, !guard_ok. breflect.
    assert (cb_Token cb ≠ "") by (intros E; rewrite E in H2; simpl in H2; lia).
    repeat (split; [solve [done | by right]|]). done.
Qed.

Lemma fresh_add_seen s cb cb' :
  fresh (add_seen s cb) cb' ↔
  fresh s cb' ∧ cb_ClientID cb' ≠ cb_ClientID cb ∧ routeKey cb' ≠ routeKey cb
  ∧ cb_Token cb' ≠ cb_Token cb.
Proof.
  unfold add_seen. split.
  - intros [H1 H2 H3]; simpl in *. rewrite lookup_insert_None in H3.
    split_and!; [constructor| | |]; set_solver.
  - intros ([H1 H2 H3] & ? & ? & ?). constructor; simpl; [set_solver | set_solver |].
    by rewrite lookup_insert_ne.
Qed.

Lemma validate_bindings_spec l s :
  is_ok (for_each validate_binding s l) = true ↔
  Forall binding_valid l ∧ NoDup (map cb_ClientID l) ∧ NoDup (map cb_Token l)
  ∧ NoDup (map routeKey l) ∧ Forall (fresh s) l.
Proof.
  revert s. induction l as [|cb l IH]; intros s; simpl.
  { split; [|done]. intros _. repeat split; constructor. }
  assert (is_ok (try s' <- validate_binding s cb ; for_each validate_binding s' l) = true ↔
    (binding_valid cb ∧ fresh s cb)
    ∧ is_ok (for_each validate_binding (add_seen s cb) l) = true) as ->.
  { pose proof (validate_binding_spec s cb) as Hb.
    destruct (validate_binding s cb) as [s'|e]; simpl.
    - destruct (proj1 (Hb s') eq_refl) as (? & ? & ->). naive_solver.
    - split; [done|]. intros [[Hv Hf] _].
      by pose proof (proj2 (Hb (add_seen s cb)) (conj Hv (conj Hf eq_refl))). }
  rewrite IH, !NoDup_cons, !Forall_cons. clear IH.
  assert (Forall (fresh (add_seen s cb)) l ↔
    Forall (fresh s) l ∧ cb_ClientID cb ∉ map cb_ClientID l
    ∧ routeKey cb ∉ map routeKey l ∧ cb_Token cb ∉ map cb_Token l) as ->.
  { rewrite !Forall_forall, !not_elem_of_map. setoid_rewrite fresh_add_seen.
    split; [|naive_solver]. intros Hf. split_and!; intros cb' Hcb'; by apply Hf in Hcb' as (?&?&?&?). }
  tauto.
Qed.

End Validate.

(** ** The prefix-conflict loops *)

Lemma inner_loop_ok h i ei j0 l :
  inner_loop h i ei j0 l = Ok tt ↔
  ∀ j ej, l !! j = Some ej → entries_conflict i (j0 + j) ei ej = false.
Proof.
  revert j0. induction l as [|e l IH]; intros j0; simpl; [naive_solver|].
  destruct (entries_conflict i j0 ei e) eqn:E.
  - split; [done|]. intros H. specialize (H 0 e eq_refl).
    rewrite Nat.add_0_r in H. congruence.
  - rewrite IH. split.
    + intros H [|j] ej; simpl; [intros [= ->]; by rewrite Nat.add_0_r|].
      intros Hj. rewrite <- Nat.add_succ_comm. auto.
    + intros H j ej Hj. rewrite Nat.add_succ_comm. by apply (H (S j)).
Qed.

Lemma outer_loop_ok h all i0 l :
  outer_loop h all i0 l = Ok tt ↔
  ∀ i ei j ej, l !! i = Some ei → all !! j = Some ej →
    entries_conflict (i0 + i) j ei ej = false.
Proof.
  revert i0. induction l as [|e l IH]; intros i0; simpl; [naive_solver|].
  rewrite res_bind_ok. split.
  - intros ([] & Hin & Hout) [|i] ei j ej; simpl.
    + intros [= ->] Hj. rewrite Nat.add_0_r. rewrite inner_loop_ok in Hin. by apply Hin.
    + intros Hi Hj. rewrite <- Nat.add_succ_comm. rewrite IH in Hout. eauto.
  - intros H. exists tt. split.
    + apply inner_loop_ok. intros j ej Hj. specialize (H 0 e j ej eq_refl Hj).
      by rewrite Nat.add_0_r in H.
    + apply IH. intros i ei j ej Hi Hj. rewrite Nat.add_succ_comm. by eapply (H (S i)).
Qed.

Lemma check_hosts_ok hosts :
  check_hosts hosts = Ok tt ↔ ∀ h es, (h, es) ∈ hosts → outer_loop h es 0 es = Ok tt.
Proof.
  unfold check_hosts. induction hosts as [|[h es] hosts IH]; simpl; [set_solver|].
  rewrite res_bind_ok. split.
  - intros ([] & H1 & H2) h' es'. rewrite IH in H2.
    intros [[= -> ->]|?]%elem_of_cons; eauto.
  - intros H. exists tt. split; [apply H; left|]. apply IH. intros. apply H. by right.
Qed.

(** The entries of one host, in the order of the bindings. *)
Definition host_entries (h : string) (l : list ClientBinding) : list prefix_entry :=
  map (λ cb, mkEntry (normalizePathPrefix (cb_PathPrefix cb)) (cb_ClientID cb))
    (filter (λ cb, cb_Subdomain cb = h ∧ normalizePathPrefix (cb_PathPrefix cb) ≠ "") l).

Lemma entries_by_host_lookup l m h :
  default [] (entries_by_host l m !! h) = default [] (m !! h) ++ host_entries h l.
Proof.
  unfold host_entries. revert m. induction l as [|cb l IH]; intros m; simpl.
  { by rewrite app_nil_r. }
  rewrite filter_cons. case_bool_decide as Hp.
  { rewrite decide_False by naive_solver. apply IH. }
  rewrite IH. destruct (decide (cb_Subdomain cb = h)) as [<-|Hne].
  - rewrite lookup_insert_eq, decide_True by done. simpl.
    by rewrite <- (assoc_L (++)).
  - rewrite lookup_insert_ne by done. by rewrite decide_False by naive_solver.
Qed.

Lemma elem_of_host_entries h l e :
  e ∈ host_entries h l ↔
  ∃ cb, cb ∈ l ∧ cb_Subdomain cb = h ∧ normalizePathPrefix (cb_PathPrefix cb) ≠ ""
    ∧ e = mkEntry (normalizePathPrefix (cb_PathPrefix cb)) (cb_ClientID cb).
Proof.
  unfold host_entries. rewrite list_elem_of_fmap. setoid_rewrite list_elem_of_filter.
  naive_solver.
Qed.

Lemma outer_loop_self h es :
  outer_loop h es 0 es = Ok tt ↔
  ∀ a b, a ∈ es → b ∈ es → pe_clientID a ≠ pe_clientID b →
    prefix_conflict (pe_prefix a) (pe_prefix b) = false.
Proof.
  rewrite outer_loop_ok. unfold entries_conflict. split.
  - intros H a b [i Hi]%list_elem_of_lookup [j Hj]%list_elem_of_lookup Hab.
    specialize (H i a j b Hi Hj). simpl in H.
    rewrite !bool_decide_eq_false_2 in H; [done | done | congruence].
  - intros H i ei j ej Hi Hj. repeat case_bool_decide; try done.
    apply H; [by eapply list_elem_of_lookup_2 | by eapply list_elem_of_lookup_2 | done].
Qed.

Lemma prefix_conflicts_spec l : validatePathPrefixConflicts l = Ok tt ↔ prefixes_apart l.
Proof.
  unfold validatePathPrefixConflicts. rewrite check_hosts_ok.
  assert (∀ h es, entries_by_host l ∅ !! h = Some es → es = host_entries h l) as Hes.
  { intros h es Hh. pose proof (entries_by_host_lookup l ∅ h) as H.
    by rewrite Hh, lookup_empty in H. }
  setoid_rewrite outer_loop_self. split.
  - intros H a b Ha Hb Hsub Hpa Hpb Hid.
    pose proof (entries_by_host_lookup l ∅ (cb_Subdomain a)) as Hl.
    rewrite lookup_empty in Hl. simpl in Hl.
    set (ea := mkEntry (normalizePathPrefix (cb_PathPrefix a)) (cb_ClientID a)).
    set (eb := mkEntry (normalizePathPrefix (cb_PathPrefix b)) (cb_ClientID b)).
    assert (ea ∈ host_entries (cb_Subdomain a) l) as Hea by (apply elem_of_host_entries; eauto).
    assert (eb ∈ host_entries (cb_Subdomain a) l) as Heb
      by (apply elem_of_host_entries; eauto 7).
    destruct (entries_by_host l ∅ !! cb_Subdomain a) as [es|] eqn:E; simpl in Hl.
    + subst es. apply elem_of_map_to_list in E. by apply (H _ _ E ea eb).
    + rewrite <- Hl in Hea. by apply not_elem_of_nil in Hea.
  - intros H h es Hes'%elem_of_map_to_list. apply Hes in Hes' as ->.
    intros a b (ca & Ha & <- & Hpa & ->)%elem_of_host_entries
      (cb & Hb & Hsub & Hpb & ->)%elem_of_host_entries Hid.
    by apply H.
Qed.

Lemma control_check_spec cp l :
  validateControlPathNotConflicting cp l = Ok tt ↔ control_apart cp l.
Proof.
  unfold control_apart. induction l as [|cb l IH]; simpl; [set_solver|].
  case_bool_decide as Hp; [rewrite IH; set_solver|].
  destruct (control_conflict cp _) eqn:E.
  - split; [done|]. intros H. rewrite H in E; [done | by left | done].
  - rewrite IH. set_solver.
Qed.

Section Theorems.
  Context `{PollmuxConsts}.

Lemma validate_rest_spec c :
  sc_RootDomain c ≠ "" → (validate_rest c = Ok tt ↔ server_valid c).
Proof.
  intros Hroot. unfold validate_rest. split.
  - intros H0. apply res_bind_ok in H0 as ([] & Hc & H0).
    apply res_bind_ok in H0 as ([] & Ht & H0). apply guard_ok in H0 as [Hne H0].
    apply res_bind_ok in H0 as (s & Hb & Hp).
    apply control_check_spec in Hc. apply validate_tunnel_spec in Ht.
    apply prefix_conflicts_spec in Hp. apply bool_decide_eq_false in Hne.
    destruct (proj1 (validate_bindings_spec (sc_Clients c) no_seen))
      as (? & ? & ? & ? & _); [by rewrite Hb|].
    by constructor.
  - intros [_ Hc Ht Hne Hb Hi Htok Hr Hp].
    rewrite (proj2 (control_check_spec _ _) Hc), (proj2 (validate_tunnel_spec _) Ht).
    cbn [res_bind]. rewrite bool_decide_eq_false_2 by done.
    assert (is_ok (for_each validate_binding no_seen (sc_Clients c)) = true) as Hok.
    { apply validate_bindings_spec. split_and!; try done.
      apply Forall_forall. intros cb _. constructor; simpl; [set_solver | set_solver | done]. }
    destruct (for_each _ _ _) as [s|]; [|done].
    by apply prefix_conflicts_spec.
Qed.

Lemma validate_server_spec c c' :
  ValidateServer c = (c', Ok tt) ↔
  sc_RootDomain c ≠ "" ∧
  ∃ cp, validateControlPath (sc_ControlPath c) = Ok cp
    ∧ c' = set_ControlPath cp c ∧ server_valid c'.
Proof.
  unfold ValidateServer. case_bool_decide as Hr; [split; [done | by intros [? _]]|].
  destruct (validateControlPath (sc_ControlPath c)) as [cp|e].
  - split.
    + intros [= <- Hv]. apply validate_rest_spec in Hv; [|done]. eauto.
    + intros (_ & cp' & [= <-] & -> & Hv). by apply validate_rest_spec in Hv as ->.
  - split; [done | by intros (_ & ? & ? & _)].
Qed.

Lemma validate_server_sound c c' :
  ValidateServer c = (c', Ok tt) →
  ∃ cp, validateControlPath (sc_ControlPath c) = Ok cp
    ∧ c' = set_ControlPath cp c ∧ server_valid c'.
Proof. by intros [_ Hc]%validate_server_spec. Qed.

(** C19: [ValidateServer] accepts a configuration exactly when the root domain is
    set, the control path has a canonical form, and with that form in its place
    the configuration is valid: at least one client, unique client ids, tokens
    (of 32 bytes or more) and routes, absolute path prefixes, no prefix that
    meets the control path or a nested prefix of another client on the same
    host, and tunnel timings within their bounds.  The configuration it leaves
    behind is the old one with the canonical control path. *)
Theorem ValidateServer_decides c c' :
  ValidateServer c = (c', Ok tt) ↔
  sc_RootDomain c ≠ "" ∧
  ∃ cp, validateControlPath (sc_ControlPath c) = Ok cp
    ∧ c' = set_ControlPath cp c ∧ server_valid c'.
Proof. apply validate_server_spec. Qed.

(** A configuration that passed [ValidateServer], with its control path given
    as an absolute path or left empty, passes it again unchanged: [NewServer],
    which validates what [LoadServer] has already validated, never rejects or
    alters it. *)
Theorem ValidateServer_idempotent c c' :
  sc_ControlPath c = "" ∨ is_rooted (sc_ControlPath c) = true →
  ValidateServer c = (c', Ok tt) → ValidateServer c' = (c', Ok tt).
Proof.
  intros Hcp (Hr & cp & Hv & -> & Hs)%validate_server_spec.
  apply validate_server_spec. split; [done|]. exists cp.
  destruct (validateControlPath_ok_shape _ _ Hcp Hv) as (segs & Hseg & Hne & ->).
  simpl. by rewrite validateControlPath_abs.
Qed.

Lemma validate_client_spec c : ValidateClient c = Ok tt ↔ client_valid c.
Proof.
  unfold ValidateClient. rewrite !guard_ok. breflect. split.
  - intros (H1 & H2 & H3 & H4 & H5 & H6 & H7 & H8 & _). constructor; try done.
    + intros He. destruct H6 as [H6|H6]; [congruence | done].
    + rewrite !elem_of_cons. tauto.
  - intros [H1 H2 H3 H4 H5 H6 H7]. rewrite !elem_of_cons, elem_of_nil in H7.
    assert (sr_Token (cc_Server c) ≠ "") by (intros E; rewrite E in H3; simpl in H3; lia).
    split_and!; try done; [|tauto].
    destruct (hc_Enabled (cc_Health c)); auto.
Qed.

(** C40: [ValidateClient] accepts a client configuration exactly when it names its
    id, server URL and local target, its token has 32 bytes or more, an enabled
    health check has a known mode, the replay buffer is positive and the upload
    preference is one of the three known words. *)
Theorem ValidateClient_decides c : ValidateClient c = Ok tt ↔ client_valid c.
Proof. apply validate_client_spec. Qed.

End Theorems.

(** ** Witnesses *)

Definition example_token (c : ascii) : string :=
  String.concat "" (repeat (String c "") 32).

Definition example_binding (id sub prefix : string) (tok : ascii) : ClientBinding :=
  mkClientBinding id sub prefix true "f" (example_token tok) 1.

(** A server with two apex path bindings of different clients and a
    subdomain binding. *)
Definition example_server : ServerConfig :=
  set_Clients [example_binding "a" "@" "/service/" "a"%char;
               example_binding "b" "@" "/api/v1" "b"%char;
               example_binding "c" "myapp" "" "c"%char]
    (mkServerConfig ":443" ":80" "builderrors.com" "/tunnel/" ":8443" zero_TLS
       (sc_Tunnel (@Defaults example_consts)) (sc_Proxy (@Defaults example_consts)) []
       (sc_Status (@Defaults example_consts)) (mkLoggingConfig "info")).

Definition example_validated : ServerConfig := set_ControlPath "/tunnel" example_server.

Lemma example_server_ok :
  @ValidateServer example_consts example_server = (example_validated, Ok tt).
Proof. vm_compute. reflexivity. Qed.

Lemma ValidateServer_idempotent_witness :
  @ValidateServer example_consts example_validated = (example_validated, Ok tt).
Proof.
  apply (@ValidateServer_idempotent example_consts example_server example_validated).
  - right. vm_compute. reflexivity.
  - vm_compute. reflexivity.
Defined.

(** Every error branch of [ValidateServer] is reached by some configuration. *)
Definition reject (c : ServerConfig) : result cfg_error unit :=
  (@ValidateServer example_consts c).2.

Example reject_nested : reject (set_Clients
    [example_binding "a" "@" "/service" "a"%char; example_binding "b" "@" "/service/x" "b"%char]
    example_server) = Err (EPrefixConflict "@" "/service" "/service/x").
Proof. vm_compute. reflexivity. Qed.

Example reject_control : reject (set_Clients
    [example_binding "a" "@" "/tunnel/x" "a"%char] example_server)
  = Err (EControlPathConflict "/tunnel" "/tunnel/x" "a").
Proof. vm_compute. reflexivity. Qed.

Example reject_token : reject (set_Clients
    [example_binding "a" "@" "/s" "a"%char; example_binding "b" "@" "/t" "a"%char] example_server)
  = Err (EDuplicateToken "a" "b").
Proof. vm_compute. reflexivity. Qed.

Example reject_route : reject (set_Clients
    [example_binding "a" "@" "/s" "a"%char; example_binding "b" "@" "/s/" "b"%char] example_server)
  = Err (EDuplicateRoute "@" "/s/").
Proof. vm_compute. reflexivity. Qed.
