(* ===== verification/Load.v ===== *)
(** internal/config/token.go and the loading half of load.go: token files,
    [LoadServer] and [LoadClient], with the file system and the viper library
    as operations of the environment. *)

From S2P Require Import Prelude GoStrings GoPath Config ControlPath Validate.

(** ** The environment *)

(** A value passed to [viper.SetDefault]. *)
Inductive setting := SBool (b : bool) | SInt (z : Z).

(** The viper library: reading a file on top of a list of defaults, decoding the
    result onto a struct that already holds values, and [IsSet]. *)
Class Viper := {
  vconfig : Type;
  ReadInConfig : list (string * setting) → string → result string vconfig;
  UnmarshalServer : vconfig → ServerConfig → result string ServerConfig;
  UnmarshalClient : vconfig → ClientConfig → result string ClientConfig;
  UnmarshalMulti : vconfig → MultiClientConfig → result string MultiClientConfig;
  IsSet : vconfig → string → bool
}.

(** [os.ReadFile]: [None] when the file cannot be read. *)
Class FileSystem := { ReadFile : string → option string }.

Section Load.
  Context `{PollmuxConsts, Viper, FileSystem}.

(** ** token.go *)

Definition readTokenFile (path : string) : result cfg_error string :=
  match ReadFile path with
  | None => Err (ETokenFileRead path)
  | Some data =>
      let token := TrimSpace data in
      if bool_decide (token = "") then Err (ETokenFileEmpty path) else Ok token
  end.

(** [if !filepath.IsAbs(path) { path = filepath.Join(baseDir, path) }]. *)
Definition resolve_path (baseDir path : string) : string :=
  if IsAbs path then path else FilepathJoin baseDir path.

Definition wrap_client (id : string) {A} (r : result cfg_error A) : result cfg_error A :=
  match r with Ok a => Ok a | Err e => Err (EService id e) end.

Fixpoint resolve_bindings (baseDir : string) (clients : list ClientBinding)
    : result cfg_error (list ClientBinding) :=
  match clients with
  | [] => Ok []
  | cb :: rest =>
      guard bool_decide (cb_TokenFile cb = "") else ERequiresTokenFile (cb_ClientID cb) ;
      try tok <- wrap_client (cb_ClientID cb)
                   (readTokenFile (resolve_path baseDir (cb_TokenFile cb))) ;
      guard String.length tok <? 32 else ETokenTooShort (cb_ClientID cb) ;
      try rest' <- resolve_bindings baseDir rest ;
      Ok (set_cb_Token tok cb :: rest')
  end.

Definition resolveClientBindingTokens (clients : list ClientBinding) (configPath : string)
    : result cfg_error (list ClientBinding) :=
  resolve_bindings (Dir configPath) clients.

Fixpoint resolve_services (baseDir : string) (services : list ServiceEntry)
    : result cfg_error (list ServiceEntry) :=
  match services with
  | [] => Ok []
  | svc :: rest =>
      guard bool_decide (se_TokenFile svc = "") else EServiceTokenFile (se_ClientID svc) ;
      try tok <- wrap_client (se_ClientID svc)
                   (readTokenFile (resolve_path baseDir (se_TokenFile svc))) ;
      try rest' <- resolve_services baseDir rest ;
      Ok (set_se_Token tok svc :: rest')
  end.

Definition resolveServiceTokens (services : list ServiceEntry) (configPath : string)
    : result cfg_error (list ServiceEntry) :=
  resolve_services (Dir configPath) services.

Definition resolveClientAuthToken (c : ClientConfig) (configPath : string)
    : result cfg_error ClientConfig :=
  let f := sr_TokenFile (cc_Server c) in
  if negb (bool_decide (f = "")) then
    try tok <- readTokenFile (resolve_path (Dir configPath) f) ;
    Ok (set_cc_Server (set_sr_Token tok (cc_Server c)) c)
  else if negb (bool_decide (sr_Token (cc_Server c) = "")) then Ok c
  else Err ETokenFileRequired.

(** ** [LoadServer] *)

Definition server_viper_defaults : list (string * setting) :=
  [("tunnel.enable_resume", SBool true);
   ("tunnel.max_detached_resumable", SInt DefaultMaxDetachedResumable)].

Definition read_err {A} (r : result string A) : result cfg_error A :=
  match r with Ok a => Ok a | Err m => Err (EReadConfig m) end.

Definition parse_err {A} (r : result string A) : result cfg_error A :=
  match r with Ok a => Ok a | Err m => Err (EParseConfig m) end.

Definition LoadServer (path : string) : result cfg_error ServerConfig :=
  try v <- read_err (ReadInConfig server_viper_defaults path) ;
  try cfg <- parse_err (UnmarshalServer v Defaults) ;
  let cfg := applyServerDefaults cfg in
  try clients <- resolveClientBindingTokens (sc_Clients cfg) path ;
  match ValidateServer (set_Clients clients cfg) with
  | (cfg', Ok tt) => Ok cfg'
  | (_, Err e) => Err e
  end.

(** ** [LoadClient] *)

Definition zero_Multi : MultiClientConfig :=
  mkMultiClientConfig zero_ServerRef
    (mkTransportConfig 0 0 0 0 0 0 false "" 0 false false 0)
    zero_Health (mkLoggingConfig "") [].

Definition loadSingleClient (v : vconfig) (path : string) : result cfg_error (list ClientConfig) :=
  try cfg <- parse_err (UnmarshalClient v DefaultClient) ;
  let cfg := applyClientDefaults cfg in
  try cfg <- resolveClientAuthToken cfg path ;
  try _ <- ValidateClient cfg ;
  Ok [cfg].

(** The server block of a service on top of the shared one. *)
Definition merge_server (shared : ServerRef) (own : option ServerRef) (token : string) : ServerRef :=
  set_sr_Token token
    match own with
    | None => shared
    | Some s =>
        mkServerRef (or_str (sr_URL s) (sr_URL shared)) (sr_Token shared) (sr_TokenFile shared)
          (or_str (sr_ControlPath s) (sr_ControlPath shared)) (sr_InsecureSkipVerify s)
    end.

(** The health block of a service on top of the shared one. *)
Definition merge_health (shared : HealthConfig) (own : option HealthConfig) : HealthConfig :=
  match own with
  | None => shared
  | Some h =>
      mkHealthConfig (hc_Enabled shared) (or_str (hc_Mode h) (hc_Mode shared))
        (or_str (hc_Path h) (hc_Path shared)) (or_int (hc_Interval h) (hc_Interval shared))
        (or_int (hc_Timeout h) (hc_Timeout shared))
  end.

Definition service_config (multi : MultiClientConfig) (svc : ServiceEntry) : ClientConfig :=
  applyClientDefaults
    (mkClientConfig (se_ClientID svc)
       (merge_server (mc_Server multi) (se_Server svc) (se_Token svc))
       (se_Local svc) (mc_Transport multi)
       (merge_health (mc_Health multi) (se_Health svc)) (mc_Logging multi)).

(** One turn of the loop; the state is [seenID] and the configs so far. *)
Definition load_service (multi : MultiClientConfig) (s : gset string * list ClientConfig)
    (svc : ServiceEntry) : result cfg_error (gset string * list ClientConfig) :=
  guard bool_decide (se_ClientID svc = "") else EServiceClientID ;
  guard bool_decide (se_ClientID svc ∈ s.1) else EDuplicateService (se_ClientID svc) ;
  let cfg := service_config multi svc in
  try _ <- wrap_client (se_ClientID svc) (ValidateClient cfg) ;
  Ok ({[se_ClientID svc]} ∪ s.1, s.2 ++ [cfg]).

Definition loadMultiClient (v : vconfig) (path : string) : result cfg_error (list ClientConfig) :=
  try multi <- parse_err (UnmarshalMulti v zero_Multi) ;
  guard bool_decide (mc_Services multi = []) else EServicesEmpty ;
  try services <- resolveServiceTokens (mc_Services multi) path ;
  try s <- for_each (load_service multi) (∅, []) services ;
  Ok s.2.

Definition client_viper_defaults : list (string * setting) :=
  [("transport.prefer_resume", SBool true);
   ("transport.max_replay_bytes", SInt DefaultMaxReplayBytes)].

Definition LoadClient (path : string) : result cfg_error (list ClientConfig) :=
  try v <- read_err (ReadInConfig client_viper_defaults path) ;
  if IsSet v "services" then loadMultiClient v path else loadSingleClient v path.

(** ** Token resolution *)

(** [tok] is what the file named by [file] holds, blanks at its ends removed. *)
Definition token_from (baseDir file tok : string) : Prop :=
  tok ≠ "" ∧ ∃ data, ReadFile (resolve_path baseDir file) = Some data ∧ tok = TrimSpace data.

Lemma readTokenFile_ok p tok :
  readTokenFile p = Ok tok ↔ tok ≠ "" ∧ ∃ data, ReadFile p = Some data ∧ tok = TrimSpace data.
Proof.
  unfold readTokenFile. destruct (ReadFile p) as [d|]; [|split; [done | by intros (_ & ? & ? & _)]].
  case_bool_decide as Hd; (split; [|intros (Hne & ? & [= <-] & ->); congruence]).
  - done.
  - intros [= <-]. eauto.
Qed.

Lemma wrap_client_ok {A} id (r : result cfg_error A) a : wrap_client id r = Ok a ↔ r = Ok a.
Proof. destruct r; simpl; split; congruence. Qed.

Lemma read_err_ok {A} (r : result string A) a : read_err r = Ok a ↔ r = Ok a.
Proof. destruct r; simpl; split; congruence. Qed.

Lemma parse_err_ok {A} (r : result string A) a : parse_err r = Ok a ↔ r = Ok a.
Proof. destruct r; simpl; split; congruence. Qed.

Lemma resolve_bindings_ok dir l l' :
  resolve_bindings dir l = Ok l' →
  Forall2 (λ b b', ∃ tok, token_from dir (cb_TokenFile b) tok ∧ 32 ≤ String.length tok
             ∧ b' = set_cb_Token tok b) l l'.
Proof.
  revert l'. induction l as [|b l IH]; intros l' HL; simpl in HL; [by injection HL as <-|].
  apply guard_ok in HL as [Hf HL]. apply res_bind_ok in HL as (tok & Htok & HL).
  apply guard_ok in HL as [Hlen HL]. apply res_bind_ok in HL as (l'' & Hl & [= <-]).
  apply wrap_client_ok, readTokenFile_ok in Htok. apply Nat.ltb_ge in Hlen.
  constructor; [|by apply IH]. exists tok. done.
Qed.

Lemma resolve_services_ok dir l l' :
  resolve_services dir l = Ok l' →
  Forall2 (λ b b', ∃ tok, token_from dir (se_TokenFile b) tok ∧ b' = set_se_Token tok b) l l'.
Proof.
  revert l'. induction l as [|b l IH]; intros l' HL; simpl in HL; [by injection HL as <-|].
  apply guard_ok in HL as [Hf HL]. apply res_bind_ok in HL as (tok & Htok & HL).
  apply res_bind_ok in HL as (l'' & Hl & [= <-]).
  apply wrap_client_ok, readTokenFile_ok in Htok.
  constructor; [|by apply IH]. exists tok. done.
Qed.

(** ** What [LoadServer] returns *)

Lemma applyTunnelDefaults_idem t d :
  applyTunnelDefaults (applyTunnelDefaults t d) d = applyTunnelDefaults t d.
Proof. unfold applyTunnelDefaults. simpl. by autorewrite with defaults_rw. Qed.

Lemma map_max_clients_resolved dir l l' :
  map apply_max_clients l = l → resolve_bindings dir l = Ok l' →
  map apply_max_clients l' = l'.
Proof.
  intros Hm Hr%resolve_bindings_ok. induction Hr as [|b b' l l' (tok & _ & _ & ->) _ IH]; [done|].
  injection Hm as Hb Hm. simpl. rewrite IH by done. f_equal.
  destruct b as [i s p st f t n]. unfold apply_max_clients in *. simpl in *.
  destruct (bool_decide (n = 0%Z)) eqn:E; [|done].
  apply bool_decide_eq_true in E. unfold set_cb_MaxClients in *. simpl in *.
  injection Hb as Hb. congruence.
Qed.

Lemma applyServerDefaults_clients l c :
  map apply_max_clients l = l →
  applyServerDefaults (set_Clients l (applyServerDefaults c)) = set_Clients l (applyServerDefaults c).
Proof.
  intros Hl. unfold applyServerDefaults, set_Clients. simpl.
  rewrite applyTunnelDefaults_idem, Hl. by autorewrite with defaults_rw.
Qed.

Lemma validateControlPath_nonempty p cp : validateControlPath p = Ok cp → cp ≠ "".
Proof.
  unfold validateControlPath. case_bool_decide; [by intros [= <-]|].
  set (q := if HasPrefix (Clean p) "/" then Clean p else "/" +:+ Clean p).
  assert (HasPrefix q "/" = true) as Hq.
  { subst q. destruct (HasPrefix (Clean p) "/") eqn:E; [done|]. apply HasPrefix_app. }
  case_bool_decide as Hr; [done|]. intros [= <-].
  unfold TrimSuffix. destruct (HasSuffix q "/"); [|by intros ->].
  apply HasPrefix_spec in Hq as [r Hq]. intros Ht.
  apply (f_equal String.length) in Ht. rewrite str_length_take in Ht by lia.
  destruct r as [|c r]; [by rewrite str_app_nil_r in Hq|].
  rewrite Hq in Ht. simpl in Ht. lia.
Qed.

Lemma set_ControlPath_defaults cp c :
  cp ≠ "" → applyServerDefaults c = c →
  applyServerDefaults (set_ControlPath cp c) = set_ControlPath cp c.
Proof.
  intros Hcp Hc. rewrite <- Hc at 2. unfold applyServerDefaults, set_ControlPath. simpl.
  f_equal. by apply or_str_set.
Qed.

Lemma resolve_tokens_from dir l l' :
  resolve_bindings dir l = Ok l' →
  Forall (λ b, token_from dir (cb_TokenFile b) (cb_Token b)) l'.
Proof.
  intros Hr%resolve_bindings_ok. induction Hr as [|b b' l l' (tok & Ht & _ & ->) _ IH];
    by constructor.
Qed.

(** C26: whatever the file holds, a configuration [LoadServer] returns is valid,
    has every default filled in (defaulting it again changes nothing), and gives
    each client the token read from that client's token file, with the blanks at
    its ends removed and a relative file name resolved against the directory of
    the configuration file. *)
Theorem LoadServer_sound path c :
  LoadServer path = Ok c →
  server_valid c ∧ applyServerDefaults c = c
  ∧ Forall (λ b, token_from (Dir path) (cb_TokenFile b) (cb_Token b)) (sc_Clients c).
Proof.
  unfold LoadServer. intros HL.
  apply res_bind_ok in HL as (v & _ & HL). apply res_bind_ok in HL as (c0 & _ & HL).
  cbv zeta in HL. apply res_bind_ok in HL as (l & Hl & HL).
  destruct (ValidateServer _) as [c' [[]|e]] eqn:Hv; [|done]. injection HL as <-.
  destruct (validate_server_sound _ _ Hv) as (cp & Hcp & -> & Hvalid).
  split; [done|]. split.
  - apply set_ControlPath_defaults; [by eapply validateControlPath_nonempty|].
    apply applyServerDefaults_clients. eapply map_max_clients_resolved; [|apply Hl].
    simpl. rewrite map_map. apply map_ext. intros b. apply apply_max_clients_idem.
  - simpl. by eapply resolve_tokens_from.
Qed.

(** ** What [LoadClient] returns *)

Lemma load_services_spec multi services s s' :
  for_each (load_service multi) s services = Ok s' ↔
  Forall (λ svc, se_ClientID svc ≠ "" ∧ se_ClientID svc ∉ s.1) services
  ∧ NoDup (map se_ClientID services)
  ∧ Forall (λ svc, ValidateClient (service_config multi svc) = Ok tt) services
  ∧ s' = (list_to_set (rev (map se_ClientID services)) ∪ s.1,
          s.2 ++ map (service_config multi) services).
Proof.
  revert s. induction services as [|svc services IH]; intros s; simpl.
  { rewrite app_nil_r, (left_id_L ∅ (∪)). destruct s as [s1 s2]. split.
    - intros [= <-]. split_and!; try done; constructor.
    - by intros (_ & _ & _ & ->). }
  rewrite res_bind_ok. unfold load_service at 1. split.
  - intros (s1 & HL & Hrest). apply guard_ok in HL as [Hid HL].
    apply guard_ok in HL as [Hdup HL]. apply res_bind_ok in HL as ([] & Hv & [= <-]).
    apply wrap_client_ok in Hv. breflect. apply IH in Hrest as (Hf & Hnd & Hval & ->).
    simpl in *. split_and!.
    + constructor; [done|]. eapply Forall_impl; [apply Hf|]. set_solver.
    + constructor; [|done]. apply not_elem_of_map. intros x Hx.
      rewrite Forall_forall in Hf. specialize (Hf x Hx). set_solver.
    + by constructor.
    + rewrite list_to_set_app_L. simpl. rewrite <- (assoc_L (++)). f_equal. set_solver.
  - intros (Hf & Hnd & Hval & ->).
    apply Forall_cons in Hf as [[Hid Hfr] Hf]. apply NoDup_cons in Hnd as [Hn Hnd].
    apply Forall_cons in Hval as [Hv Hval].
    exists ({[se_ClientID svc]} ∪ s.1, s.2 ++ [service_config multi svc]). split.
    + rewrite !bool_decide_eq_false_2 by done. by rewrite Hv.
    + apply IH. split_and!; try done.
      * rewrite Forall_forall in *. intros x Hx. simpl. rewrite not_elem_of_map in Hn.
        specialize (Hn x Hx). specialize (Hf x Hx). set_solver.
      * simpl. rewrite list_to_set_app_L. simpl. rewrite <- (assoc_L (++)). f_equal. set_solver.
Qed.

Lemma loadMultiClient_spec v path l :
  loadMultiClient v path = Ok l ↔
  ∃ multi services,
    UnmarshalMulti v zero_Multi = Ok multi
    ∧ resolveServiceTokens (mc_Services multi) path = Ok services
    ∧ mc_Services multi ≠ []
    ∧ Forall (λ svc, se_ClientID svc ≠ "") services
    ∧ NoDup (map se_ClientID services)
    ∧ l = map (service_config multi) services
    ∧ Forall client_valid l.
Proof.
  unfold loadMultiClient. split.
  - intros HL. apply res_bind_ok in HL as (multi & Hm & HL). apply parse_err_ok in Hm.
    apply guard_ok in HL as [Hne HL]. apply bool_decide_eq_false in Hne.
    apply res_bind_ok in HL as (services & Hs & HL).
    apply res_bind_ok in HL as (s & Hfe & [= <-]).
    apply load_services_spec in Hfe as (Hf & Hnd & Hval & ->).
    exists multi, services. split_and!; try done.
    + eapply Forall_impl; [apply Hf|]. by intros ? [? _].
    + simpl. apply Forall_map. eapply Forall_impl; [apply Hval|].
      intros x Hx. by apply validate_client_spec.
  - intros (multi & services & Hm & Hs & Hne & Hf & Hnd & -> & Hval).
    rewrite Hm. simpl. rewrite bool_decide_eq_false_2 by done. rewrite Hs. simpl.
    rewrite (proj2 (load_services_spec multi services (∅, [])
      (list_to_set (rev (map se_ClientID services)) ∪ ∅, map (service_config multi) services)));
      [done|].
    split_and!; try done.
    + eapply Forall_impl; [apply Hf|]. set_solver.
    + rewrite Forall_map in Hval. eapply Forall_impl; [apply Hval|].
      intros x Hx. by apply validate_client_spec.
Qed.

Lemma resolve_services_ids dir l l' :
  resolve_services dir l = Ok l' → map se_ClientID l' = map se_ClientID l.
Proof.
  intros Hr%resolve_services_ok. induction Hr as [|b b' l l' (tok & _ & ->) _ IH]; [done|].
  simpl. by rewrite IH.
Qed.

(** Loading the multi-service format succeeds exactly when the file decodes,
    lists at least one service, every service's token file can be read, the
    client ids are nonempty and pairwise different, and every merged
    configuration is valid; the result is then one configuration per service, in
    the order of the file. *)
Theorem loadMultiClient_decides v path l :
  loadMultiClient v path = Ok l ↔
  ∃ multi services,
    UnmarshalMulti v zero_Multi = Ok multi
    ∧ resolveServiceTokens (mc_Services multi) path = Ok services
    ∧ mc_Services multi ≠ []
    ∧ Forall (λ svc, se_ClientID svc ≠ "") services
    ∧ NoDup (map se_ClientID services)
    ∧ l = map (service_config multi) services
    ∧ Forall client_valid l.
Proof. apply loadMultiClient_spec. Qed.

Lemma client_loaded path l :
  LoadClient path = Ok l →
  l ≠ [] ∧ Forall client_valid l ∧ NoDup (map cc_ClientID l).
Proof.
  unfold LoadClient. intros HL. apply res_bind_ok in HL as (v & _ & HL).
  destruct (IsSet v "services").
  - apply loadMultiClient_spec in HL
      as (multi & services & _ & Hs & Hne & _ & Hnd & -> & Hval).
    split_and!; [|done|].
    + intros E%map_eq_nil. subst services. apply resolve_services_ids in Hs.
      by destruct (mc_Services multi).
    + by rewrite map_map.
  - unfold loadSingleClient in HL. apply res_bind_ok in HL as (c0 & _ & HL). cbv zeta in HL.
    apply res_bind_ok in HL as (c & _ & HL). apply res_bind_ok in HL as ([] & Hv & [= <-]).
    split_and!; [done | constructor; [by apply validate_client_spec | done] |].
    apply NoDup_singleton.
Qed.

(** C27: [LoadClient] never returns an empty list (the client's [main] reads
    [configs[0]]), every configuration it returns is valid, and no two of them
    share a client id. *)
Theorem LoadClient_sound path l :
  LoadClient path = Ok l →
  l ≠ [] ∧ Forall client_valid l ∧ NoDup (map cc_ClientID l).
Proof. apply client_loaded. Qed.

(** In the multi-service format a service's own [health] block never decides
    whether its health check runs: [enabled] always comes from the shared block,
    which is off when the file omits it (the single-service format turns it on).
    The documentation says a service overrides the health settings. *)
Theorem service_health_enabled_not_overridable multi svc :
  hc_Enabled (cc_Health (service_config multi svc)) = hc_Enabled (mc_Health multi)
  ∧ hc_Enabled (mc_Health zero_Multi) = false ∧ hc_Enabled (cc_Health DefaultClient) = true.
Proof. unfold service_config, merge_health. simpl. by destruct (se_Health svc). Qed.

End Load.

(** ** Witnesses: a file system with two token files, and a viper that decodes
    every file to given values *)

Definition example_fs : FileSystem := {|
  ReadFile p :=
    if bool_decide (p = "/etc/httphop/a.token") then Some (example_token "a"%char +:+ bytes [10])
    else if bool_decide (p = "/etc/httphop/b.token")
    then Some (" " +:+ example_token "b"%char) else None
|}.

Definition example_file_server : ServerConfig :=
  mkServerConfig "" "" "builderrors.com" "" "" zero_TLS (sc_Tunnel (@Defaults example_consts))
    (mkProxyConfig 0 0 0)
    [mkClientBinding "a" "@" "/service" true "a.token" "" 0;
     mkClientBinding "b" "myapp" "" false "/etc/httphop/b.token" "" 2]
    (mkStatusConfig true "") (mkLoggingConfig "").

Definition example_service (id file : string) : ServiceEntry :=
  mkServiceEntry id file "" (mkLocalConfig "127.0.0.1:8080" "")
    (Some (mkServerRef "https://ai.builderrors.com" "" "" "" false)) None.

Definition example_multi : MultiClientConfig :=
  mkMultiClientConfig zero_ServerRef (mkTransportConfig 0 0 0 0 0 0 false "" 0 false true 1048576)
    zero_Health (mkLoggingConfig "")
    [example_service "a" "a.token"; example_service "b" "b.token"].

Definition example_viper : Viper := {|
  vconfig := unit;
  ReadInConfig _ _ := Ok tt;
  UnmarshalServer _ _ := Ok example_file_server;
  UnmarshalClient _ c := Ok c;
  UnmarshalMulti _ _ := Ok example_multi;
  IsSet _ _ := true
|}.

Definition loaded_server : result cfg_error ServerConfig :=
  @LoadServer example_consts example_viper example_fs "/etc/httphop/server.yaml".

Definition loaded_clients : result cfg_error (list ClientConfig) :=
  @LoadClient example_consts example_viper example_fs "/etc/httphop/client.yaml".

Lemma LoadServer_sound_witness :
  ∃ c, loaded_server = Ok c ∧ map cb_MaxClients (sc_Clients c) = [1; 2]%Z
    ∧ @server_valid example_consts c.
Proof.
  eexists. split; [vm_compute; reflexivity|]. split; [reflexivity|].
  apply (@LoadServer_sound example_consts example_viper example_fs "/etc/httphop/server.yaml").
  vm_compute. reflexivity.
Defined.

Lemma LoadClient_sound_witness :
  ∃ l, loaded_clients = Ok l ∧ map cc_ClientID l = ["a"; "b"]
    ∧ Forall (@client_valid example_consts) l.
Proof.
  eexists. split; [vm_compute; reflexivity|]. split; [reflexivity|].
  apply (@LoadClient_sound example_consts example_viper example_fs "/etc/httphop/client.yaml").
  vm_compute. reflexivity.
Defined.
