(* ===== verification/Host.v ===== *)
(** internal/router/host.go: from a Host header to a host key, back to a domain
    name, and the hosts certificates may be issued for.  [net.SplitHostPort] is
    translated from its documented algorithm. *)

From S2P Require Import Prelude GoStrings.

(** ** [net.SplitHostPort] *)

Fixpoint IndexByte (s : string) (c : ascii) : option nat :=
  match s with
  | EmptyString => None
  | String d s' => if bool_decide (d = c) then Some 0 else S <$> IndexByte s' c
  end.

Fixpoint LastIndexByte (s : string) (c : ascii) : option nat :=
  match s with
  | EmptyString => None
  | String d s' =>
      match LastIndexByte s' c with
      | Some i => Some (S i)
      | None => if bool_decide (d = c) then Some 0 else None
      end
  end.

Definition colon : ascii := ":"%char.
Definition lbracket : ascii := "["%char.
Definition rbracket : ascii := "]"%char.

(** No [\[] in [s\[j:\]] and no [\]] in [s\[k:\]], where the port begins after [i]. *)
Definition finish_split (s host : string) (i j k : nat) : option (string * string) :=
  match IndexByte (str_drop j s) lbracket, IndexByte (str_drop k s) rbracket with
  | None, None => Some (host, str_drop (S i) s)
  | _, _ => None
  end.

Definition SplitHostPort (hostport : string) : option (string * string) :=
  match LastIndexByte hostport colon with
  | None => None
  | Some i =>
      if HasPrefix hostport "[" then
        match IndexByte hostport rbracket with
        | None => None
        | Some e =>
            if bool_decide (S e = i)
            then finish_split hostport (str_drop 1 (str_take e hostport)) i 1 (S e)
            else None
        end
      else
        let host := str_take i hostport in
        match IndexByte host colon with
        | Some _ => None
        | None => finish_split hostport host i 0 0
        end
  end.

(** ** host.go *)

Inductive host_error := ErrRootMismatch | ErrNestedSubdomain.

Definition stripPort (host : string) : string :=
  match SplitHostPort host with
  | None => host
  | Some (h, _) => h
  end.

(** The [HostLister] interface. *)
Class HostLister (R : Type) := { Subdomains : R → list string }.

Definition FQDN (hostKey rootDomain : string) : string :=
  if bool_decide (hostKey = "@") then rootDomain else hostKey +:+ ("." +:+ rootDomain).

Section Host.
  Context `{UnicodeTables}.

Definition HostKey (host rootDomain : string) : result host_error string :=
  let host := stripPort host in
  let rootDomain := ToLower (TrimSpace rootDomain) in
  let host := ToLower host in
  if bool_decide (host = rootDomain) then Ok "@"
  else
    let suffix := "." +:+ rootDomain in
    guard negb (HasSuffix host suffix) else ErrRootMismatch ;
    let sub := TrimSuffix host suffix in
    if bool_decide (sub = "") then Ok "@"
    else
      guard Contains sub "." else ErrNestedSubdomain ;
      Ok sub.

(** The function [AllowedHosts] returns, applied to a host. *)
Definition AllowedHosts `{HostLister R} (reg : R) (root host : string) : bool :=
  let host := stripPort (ToLower host) in
  let root := ToLower root in
  match HostKey host root with
  | Err _ => false
  | Ok key =>
      (* the loop returns at the first registered name equal to the key *)
      if bool_decide (key ∈ Subdomains reg) then
        if bool_decide (key = "@") then bool_decide (host = root)
        else bool_decide (host = key +:+ ("." +:+ root))
      else false
  end.

(** [None] is the nil error that lets autocert issue a certificate. *)
Definition HostPolicyFunc `{HostLister R} (reg : R) (root host : string) : option string :=
  if AllowedHosts reg root host then None else Some host.

End Host.

Example split_host_port :
  map SplitHostPort ["a.com:443"; "a.com"; "[::1]:80"; "::1"; "a:1:2"; "[a]b:1"; ":80"]
  = [Some ("a.com", "443"); None; Some ("::1", "80"); None; None; None; Some ("", "80")].
Proof. vm_compute. reflexivity. Qed.

(** ** Hosts without a port, and hosts with one *)

Lemma LastIndexByte_free c s : char_free c s = true → LastIndexByte s c = None.
Proof.
  induction s as [|d s IH]; simpl; [done|]. intros [Hd Hs]%char_free_cons.
  rewrite IH by done. by rewrite bool_decide_eq_false_2.
Qed.

Lemma IndexByte_free c s : char_free c s = true → IndexByte s c = None.
Proof.
  induction s as [|d s IH]; simpl; [done|]. intros [Hd Hs]%char_free_cons.
  rewrite bool_decide_eq_false_2 by done. by rewrite IH.
Qed.

Lemma LastIndexByte_last c s t :
  char_free c t = true → LastIndexByte (s +:+ String c t) c = Some (String.length s).
Proof.
  intros Ht. induction s as [|d s IH]; simpl.
  - rewrite LastIndexByte_free by done. by rewrite bool_decide_eq_true_2.
  - by rewrite IH.
Qed.

Lemma stripPort_none s : char_free colon s = true → stripPort s = s.
Proof. intros Hs. unfold stripPort, SplitHostPort. by rewrite LastIndexByte_free. Qed.

(** A host name: no colon and no bracket. *)
Definition plain_host (s : string) : bool :=
  char_free colon s && char_free lbracket s && char_free rbracket s.

Lemma plain_host_spec s :
  plain_host s = true ↔
  char_free colon s = true ∧ char_free lbracket s = true ∧ char_free rbracket s = true.
Proof. unfold plain_host. rewrite !andb_true_iff. tauto. Qed.

Lemma plain_host_app s t : plain_host (s +:+ t) = true ↔ plain_host s = true ∧ plain_host t = true.
Proof. rewrite !plain_host_spec, !char_free_app, !andb_true_iff. tauto. Qed.

Lemma HasPrefix_free c s t : char_free c s = true → s ≠ "" → HasPrefix (s +:+ t) (String c "") = false.
Proof.
  destruct s as [|d s]; [done|]. intros [Hd _]%char_free_cons _.
  apply not_true_is_false. rewrite HasPrefix_spec. by intros [? [= ? _]].
Qed.

Lemma stripPort_port s port :
  plain_host s = true → plain_host port = true →
  stripPort (s +:+ String colon port) = s.
Proof.
  intros (Hc & Hl & Hr)%plain_host_spec (Pc & Pl & Pr)%plain_host_spec.
  unfold stripPort, SplitHostPort. rewrite LastIndexByte_last by done.
  assert (HasPrefix (s +:+ String colon port) "[" = false) as ->.
  { destruct (decide (s = "")) as [->|]; [done | by apply HasPrefix_free]. }
  rewrite str_take_app, IndexByte_free by done. unfold finish_split. simpl str_drop.
  assert (∀ c, c ≠ colon → char_free c s = true → char_free c port = true →
    IndexByte (s +:+ String colon port) c = None) as Hi.
  { intros c Hne Hs Hp. apply IndexByte_free. rewrite char_free_app, Hs. simpl.
    by apply char_free_cons. }
  by rewrite !Hi.
Qed.

(** ** Host keys *)

(** A label a host key can be: what [HostKey] returns for a host below the root. *)
Definition host_label (k : string) : Prop :=
  k ≠ "" ∧ char_free "."%char k = true.

(** A root domain as validation expects it: trimmed, ASCII, lower case, no port. *)
Record root_ok (root : string) : Prop := {
  ro_trim : TrimSpace root = root;
  ro_ascii : is_ascii root = true;
  ro_lower : no_upper root = true;
  ro_host : plain_host root = true
}.

Section HostKeys.
  Context `{UnicodeTables}.

Lemma root_ok_lower root : root_ok root → ToLower (TrimSpace root) = root.
Proof. intros [-> Ha Hl _]. by apply ToLower_id. Qed.

(** What a successful [HostKey] says about the host it was given. *)
Lemma HostKey_ok_inv host root k :
  HostKey host root = Ok k →
  let h := ToLower (stripPort host) in
  let r := ToLower (TrimSpace root) in
  (k = "@" ∧ (h = r ∨ h = "." +:+ r)) ∨ (host_label k ∧ h = k +:+ ("." +:+ r)).
Proof.
  unfold HostKey. case_bool_decide as Hr; [intros [= <-]; auto|].
  intros Hg. apply guard_ok in Hg as [Hs Hg]. apply negb_false_iff in Hs.
  apply HasSuffix_spec in Hs as [t Ht].
  assert (TrimSuffix (ToLower (stripPort host)) ("." +:+ ToLower (TrimSpace root)) = t) as Htr.
  { rewrite Ht. apply TrimSuffix_app. }
  cbv zeta in Hg. rewrite Htr in Hg.
  case_bool_decide as Hsub.
  - injection Hg as <-. left. split; [done|]. right. by rewrite Ht, Hsub.
  - apply guard_ok in Hg as [Hc [= <-]]. right.
    split; [|done]. split; [done|]. by apply Contains_byte_false.
Qed.

(** On a host of the form [FQDN k root], with or without a port. *)
Lemma HostKey_of_lower host root k :
  host_label k → ToLower (stripPort host) = k +:+ ("." +:+ ToLower (TrimSpace root)) →
  HostKey host root = Ok k.
Proof.
  intros [Hne Hdot] Hh. unfold HostKey. rewrite Hh.
  rewrite bool_decide_eq_false_2.
  2: { intros E. apply (f_equal String.length) in E. rewrite !str_length_app in E. simpl in E. lia. }
  rewrite HasSuffix_app. cbn [negb]. rewrite TrimSuffix_app.
  rewrite bool_decide_eq_false_2 by done.
  by rewrite (proj2 (Contains_byte_false "."%char k)).
Qed.

(** A key as the registry may hold it: the apex or a lower-case ASCII label that
    can stand in a host name and is not the apex marker. *)
Definition routable_key (k : string) : Prop :=
  k = "@" ∨ (host_label k ∧ is_ascii k = true ∧ no_upper k = true ∧ plain_host k = true).

Lemma HostKey_FQDN_strip host k root :
  routable_key k → root_ok root → stripPort host = FQDN k root → HostKey host root = Ok k.
Proof.
  intros Hk Hroot Hs. pose proof (root_ok_lower root Hroot) as Hr. destruct Hroot as [_ Ha Hl _].
  unfold FQDN in Hs. destruct Hk as [->|(Hlab & Ka & Kl & Kh)].
  - simpl in Hs. unfold HostKey. rewrite Hs, Hr, ToLower_id by done.
    by rewrite bool_decide_eq_true_2.
  - case_bool_decide as E; [subst k; unfold HostKey; rewrite Hs, Hr, ToLower_id by done;
      by rewrite bool_decide_eq_true_2|].
    apply HostKey_of_lower; [done|]. rewrite Hs, Hr. apply ToLower_id.
    + rewrite !is_ascii_app, Ka, Ha. done.
    + rewrite !no_upper_app, Kl, Hl. done.
Qed.

Lemma plain_host_FQDN k root :
  routable_key k → plain_host root = true → plain_host (FQDN k root) = true.
Proof.
  intros Hk Hr. unfold FQDN. case_bool_decide; [done|].
  destruct Hk as [|(_ & _ & _ & Kh)]; [done|].
  apply plain_host_app. split; [done|]. by apply plain_host_app.
Qed.

(** Host keys and domain names are inverse: the domain name [FQDN] gives a
    routable key maps back to that key under [HostKey], with or without a port
    behind it. *)
Theorem HostKey_FQDN k root port :
  routable_key k → root_ok root → plain_host port = true →
  HostKey (FQDN k root) root = Ok k
  ∧ HostKey (FQDN k root +:+ String colon port) root = Ok k.
Proof.
  intros Hk Hr Hp. pose proof (plain_host_FQDN k root Hk (ro_host _ Hr)) as Hf.
  split; apply HostKey_FQDN_strip; try done.
  - apply stripPort_none. by apply plain_host_spec in Hf as (? & _).
  - by apply stripPort_port.
Qed.

(** A key [HostKey] returns is never empty, contains no dot, and contains no
    capital letter when the host is ASCII.  A binding whose subdomain is empty,
    dotted or written with a capital is therefore accepted by the configuration
    and never reached. *)
Theorem HostKey_shape host root k :
  is_ascii (stripPort host) = true → HostKey host root = Ok k →
  k ≠ "" ∧ char_free "."%char k = true ∧ no_upper k = true.
Proof.
  intros Ha [[-> _]|[[Hne Hd] Heq]]%HostKey_ok_inv; [done|].
  split_and!; [done | done |].
  pose proof (ToLower_no_upper _ Ha) as Hu. rewrite Heq, no_upper_app, andb_true_iff in Hu.
  by destruct Hu.
Qed.

(** The apex key stands for three host names, not one: the root domain, the
    root domain after a lone dot, and the name [@.root], which a client can
    send although no certificate and no DNS name exists for it. *)
Theorem HostKey_apex_aliases root :
  root_ok root →
  HostKey root root = Ok "@" ∧ HostKey ("." +:+ root) root = Ok "@"
  ∧ HostKey ("@." +:+ root) root = Ok "@".
Proof.
  intros Hroot. pose proof (root_ok_lower root Hroot) as Hr. destruct Hroot as [_ Ha Hl Hh].
  assert (∀ s, plain_host s = true → is_ascii s = true → no_upper s = true →
    ToLower (stripPort (s +:+ root)) = s +:+ root) as Hs.
  { intros s Hps Has Hls. rewrite stripPort_none.
    - apply ToLower_id; rewrite ?is_ascii_app, ?no_upper_app, ?Has, ?Hls; done.
    - by apply plain_host_spec, plain_host_app. }
  split_and!.
  - unfold HostKey. rewrite (Hs "" eq_refl eq_refl eq_refl : ToLower (stripPort root) = root), Hr.
    by rewrite bool_decide_eq_true_2.
  - unfold HostKey. rewrite (Hs ".") by done. rewrite Hr. case_bool_decide; [done|].
    assert (HasSuffix ("." +:+ root) ("." +:+ root) = true) as -> by apply (HasSuffix_app "").
    by assert (TrimSuffix ("." +:+ root) ("." +:+ root) = "") as -> by apply (TrimSuffix_app "").
  - apply HostKey_of_lower; [done|]. rewrite (Hs "@.") by done. by rewrite Hr.
Qed.

(** ** Certificates *)

(** Whenever the policy lets a certificate be issued, the name is the domain name
    of a registered host key. *)
Lemma AllowedHosts_sound `{HostLister R} (reg : R) root host :
  AllowedHosts reg root host = true →
  ∃ k, k ∈ Subdomains reg ∧ stripPort (ToLower host) = FQDN k (ToLower root).
Proof.
  unfold AllowedHosts. destruct (HostKey _ _) as [k|]; [|done].
  case_bool_decide as Hk; [|done]. intros Ha. exists k. split; [done|].
  unfold FQDN. by case_bool_decide; apply bool_decide_eq_true in Ha.
Qed.

Lemma stripPort_idem_plain s : plain_host s = true → stripPort s = s.
Proof. intros (Hc & _)%plain_host_spec. by apply stripPort_none. Qed.

Lemma host_policy_exact `{HostLister R} (reg : R) root host :
  root_ok root → Forall routable_key (Subdomains reg) →
  (HostPolicyFunc reg root host = None ↔
   ∃ k, k ∈ Subdomains reg ∧ stripPort (ToLower host) = FQDN k root).
Proof.
  intros Hroot Hreg. unfold HostPolicyFunc.
  assert (ToLower root = root) as Hlow by by destruct Hroot; apply ToLower_id.
  split.
  - destruct (AllowedHosts reg root host) eqn:E; [|done]. intros _.
    apply AllowedHosts_sound in E. by rewrite Hlow in E.
  - intros (k & Hk & Hh).
    assert (routable_key k) as Hrk by by eapply Forall_forall.
    pose proof (plain_host_FQDN k root Hrk (ro_host _ Hroot)) as Hp.
    enough (AllowedHosts reg root host = true) as -> by done.
    unfold AllowedHosts. rewrite Hlow, Hh.
    rewrite (HostKey_FQDN_strip (FQDN k root) k root); [|done|done|by apply stripPort_idem_plain].
    rewrite bool_decide_eq_true_2 by done. unfold FQDN.
    by case_bool_decide; apply bool_decide_eq_true.
Qed.

(** C28: with a root domain in canonical form and routable names in the registry,
    autocert is allowed exactly the domain names of the registered host keys
    (up to letter case and a port): no certificate is issued for any other name,
    and none is refused to a registered one. *)
Theorem HostPolicy_exact `{HostLister R} (reg : R) root host :
  root_ok root → Forall routable_key (Subdomains reg) →
  (HostPolicyFunc reg root host = None ↔
   ∃ k, k ∈ Subdomains reg ∧ stripPort (ToLower host) = FQDN k root).
Proof. apply host_policy_exact. Qed.

End HostKeys.

(** ** Witnesses *)

Definition ascii_tables : UnicodeTables := {| unicode_ToLower s := s |}.

#[local] Existing Instance ascii_tables.

Lemma example_root_ok : root_ok "builderrors.com".
Proof. constructor; vm_compute; reflexivity. Qed.

Lemma example_key_ok : routable_key "myapp".
Proof. right. repeat split; vm_compute; congruence. Qed.

Lemma HostKey_FQDN_witness :
  HostKey (FQDN "myapp" "builderrors.com") "builderrors.com" = Ok "myapp"
  ∧ HostKey "myapp.builderrors.com:443" "builderrors.com" = Ok "myapp".
Proof.
  apply (HostKey_FQDN "myapp" "builderrors.com" "443").
  - exact example_key_ok.
  - exact example_root_ok.
  - vm_compute. reflexivity.
Defined.

Lemma HostKey_shape_witness :
  "myapp" ≠ "" ∧ char_free "."%char "myapp" = true ∧ no_upper "myapp" = true.
Proof.
  apply (HostKey_shape "MyApp.BuildErrors.com:443" " builderrors.com" "myapp").
  - vm_compute. reflexivity.
  - vm_compute. reflexivity.
Defined.

Lemma HostKey_apex_aliases_witness :
  HostKey "builderrors.com" "builderrors.com" = Ok "@"
  ∧ HostKey ".builderrors.com" "builderrors.com" = Ok "@"
  ∧ HostKey "@.builderrors.com" "builderrors.com" = Ok "@".
Proof. apply (HostKey_apex_aliases "builderrors.com"). exact example_root_ok. Defined.

Definition list_lister : HostLister (list string) := {| Subdomains l := l |}.

Lemma HostPolicy_exact_witness :
  @HostPolicyFunc _ (list string) list_lister ["@"; "myapp"] "builderrors.com"
    "MYAPP.builderrors.com" = None ↔
  ∃ k, k ∈ ["@"; "myapp"] ∧ "myapp.builderrors.com" = FQDN k "builderrors.com".
Proof.
  apply (@HostPolicy_exact _ (list string) list_lister ["@"; "myapp"] "builderrors.com"
           "MYAPP.builderrors.com").
  - exact example_root_ok.
  - constructor; [by left|]. constructor; [exact example_key_ok|]. constructor.
Defined.
