(* ===== verification/Registry.v ===== *)
(** internal/registry: client tunnels, tunnel pools and the registry, on an
    explicit heap.  A [*ClientTunnel] is a [tref] and a [*TunnelPool] a [pref]
    into the store, so the aliasing between the pools, the session index and the
    goroutines that drain replaced tunnels is that of the code. *)

From S2P Require Import Prelude GoStrings Config Host.

(** ** The pollmux and yamux objects a tunnel holds *)

(** Sessions are objects of other modules: their state is the [world]. *)
Class Transport := {
  session : Type;
  yamux : Type;
  world : Type;
  Session_ID : session → string;
  Session_Meta : session → gmap string string;
  Session_IsClosed : world → session → bool;
  Session_Close : world → session → world;
  Yamux_IsClosed : world → yamux → bool;
  Yamux_Close : world → yamux → world * option string;
  Yamux_Open : world → yamux → world * option string
}.

(** Documented behaviour: a closed session stays closed, and [Close] closes. *)
Class TransportOk `{Transport} : Prop := {
  session_close_closes w s : Session_IsClosed (Session_Close w s) s = true;
  yamux_close_closes w y : Yamux_IsClosed (Yamux_Close w y).1 y = true;
  session_close_keeps_yamux w s y :
    Yamux_IsClosed w y = true → Yamux_IsClosed (Session_Close w s) y = true
}.

Definition tref : Type := nat.
Definition pref : Type := nat.

(** [ErrPoolFull]. *)
Inductive reg_error := ErrPoolFull.

Inductive Balancer := firstAvailable.

Definition defaultSupersedeDrainTimeout : Z := 10 * Minute.

Section Registry.
  Context `{Transport}.

(** ** State *)

Record ClientTunnel := mkTunnel {
  ct_ID : string;
  ct_Subdomain : string;
  ct_Session : option session;
  ct_Yamux : option yamux;
  ct_ConnectedAt : Z;
  ct_RemoteAddr : string;
  ct_LocalHealthy : bool;
  ct_Draining : bool;
  ct_Closed : bool;
  ct_ActiveStreams : Z
}.

Record TunnelPool := mkPool {
  tp_members : list tref;
  tp_bal : option Balancer
}.

Record Reg := mkReg {
  byName : gmap string pref;
  bySess : gmap string tref;
  supersedeDrainTimeout : Z
}.

(** Where a drain goroutine stands: not yet run, or asleep until [wake]. *)
Inductive drain_pc :=
| DStart (timeout : Z)
| DLoop (deadline wake : Z).

(** The heap, the registry and the drain goroutines that were started. *)
Record store := mkStore {
  s_world : world;
  s_tunnels : gmap tref ClientTunnel;
  s_nexttunnel : tref;
  s_pools : gmap pref TunnelPool;
  s_nextpool : pref;
  s_drains : list (tref * drain_pc);
  s_reg : Reg
}.

Definition zero_tunnel : ClientTunnel :=
  mkTunnel "" "" None None 0 "" false false false 0.

Definition nil_pool : TunnelPool := mkPool [] None.

(** Dereferencing; the invariant says the references in use are allocated. *)
Definition tunnel (s : store) (t : tref) : ClientTunnel := default zero_tunnel (s_tunnels s !! t).
Definition pool (s : store) (p : pref) : TunnelPool := default nil_pool (s_pools s !! p).

(** Assignments. *)
Definition set_world (w : world) (s : store) : store :=
  mkStore w (s_tunnels s) (s_nexttunnel s) (s_pools s) (s_nextpool s) (s_drains s) (s_reg s).
Definition set_tunnel (t : tref) (c : ClientTunnel) (s : store) : store :=
  mkStore (s_world s) (<[t := c]> (s_tunnels s)) (s_nexttunnel s) (s_pools s) (s_nextpool s)
    (s_drains s) (s_reg s).
Definition set_pool (p : pref) (tp : TunnelPool) (s : store) : store :=
  mkStore (s_world s) (s_tunnels s) (s_nexttunnel s) (<[p := tp]> (s_pools s)) (s_nextpool s)
    (s_drains s) (s_reg s).
Definition set_drains (l : list (tref * drain_pc)) (s : store) : store :=
  mkStore (s_world s) (s_tunnels s) (s_nexttunnel s) (s_pools s) (s_nextpool s) l (s_reg s).
Definition set_reg (r : Reg) (s : store) : store :=
  mkStore (s_world s) (s_tunnels s) (s_nexttunnel s) (s_pools s) (s_nextpool s) (s_drains s) r.
Definition set_byName (m : gmap string pref) (s : store) : store :=
  set_reg (mkReg m (bySess (s_reg s)) (supersedeDrainTimeout (s_reg s))) s.
Definition set_bySess (m : gmap string tref) (s : store) : store :=
  set_reg (mkReg (byName (s_reg s)) m (supersedeDrainTimeout (s_reg s))) s.

(** [&ClientTunnel{...}] and [&TunnelPool{...}]. *)
Definition new_tunnel (c : ClientTunnel) (s : store) : store * tref :=
  (mkStore (s_world s) (<[s_nexttunnel s := c]> (s_tunnels s)) (S (s_nexttunnel s)) (s_pools s)
     (s_nextpool s) (s_drains s) (s_reg s), s_nexttunnel s).
Definition new_pool (tp : TunnelPool) (s : store) : store * pref :=
  (mkStore (s_world s) (s_tunnels s) (s_nexttunnel s) (<[s_nextpool s := tp]> (s_pools s))
     (S (s_nextpool s)) (s_drains s) (s_reg s), s_nextpool s).

(** The atomic fields of a tunnel. *)
Definition store_LocalHealthy (b : bool) (c : ClientTunnel) : ClientTunnel :=
  mkTunnel (ct_ID c) (ct_Subdomain c) (ct_Session c) (ct_Yamux c) (ct_ConnectedAt c)
    (ct_RemoteAddr c) b (ct_Draining c) (ct_Closed c) (ct_ActiveStreams c).
Definition store_Draining (b : bool) (c : ClientTunnel) : ClientTunnel :=
  mkTunnel (ct_ID c) (ct_Subdomain c) (ct_Session c) (ct_Yamux c) (ct_ConnectedAt c)
    (ct_RemoteAddr c) (ct_LocalHealthy c) b (ct_Closed c) (ct_ActiveStreams c).
Definition store_Closed (b : bool) (c : ClientTunnel) : ClientTunnel :=
  mkTunnel (ct_ID c) (ct_Subdomain c) (ct_Session c) (ct_Yamux c) (ct_ConnectedAt c)
    (ct_RemoteAddr c) (ct_LocalHealthy c) (ct_Draining c) b (ct_ActiveStreams c).
Definition add_ActiveStreams (d : Z) (c : ClientTunnel) : ClientTunnel :=
  mkTunnel (ct_ID c) (ct_Subdomain c) (ct_Session c) (ct_Yamux c) (ct_ConnectedAt c)
    (ct_RemoteAddr c) (ct_LocalHealthy c) (ct_Draining c) (ct_Closed c)
    (wrap64 (ct_ActiveStreams c + d)).

Definition upd_tunnel (t : tref) (f : ClientTunnel → ClientTunnel) (s : store) : store :=
  set_tunnel t (f (tunnel s t)) s.

(** ** registry.go: [ClientTunnel] *)

Definition Alive (s : store) (t : tref) : bool :=
  match ct_Yamux (tunnel s t) with
  | None => false
  | Some y =>
      if Yamux_IsClosed (s_world s) y then false
      else match ct_Session (tunnel s t) with
           | None => false
           | Some se => negb (Session_IsClosed (s_world s) se)
           end
  end.

Definition Close (s : store) (t : tref) : store * option string :=
  let s := upd_tunnel t (store_Closed true) s in
  let '(s, err) := match ct_Yamux (tunnel s t) with
                   | None => (s, None)
                   | Some y => let '(w, e) := Yamux_Close (s_world s) y in (set_world w s, e)
                   end in
  let s := match ct_Session (tunnel s t) with
           | None => s
           | Some se => set_world (Session_Close (s_world s) se) s
           end in
  (s, err).

(** ** pool.go *)

(** [firstAvailable.Pick]. *)
Fixpoint first_available (s : store) (members : list tref) : option tref :=
  match members with
  | [] => None
  | m :: rest =>
      if Alive s m && ct_LocalHealthy (tunnel s m) && negb (ct_Draining (tunnel s m))
      then Some m else first_available s rest
  end.

Definition Balancer_Pick (b : Balancer) (s : store) (members : list tref) : option tref :=
  match b with firstAvailable => first_available s members end.

(** [beginSupersedeDrain]: the flag is set before the goroutine is started. *)
Definition beginSupersedeDrain (old : tref) (drainTimeout : Z) (s : store) : store :=
  let drainTimeout :=
    if Z.leb drainTimeout 0 then defaultSupersedeDrainTimeout else drainTimeout in
  let s := upd_tunnel old (store_Draining true) s in
  set_drains (s_drains s ++ [(old, DStart drainTimeout)]) s.

(** Index and reference of the first member with an id. *)
Fixpoint find_id (s : store) (id : string) (members : list tref) : option (nat * tref) :=
  match members with
  | [] => None
  | m :: rest =>
      if bool_decide (ct_ID (tunnel s m) = id) then Some (0, m)
      else prod_map S (λ x, x) <$> find_id s id rest
  end.

Definition Add (p : pref) (t : tref) (max : Z) (drainTimeout : Z) (s : store)
    : store * result reg_error unit :=
  let tp := pool s p in
  match find_id s (ct_ID (tunnel s t)) (tp_members tp) with
  | Some (i, old) =>
      let s := set_pool p (mkPool (<[i := t]> (tp_members tp)) (tp_bal tp)) s in
      (beginSupersedeDrain old drainTimeout s, Ok tt)
  | None =>
      if Z.leb max (Z.of_nat (length (tp_members tp))) then (s, Err ErrPoolFull)
      else (set_pool p (mkPool (tp_members tp ++ [t]) (tp_bal tp)) s, Ok tt)
  end.

Definition Remove (p : pref) (id : string) (s : store) : store :=
  let tp := pool s p in
  match find_id s id (tp_members tp) with
  | Some (i, _) =>
      set_pool p (mkPool (take i (tp_members tp) ++ drop (S i) (tp_members tp)) (tp_bal tp)) s
  | None => s
  end.

Definition Pick (p : pref) (s : store) : store * option tref :=
  let tp := pool s p in
  let bal := default firstAvailable (tp_bal tp) in
  (set_pool p (mkPool (tp_members tp) (Some bal)) s, Balancer_Pick bal s (tp_members tp)).

Definition ByID (p : pref) (id : string) (s : store) : option tref :=
  snd <$> find_id s id (tp_members (pool s p)).

Definition Len (p : pref) (s : store) : Z := Z.of_nat (length (tp_members (pool s p))).

Definition Members (p : pref) (s : store) : list tref := tp_members (pool s p).

Definition CountAlive (p : pref) (s : store) : Z :=
  fold_left (λ n m, if Alive s m then n + 1 else n)%Z (tp_members (pool s p)) 0%Z.

(** ** registry.go: [Registry] *)

Definition NewRegistry (drainTimeout : Z) : Reg :=
  mkReg ∅ ∅ (if Z.leb drainTimeout 0 then defaultSupersedeDrainTimeout else drainTimeout).

Definition EnsurePool (subdomain : string) (s : store) : store * pref :=
  match byName (s_reg s) !! subdomain with
  | Some p => (s, p)
  | None =>
      let '(s, p) := new_pool (mkPool [] (Some firstAvailable)) s in
      (set_byName (<[subdomain := p]> (byName (s_reg s))) s, p)
  end.

(** [delete(r.bySess, old.Session.ID)] for a member that is about to be replaced. *)
Definition drop_old_session (p : pref) (id : string) (s : store) : store :=
  match ByID p id s with
  | None => s
  | Some old =>
      match ct_Session (tunnel s old) with
      | None => s
      | Some se => set_bySess (delete (Session_ID se) (bySess (s_reg s))) s
      end
  end.

Definition Register (t : tref) (maxPerSubdomain : Z) (s : store) : store * result reg_error unit :=
  let '(s, p) := EnsurePool (ct_Subdomain (tunnel s t)) s in
  let s := drop_old_session p (ct_ID (tunnel s t)) s in
  match Add p t maxPerSubdomain (supersedeDrainTimeout (s_reg s)) s with
  | (s, Err e) => (s, Err e)
  | (s, Ok _) =>
      let s := upd_tunnel t (store_LocalHealthy true) s in
      let s := match ct_Session (tunnel s t) with
               | None => s
               | Some se => set_bySess (<[Session_ID se := t]> (bySess (s_reg s))) s
               end in
      (s, Ok tt)
  end.

Definition GetBySessionID (id : string) (s : store) : option tref := bySess (s_reg s) !! id.

Definition Pool (subdomain : string) (s : store) : option pref := byName (s_reg s) !! subdomain.

(** [range r.byName] in some order. *)
Definition reg_Subdomains (s : store) : list string := (map_to_list (byName (s_reg s))).*1.

Definition SetLocalHealth (sub clientID : string) (ok : bool) (s : store) : store :=
  match Pool sub s with
  | None => s
  | Some p =>
      match ByID p clientID s with
      | None => s
      | Some t => upd_tunnel t (store_LocalHealthy ok) s
      end
  end.

Definition RemoveBySessionID (sessionID : string) (s : store) : store :=
  match bySess (s_reg s) !! sessionID with
  | None => s
  | Some t =>
      let s := set_bySess (delete sessionID (bySess (s_reg s))) s in
      match byName (s_reg s) !! ct_Subdomain (tunnel s t) with
      | None => s
      | Some p => Remove p (ct_ID (tunnel s t)) s
      end
  end.

(** ** [bridge.go]: streams over a tunnel *)

(** [OpenStream]; a nil [Yamux] would panic, which [None] stands for. *)
Definition OpenStream (t : tref) (s : store) : option (store * option string) :=
  match ct_Yamux (tunnel s t) with
  | None => None
  | Some y =>
      let '(w, err) := Yamux_Open (s_world s) y in
      let s := set_world w s in
      match err with
      | Some e => Some (s, Some e)
      | None => Some (upd_tunnel t (add_ActiveStreams 1) s, None)
      end
  end.

(** [countedConn.Close], after the wrapped connection has been closed. *)
Definition countedConn_Close (t : tref) (s : store) : store :=
  upd_tunnel t (add_ActiveStreams (-1)) s.

(** ** The drain goroutine of [beginSupersedeDrain] *)

Definition drain_interval : Z := 100 * Millisecond.

(** The loop test and body at time [now]: close the tunnel and finish, or sleep. *)
Definition drain_check (now : Z) (t : tref) (deadline : Z) (s : store)
    : store * option drain_pc :=
  if Z.ltb now deadline then
    if bool_decide (ct_ActiveStreams (tunnel s t) = 0%Z) then ((Close s t).1, None)
    else (s, Some (DLoop deadline (now + drain_interval)))
  else ((Close s t).1, None).

Definition drain_run (now : Z) (t : tref) (pc : drain_pc) (s : store) : store * option drain_pc :=
  match pc with
  | DStart timeout => drain_check now t (now + timeout) s
  | DLoop deadline wake => if Z.ltb now wake then (s, Some pc) else drain_check now t deadline s
  end.

End Registry.

Arguments store {_}.
Arguments ClientTunnel {_}.

#[export] Instance Registry_HostLister `{Transport} : HostLister store :=
  {| Subdomains := reg_Subdomains |}.
