(* ===== verification/RegistryInv.v ===== *)
(** What the registry guarantees: its invariant, the map from a subdomain and a client id
    to the tunnel that currently serves it, and the operations that leave both as they
    are ([same_reg]). *)

From S2P Require Import Prelude GoStrings Config Host Registry.

Section RegistryInv.
  Context `{Transport}.

(** ** The abstract view *)

(** The tunnel that currently stands for a client of a subdomain. *)
Definition current (s : store) (sub id : string) : option tref :=
  p ← Pool sub s; ByID p id s.

Definition ids (s : store) (l : list tref) : list string := map (λ t, ct_ID (tunnel s t)) l.

(** ** The invariant *)

Record reg_inv (s : store) : Prop := {
  ri_tunnels (t : tref) : s_nexttunnel s ≤ t → s_tunnels s !! t = None;
  ri_pools (p : pref) : s_nextpool s ≤ p → s_pools s !! p = None;
  ri_inj n1 n2 p : Pool n1 s = Some p → Pool n2 s = Some p → n1 = n2;
  ri_pool n p : Pool n s = Some p → is_Some (s_pools s !! p);
  ri_mem n p t : Pool n s = Some p → t ∈ Members p s →
    is_Some (s_tunnels s !! t) ∧ ct_Subdomain (tunnel s t) = n
    ∧ ct_Draining (tunnel s t) = false;
  ri_nodup n p : Pool n s = Some p → NoDup (ids s (Members p s));
  ri_sess sid t : GetBySessionID sid s = Some t →
    ∃ se p, ct_Session (tunnel s t) = Some se ∧ Session_ID se = sid
      ∧ Pool (ct_Subdomain (tunnel s t)) s = Some p ∧ t ∈ Members p s;
  ri_back n p t se : Pool n s = Some p → t ∈ Members p s →
    ct_Session (tunnel s t) = Some se → GetBySessionID (Session_ID se) s = Some t;
  ri_drains t pc : (t, pc) ∈ s_drains s →
    is_Some (s_tunnels s !! t) ∧ ct_Draining (tunnel s t) = true
}.

(** A tunnel object that [onConnect] has just made: allocated, in no pool, with a
    session whose id no registered session has (pollmux draws ids at random). *)
Record fresh_tunnel (s : store) (t : tref) : Prop := {
  ft_alloc : is_Some (s_tunnels s !! t);
  ft_pool n p : Pool n s = Some p → t ∉ Members p s;
  ft_draining : ct_Draining (tunnel s t) = false;
  ft_session se : ct_Session (tunnel s t) = Some se → GetBySessionID (Session_ID se) s = None
}.

(** ** Reading the store after an assignment *)

Lemma tunnel_set_tunnel t c s x :
  tunnel (set_tunnel t c s) x = if decide (t = x) then c else tunnel s x.
Proof. unfold tunnel. simpl. rewrite lookup_insert. by case_decide. Qed.

Lemma pool_set_pool p tp s x :
  pool (set_pool p tp s) x = if decide (p = x) then tp else pool s x.
Proof. unfold pool. simpl. rewrite lookup_insert. by case_decide. Qed.

(** [f] changes none of the fields the registry indexes by. *)
Record keeps (f : ClientTunnel → ClientTunnel) : Prop := {
  kp_id c : ct_ID (f c) = ct_ID c;
  kp_sub c : ct_Subdomain (f c) = ct_Subdomain c;
  kp_sess c : ct_Session (f c) = ct_Session c;
  kp_yamux c : ct_Yamux (f c) = ct_Yamux c
}.

Lemma keeps_LocalHealthy b : keeps (store_LocalHealthy b).
Proof. by constructor. Qed.
Lemma keeps_Draining b : keeps (store_Draining b).
Proof. by constructor. Qed.
Lemma keeps_Closed b : keeps (store_Closed b).
Proof. by constructor. Qed.
Lemma keeps_ActiveStreams d : keeps (add_ActiveStreams d).
Proof. by constructor. Qed.

(** ** [find_id] *)

Lemma find_id_Some s id l i t :
  find_id s id l = Some (i, t) → l !! i = Some t ∧ ct_ID (tunnel s t) = id.
Proof.
  revert i. induction l as [|m l IH]; intros i; simpl; [done|].
  case_bool_decide as Hm; [by intros [= <- <-]|].
  destruct (find_id s id l) as [[j u]|]; [|done]. intros [= <- ->]. by apply IH.
Qed.

Lemma find_id_None s id l : find_id s id l = None ↔ id ∉ ids s l.
Proof.
  induction l as [|m l IH]; simpl; [split; [set_solver | done]|].
  rewrite not_elem_of_cons. case_bool_decide as Hm; [split; [done | by intros [? _]]|].
  destruct (find_id s id l) as [[j u]|]; simpl.
  - split; [done|]. intros [_ Hn]. by apply IH in Hn.
  - split; [|done]. intros _. split; [congruence | by apply IH].
Qed.

(** [find_id] reads only the ids. *)
Lemma find_id_ext s s' id l :
  (∀ x, ct_ID (tunnel s' x) = ct_ID (tunnel s x)) → find_id s' id l = find_id s id l.
Proof. intros Hs. induction l as [|t l IH]; simpl; [done|]. by rewrite Hs, IH. Qed.

Lemma ids_lookup_inj s l i j t u :
  NoDup (ids s l) → l !! i = Some t → l !! j = Some u →
  ct_ID (tunnel s t) = ct_ID (tunnel s u) → i = j.
Proof.
  intros Hnd Hi Hj He. eapply (NoDup_lookup (ids s l)); [done| |].
  - unfold ids. by rewrite list_lookup_fmap, Hi.
  - unfold ids. by rewrite list_lookup_fmap, Hj, He.
Qed.

Lemma find_id_member s l t :
  NoDup (ids s l) → t ∈ l → ∃ i, find_id s (ct_ID (tunnel s t)) l = Some (i, t).
Proof.
  intros Hnd [k Hk]%list_elem_of_lookup.
  destruct (find_id s (ct_ID (tunnel s t)) l) as [[i u]|] eqn:E.
  - apply find_id_Some in E as [Hi Hu].
    assert (i = k) as -> by (eapply ids_lookup_inj; eauto). exists k.
    by rewrite Hk in Hi; injection Hi as ->.
  - apply find_id_None in E. exfalso. apply E.
    apply (list_elem_of_fmap_2 (λ t, ct_ID (tunnel s t))). by eapply list_elem_of_lookup_2.
Qed.

Lemma find_id_iff s id l t :
  NoDup (ids s l) → (snd <$> find_id s id l = Some t ↔ t ∈ l ∧ ct_ID (tunnel s t) = id).
Proof.
  intros Hnd. split.
  - destruct (find_id s id l) as [[i u]|] eqn:E; [|done]. simpl. intros [= ->].
    apply find_id_Some in E as [Hi Hu]. split; [by eapply list_elem_of_lookup_2 | done].
  - intros [Ht <-]. by destruct (find_id_member s l t Hnd Ht) as [i ->].
Qed.

Lemma current_iff s sub id t :
  reg_inv s →
  (current s sub id = Some t ↔
   ∃ p, Pool sub s = Some p ∧ t ∈ Members p s ∧ ct_ID (tunnel s t) = id).
Proof.
  intros Hinv. unfold current. destruct (Pool sub s) as [p|] eqn:Hp; simpl.
  - unfold ByID. rewrite find_id_iff by by eapply ri_nodup. unfold Members.
    split; [eauto | by intros (p' & [= <-] & ?)].
  - split; [done | by intros (p' & ? & _)].
Qed.

(** ** Operations that leave the registry's own data alone *)

Record same_reg (s s' : store) : Prop := {
  sr_tunnels x : is_Some (s_tunnels s' !! x) ↔ is_Some (s_tunnels s !! x);
  sr_fields x : ct_ID (tunnel s' x) = ct_ID (tunnel s x)
    ∧ ct_Subdomain (tunnel s' x) = ct_Subdomain (tunnel s x)
    ∧ ct_Session (tunnel s' x) = ct_Session (tunnel s x)
    ∧ ct_Draining (tunnel s' x) = ct_Draining (tunnel s x);
  sr_nexttunnel : s_nexttunnel s' = s_nexttunnel s;
  sr_nextpool : s_nextpool s' = s_nextpool s;
  sr_pools x : is_Some (s_pools s' !! x) ↔ is_Some (s_pools s !! x);
  sr_members x : Members x s' = Members x s;
  sr_drains x pc : (x, pc) ∈ s_drains s' → ∃ pc', (x, pc') ∈ s_drains s;
  sr_reg : s_reg s' = s_reg s
}.

#[export] Instance same_reg_refl : Reflexive same_reg.
Proof. constructor; eauto; try done. Qed.

#[export] Instance same_reg_trans : Transitive same_reg.
Proof.
  intros s1 s2 s3 H12 H23. constructor.
  - intros x. by rewrite (sr_tunnels _ _ H23), (sr_tunnels _ _ H12).
  - intros x. destruct (sr_fields _ _ H23 x) as (-> & -> & -> & ->). apply (sr_fields _ _ H12).
  - by rewrite (sr_nexttunnel _ _ H23), (sr_nexttunnel _ _ H12).
  - by rewrite (sr_nextpool _ _ H23), (sr_nextpool _ _ H12).
  - intros x. by rewrite (sr_pools _ _ H23), (sr_pools _ _ H12).
  - intros x. by rewrite (sr_members _ _ H23), (sr_members _ _ H12).
  - intros x pc Hx. apply (sr_drains _ _ H23) in Hx as [pc' Hx]. by eapply sr_drains.
  - by rewrite (sr_reg _ _ H23), (sr_reg _ _ H12).
Qed.

Lemma is_Some_insert_alloc {A} (m : gmap nat A) i v x :
  is_Some (m !! i) → (is_Some (<[i := v]> m !! x) ↔ is_Some (m !! x)).
Proof.
  intros Hi. rewrite lookup_insert_is_Some'. split; [intros [->|?]; done | by right].
Qed.

Lemma same_reg_upd t f s :
  keeps f → (∀ c, ct_Draining (f c) = ct_Draining c) → is_Some (s_tunnels s !! t) →
  same_reg s (upd_tunnel t f s).
Proof.
  intros Hf Hd Ht. constructor; eauto; try done.
  - intros x. by apply is_Some_insert_alloc.
  - intros x. unfold upd_tunnel. rewrite tunnel_set_tunnel. case_decide; [|done]. subst x.
    by rewrite (kp_id _ Hf), (kp_sub _ Hf), (kp_sess _ Hf), Hd.
Qed.

Lemma same_reg_world w s : same_reg s (set_world w s).
Proof. constructor; eauto; done. Qed.

Lemma reg_inv_same s s' : same_reg s s' → reg_inv s → reg_inv s'.
Proof.
  intros Hs Hinv.
  assert (∀ n, Pool n s' = Pool n s) as HP by (intros n; unfold Pool; by rewrite (sr_reg _ _ Hs)).
  assert (∀ i, GetBySessionID i s' = GetBySessionID i s) as HG
    by (intros n; unfold GetBySessionID; by rewrite (sr_reg _ _ Hs)).
  constructor.
  - intros t. rewrite (sr_nexttunnel _ _ Hs), !eq_None_not_Some, (sr_tunnels _ _ Hs).
    rewrite <-eq_None_not_Some. apply (ri_tunnels s Hinv).
  - intros t. rewrite (sr_nextpool _ _ Hs), !eq_None_not_Some, (sr_pools _ _ Hs).
    rewrite <-eq_None_not_Some. apply (ri_pools s Hinv).
  - intros n1 n2 p. rewrite !HP. apply (ri_inj s Hinv).
  - intros n p. rewrite HP, (sr_pools _ _ Hs). apply (ri_pool s Hinv).
  - intros n p t. rewrite HP, (sr_members _ _ Hs), (sr_tunnels _ _ Hs).
    destruct (sr_fields _ _ Hs t) as (_ & -> & _ & ->). apply (ri_mem s Hinv).
  - intros n p. rewrite HP, (sr_members _ _ Hs). intros Hp.
    replace (ids s' (Members p s)) with (ids s (Members p s)); [by eapply ri_nodup|].
    apply map_ext. intros t. by destruct (sr_fields _ _ Hs t) as (-> & _).
  - intros sid t. rewrite HG. destruct (sr_fields _ _ Hs t) as (_ & -> & -> & _).
    setoid_rewrite HP. setoid_rewrite (sr_members _ _ Hs). apply (ri_sess s Hinv).
  - intros n p t se. rewrite HP, (sr_members _ _ Hs), HG.
    destruct (sr_fields _ _ Hs t) as (_ & _ & -> & _). apply (ri_back s Hinv).
  - intros t pc Ht. apply (sr_drains _ _ Hs) in Ht as [pc' Ht].
    rewrite (sr_tunnels _ _ Hs). destruct (sr_fields _ _ Hs t) as (_ & _ & _ & ->).
    by eapply ri_drains.
Qed.

Lemma current_same s s' sub id : same_reg s s' → current s' sub id = current s sub id.
Proof.
  intros Hs. unfold current, Pool, ByID. rewrite (sr_reg _ _ Hs).
  destruct (byName (s_reg s) !! sub) as [p|]; simpl; [|done].
  pose proof (sr_members _ _ Hs p) as Hm. unfold Members in Hm. rewrite Hm.
  rewrite (find_id_ext s s'); [done|]. apply (sr_fields _ _ Hs).
Qed.

Lemma Close_same s t : is_Some (s_tunnels s !! t) → same_reg s (Close s t).1.
Proof.
  intros Ht. unfold Close.
  transitivity (upd_tunnel t (store_Closed true) s).
  { apply same_reg_upd; [apply keeps_Closed | done | done]. }
  set (s1 := upd_tunnel t (store_Closed true) s). clearbody s1.
  destruct (ct_Yamux (tunnel s1 t)) as [y|].
  - destruct (Yamux_Close (s_world s1) y) as [w e]. simpl.
    destruct (ct_Session (tunnel (set_world w s1) t)) as [se|]; simpl.
    + by transitivity (set_world w s1); apply same_reg_world.
    + apply same_reg_world.
  - simpl. destruct (ct_Session (tunnel s1 t)) as [se|]; [apply same_reg_world | reflexivity].
Qed.

Lemma SetLocalHealth_same s sub id ok : reg_inv s → same_reg s (SetLocalHealth sub id ok s).
Proof.
  intros Hinv. unfold SetLocalHealth. destruct (Pool sub s) as [p|] eqn:Hp; [|reflexivity].
  unfold ByID. destruct (find_id s id (tp_members (pool s p))) as [[i t]|] eqn:E; [|reflexivity].
  apply same_reg_upd; [apply keeps_LocalHealthy | done|].
  apply find_id_Some in E as [E _]. apply (ri_mem s Hinv sub p); [done|].
  by eapply list_elem_of_lookup_2.
Qed.

Lemma Pick_same s p : is_Some (s_pools s !! p) → same_reg s (Pick p s).1.
Proof.
  intros Hp. constructor; eauto; try done.
  - intros x. by apply is_Some_insert_alloc.
  - intros x. unfold Members. simpl. rewrite pool_set_pool. case_decide; [by subst | done].
Qed.

Lemma OpenStream_same s t s' e :
  is_Some (s_tunnels s !! t) → OpenStream t s = Some (s', e) → same_reg s s'.
Proof.
  unfold OpenStream. intros Ht. destruct (ct_Yamux (tunnel s t)) as [y|]; [|done].
  destruct (Yamux_Open (s_world s) y) as [w [err|]]; intros [= <- <-]; [apply same_reg_world|].
  transitivity (set_world w s); [apply same_reg_world|].
  apply same_reg_upd; [apply keeps_ActiveStreams | done | done].
Qed.

Lemma countedConn_Close_same s t :
  is_Some (s_tunnels s !! t) → same_reg s (countedConn_Close t s).
Proof. intros Ht. apply same_reg_upd; [apply keeps_ActiveStreams | done | done]. Qed.

Lemma drain_run_same s now t pc :
  is_Some (s_tunnels s !! t) → same_reg s (drain_run now t pc s).1.
Proof.
  intros Ht. assert (∀ d, same_reg s (drain_check now t d s).1) as Hc.
  { intros d. unfold drain_check. repeat case_match; simpl; try reflexivity; by apply Close_same. }
  destruct pc; simpl; [apply Hc|]. case_match; [reflexivity | apply Hc].
Qed.

Lemma Close_drains s t : s_drains (Close s t).1 = s_drains s.
Proof. unfold Close. repeat case_match; by simplify_eq/=. Qed.

Lemma drain_run_drains s now t pc : s_drains (drain_run now t pc s).1 = s_drains s.
Proof.
  assert (∀ d, s_drains (drain_check now t d s).1 = s_drains s) as Hc.
  { intros d. unfold drain_check. repeat case_match; simpl; try done; apply Close_drains. }
  destruct pc; simpl; [apply Hc|]. case_match; [done | apply Hc].
Qed.

End RegistryInv.
