(* ===== verification/RegistryOps.v ===== *)
(** The operations of the registry that change its pools and its session index:
    [EnsurePool] and [Register], each shown to keep the
    invariant, with its effect on the map of current tunnels. *)

From S2P Require Import Prelude GoStrings Config Host Registry RegistryInv.

Section RegistryOps.
  Context `{Transport}.

(** ** [EnsurePool] *)

(** What [EnsurePool] changes: at most one empty pool is added. *)
Record ensured (s : store) (sub : string) (p : pref) (s' : store) : Prop := {
  en_pool n : Pool n s' = if decide (n = sub) then Some p else Pool n s;
  en_members q : Members q s' = Members q s;
  en_tunnels : s_tunnels s' = s_tunnels s;
  en_next : s_nexttunnel s' = s_nexttunnel s;
  en_world : s_world s' = s_world s;
  en_drains : s_drains s' = s_drains s;
  en_bySess : bySess (s_reg s') = bySess (s_reg s);
  en_timeout : supersedeDrainTimeout (s_reg s') = supersedeDrainTimeout (s_reg s);
  en_old : Pool sub s = Some p ∨ (Pool sub s = None ∧ Members p s = []);
  en_inv : reg_inv s'
}.

Lemma pool_unallocated s (p : pref) : reg_inv s → s_nextpool s ≤ p → Members p s = [].
Proof. intros Hinv Hp. unfold Members, pool. by rewrite (ri_pools s Hinv p Hp). Qed.

Lemma EnsurePool_spec s sub :
  reg_inv s → let '(s', p) := EnsurePool sub s in ensured s sub p s'.
Proof.
  intros Hinv. unfold EnsurePool. destruct (byName (s_reg s) !! sub) as [p|] eqn:Hp.
  { constructor; auto. intros n. unfold Pool. by case_decide; subst. }
  simpl. set (p := s_nextpool s).
  set (s' := set_byName _ _).
  assert (∀ n, Pool n s' = if decide (n = sub) then Some p else Pool n s) as HP.
  { intros n. unfold Pool, s'. simpl. rewrite lookup_insert. case_decide; [subst; by rewrite decide_True | by rewrite decide_False by congruence]. }
  assert (∀ q, Members q s' = Members q s) as HM.
  { intros q. unfold Members, pool. simpl. rewrite lookup_insert. case_decide; [|done]. subst q.
    by rewrite (ri_pools s Hinv p). }
  assert (∀ n, Pool n s ≠ Some p) as Hfresh.
  { intros n Hn. apply (ri_pool s Hinv) in Hn as [tp Htp]. by rewrite (ri_pools s Hinv p) in Htp. }
  assert (Members p s = []) as Hnil by by apply pool_unallocated.
  constructor; try done; [by right; split|].
  constructor; try apply Hinv.
  - intros q Hq. simpl in *. rewrite lookup_insert_ne by (subst p; lia). apply (ri_pools s Hinv). lia.
  - intros n1 n2 q. rewrite !HP. intros H1 H2. specialize (Hfresh n1) as Hf1.
    specialize (Hfresh n2) as Hf2.
    repeat case_decide; [congruence | congruence | congruence | by eapply (ri_inj s Hinv)].
  - intros n q. rewrite HP. case_decide; simpl.
    + intros [= <-]. rewrite lookup_insert_eq. eauto.
    + intros Hq. apply lookup_insert_is_Some'. right. by eapply ri_pool.
  - intros n q t. rewrite HP, HM. case_decide; [|apply (ri_mem s Hinv)].
    intros [= <-]. rewrite Hnil. by intros ?%elem_of_nil.
  - intros n q. rewrite HP, HM. case_decide; [|apply (ri_nodup s Hinv)].
    intros [= <-]. rewrite Hnil. constructor.
  - intros sid t Ht. destruct (ri_sess s Hinv sid t Ht) as (se & q & Hse & Hid & Hq & Hm).
    exists se, q. rewrite HP, HM. case_decide as Hd; [|done].
    change (ct_Subdomain (tunnel s t) = sub) in Hd. unfold Pool in Hq. congruence.
  - intros n q t se. rewrite HP, HM. case_decide; [|apply (ri_back s Hinv)].
    intros [= <-]. rewrite Hnil. by intros ?%elem_of_nil.
Qed.

Lemma ensured_fresh s sub p s' t : ensured s sub p s' → fresh_tunnel s t → fresh_tunnel s' t.
Proof.
  intros He Hf.
  assert (tunnel s' t = tunnel s t) as Ht by (unfold tunnel; by rewrite (en_tunnels _ _ _ _ He)).
  constructor.
  - rewrite (en_tunnels _ _ _ _ He). apply Hf.
  - intros n q. rewrite (en_pool _ _ _ _ He), (en_members _ _ _ _ He). case_decide.
    + intros [= <-]. destruct (en_old _ _ _ _ He) as [Hp|[_ ->]]; [|by intros ?%elem_of_nil].
      by apply (ft_pool _ _ Hf sub).
    + apply (ft_pool _ _ Hf).
  - rewrite Ht. apply Hf.
  - intros se. rewrite Ht. unfold GetBySessionID. rewrite (en_bySess _ _ _ _ He).
    apply (ft_session _ _ Hf).
Qed.

Lemma ensured_ByID s sub p s' q id : ensured s sub p s' → ByID q id s' = ByID q id s.
Proof.
  intros He. unfold ByID. pose proof (en_members _ _ _ _ He q) as Hm. unfold Members in Hm.
  rewrite Hm, (find_id_ext s s'); [done|]. intros x. unfold tunnel.
  by rewrite (en_tunnels _ _ _ _ He).
Qed.

Lemma ensured_current s sub p s' n id :
  ensured s sub p s' → current s' n id = current s n id.
Proof.
  intros He. unfold current. rewrite (en_pool _ _ _ _ He). case_decide as Hd.
  - subst n. simpl. rewrite (ensured_ByID _ _ _ _ _ _ He).
    destruct (en_old _ _ _ _ He) as [->|[-> Hm]]; [done|].
    unfold ByID. unfold Members in Hm. by rewrite Hm.
  - destruct (Pool n s) as [q|]; simpl; [|done]. by rewrite (ensured_ByID _ _ _ _ _ _ He).
Qed.

(** ** Installing a tunnel in a pool *)

(** The session index without the session of a replaced tunnel. *)
Definition sess_without (s : store) (o : option tref) : gmap string tref :=
  match (o ← o; ct_Session (tunnel s o)) with
  | Some se => delete (Session_ID se) (bySess (s_reg s))
  | None => bySess (s_reg s)
  end.

(** [s'] is [s] with the members of pool [p] replaced by [l'], the tunnel [old]
    (if any) replaced by [t] and draining, and the session index changed accordingly. *)
Record installed (s : store) (p : pref) (t : tref) (old : option tref) (l' : list tref)
    (s' : store) : Prop := {
  in_tunnels x : is_Some (s_tunnels s' !! x) ↔ is_Some (s_tunnels s !! x);
  in_fields x : ct_ID (tunnel s' x) = ct_ID (tunnel s x)
    ∧ ct_Subdomain (tunnel s' x) = ct_Subdomain (tunnel s x)
    ∧ ct_Session (tunnel s' x) = ct_Session (tunnel s x);
  in_draining x :
    ct_Draining (tunnel s' x) = bool_decide (Some x = old) || ct_Draining (tunnel s x);
  in_nexttunnel : s_nexttunnel s' = s_nexttunnel s;
  in_nextpool : s_nextpool s' = s_nextpool s;
  in_pools x : is_Some (s_pools s' !! x) ↔ is_Some (s_pools s !! x);
  in_members x : Members x s' = if decide (p = x) then l' else Members x s;
  in_byName n : Pool n s' = Pool n s;
  in_drains x pc : (x, pc) ∈ s_drains s' → (x, pc) ∈ s_drains s ∨ Some x = old;
  in_bySess : bySess (s_reg s') =
    match ct_Session (tunnel s t) with
    | Some se => <[Session_ID se := t]> (sess_without s old)
    | None => sess_without s old
    end
}.

#[local] Arguments in_tunnels {_ _ _ _ _ _}.
#[local] Arguments in_fields {_ _ _ _ _ _}.
#[local] Arguments in_draining {_ _ _ _ _ _}.
#[local] Arguments in_nexttunnel {_ _ _ _ _ _}.
#[local] Arguments in_nextpool {_ _ _ _ _ _}.
#[local] Arguments in_pools {_ _ _ _ _ _}.
#[local] Arguments in_members {_ _ _ _ _ _}.
#[local] Arguments in_byName {_ _ _ _ _ _}.
#[local] Arguments in_drains {_ _ _ _ _ _}.
#[local] Arguments in_bySess {_ _ _ _ _ _}.

Section Installed.
  Context (s : store) (n : string) (p : pref) (t : tref) (old : option tref) (l' : list tref)
    (s' : store).
  Context (Hinv : reg_inv s) (Hf : fresh_tunnel s t) (Hp : Pool n s = Some p)
    (Hsub : ct_Subdomain (tunnel s t) = n)
    (Hold : ∀ o, old = Some o → o ∈ Members p s)
    (Ht : t ∈ l') (Hl : ∀ x, x ≠ t → (x ∈ l' ↔ x ∈ Members p s ∧ Some x ≠ old))
    (Hnd : NoDup (ids s l')) (Hi : installed s p t old l' s').

(** Deleting the replaced member's session removes exactly that member. *)
Lemma sess_without_spec sid x :
  sess_without s old !! sid = Some x ↔ GetBySessionID sid s = Some x ∧ Some x ≠ old.
Proof.
  unfold sess_without, GetBySessionID. destruct old as [o|]; simpl; [|split; [by split | by intros []]].
  specialize (Hold o eq_refl).
  assert (bySess (s_reg s) !! sid = Some o →
    ∃ se, ct_Session (tunnel s o) = Some se ∧ Session_ID se = sid) as Ho.
  { intros Hx. destruct (ri_sess s Hinv sid o Hx) as (se & _ & ? & ? & _). eauto. }
  destruct (ct_Session (tunnel s o)) as [se|] eqn:E.
  - pose proof (ri_back s Hinv n p o se Hp Hold E) as Hb. unfold GetBySessionID in Hb.
    rewrite lookup_delete_Some. split.
    + intros [Hne Hx]. split; [done|]. intros [= ->]. naive_solver.
    + intros [Hx Hne]. split; [|done]. intros <-. congruence.
  - split; [|naive_solver]. intros Hx. split; [done|]. intros [= ->]. naive_solver.
Qed.

(** The session index after an installation. *)
Lemma installed_session sid x :
  GetBySessionID sid s' = Some x ↔
  (x = t ∧ ∃ se, ct_Session (tunnel s t) = Some se ∧ Session_ID se = sid)
  ∨ (GetBySessionID sid s = Some x ∧ Some x ≠ old).
Proof.
  unfold GetBySessionID at 1. rewrite (in_bySess Hi).
  destruct (ct_Session (tunnel s t)) as [se|] eqn:Hse.
  - rewrite lookup_insert_Some, sess_without_spec. split.
    + intros [[<- <-]|[Hne ?]]; [left; eauto | by right].
    + intros [[-> (se' & [= <-] & <-)]|[Hx Hxo]]; [by left|]. right. split; [|done].
      intros <-. by rewrite (ft_session s t Hf se Hse) in Hx.
  - rewrite sess_without_spec. split; [by right|]. intros [[_ (? & ? & _)]|?]; done.
Qed.

(** A replaced tunnel is a member of no other pool. *)
Lemma old_elsewhere m q x : Pool m s = Some q → x ∈ Members q s → q ≠ p → Some x ≠ old.
Proof.
  intros Hq Hx Hne Heq. specialize (Hold x (eq_sym Heq)).
  destruct (ri_mem s Hinv m q x Hq Hx) as (_ & Hm & _).
  destruct (ri_mem s Hinv n p x Hp Hold) as (_ & Hn & _). congruence.
Qed.

(** The members of a pool after an installation. *)
Lemma installed_member m q x :
  Pool m s = Some q →
  (x ∈ Members q s' ↔ (q = p ∧ x = t) ∨ (x ∈ Members q s ∧ x ≠ t ∧ Some x ≠ old)).
Proof.
  intros Hq. rewrite (in_members Hi). pose proof (ft_pool s t Hf m q Hq) as Hnt.
  case_decide as Hd; [subst q|].
  - destruct (decide (x = t)) as [->|Hne]; [naive_solver|]. rewrite Hl by done. naive_solver.
  - split; [|naive_solver]. intros Hx. right.
    split_and!; [done | by intros -> | by eapply old_elsewhere].
Qed.

Lemma installed_old_ne x : Some x = old → x ≠ t.
Proof. intros Hx ->. by apply (ft_pool s t Hf n p Hp), Hold. Qed.

Lemma reg_inv_installed : reg_inv s'.
Proof.
  constructor.
  - intros x. rewrite (in_nexttunnel Hi), !eq_None_not_Some, (in_tunnels Hi).
    rewrite <-eq_None_not_Some. apply (ri_tunnels s Hinv).
  - intros x. rewrite (in_nextpool Hi), !eq_None_not_Some, (in_pools Hi).
    rewrite <-eq_None_not_Some. apply (ri_pools s Hinv).
  - intros n1 n2 q. rewrite !(in_byName Hi). apply (ri_inj s Hinv).
  - intros m q. rewrite (in_byName Hi), (in_pools Hi). apply (ri_pool s Hinv).
  - intros m q x. rewrite (in_byName Hi). intros Hq. rewrite (installed_member m q) by done.
    destruct (in_fields Hi x) as (_ & -> & _). rewrite (in_tunnels Hi), (in_draining Hi).
    intros [[-> ->]|(Hx & Hne & Ho)].
    + rewrite bool_decide_eq_false_2 by by intros Hx; apply (installed_old_ne t).
      split_and!; [apply Hf | by rewrite Hsub; eapply (ri_inj s Hinv) | apply Hf].
    + rewrite bool_decide_eq_false_2 by done. by apply (ri_mem s Hinv m q).
  - intros m q. rewrite (in_byName Hi). intros Hq.
    replace (ids s' (Members q s')) with (ids s (Members q s'))
      by (apply map_ext; intros x; symmetry; apply (in_fields Hi)).
    rewrite (in_members Hi). case_decide; [done | by eapply ri_nodup].
  - intros sid x Hx. apply installed_session in Hx.
    destruct (in_fields Hi x) as (_ & -> & ->). setoid_rewrite (in_byName Hi).
    destruct Hx as [[-> (se & Hse & Hid)]|[Hx Hne]].
    + exists se, p. rewrite Hsub. split_and!; try done. apply (installed_member n p); auto.
    + destruct (ri_sess s Hinv sid x Hx) as (se & q & Hse & Hid & Hq & Hxq).
      exists se, q. split_and!; try done. eapply installed_member; [done|]. right.
      split_and!; [done | | done]. intros ->. by eapply (ft_pool s t Hf).
  - intros m q x se. rewrite (in_byName Hi). intros Hq. rewrite (installed_member m q) by done.
    destruct (in_fields Hi x) as (_ & _ & ->). intros Hx Hse. apply installed_session.
    destruct Hx as [[-> ->]|(Hx & Hne & Ho)]; [left; eauto|]. right.
    split; [by eapply ri_back | done].
  - intros x pc Hx. rewrite (in_tunnels Hi), (in_draining Hi).
    apply (in_drains Hi) in Hx as [Hx|Hx].
    + destruct (ri_drains s Hinv x pc Hx) as [? ->]. by rewrite orb_true_r.
    + rewrite bool_decide_eq_true_2 by done. split; [|done].
      by apply (ri_mem s Hinv n p x Hp), Hold.
Qed.

(** The current tunnels after an installation. *)
Lemma current_installed sub id :
  (∀ o, old = Some o → ct_ID (tunnel s o) = ct_ID (tunnel s t)) →
  (old = None → current s n (ct_ID (tunnel s t)) = None) →
  current s' sub id =
    if decide (sub = n ∧ id = ct_ID (tunnel s t)) then Some t else current s sub id.
Proof.
  intros Hoid Hnone. pose proof reg_inv_installed as Hinv'. apply option_eq. intros x.
  rewrite (current_iff s') by done. setoid_rewrite (in_byName Hi).
  destruct (in_fields Hi x) as (-> & _). case_decide as Hd.
  - destruct Hd as [-> ->]. split.
    + intros (q & Hq & Hx & Hid). rewrite Hp in Hq. injection Hq as <-.
      apply (installed_member n p) in Hx; [|done]. destruct Hx as [[_ ->]|(Hx & Hne & Ho)]; [done|].
      exfalso. destruct old as [o|].
      * apply Ho. f_equal. apply (inj Some).
        rewrite <-!(proj2 (current_iff s n (ct_ID (tunnel s t)) _ Hinv)); eauto 10.
      * assert (current s n (ct_ID (tunnel s t)) = Some x) by (apply current_iff; eauto).
        rewrite Hnone in *; done.
    + intros [= <-]. exists p. split_and!; try done. apply (installed_member n p); auto.
  - rewrite (current_iff s) by done. split.
    + intros (q & Hq & Hx & Hid). exists q. split_and!; try done.
      apply (installed_member sub q) in Hx; [|done]. destruct Hx as [[-> ->]|(? & _)]; [|done].
      exfalso. apply Hd. split; [by eapply (ri_inj s Hinv) | done].
    + intros (q & Hq & Hx & Hid). exists q. split_and!; try done.
      apply (installed_member sub q); [done|]. right. split_and!; [done| |].
      * intros ->. by eapply (ft_pool s t Hf).
      * intros Ho. apply Hd. split; [|by rewrite <-Hid; apply Hoid].
        assert (x ∈ Members p s) as Hxp by by apply Hold.
        destruct (ri_mem s Hinv n p x Hp Hxp) as (_ & <- & _).
        by destruct (ri_mem s Hinv sub q x Hq Hx) as (_ & <- & _).
Qed.

End Installed.

(** ** [Register] *)

(** The steps of [Register] after its pool has been found: [p] is that pool. *)
Definition register_in (p : pref) (t : tref) (max : Z) (s : store)
    : store * result reg_error unit :=
  let s := drop_old_session p (ct_ID (tunnel s t)) s in
  match Add p t max (supersedeDrainTimeout (s_reg s)) s with
  | (s, Err e) => (s, Err e)
  | (s, Ok _) =>
      let s := upd_tunnel t (store_LocalHealthy true) s in
      let s := match ct_Session (tunnel s t) with
               | None => s
               | Some se => set_bySess (<[Session_ID se := t]> (bySess (s_reg s))) s
               end in
      (s, Ok tt)
  end.

Lemma Register_unfold t max s :
  Register t max s =
    let '(s1, p) := EnsurePool (ct_Subdomain (tunnel s t)) s in register_in p t max s1.
Proof.
  unfold Register, register_in. destruct (EnsurePool _ s) as [s1 p] eqn:E.
  assert (tunnel s1 t = tunnel s t) as ->; [|done].
  unfold EnsurePool in E. by destruct (byName _ !! _); simplify_eq/=.
Qed.

(** What else holds of the store a successful [Register] leaves. *)
Record effects (s : store) (t : tref) (old : option tref) (s' : store) : Prop := {
  ef_healthy : ct_LocalHealthy (tunnel s' t) = true;
  ef_world : s_world s' = s_world s;
  ef_drains : s_drains s' = s_drains s ++
    match old with
    | Some o => [(o, DStart (if Z.leb (supersedeDrainTimeout (s_reg s)) 0
                             then defaultSupersedeDrainTimeout
                             else supersedeDrainTimeout (s_reg s)))]
    | None => []
    end
}.

Lemma set_bySess_id s : set_bySess (bySess (s_reg s)) s = s.
Proof. by destruct s as [???? ?? []]. Qed.

Lemma drop_old_session_eq p id s :
  drop_old_session p id s =
    set_bySess (sess_without s (ByID p id s)) s.
Proof.
  unfold drop_old_session, sess_without. destruct (ByID p id s) as [o|]; simpl; [|symmetry; apply set_bySess_id].
  destruct (ct_Session (tunnel s o)); [done | symmetry; apply set_bySess_id].
Qed.

(** The last assignments of [Register]: health, then the session index. *)
Definition index_session (t : tref) (s : store) : store :=
  set_bySess (match ct_Session (tunnel s t) with
              | Some se => <[Session_ID se := t]> (bySess (s_reg s))
              | None => bySess (s_reg s)
              end) (upd_tunnel t (store_LocalHealthy true) s).

Lemma index_session_eq t s :
  (let s := upd_tunnel t (store_LocalHealthy true) s in
   match ct_Session (tunnel s t) with
   | None => s
   | Some se => set_bySess (<[Session_ID se := t]> (bySess (s_reg s))) s
   end) = index_session t s.
Proof.
  unfold index_session. cbv zeta. unfold upd_tunnel. rewrite tunnel_set_tunnel, decide_True by done.
  simpl. destruct (ct_Session (tunnel s t)); [done|].
  symmetry. exact (set_bySess_id (upd_tunnel t (store_LocalHealthy true) s)).
Qed.

Lemma tunnel_index_session t s x :
  tunnel (index_session t s) x =
    if decide (t = x) then store_LocalHealthy true (tunnel s t) else tunnel s x.
Proof. apply tunnel_set_tunnel. Qed.

Lemma tunnel_beginSupersedeDrain o d s x :
  tunnel (beginSupersedeDrain o d s) x =
    if decide (o = x) then store_Draining true (tunnel s o) else tunnel s x.
Proof. apply tunnel_set_tunnel. Qed.

(** Replacing the member with the new tunnel's id, and appending a tunnel. *)
Lemma members_replace s l i old t x :
  NoDup (ids s l) → l !! i = Some old → x ≠ t →
  (x ∈ <[i := t]> l ↔ x ∈ l ∧ Some x ≠ Some old).
Proof.
  intros Hnd Hi Hx. rewrite !list_elem_of_lookup. split.
  - intros [j Hj]. destruct (decide (i = j)) as [<-|Hne].
    + rewrite list_lookup_insert_eq in Hj by (by eapply lookup_lt_Some). congruence.
    + rewrite list_lookup_insert_ne in Hj by done. split; [by exists j|]. intros [= ->].
      apply Hne. by eapply (ids_lookup_inj s l).
  - intros [[j Hj] Hne]. exists j. rewrite list_lookup_insert_ne; [done|]. congruence.
Qed.

Lemma NoDup_ids_replace s l i old t :
  NoDup (ids s l) → l !! i = Some old → ct_ID (tunnel s old) = ct_ID (tunnel s t) →
  NoDup (ids s (<[i := t]> l)).
Proof.
  intros Hnd Hi Hid. replace (ids s (<[i := t]> l)) with (ids s l); [done|].
  unfold ids. change (map ?f ?l) with (f <$> l). rewrite list_fmap_insert, <-Hid.
  symmetry. apply list_insert_id. by rewrite list_lookup_fmap, Hi.
Qed.

Lemma NoDup_ids_app s l t :
  NoDup (ids s l) → ct_ID (tunnel s t) ∉ ids s l → NoDup (ids s (l ++ [t])).
Proof.
  intros Hnd Hn. unfold ids. rewrite map_app. apply NoDup_app. split_and!; [done| |apply NoDup_singleton].
  intros x Hx Ht. simpl in Ht. apply list_elem_of_singleton in Ht as ->. done.
Qed.

(** The two ways [Add] takes a tunnel in, followed by the last assignments. *)
Definition replaced (s : store) (p : pref) (t : tref) (i : nat) (old : tref) : store :=
  index_session t (beginSupersedeDrain old (supersedeDrainTimeout (s_reg s))
    (set_pool p (mkPool (<[i := t]> (Members p s)) (tp_bal (pool s p)))
       (set_bySess (sess_without s (Some old)) s))).

Definition appended (s : store) (p : pref) (t : tref) : store :=
  index_session t (set_pool p (mkPool (Members p s ++ [t]) (tp_bal (pool s p))) s).

Section RegisterIn.
  Context (s : store) (p : pref) (t : tref) (max : Z).
  Context (Hp : is_Some (s_pools s !! p)) (Ht : is_Some (s_tunnels s !! t)).

(** [Register] on a known id, on a new id with room, and on a full pool. *)
Lemma register_in_eq :
  register_in p t max s =
    match find_id s (ct_ID (tunnel s t)) (Members p s) with
    | Some (i, old) => (replaced s p t i old, Ok tt)
    | None => if Z.leb max (Len p s) then (s, Err ErrPoolFull) else (appended s p t, Ok tt)
    end.
Proof.
  unfold register_in, Add. rewrite drop_old_session_eq.
  set (o := ByID p (ct_ID (tunnel s t)) s). set (s1 := set_bySess _ s).
  rewrite (find_id_ext s s1) by done.
  change (tp_members (pool s1 p)) with (Members p s). change (tunnel s1 t) with (tunnel s t).
  assert (o = snd <$> find_id s (ct_ID (tunnel s t)) (Members p s)) as Ho by done.
  destruct (find_id s (ct_ID (tunnel s t)) (Members p s)) as [[i old]|].
  - rewrite index_session_eq. subst s1. by rewrite Ho.
  - assert (s1 = s) as -> by (subst s1; rewrite Ho; apply set_bySess_id).
    unfold Len. fold (Members p s). destruct (Z.leb _ _); [done|]. by rewrite index_session_eq.
Qed.

Lemma replaced_installed i old :
  old ≠ t → is_Some (s_tunnels s !! old) →
  installed s p t (Some old) (<[i := t]> (Members p s)) (replaced s p t i old)
  ∧ effects s t (Some old) (replaced s p t i old).
Proof using Hp Ht.
  intros Hne Halloc. unfold replaced. set (s1 := set_pool p _ _).
  assert (∀ x, tunnel s1 x = tunnel s x) as H1 by done.
  split; constructor; try done; try (intros x); rewrite ?tunnel_index_session,
    ?tunnel_beginSupersedeDrain, ?H1, ?(decide_False (P := old = t)), ?(decide_True (P := t = t)) by done.
  - simpl. rewrite !is_Some_insert_alloc; [done..|]. by apply is_Some_insert_alloc.
  - repeat case_decide; by subst.
  - repeat case_decide; subst; try done.
    + by rewrite bool_decide_eq_false_2 by naive_solver.
    + by rewrite bool_decide_eq_false_2 by naive_solver.
  - by apply is_Some_insert_alloc.
  - unfold Members at 1, index_session, beginSupersedeDrain, s1, pool. simpl.
    rewrite lookup_insert. by case_decide.
  - intros pc. simpl. rewrite elem_of_app, list_elem_of_singleton. naive_solver.
  - simpl. by rewrite tunnel_beginSupersedeDrain, decide_False, H1 by done.
  - done.
Qed.

Lemma appended_installed :
  installed s p t None (Members p s ++ [t]) (appended s p t) ∧ effects s t None (appended s p t).
Proof using Hp Ht.
  unfold appended. set (s1 := set_pool p _ _).
  assert (∀ x, tunnel s1 x = tunnel s x) as H1 by done.
  split; constructor; try done; try (intros x); rewrite ?tunnel_index_session,
    ?H1, ?(decide_True (P := t = t)) by done.
  - by apply is_Some_insert_alloc.
  - repeat case_decide; by subst.
  - case_decide; by subst.
  - by apply is_Some_insert_alloc.
  - unfold Members at 1, index_session, s1, pool. simpl. rewrite lookup_insert. by case_decide.
  - auto.
  - done.
  - simpl. by rewrite app_nil_r.
Qed.

End RegisterIn.

(** The number of members of a subdomain's pool. *)
Definition pool_len (s : store) (sub : string) : Z :=
  match Pool sub s with Some p => Len p s | None => 0%Z end.

(** What a successful [Register] promises to its caller. *)
Record register_ok (s : store) (t : tref) (s' : store) : Prop := {
  ro_current sub id : current s' sub id =
    if decide (sub = ct_Subdomain (tunnel s t) ∧ id = ct_ID (tunnel s t))
    then Some t else current s sub id;
  ro_session sid x : GetBySessionID sid s' = Some x ↔
    (x = t ∧ ∃ se, ct_Session (tunnel s t) = Some se ∧ Session_ID se = sid)
    ∨ (GetBySessionID sid s = Some x
       ∧ Some x ≠ current s (ct_Subdomain (tunnel s t)) (ct_ID (tunnel s t)));
  ro_fields x : ct_ID (tunnel s' x) = ct_ID (tunnel s x)
    ∧ ct_Subdomain (tunnel s' x) = ct_Subdomain (tunnel s x)
    ∧ ct_Session (tunnel s' x) = ct_Session (tunnel s x);
  ro_tunnels x : is_Some (s_tunnels s' !! x) ↔ is_Some (s_tunnels s !! x);
  ro_healthy : ct_LocalHealthy (tunnel s' t) = true;
  ro_draining x : ct_Draining (tunnel s' x) =
    bool_decide (Some x = current s (ct_Subdomain (tunnel s t)) (ct_ID (tunnel s t)))
    || ct_Draining (tunnel s x);
  ro_drains : s_drains s' = s_drains s ++
    match current s (ct_Subdomain (tunnel s t)) (ct_ID (tunnel s t)) with
    | Some o => [(o, DStart (if Z.leb (supersedeDrainTimeout (s_reg s)) 0
                             then defaultSupersedeDrainTimeout
                             else supersedeDrainTimeout (s_reg s)))]
    | None => []
    end;
  ro_len sub : pool_len s' sub =
    if decide (sub = ct_Subdomain (tunnel s t)
               ∧ current s (ct_Subdomain (tunnel s t)) (ct_ID (tunnel s t)) = None)
    then (pool_len s sub + 1)%Z else pool_len s sub
}.

(** What a refused [Register] leaves: at most an empty pool more. *)
Record register_refused (s s' : store) : Prop := {
  rr_current sub id : current s' sub id = current s sub id;
  rr_session sid : GetBySessionID sid s' = GetBySessionID sid s;
  rr_tunnels : s_tunnels s' = s_tunnels s;
  rr_drains : s_drains s' = s_drains s;
  rr_len sub : pool_len s' sub = pool_len s sub
}.

Lemma ensured_len s sub p s' n : ensured s sub p s' → pool_len s' n = pool_len s n.
Proof.
  intros He. unfold pool_len, Len. rewrite (en_pool _ _ _ _ He). case_decide as Hd.
  - subst n. fold (Members p s'). rewrite (en_members _ _ _ _ He).
    destruct (en_old _ _ _ _ He) as [->|[-> ->]]; done.
  - destruct (Pool n s) as [q|]; [|done]. fold (Members q s'). by rewrite (en_members _ _ _ _ He).
Qed.

(** An installed tunnel in terms of the store before the pool was looked up. *)
Lemma installed_register_ok s s1 p t old l' s' :
  reg_inv s → fresh_tunnel s t → ensured s (ct_Subdomain (tunnel s t)) p s1 →
  current s (ct_Subdomain (tunnel s t)) (ct_ID (tunnel s t)) = old →
  t ∈ l' → (∀ x, x ≠ t → (x ∈ l' ↔ x ∈ Members p s1 ∧ Some x ≠ old)) →
  NoDup (ids s1 l') →
  length l' = (length (Members p s1) + if decide (old = None) then 1 else 0) →
  installed s1 p t old l' s' → effects s1 t old s' → reg_inv s' ∧ register_ok s t s'.
Proof.
  intros Hinv Hf He Hcur Ht Hl Hnd Hlen Hi Hef.
  pose proof (ensured_fresh _ _ _ _ _ He Hf) as Hf1. pose proof (en_inv _ _ _ _ He) as Hinv1.
  assert (∀ x, tunnel s1 x = tunnel s x) as HT
    by (intros x; unfold tunnel; by rewrite (en_tunnels _ _ _ _ He)).
  assert (Pool (ct_Subdomain (tunnel s t)) s1 = Some p) as Hp
    by by rewrite (en_pool _ _ _ _ He), decide_True.
  assert (∀ o, old = Some o → o ∈ Members p s1 ∧ ct_ID (tunnel s o) = ct_ID (tunnel s t)) as Hold.
  { intros o ->. rewrite <-(ensured_current _ _ _ _ _ _ He) in Hcur.
    apply current_iff in Hcur as (q & Hq & Hm & Hid); [|done].
    rewrite HT in Hid. rewrite Hp in Hq. by injection Hq as <-. }
  assert (reg_inv s') as Hinv'
    by (eapply (reg_inv_installed s1); eauto; [by rewrite HT | intros; by apply Hold]).
  split; [done|]. constructor.
  - intros sub id. rewrite (current_installed s1 (ct_Subdomain (tunnel s t)) p t old l');
      try done; rewrite ?HT; try done.
    + by rewrite (ensured_current _ _ _ _ _ _ He).
    + by apply Hold.
    + intros o Ho. rewrite HT. by apply Hold.
    + intros ->. by rewrite (ensured_current _ _ _ _ _ _ He).
  - intros sid x. rewrite (installed_session s1 (ct_Subdomain (tunnel s t)) p t old l');
      try done; [|by rewrite HT|by apply Hold]. rewrite HT, Hcur. unfold GetBySessionID.
    by rewrite (en_bySess _ _ _ _ He).
  - intros x. rewrite <-HT. apply (in_fields Hi).
  - intros x. by rewrite (in_tunnels Hi), (en_tunnels _ _ _ _ He).
  - apply Hef.
  - intros x. by rewrite (in_draining Hi), HT, Hcur.
  - rewrite (ef_drains _ _ _ _ Hef), (en_drains _ _ _ _ He), (en_timeout _ _ _ _ He).
    by rewrite Hcur.
  - intros sub. rewrite <-(ensured_len _ _ _ _ sub He). unfold pool_len.
    rewrite (in_byName Hi), Hcur. destruct (Pool sub s1) as [q|] eqn:Hq.
    + unfold Len. fold (Members q s') (Members q s1). rewrite (in_members Hi).
      destruct (decide (p = q)) as [->|Hne].
      * assert (sub = ct_Subdomain (tunnel s t)) as -> by by eapply (ri_inj s1 Hinv1).
        rewrite Hlen. repeat case_decide; try lia; naive_solver.
      * rewrite decide_False; [done|]. intros [-> _]. congruence.
    + rewrite decide_False; [done|]. intros [-> _]. congruence.
Qed.

(** A refused tunnel leaves only the pool that was made sure of. *)
Lemma ensured_refused s sub p s' : ensured s sub p s' → register_refused s s'.
Proof.
  intros He. constructor; try apply He.
  - intros. by apply (ensured_current _ _ _ _ _ _ He).
  - intros. unfold GetBySessionID. by rewrite (en_bySess _ _ _ _ He).
  - intros. by apply (ensured_len _ _ _ _ _ He).
Qed.

(** [Register] of a tunnel [onConnect] has just made. *)
Lemma Register_spec s t max :
  reg_inv s → fresh_tunnel s t →
  let '(s', r) := Register t max s in
  reg_inv s' ∧
  match r with
  | Ok _ =>
      (current s (ct_Subdomain (tunnel s t)) (ct_ID (tunnel s t)) ≠ None
       ∨ (pool_len s (ct_Subdomain (tunnel s t)) < max)%Z)
      ∧ register_ok s t s'
  | Err _ =>
      current s (ct_Subdomain (tunnel s t)) (ct_ID (tunnel s t)) = None
      ∧ (max ≤ pool_len s (ct_Subdomain (tunnel s t)))%Z
      ∧ register_refused s s'
  end.
Proof.
  intros Hinv Hf. rewrite Register_unfold.
  pose proof (EnsurePool_spec s (ct_Subdomain (tunnel s t)) Hinv) as He.
  destruct (EnsurePool _ s) as [s1 p]. pose proof (en_inv _ _ _ _ He) as Hinv1.
  pose proof (ensured_fresh _ _ _ _ _ He Hf) as Hf1.
  assert (tunnel s1 t = tunnel s t) as HT by (unfold tunnel; by rewrite (en_tunnels _ _ _ _ He)).
  assert (Pool (ct_Subdomain (tunnel s t)) s1 = Some p) as Hp
    by by rewrite (en_pool _ _ _ _ He), decide_True.
  assert (current s (ct_Subdomain (tunnel s t)) (ct_ID (tunnel s t)) =
    snd <$> find_id s1 (ct_ID (tunnel s1 t)) (Members p s1)) as Hcur.
  { rewrite <-(ensured_current _ _ _ _ _ _ He). unfold current. by rewrite Hp, HT. }
  assert (is_Some (s_pools s1 !! p)) as Hpa by by eapply (ri_pool s1 Hinv1).
  pose proof (ri_nodup s1 Hinv1 _ _ Hp) as Hnd.
  rewrite register_in_eq by done.
  destruct (find_id s1 (ct_ID (tunnel s1 t)) (Members p s1)) as [[i old]|] eqn:E; simpl in Hcur.
  - apply find_id_Some in E as [Hi Hid]. pose proof (list_elem_of_lookup_2 _ _ _ Hi) as Hm.
    assert (old ≠ t) as Hne by (intros ->; by eapply (ft_pool s1 t Hf1)).
    destruct (replaced_installed s1 p t Hpa (ft_alloc _ _ Hf1) i old Hne
      (proj1 (ri_mem s1 Hinv1 _ _ _ Hp Hm))) as [Hin Hef].
    assert (reg_inv (replaced s1 p t i old) ∧ register_ok s t (replaced s1 p t i old)) as [? ?].
    { apply (installed_register_ok s s1 p t (Some old) (<[i := t]> (Members p s1))); try done.
      - eapply list_elem_of_lookup_2, list_lookup_insert_eq. by eapply lookup_lt_Some.
      - intros x Hx. by apply (members_replace s1).
      - by apply (NoDup_ids_replace s1 _ i old).
      - rewrite length_insert. simpl. lia. }
    split; [done|]. split; [left; by rewrite Hcur | done].
  - apply find_id_None in E. destruct (Z.leb_spec max (Len p s1)) as [Hle|Hlt].
    + split; [done|]. assert (pool_len s (ct_Subdomain (tunnel s t)) = Len p s1) as ->
        by (rewrite <-(ensured_len _ _ _ _ _ He); unfold pool_len; by rewrite Hp).
      split_and!; [done | done | by eapply ensured_refused].
    + destruct (appended_installed s1 p t Hpa (ft_alloc _ _ Hf1)) as [Hin Hef].
      assert (reg_inv (appended s1 p t) ∧ register_ok s t (appended s1 p t)) as [? ?].
      { apply (installed_register_ok s s1 p t None (Members p s1 ++ [t])); try done.
        - set_solver.
        - intros x Hx. set_solver.
        - by apply NoDup_ids_app.
        - rewrite length_app. simpl. lia. }
      split; [done|]. split; [right|done].
      rewrite <-(ensured_len _ _ _ _ _ He). unfold pool_len. by rewrite Hp.
Qed.

End RegistryOps.
