(* ===== verification/RegistryRun.v ===== *)
(** The registry in operation: [RemoveBySessionID], the step relation of all that
    the handlers and goroutines do to it, and that every step keeps the invariant. *)

From S2P Require Import Prelude GoStrings Config Host Registry RegistryInv RegistryOps.

Section RegistryRun.
  Context `{Transport}.

(** ** [RemoveBySessionID] *)

Record disconnected (s : store) (t : tref) (sid : string) (s' : store) : Prop := {
  di_current sub id : current s' sub id =
    if decide (sub = ct_Subdomain (tunnel s t) ∧ id = ct_ID (tunnel s t))
    then None else current s sub id;
  di_session x : GetBySessionID x s' = if decide (x = sid) then None else GetBySessionID x s;
  di_tunnels : s_tunnels s' = s_tunnels s;
  di_len sub : (pool_len s' sub ≤ pool_len s sub)%Z
}.

Lemma elem_of_delete_ids s l i t x :
  NoDup (ids s l) → l !! i = Some t → (x ∈ take i l ++ drop (S i) l ↔ x ∈ l ∧ x ≠ t).
Proof.
  intros Hnd Hi. rewrite <-delete_take_drop, !list_elem_of_lookup. split.
  - intros [j Hj]. rewrite list_lookup_delete in Hj. repeat case_decide.
    + split; [eauto|]. intros ->. assert (j = i) by (by eapply (ids_lookup_inj s l)). lia.
    + split; [eauto|]. intros ->. assert (S j = i) by (by eapply (ids_lookup_inj s l)). lia.
  - intros [[j Hj] Hne]. destruct (decide (j < i)).
    + exists j. by rewrite list_lookup_delete_lt.
    + exists (pred j). assert (j ≠ i) by congruence.
      rewrite list_lookup_delete_ge by lia. by replace (S (pred j)) with j by lia.
Qed.

Lemma NoDup_ids_delete s l i :
  NoDup (ids s l) → NoDup (ids s (take i l ++ drop (S i) l)).
Proof.
  intros Hnd. eapply sublist_NoDup; [exact Hnd|]. unfold ids.
  change (map ?f ?l) with (f <$> l). rewrite <-delete_take_drop.
  rewrite list_fmap_delete. apply sublist_delete.
Qed.

(** The store [RemoveBySessionID] leaves for a registered session. *)
Lemma RemoveBySessionID_eq s sid t :
  reg_inv s → GetBySessionID sid s = Some t →
  ∃ p i, Pool (ct_Subdomain (tunnel s t)) s = Some p ∧ Members p s !! i = Some t
    ∧ RemoveBySessionID sid s =
        set_pool p (mkPool (take i (Members p s) ++ drop (S i) (Members p s)) (tp_bal (pool s p)))
          (set_bySess (delete sid (bySess (s_reg s))) s).
Proof.
  intros Hinv Hs. destruct (ri_sess s Hinv sid t Hs) as (se & p & Hse & Hid & Hp & Hm).
  destruct (find_id_member s _ t (ri_nodup s Hinv _ _ Hp) Hm) as [i Hi].
  exists p, i. split_and!; [done | by apply find_id_Some in Hi as [? _] |].
  unfold RemoveBySessionID, GetBySessionID, Pool in *. rewrite Hs. set (s1 := set_bySess _ s).
  change (byName (s_reg s1)) with (byName (s_reg s)). change (tunnel s1 t) with (tunnel s t).
  rewrite Hp. unfold Remove. rewrite (find_id_ext s s1) by done.
  change (tp_members (pool s1 p)) with (Members p s). by rewrite Hi.
Qed.

Section Removed.
  Context (s : store) (sid : string) (t : tref) (p : pref) (i : nat) (s' : store).
  Context (Hinv : reg_inv s) (Hs : GetBySessionID sid s = Some t)
    (Hp : Pool (ct_Subdomain (tunnel s t)) s = Some p) (Hi : Members p s !! i = Some t)
    (Heq : s' = set_pool p
       (mkPool (take i (Members p s) ++ drop (S i) (Members p s)) (tp_bal (pool s p)))
       (set_bySess (delete sid (bySess (s_reg s))) s)).

Lemma removed_members q :
  Members q s' =
    if decide (p = q) then take i (Members p s) ++ drop (S i) (Members p s) else Members q s.
Proof. subst s'. unfold Members, pool. simpl. rewrite lookup_insert. by case_decide. Qed.

Lemma removed_session x :
  GetBySessionID x s' = if decide (x = sid) then None else GetBySessionID x s.
Proof.
  subst s'. unfold GetBySessionID. simpl. rewrite lookup_delete. repeat case_decide; congruence.
Qed.

Lemma removed_tunnel x : tunnel s' x = tunnel s x.
Proof. by subst s'. Qed.

Lemma removed_pool n : Pool n s' = Pool n s.
Proof. by subst s'. Qed.

Lemma removed_member n q x :
  Pool n s = Some q → (x ∈ Members q s' ↔ x ∈ Members q s ∧ x ≠ t).
Proof.
  intros Hq. rewrite removed_members. case_decide as Hd.
  - subst q. apply (elem_of_delete_ids s); [by eapply (ri_nodup s Hinv) | done].
  - split; [|by intros []]. intros Hx. split; [done|]. intros ->. apply Hd.
    destruct (ri_mem s Hinv n q t Hq Hx) as (_ & <- & _). congruence.
Qed.

Lemma removed_inv : reg_inv s'.
Proof.
  constructor; try setoid_rewrite removed_pool; try setoid_rewrite removed_session.
  - subst s'. apply Hinv.
  - intros q Hq. subst s'. simpl in *. rewrite lookup_insert_ne; [by apply (ri_pools s Hinv)|].
    intros ->. apply (ri_pool s Hinv) in Hp as [tp Htp]. by rewrite (ri_pools s Hinv) in Htp.
  - apply (ri_inj s Hinv).
  - intros n q Hq. subst s'. simpl. apply lookup_insert_is_Some'. right.
    by eapply (ri_pool s Hinv).
  - intros n q x Hq Hx. apply (removed_member n) in Hx as [Hx _]; [|done].
    rewrite removed_tunnel. subst s'. by apply (ri_mem s Hinv n q).
  - intros n q Hq. replace (ids s' (Members q s')) with (ids s (Members q s'))
      by (apply map_ext; intros; by rewrite removed_tunnel).
    rewrite removed_members. case_decide; [apply NoDup_ids_delete|]; by eapply (ri_nodup s Hinv).
  - intros x u. rewrite !removed_tunnel. case_decide; [done|]. intros Hu.
    destruct (ri_sess s Hinv x u Hu) as (se & q & Hse & Hid & Hq & Hmq).
    exists se, q. split_and!; try done. eapply removed_member; [done|]. split; [done|].
    intros ->. destruct (ri_sess s Hinv sid t Hs) as (se' & _ & Hse' & Hid' & _). congruence.
  - intros n q x se Hq Hx. rewrite removed_tunnel. intros Hse.
    apply (removed_member n) in Hx as [Hx Hne]; [|done].
    pose proof (ri_back s Hinv n q x se Hq Hx Hse) as Hb. case_decide; [congruence | done].
  - intros x pc. rewrite removed_tunnel. subst s'. apply (ri_drains s Hinv).
Qed.

Lemma removed_current sub id :
  current s' sub id =
    if decide (sub = ct_Subdomain (tunnel s t) ∧ id = ct_ID (tunnel s t))
    then None else current s sub id.
Proof.
  apply option_eq. intros x. rewrite (current_iff s') by apply removed_inv.
  setoid_rewrite removed_pool. rewrite removed_tunnel. case_decide as Hd.
  - destruct Hd as [-> ->]. split; [|done]. intros (q & Hq & Hx & Hxid).
    apply (removed_member (ct_Subdomain (tunnel s t)) q) in Hx as [Hx Hne]; [|done].
    exfalso. apply Hne, (inj Some). apply list_elem_of_lookup_2 in Hi.
    rewrite <-!(proj2 (current_iff s (ct_Subdomain (tunnel s t))
      (ct_ID (tunnel s t)) _ Hinv)); eauto.
  - rewrite (current_iff s) by done. split; intros (q & Hq & Hx & Hxid); exists q.
    + by apply (removed_member sub q) in Hx as [Hx Hne].
    + split_and!; [done | | done]. apply (removed_member sub q); [done|]. split; [done|].
      intros ->. apply Hd. by destruct (ri_mem s Hinv sub q t Hq Hx) as (_ & -> & _).
Qed.

Lemma removed_len sub : (pool_len s' sub ≤ pool_len s sub)%Z.
Proof.
  unfold pool_len. rewrite removed_pool. destruct (Pool sub s) as [q|]; [|done].
  unfold Len. fold (Members q s') (Members q s). rewrite removed_members.
  case_decide; [|done]. subst q. rewrite <-delete_take_drop, length_delete by eauto. lia.
Qed.

End Removed.

Lemma RemoveBySessionID_spec s sid :
  reg_inv s →
  let s' := RemoveBySessionID sid s in
  reg_inv s' ∧
  match GetBySessionID sid s with
  | None => s' = s
  | Some t => disconnected s t sid s'
  end.
Proof.
  intros Hinv. cbv zeta. destruct (GetBySessionID sid s) as [t|] eqn:Hs.
  2:{ unfold RemoveBySessionID. unfold GetBySessionID in Hs. by rewrite Hs. }
  destruct (RemoveBySessionID_eq s sid t Hinv Hs) as (p & i & Hp & Hi & Heq).
  split; [by eapply removed_inv|]. constructor.
  - by eapply removed_current.
  - by eapply removed_session.
  - by rewrite Heq.
  - by eapply removed_len.
Qed.

(** ** Everything that happens to a registry *)

Definition init_store (w : world) (drainTimeout : Z) : store :=
  mkStore w ∅ 0 ∅ 0 [] (NewRegistry drainTimeout).

(** The goroutine at index [i] of the list has run to [o]. *)
Definition put_drain (i : nat) (o : option (tref * drain_pc)) (s : store) : store :=
  set_drains (match o with
              | Some d => <[i := d]> (s_drains s)
              | None => take i (s_drains s) ++ drop (S i) (s_drains s)
              end) s.

Inductive reg_step (limit : string → Z) (s : store) : store → Prop :=
| step_connect c max s' r :
    ct_Draining c = false → (max ≤ limit (ct_Subdomain c))%Z →
    (∀ se, ct_Session c = Some se → GetBySessionID (Session_ID se) s = None) →
    (let '(s1, t) := new_tunnel c s in Register t max s1) = (s', r) →
    reg_step limit s s'
| step_ensure sub : reg_step limit s (EnsurePool sub s).1
| step_health sub id ok : reg_step limit s (SetLocalHealth sub id ok s)
| step_disconnect sid : reg_step limit s (RemoveBySessionID sid s)
| step_pick n p : Pool n s = Some p → reg_step limit s (Pick p s).1
| step_open t s' e :
    is_Some (s_tunnels s !! t) → OpenStream t s = Some (s', e) → reg_step limit s s'
| step_close_stream t :
    is_Some (s_tunnels s !! t) → reg_step limit s (countedConn_Close t s)
| step_close t : is_Some (s_tunnels s !! t) → reg_step limit s (Close s t).1
| step_drain i now t pc s1 o :
    s_drains s !! i = Some (t, pc) → drain_run now t pc s = (s1, o) →
    reg_step limit s (put_drain i ((λ pc', (t, pc')) <$> o) s1)
| step_world w : reg_step limit s (set_world w s).

(** ** A new tunnel object *)

Lemma tunnel_new c s x :
  tunnel (new_tunnel c s).1 x = if decide (s_nexttunnel s = x) then c else tunnel s x.
Proof. unfold tunnel. simpl. rewrite lookup_insert. by case_decide. Qed.

Lemma tunnel_new_alloc c s x :
  reg_inv s → is_Some (s_tunnels s !! x) → tunnel (new_tunnel c s).1 x = tunnel s x.
Proof.
  intros Hinv Hx. rewrite tunnel_new, decide_False; [done|]. intros <-.
  by rewrite (ri_tunnels s Hinv) in Hx by done.
Qed.

Lemma member_alloc s n p x :
  reg_inv s → Pool n s = Some p → x ∈ Members p s → is_Some (s_tunnels s !! x).
Proof. intros Hinv Hp Hx. by apply (ri_mem s Hinv n p x Hp). Qed.

Lemma session_alloc s sid x :
  reg_inv s → GetBySessionID sid s = Some x → is_Some (s_tunnels s !! x).
Proof.
  intros Hinv Hx. destruct (ri_sess s Hinv sid x Hx) as (se & p & _ & _ & Hp & Hm).
  by eapply member_alloc.
Qed.

Lemma new_tunnel_inv c s : reg_inv s → reg_inv (new_tunnel c s).1.
Proof.
  intros Hinv. pose proof (λ x, tunnel_new_alloc c s x Hinv) as HT.
  pose proof (λ n p x, member_alloc s n p x Hinv) as HA. set (s' := (new_tunnel c s).1) in *.
  constructor.
  - intros x Hx. subst s'. simpl in *. rewrite lookup_insert_ne by lia.
    apply (ri_tunnels s Hinv). lia.
  - apply (ri_pools s Hinv).
  - apply (ri_inj s Hinv).
  - apply (ri_pool s Hinv).
  - intros n p x Hp Hx. pose proof (HA n p x Hp Hx) as Hax. rewrite HT by done.
    split; [by apply lookup_insert_is_Some'; right | by apply (ri_mem s Hinv n p x Hp)].
  - intros n p Hp. change (Members p s') with (Members p s).
    replace (ids s' (Members p s)) with (ids s (Members p s)); [by apply (ri_nodup s Hinv n)|].
    apply list_fmap_ext. intros i x' Hx'. apply list_elem_of_lookup_2 in Hx'.
    by rewrite HT by by apply (HA n p).
  - intros sid x Hx. rewrite HT by by apply (session_alloc s sid). by apply (ri_sess s Hinv).
  - intros n p x se Hp Hx. rewrite HT by by eapply HA. by apply (ri_back s Hinv n p).
  - intros x pc Hx. destruct (ri_drains s Hinv x pc Hx) as [Ha Hd]. rewrite HT by done.
    split; [by apply lookup_insert_is_Some'; right | done].
Qed.

Lemma new_tunnel_fresh c s :
  reg_inv s → ct_Draining c = false →
  (∀ se, ct_Session c = Some se → GetBySessionID (Session_ID se) s = None) →
  fresh_tunnel (new_tunnel c s).1 (s_nexttunnel s).
Proof.
  intros Hinv Hd Hse. constructor; rewrite ?tunnel_new, ?decide_True by done.
  - simpl. rewrite lookup_insert_eq. eauto.
  - intros n p Hp Hm. apply (member_alloc s n p) in Hm; [|done..].
    by rewrite (ri_tunnels s Hinv) in Hm.
  - done.
  - done.
Qed.

Lemma new_tunnel_current c s sub id :
  reg_inv s → current (new_tunnel c s).1 sub id = current s sub id.
Proof.
  intros Hinv. apply option_eq. intros x.
  rewrite (current_iff _ sub id x (new_tunnel_inv c s Hinv)), (current_iff s sub id x Hinv).
  split; intros (p & Hp & Hx & Hid); exists p; (split; [done|]; split; [done|]);
    pose proof (member_alloc s sub p x Hinv Hp Hx) as Ha;
    [by rewrite <-(tunnel_new_alloc c s x) | by rewrite (tunnel_new_alloc c s x)].
Qed.

(** ** Every step keeps the invariant *)

Lemma same_reg_put_drain i o s :
  (∀ t pc, o = Some (t, pc) → ∃ pc', s_drains s !! i = Some (t, pc')) →
  same_reg s (put_drain i o s).
Proof.
  intros Ho. constructor; try done. intros x pc. unfold put_drain. simpl.
  destruct o as [[t pc1]|]; rewrite !list_elem_of_lookup.
  - destruct (Ho t pc1 eq_refl) as [pc' Hi]. intros [j Hj].
    destruct (decide (i = j)) as [<-|Hne].
    + rewrite list_lookup_insert_eq in Hj by (by eapply lookup_lt_Some). simplify_eq.
      exists pc'. by eapply list_elem_of_lookup_2.
    + rewrite list_lookup_insert_ne in Hj by done. exists pc. by eapply list_elem_of_lookup_2.
  - rewrite <-list_elem_of_lookup, <-delete_take_drop. intros Hx. exists pc.
    by eapply list_elem_of_delete_inv.
Qed.

(** A step that is no [Register], [EnsurePool] or [RemoveBySessionID] changes no index. *)
Lemma step_drain_same s i now t pc s1 o :
  reg_inv s → s_drains s !! i = Some (t, pc) → drain_run now t pc s = (s1, o) →
  same_reg s (put_drain i ((λ pc', (t, pc')) <$> o) s1).
Proof.
  intros Hinv Hi Hr.
  assert (is_Some (s_tunnels s !! t)) as Ha
    by (apply (ri_drains s Hinv t pc); by eapply list_elem_of_lookup_2).
  pose proof (drain_run_same s now t pc Ha) as Hs. rewrite Hr in Hs. simpl in Hs.
  transitivity s1; [done|]. apply same_reg_put_drain. intros t' pc' Ho.
  exists pc. destruct o; simplify_eq/=. rewrite <-Hi. f_equal.
  replace s1 with (drain_run now t' pc s).1 by by rewrite Hr.
  apply drain_run_drains.
Qed.

Lemma reg_inv_step limit s s' : reg_step limit s s' → reg_inv s → reg_inv s'.
Proof.
  intros Hstep Hinv. destruct Hstep.
  - pose proof (new_tunnel_inv c s Hinv) as Hinv1.
    pose proof (new_tunnel_fresh c s Hinv ltac:(done) ltac:(done)) as Hf.
    pose proof (Register_spec _ _ max Hinv1 Hf) as HR.
    simpl in *. destruct (Register _ _ _) as [s2 r2]. simplify_eq. apply HR.
  - pose proof (EnsurePool_spec s sub Hinv) as He. destruct (EnsurePool sub s). apply He.
  - eapply reg_inv_same; [by apply SetLocalHealth_same | done].
  - by apply RemoveBySessionID_spec.
  - eapply reg_inv_same; [apply Pick_same; by eapply ri_pool | done].
  - eapply reg_inv_same; [by eapply OpenStream_same | done].
  - eapply reg_inv_same; [by eapply countedConn_Close_same | done].
  - eapply reg_inv_same; [by eapply Close_same | done].
  - eapply reg_inv_same; [by eapply step_drain_same | done].
  - eapply reg_inv_same; [apply same_reg_world | done].
Qed.

(** Pools are never taken away, and a subdomain keeps its pool. *)
Lemma EnsurePool_pools sub s n q : Pool n s = Some q → Pool n (EnsurePool sub s).1 = Some q.
Proof.
  intros Hq. unfold EnsurePool, Pool in *. destruct (byName (s_reg s) !! sub) eqn:E; simpl; [done|].
  rewrite lookup_insert_ne; [done | congruence].
Qed.

Lemma Register_pools t max s n q :
  Pool n s = Some q → Pool n (Register t max s).1 = Some q.
Proof.
  intros Hq. rewrite Register_unfold.
  pose proof (EnsurePool_pools (ct_Subdomain (tunnel s t)) s n q Hq) as Hp.
  destruct (EnsurePool _ s) as [s1 p]. simpl in Hp. rewrite register_in_eq.
  repeat case_match; done.
Qed.

Lemma RemoveBySessionID_pools sid s n : Pool n (RemoveBySessionID sid s) = Pool n s.
Proof. unfold RemoveBySessionID, Remove. by repeat case_match. Qed.

Lemma reg_step_pools limit s s' n q :
  reg_inv s → reg_step limit s s' → Pool n s = Some q → Pool n s' = Some q.
Proof.
  intros Hinv Hstep Hq.
  assert (∀ s', same_reg s s' → Pool n s' = Some q) as Hsame
    by (intros s1 Hs; unfold Pool; by rewrite (sr_reg _ _ Hs)).
  destruct Hstep as [c max s' r _ _ _ Heq| | | | | | | | |].
  - simpl in Heq. pose proof (Register_pools (s_nexttunnel s) max (new_tunnel c s).1 n q Hq) as Hr.
    simpl in Hr. by rewrite Heq in Hr.
  - by apply EnsurePool_pools.
  - by apply Hsame, SetLocalHealth_same.
  - by rewrite RemoveBySessionID_pools.
  - apply Hsame, Pick_same. by eapply ri_pool.
  - apply Hsame. by eapply OpenStream_same.
  - by apply Hsame, countedConn_Close_same.
  - by apply Hsame, Close_same.
  - apply Hsame. by eapply step_drain_same.
  - apply Hsame, same_reg_world.
Qed.

Lemma init_inv w d : reg_inv (init_store w d).
Proof.
  constructor; unfold Pool, GetBySessionID; simpl; try done; setoid_rewrite lookup_empty; try done.
  by intros t pc ?%elem_of_nil.
Qed.

End RegistryRun.
