(* ===== verification/RegistrySpec.v ===== *)
(** The contract of the registry, proved of the operations: the invariant of every
    reachable store, the effect of connecting and disconnecting on the map of
    current tunnels (and that every step refines that map), the choice [Pick]
    makes, the capacity of the pools and the life of the drain goroutines. *)

From S2P Require Import Prelude GoStrings Config Host Registry RegistryInv RegistryOps.
From S2P Require Import RegistryRun.

(** ** A concrete transport, for the examples *)

(** Sessions are their ids, all of client [a], multiplexers are numbers; the world lists
    the closed ones. *)
Definition demo_transport : Transport := {|
  session := string;
  yamux := nat;
  world := list string * list nat;
  Session_ID := λ s, s;
  Session_Meta := λ _, {["client_id" := "a"; "subdomain" := "@"]};
  Session_IsClosed := λ w s, bool_decide (s ∈ w.1);
  Session_Close := λ w s, (s :: w.1, w.2);
  Yamux_IsClosed := λ w y, bool_decide (y ∈ w.2);
  Yamux_Close := λ w y, ((w.1, y :: w.2), None);
  Yamux_Open := λ w y, (w, if bool_decide (y ∈ w.2) then Some "session shutdown" else None)
|}.

Lemma demo_transport_ok : @TransportOk demo_transport.
Proof.
  constructor; simpl.
  - intros w s. apply bool_decide_eq_true_2. by left.
  - intros w y. apply bool_decide_eq_true_2. by left.
  - done.
Qed.

Section RegistrySpec.
  Context `{Transport}.

(** ** The abstract registry: who serves which client of which subdomain *)

Definition view : Type := string → string → option tref.

Definition view_set (v : view) (sub id : string) (o : option tref) : view :=
  λ sub' id', if decide (sub' = sub ∧ id' = id) then o else v sub' id'.

(** A client connects (perhaps over an older tunnel of its own), a served client
    disconnects, or nothing changes for anyone. *)
Inductive view_step (v : view) : view → Prop :=
| view_connect sub id t v' :
    (∀ a b, v' a b = view_set v sub id (Some t) a b) →
    (∀ a b, v a b ≠ Some t) → view_step v v'
| view_disconnect sub id t v' :
    v sub id = Some t → (∀ a b, v' a b = view_set v sub id None a b) → view_step v v'
| view_same v' : (∀ a b, v' a b = v a b) → view_step v v'.

(** A tunnel that may be given a request. *)
Definition serving (s : store) (t : tref) : bool :=
  Alive s t && ct_LocalHealthy (tunnel s t) && negb (ct_Draining (tunnel s t)).

Lemma first_available_spec s l t :
  first_available s l = Some t ↔
  ∃ i, l !! i = Some t ∧ serving s t = true
    ∧ ∀ j u, j < i → l !! j = Some u → serving s u = false.
Proof.
  induction l as [|m l IH]; simpl.
  - split; [done|]. by intros (i & Hi & _).
  - fold (serving s m). destruct (serving s m) eqn:Hm.
    + split.
      * intros [= <-]. exists 0. split_and!; [done | done | lia].
      * intros ([|i] & Hi & Ht & Hfirst); simpl in *; [done|].
        assert (serving s m = false) by (apply (Hfirst 0 m); [lia | done]). congruence.
    + rewrite IH. split.
      * intros (i & Hi & Ht & Hfirst). exists (S i). split_and!; try done.
        intros [|j] u Hj Hu; simpl in *; [by simplify_eq|]. apply (Hfirst j); [lia | done].
      * intros ([|i] & Hi & Ht & Hfirst); simpl in *; [congruence|].
        exists i. split_and!; try done. intros j u Hj Hu. apply (Hfirst (S j)); [lia | done].
Qed.

Lemma first_available_None s l :
  first_available s l = None ↔ ∀ t, t ∈ l → serving s t = false.
Proof.
  induction l as [|m l IH]; simpl.
  - split; [|done]. intros _ t Ht. by apply elem_of_nil in Ht.
  - fold (serving s m). setoid_rewrite elem_of_cons.
    destruct (serving s m) eqn:Hm.
    + split; [done|]. intros Hall. by rewrite (Hall m) in Hm by by left.
    + rewrite IH. split; [by intros Hall t [->|Ht]; [|apply Hall] | by intros Hall t Ht; auto].
Qed.

Lemma current_member s sub id t :
  reg_inv s → current s sub id = Some t →
  is_Some (s_tunnels s !! t) ∧ ct_Subdomain (tunnel s t) = sub ∧ ct_ID (tunnel s t) = id
  ∧ ct_Draining (tunnel s t) = false.
Proof.
  intros Hinv Hc. apply current_iff in Hc as (p & Hp & Hm & Hid); [|done].
  by destruct (ri_mem s Hinv sub p t Hp Hm) as (? & ? & ?).
Qed.

Lemma reachable_inv limit w d s : rtc (reg_step limit) (init_store w d) s → reg_inv s.
Proof.
  intros Hr. assert (∀ s1 s2, rtc (reg_step limit) s1 s2 → reg_inv s1 → reg_inv s2) as HR.
  { intros s1 s2. induction 1; [done|]. intros. eauto using reg_inv_step. }
  eapply HR; [done | apply init_inv].
Qed.

(** ** The number of members of a pool *)

Lemma same_reg_len s s' sub : same_reg s s' → pool_len s' sub = pool_len s sub.
Proof.
  intros Hs. unfold pool_len, Pool. rewrite (sr_reg _ _ Hs).
  destruct (byName (s_reg s) !! sub); [|done].
  unfold Len. pose proof (sr_members _ _ Hs p) as Hm. unfold Members in Hm. by rewrite Hm.
Qed.

Lemma reg_step_len limit s s' sub :
  reg_inv s → reg_step limit s s' →
  (pool_len s' sub ≤ Z.max (pool_len s sub) (limit sub))%Z.
Proof.
  intros Hinv Hstep. destruct Hstep.
  - pose proof (new_tunnel_inv c s Hinv) as Hinv1.
    pose proof (new_tunnel_fresh c s Hinv ltac:(done) ltac:(done)) as Hf.
    pose proof (Register_spec _ _ max Hinv1 Hf) as HR.
    assert (∀ n, pool_len (new_tunnel c s).1 n = pool_len s n) as Hl by done.
    assert (tunnel (new_tunnel c s).1 (s_nexttunnel s) = c) as HT
      by by rewrite tunnel_new, decide_True.
    simpl in *. destruct (Register _ _ _) as [s2 [[]|]]; simplify_eq.
    + destruct HR as (_ & Hc & Hok). rewrite (ro_len _ _ _ Hok), HT, Hl in *.
      case_decide as Hd; [|lia]. destruct Hd as [-> Hd]. destruct Hc; [done | lia].
    + destruct HR as (_ & _ & _ & Hr). rewrite (rr_len _ _ Hr), Hl. lia.
  - pose proof (EnsurePool_spec s sub0 Hinv) as He. destruct (EnsurePool sub0 s). simpl.
    rewrite (ensured_len _ _ _ _ sub He). lia.
  - rewrite (same_reg_len s) by by apply SetLocalHealth_same. lia.
  - destruct (RemoveBySessionID_spec s sid Hinv) as [_ Hr].
    destruct (GetBySessionID sid s); [pose proof (di_len _ _ _ _ Hr sub) | rewrite Hr]; lia.
  - rewrite (same_reg_len s) by (apply Pick_same; by eapply ri_pool). lia.
  - rewrite (same_reg_len s) by by eapply OpenStream_same. lia.
  - rewrite (same_reg_len s) by by eapply countedConn_Close_same. lia.
  - rewrite (same_reg_len s) by by eapply Close_same. lia.
  - rewrite (same_reg_len s) by by eapply step_drain_same. lia.
  - rewrite (same_reg_len s) by apply same_reg_world. lia.
Qed.

(** ** The drain goroutine under any scheduler *)

(** The goroutine runs at the given times, each time on the store of that moment. *)
Fixpoint drain_schedule (sched : list (Z * store)) (t : tref) (pc : drain_pc)
    : (Z * store * store) + drain_pc :=
  match sched with
  | [] => inr pc
  | (now, s) :: rest =>
      match drain_run now t pc s with
      | (s', None) => inl (now, s, s')
      | (_, Some pc) => drain_schedule rest t pc
      end
  end.

(** What a loop state of the goroutine with this deadline looks like. *)
Definition drain_pending (deadline : Z) (pc : drain_pc) : Prop :=
  ∃ wake, pc = DLoop deadline wake ∧ (wake < deadline + drain_interval)%Z.

Lemma drain_check_cases now t deadline s :
  (∃ pc, drain_check now t deadline s = (s, Some pc) ∧ drain_pending deadline pc
     ∧ (now < deadline)%Z)
  ∨ (drain_check now t deadline s = ((Close s t).1, None)
     ∧ (ct_ActiveStreams (tunnel s t) = 0%Z ∨ (deadline ≤ now)%Z)).
Proof.
  unfold drain_check. destruct (Z.ltb_spec now deadline).
  - case_bool_decide; [by right; auto|]. left. eexists. split; [done|].
    split; [|done]. eexists. split; [done | lia].
  - right. split; [done | right; lia].
Qed.

Lemma drain_run_cases now t pc deadline s :
  drain_pending deadline pc →
  (∃ pc', drain_run now t pc s = (s, Some pc') ∧ drain_pending deadline pc'
     ∧ (now < deadline + drain_interval)%Z)
  ∨ (drain_run now t pc s = ((Close s t).1, None)
     ∧ (ct_ActiveStreams (tunnel s t) = 0%Z ∨ (deadline ≤ now)%Z)).
Proof.
  intros (wake & -> & Hw). simpl. destruct (Z.ltb_spec now wake).
  - left. eexists. split; [done|]. split; [by exists wake | lia].
  - destruct (drain_check_cases now t deadline s) as [(pc & -> & Hpc & Hn)|[-> Hc]]; [left|by right].
    exists pc. split_and!; [done | done |]. unfold drain_interval, Millisecond. lia.
Qed.

Lemma drain_schedule_closes sched t pc deadline r :
  drain_pending deadline pc → drain_schedule sched t pc = inl r →
  r.2 = (Close r.1.2 t).1
  ∧ (ct_ActiveStreams (tunnel r.1.2 t) = 0%Z ∨ (deadline ≤ r.1.1)%Z).
Proof.
  revert pc. induction sched as [|[now s] sched IH]; intros pc Hpc; simpl; [done|].
  destruct (drain_run_cases now t pc deadline s Hpc) as [(pc' & -> & Hpc' & _)|[-> Hc]].
  - by apply IH.
  - by intros [= <-].
Qed.

Lemma drain_schedule_ends sched t pc deadline now s :
  drain_pending deadline pc → (now, s) ∈ sched → (deadline + drain_interval ≤ now)%Z →
  ∃ r, drain_schedule sched t pc = inl r.
Proof.
  revert pc. induction sched as [|[now1 s1] sched IH]; intros pc Hpc Hin Hnow.
  { by apply elem_of_nil in Hin. }
  simpl. destruct (drain_run_cases now1 t pc deadline s1 Hpc) as [(pc' & -> & Hpc' & Hlt)|[-> _]];
    [|eauto].
  apply elem_of_cons in Hin as [[= <- <-]|Hin]; [lia | by eapply IH].
Qed.

Lemma Close_flag s t : ct_Closed (tunnel (Close s t).1 t) = true.
Proof.
  unfold Close. set (s1 := upd_tunnel t (store_Closed true) s).
  assert (ct_Closed (tunnel s1 t) = true) as H1
    by (subst s1; unfold upd_tunnel; by rewrite tunnel_set_tunnel, decide_True).
  repeat case_match; by simplify_eq/=.
Qed.

Lemma Close_not_Alive `{!TransportOk} s t : Alive (Close s t).1 t = false.
Proof.
  unfold Close. set (s1 := upd_tunnel t (store_Closed true) s). clearbody s1.
  unfold Alive. destruct (ct_Yamux (tunnel s1 t)) as [y|] eqn:Hy.
  - pose proof (yamux_close_closes (s_world s1) y) as Hc.
    destruct (Yamux_Close (s_world s1) y) as [w e]. simpl in *.
    change (tunnel (set_world w s1) t) with (tunnel s1 t).
    destruct (ct_Session (tunnel s1 t)) as [se|] eqn:Hs; simpl.
    + change (tunnel (set_world _ _) t) with (tunnel s1 t). rewrite Hy.
      by rewrite session_close_keeps_yamux.
    + change (tunnel (set_world _ _) t) with (tunnel s1 t). by rewrite Hy, Hc.
  - destruct (ct_Session (tunnel s1 t)); simpl;
      try change (tunnel (set_world _ _) t) with (tunnel s1 t); by rewrite Hy.
Qed.

(** ** Claims *)

(** In every store that connections, disconnections, health reports, requests,
    closing tunnels, drain goroutines and changes of the sessions can lead to, the
    registry is well formed: pools hold allocated tunnels of their own subdomain, no
    two with one client id, none draining; the session index and the pools agree in
    both directions; every drain goroutine works on a tunnel marked draining. *)
Theorem registry_invariant limit w d s :
  rtc (reg_step limit) (init_store w d) s → reg_inv s.
Proof. apply reachable_inv. Qed.

(** Every step of the registry refines the abstract registry, the map from a
    subdomain and a client id to the tunnel that serves it: it changes nothing, or
    puts a tunnel that served nobody in one place, or empties one place. *)
Theorem registry_refines limit s s' :
  reg_inv s → reg_step limit s s' → view_step (current s) (current s').
Proof.
  intros Hinv Hstep. destruct Hstep.
  - pose proof (new_tunnel_inv c s Hinv) as Hinv1.
    pose proof (new_tunnel_fresh c s Hinv ltac:(done) ltac:(done)) as Hf.
    pose proof (Register_spec _ _ max Hinv1 Hf) as HR.
    pose proof (λ a b, new_tunnel_current c s a b Hinv) as HC.
    simpl in *. destruct (Register _ _ _) as [s2 [[]|]]; simplify_eq.
    + destruct HR as (_ & _ & Hok). eapply view_connect.
      * intros a b. rewrite (ro_current _ _ _ Hok a b), HC. reflexivity.
      * intros a b Hc. apply current_member in Hc as [[x Hx] _]; [|done].
        by rewrite (ri_tunnels s Hinv) in Hx.
    + destruct HR as (_ & _ & _ & Hr). apply view_same. intros a b.
      rewrite (rr_current _ _ Hr). apply HC.
  - pose proof (EnsurePool_spec s sub Hinv) as He. destruct (EnsurePool sub s).
    apply view_same. intros a b. by apply (ensured_current _ _ _ _ _ _ He).
  - apply view_same. intros. apply current_same. by apply SetLocalHealth_same.
  - destruct (RemoveBySessionID_spec s sid Hinv) as [_ Hr].
    destruct (GetBySessionID sid s) as [t|] eqn:Hs; [|rewrite Hr; by apply view_same].
    destruct (ri_sess s Hinv sid t Hs) as (se & p & _ & _ & Hp & Hm).
    apply (view_disconnect _ (ct_Subdomain (tunnel s t)) (ct_ID (tunnel s t)) t).
    + apply current_iff; eauto.
    + intros a b. apply (di_current _ _ _ _ Hr).
  - apply view_same. intros. apply current_same, Pick_same. by eapply ri_pool.
  - apply view_same. intros. apply current_same. by eapply OpenStream_same.
  - apply view_same. intros. apply current_same. by eapply countedConn_Close_same.
  - apply view_same. intros. apply current_same. by eapply Close_same.
  - apply view_same. intros. apply current_same. by eapply step_drain_same.
  - apply view_same. intros. apply current_same, same_reg_world.
Qed.

(** No pool ever holds more tunnels than its subdomain allows. *)
Theorem pool_bound limit w d s sub :
  rtc (reg_step limit) (init_store w d) s → (pool_len s sub ≤ Z.max 0 (limit sub))%Z.
Proof.
  intros Hr. assert (∀ s1 s2, rtc (reg_step limit) s1 s2 → reg_inv s1 →
    (pool_len s1 sub ≤ Z.max 0 (limit sub))%Z → (pool_len s2 sub ≤ Z.max 0 (limit sub))%Z) as HR.
  { intros s1 s2. induction 1 as [|s1 s2 s3 H12 H23 IH]; [done|]. intros Hi Hl. apply IH.
    - by eapply reg_inv_step.
    - pose proof (reg_step_len limit s1 s2 sub Hi H12). lia. }
  eapply HR; [done | apply init_inv|]. unfold pool_len, Pool. simpl. rewrite lookup_empty. lia.
Qed.

(** C10: [Register] of a new tunnel succeeds exactly when its client already has a
    tunnel there or the pool has room; then the new tunnel serves the client, is
    healthy and indexed by its session, everyone else's tunnel stays, and the tunnel
    it replaces is marked draining, handed to a drain goroutine and out of the
    session index.  A refused tunnel changes nothing for anyone. *)
Theorem Register_outcome s t max :
  reg_inv s → fresh_tunnel s t →
  let sub := ct_Subdomain (tunnel s t) in
  let id := ct_ID (tunnel s t) in
  let '(s', r) := Register t max s in
  reg_inv s'
  ∧ (r = Ok tt ↔ current s sub id ≠ None ∨ (pool_len s sub < max)%Z)
  ∧ match r with
    | Ok _ =>
        (∀ a b, current s' a b = view_set (current s) sub id (Some t) a b)
        ∧ ct_LocalHealthy (tunnel s' t) = true
        ∧ (∀ se, ct_Session (tunnel s t) = Some se →
             GetBySessionID (Session_ID se) s' = Some t)
        ∧ ∀ old, current s sub id = Some old →
            ct_Draining (tunnel s' old) = true ∧ (∃ pc, (old, pc) ∈ s_drains s')
            ∧ ∀ se, ct_Session (tunnel s old) = Some se →
                GetBySessionID (Session_ID se) s' = None
    | Err ErrPoolFull =>
        (∀ a b, current s' a b = current s a b)
        ∧ (∀ sid, GetBySessionID sid s' = GetBySessionID sid s)
        ∧ s_tunnels s' = s_tunnels s ∧ s_drains s' = s_drains s
    end.
Proof.
  intros Hinv Hf. cbv zeta. pose proof (Register_spec s t max Hinv Hf) as HR.
  destruct (Register t max s) as [s' [[]|[]]]; destruct HR as [Hinv' HR]; split; [done| |done|].
  - destruct HR as [Hc Hok]. split; [by split|]. split_and!.
    + apply (ro_current _ _ _ Hok).
    + apply (ro_healthy _ _ _ Hok).
    + intros se Hse. apply (ro_session _ _ _ Hok). left. eauto.
    + intros old Hold. rewrite (ro_draining _ _ _ Hok), (ro_drains _ _ _ Hok), Hold.
      rewrite bool_decide_eq_true_2 by done. split_and!; [done | |].
      * eexists. apply elem_of_app. right. by apply list_elem_of_singleton.
      * intros se Hse. apply eq_None_not_Some. intros [x Hx].
        apply (ro_session _ _ _ Hok) in Hx.
        pose proof Hold as Hold'.
        apply current_iff in Hold' as (p & Hp & Hm & _); [|done].
        pose proof (ri_back s Hinv _ p old se Hp Hm Hse) as Hb.
        destruct Hx as [[_ (se' & Hse' & Hid)]|[Hx Hne]].
        -- pose proof (ft_session s t Hf se' Hse'). congruence.
        -- rewrite Hb in Hx. congruence.
  - destruct HR as (Hn & Hlen & Hr). split.
    + split; [done|]. intros [?|?]; [done | lia].
    + split_and!; apply Hr.
Qed.

(** The late disconnect of a replaced tunnel does nothing: once a new tunnel has
    taken over a client, [RemoveBySessionID] of the old tunnel's session id leaves the
    store as it is, so the replacement stays in service. *)
Theorem superseded_disconnect_harmless s t old se max :
  reg_inv s → fresh_tunnel s t →
  current s (ct_Subdomain (tunnel s t)) (ct_ID (tunnel s t)) = Some old →
  ct_Session (tunnel s old) = Some se →
  let s' := (Register t max s).1 in
  RemoveBySessionID (Session_ID se) s' = s'.
Proof.
  intros Hinv Hf Hold Hse. cbv zeta. pose proof (Register_spec s t max Hinv Hf) as HR.
  destruct (Register t max s) as [s' [[]|[]]]; destruct HR as [Hinv' HR]; simpl.
  2:{ destruct HR as [Hn _]. congruence. }
  destruct HR as [_ Hok]. unfold RemoveBySessionID.
  fold (GetBySessionID (Session_ID se) s').
  destruct (GetBySessionID (Session_ID se) s') as [x|] eqn:Hx; [|done]. exfalso.
  apply (ro_session _ _ _ Hok) in Hx. pose proof Hold as Hold'.
  apply current_iff in Hold' as (p & Hp & Hm & _); [|done].
  pose proof (ri_back s Hinv _ p old se Hp Hm Hse) as Hb.
  destruct Hx as [[_ (se' & Hse' & Hid)]|[Hx Hne]].
  - pose proof (ft_session s t Hf se' Hse'). congruence.
  - rewrite Hb in Hx. congruence.
Qed.

(** [RemoveBySessionID] takes exactly the tunnel of that session out of service:
    its client has no tunnel, its session is forgotten, everyone else's stays; an
    unknown session id changes nothing. *)
Theorem disconnect_outcome s sid :
  reg_inv s →
  let s' := RemoveBySessionID sid s in
  reg_inv s' ∧ GetBySessionID sid s' = None
  ∧ (∀ sid', sid' ≠ sid → GetBySessionID sid' s' = GetBySessionID sid' s)
  ∧ ∀ a b, current s' a b =
      match GetBySessionID sid s with
      | Some t => view_set (current s) (ct_Subdomain (tunnel s t)) (ct_ID (tunnel s t)) None a b
      | None => current s a b
      end.
Proof.
  intros Hinv. cbv zeta. destruct (RemoveBySessionID_spec s sid Hinv) as [Hinv' Hr].
  split; [done|]. destruct (GetBySessionID sid s) as [t|] eqn:Hs.
  - split_and!.
    + by rewrite (di_session _ _ _ _ Hr), decide_True.
    + intros sid' Hne. by rewrite (di_session _ _ _ _ Hr), decide_False.
    + apply (di_current _ _ _ _ Hr).
  - by rewrite Hr.
Qed.

(** [Pick] returns the first member of the pool that is alive, locally healthy and
    not draining, and nothing exactly when no member is; it changes no tunnel and
    nothing of the registry. *)
Theorem Pick_first_serving p s :
  let '(s', o) := Pick p s in
  (∀ t, o = Some t ↔ ∃ i, Members p s !! i = Some t ∧ serving s t = true
     ∧ ∀ j u, j < i → Members p s !! j = Some u → serving s u = false)
  ∧ (o = None ↔ ∀ t, t ∈ Members p s → serving s t = false)
  ∧ s_tunnels s' = s_tunnels s ∧ s_reg s' = s_reg s ∧ Members p s' = Members p s.
Proof.
  simpl. unfold Balancer_Pick. destruct (default firstAvailable (tp_bal (pool s p))).
  split; [intros t; apply first_available_spec|]. split; [apply first_available_None|].
  split_and!; [done | done |]. unfold Members, pool. simpl. by rewrite lookup_insert_eq.
Qed.

(** A tunnel that a drain goroutine is going to close is in no pool and in no
    session index, so closing it takes nothing out of service. *)
Theorem draining_out_of_service limit w d s t pc :
  rtc (reg_step limit) (init_store w d) s → (t, pc) ∈ s_drains s →
  (∀ sub id, current s sub id ≠ Some t) ∧ ∀ sid, GetBySessionID sid s ≠ Some t.
Proof.
  intros Hr Hd. apply reachable_inv in Hr as Hinv.
  destruct (ri_drains s Hinv t pc Hd) as [_ Hdr]. split.
  - intros sub id Hc. apply current_member in Hc as (_ & _ & _ & Hn); [|done]. congruence.
  - intros sid Hs. destruct (ri_sess s Hinv sid t Hs) as (se & p & _ & _ & Hp & Hm).
    destruct (ri_mem s Hinv _ p t Hp Hm) as (_ & _ & Hn). congruence.
Qed.

(** C25: whatever the scheduler does and whatever becomes of the store meanwhile, a drain
    goroutine that is run once more at least 100ms after its deadline has finished, and
    it has closed its tunnel. *)
Theorem drain_terminates now0 s0 rest t timeout now s :
  (now, s) ∈ rest → (now0 + timeout + drain_interval ≤ now)%Z →
  ∃ now' s1 s2, drain_schedule ((now0, s0) :: rest) t (DStart timeout) = inl (now', s1, s2)
    ∧ s2 = (Close s1 t).1 ∧ ct_Closed (tunnel s2 t) = true.
Proof.
  intros Hin Hnow. simpl.
  destruct (drain_check_cases now0 t (now0 + timeout) s0) as [(pc & -> & Hpc & _)|[-> _]].
  - destruct (drain_schedule_ends rest t pc _ now s Hpc Hin Hnow) as [[[now' s1] s2] Hr].
    destruct (drain_schedule_closes rest t pc _ _ Hpc Hr) as [Heq _]. simpl in Heq. subst s2.
    do 3 eexists. split_and!; [exact Hr | done | apply Close_flag].
  - do 3 eexists. split_and!; [done | done | apply Close_flag].
Qed.

(** A drain goroutine closes its tunnel only at a moment when no stream is open on
    it or the drain timeout has passed: requests in flight are not cut before. *)
Theorem drain_waits_for_streams now0 s0 rest t timeout now s s' :
  drain_schedule ((now0, s0) :: rest) t (DStart timeout) = inl (now, s, s') →
  ct_ActiveStreams (tunnel s t) = 0%Z ∨ (now0 + timeout ≤ now)%Z.
Proof.
  simpl. destruct (drain_check_cases now0 t (now0 + timeout) s0) as [(pc & -> & Hpc & _)|[-> Hc]].
  - intros Hr. by destruct (drain_schedule_closes rest t pc _ _ Hpc Hr).
  - by intros [= <- <- <-].
Qed.

(** A closed tunnel is marked closed and is not alive, whichever of its multiplexer
    and session it has. *)
Theorem Close_closes `{!TransportOk} s t :
  ct_Closed (tunnel (Close s t).1 t) = true ∧ Alive (Close s t).1 t = false.
Proof. split; [apply Close_flag | apply Close_not_Alive]. Qed.

End RegistrySpec.

(** ** Witnesses: a client reconnects, a stream is open on its old tunnel *)

Section Demo.
  #[local] Existing Instance demo_transport.
  #[local] Existing Instance demo_transport_ok.

Definition demo_limit (sub : string) : Z := 1.

Definition demo_tunnel (sess : string) (y : nat) : ClientTunnel :=
  mkTunnel "client-a" "app" (Some sess) (Some y) 0 "10.0.0.1:5000" false false false 0.

Definition demo_connect (c : ClientTunnel) (s : store) : store * result reg_error unit :=
  let '(s1, t) := new_tunnel c s in Register t (demo_limit (ct_Subdomain c)) s1.

Definition demo_s0 : store := init_store ([], []) 0.
Definition demo_s1 : store := (demo_connect (demo_tunnel "sess-1" 1) demo_s0).1.
Definition demo_s2 : store := (demo_connect (demo_tunnel "sess-2" 2) demo_s1).1.

Lemma demo_run1 : rtc (reg_step demo_limit) (init_store ([], []) 0) demo_s1.
Proof.
  apply rtc_once, (step_connect _ _ (demo_tunnel "sess-1" 1) 1 _ (Ok tt)); [done | done | done |].
  by vm_compute.
Qed.

Lemma demo_step2 : reg_step demo_limit demo_s1 demo_s2.
Proof.
  apply (step_connect _ _ (demo_tunnel "sess-2" 2) 1 _ (Ok tt)); [done | done | | by vm_compute].
  intros se [= <-]. by vm_compute.
Qed.

Lemma demo_run2 : rtc (reg_step demo_limit) (init_store ([], []) 0) demo_s2.
Proof. eapply rtc_r; [apply demo_run1 | apply demo_step2]. Qed.

Definition demo_new : store := (new_tunnel (demo_tunnel "sess-2" 2) demo_s1).1.

Lemma demo_new_inv : reg_inv demo_new.
Proof. apply new_tunnel_inv, (reachable_inv _ _ _ _ demo_run1). Qed.

Lemma demo_new_fresh : fresh_tunnel demo_new 1.
Proof.
  apply (new_tunnel_fresh (demo_tunnel "sess-2" 2) demo_s1); [|done|].
  - apply (reachable_inv _ _ _ _ demo_run1).
  - intros se [= <-]. by vm_compute.
Qed.

Lemma registry_invariant_witness : reg_inv demo_s2.
Proof. exact (registry_invariant _ _ _ _ demo_run2). Defined.

Lemma registry_refines_witness : view_step (current demo_s1) (current demo_s2).
Proof.
  apply (registry_refines demo_limit); [|apply demo_step2].
  apply (reachable_inv _ _ _ _ demo_run1).
Defined.

Lemma pool_bound_witness : (pool_len demo_s2 "app" ≤ 1)%Z.
Proof. exact (pool_bound demo_limit ([], []) 0 demo_s2 "app" demo_run2). Defined.

Lemma Register_outcome_witness :
  current demo_new "app" "client-a" = Some 0
  ∧ current (Register 1 1 demo_new).1 "app" "client-a" = Some 1
  ∧ (Register 1 1 demo_new).2 = Ok tt.
Proof.
  pose proof (Register_outcome demo_new 1 1 demo_new_inv demo_new_fresh) as HR.
  destruct (Register 1 1 demo_new) as [s' r]. destruct HR as (_ & [_ Hr] & HR).
  assert (r = Ok tt) as -> by (apply Hr; left; by vm_compute).
  destruct HR as [Hc _]. split_and!; [by vm_compute | simpl; rewrite Hc; by vm_compute | done].
Defined.

Lemma superseded_disconnect_harmless_witness :
  RemoveBySessionID "sess-1" (Register 1 1 demo_new).1 = (Register 1 1 demo_new).1.
Proof.
  apply (superseded_disconnect_harmless demo_new 1 0 "sess-1" 1 demo_new_inv demo_new_fresh);
    by vm_compute.
Defined.

Lemma disconnect_outcome_witness :
  current (RemoveBySessionID "sess-2" demo_s2) "app" "client-a" = None.
Proof.
  destruct (disconnect_outcome demo_s2 "sess-2" (reachable_inv _ _ _ _ demo_run2))
    as (_ & _ & _ & Hc).
  rewrite Hc. by vm_compute.
Defined.

Lemma draining_out_of_service_witness : current demo_s2 "app" "client-a" ≠ Some 0.
Proof.
  refine (proj1 (draining_out_of_service demo_limit ([], []) 0 demo_s2 0
    (DStart defaultSupersedeDrainTimeout) demo_run2 _) "app" "client-a").
  vm_compute. by left.
Defined.

(** The old tunnel with one stream open. *)
Definition demo_busy : store := upd_tunnel 0 (add_ActiveStreams 1) demo_s2.

Lemma drain_terminates_witness :
  ∃ now s1 s2, drain_schedule [(0%Z, demo_busy); (99%Z, demo_busy); (drain_interval + 50, demo_busy)%Z]
      0 (DStart 50) = inl (now, s1, s2)
    ∧ s2 = (Close s1 0).1 ∧ ct_Closed (tunnel s2 0) = true.
Proof.
  apply (drain_terminates _ _ _ _ _ (drain_interval + 50)%Z demo_busy); [|by vm_compute].
  right. by left.
Defined.

Lemma drain_waits_for_streams_witness :
  ct_ActiveStreams (tunnel demo_s2 0) = 0%Z ∨ (0 + 10 * Minute ≤ drain_interval)%Z.
Proof.
  eapply (drain_waits_for_streams 0 demo_busy [(drain_interval, demo_s2)] 0 (10 * Minute)).
  vm_compute. reflexivity.
Defined.

Lemma Close_closes_witness : Alive (Close demo_s2 1).1 1 = false ∧ Alive demo_s2 1 = true.
Proof. split; [apply (Close_closes demo_s2 1) | by vm_compute]. Defined.

End Demo.
