(* ===== verification/Interleave.v ===== *)
(** The registry and a request under concurrency (internal/registry/registry.go and pool.go,
    internal/server/proxy.go and bridge.go): the operations as threads that interleave
    between any two accesses to shared memory.

    A thread is the point of its code it has reached ([pc]); a mutex is held by the threads
    whose point lies between its [Lock] and its [Unlock].  What one step does is what the
    code does between two points at which another goroutine can see a difference: the
    loops of [Add], [Remove] and [ByID] run under [p.mu], which every access to
    [p.members] and to the [Draining] flag of a member takes, so each of them is one step,
    which for the two writers waits until nobody reads the pool; reading flags, closing
    sessions, opening and counting streams take no lock. *)

From S2P Require Import Prelude GoStrings Config Host Registry RegistryInv RegistryOps.
From S2P Require Import RegistryRun.

(** ** Threads *)

(** What [servePublic] and the proxy make of a request whose route was found. *)
Inductive req_result :=
| NoBackend
| UnhealthyBackend
| StreamLimit
| BackendError
| NilYamux
| Answered (t : tref).

(** The next load of [firstAvailable.Pick] on a member. *)
Inductive scan_point := AtYamux | AtSession | AtHealthy | AtDraining.

Inductive pc :=
(* Registry.Register *)
| RegWait (t : tref) (max : Z)
| RegPool (t : tref) (max : Z)
| RegDrop (t : tref) (max : Z) (p : pref)
| RegAdd (t : tref) (max : Z) (p : pref)
| RegHealthy (t : tref)
| RegIndex (t : tref)
| RegUnlock (r : result reg_error unit)
| RegDone (r : result reg_error unit)
(* Registry.RemoveBySessionID *)
| RemWait (sid : string)
| RemLookup (sid : string)
| RemPool (sid : string) (t : tref) (p : pref)
| RemUnlock
| RemDone
(* Registry.SetLocalHealth *)
| SetWait (sub id : string) (ok : bool)
| SetFind (p : pref) (id : string) (ok : bool)
| SetStore (t : tref) (ok : bool)
| SetDone
(* Registry.Snapshot: the pools still to list, and what has been listed *)
| SnapWait
| SnapScan (todo : list (string * pref)) (out : list (string * list tref))
| SnapDone (out : list (string * list tref))
(* Server.servePublic after [routes.Match], and [OpenStream] *)
| ReqPick (n : string) (p : pref) (max : Z)
| ReqScan (n : string) (p : pref) (max : Z) (rest : list tref) (at_ : scan_point)
| ReqHealth (t : tref) (max : Z)
| ReqLimit (t : tref) (max : Z)
| ReqOpen (t : tref)
| ReqCount (t : tref)
| ReqServing (t : tref)
| ReqDone (r : req_result)
(* ClientTunnel.Close at the end of a drain goroutine *)
| CloseFlag (t : tref)
| CloseYamux (t : tref)
| CloseSession (t : tref)
| CloseDone.

#[export] Instance req_result_eq_dec : EqDecision req_result.
Proof. solve_decision. Defined.
#[export] Instance scan_point_eq_dec : EqDecision scan_point.
Proof. solve_decision. Defined.
#[export] Instance reg_error_eq_dec : EqDecision reg_error.
Proof. solve_decision. Defined.
#[export] Instance pc_eq_dec : EqDecision pc.
Proof. solve_decision. Defined.

(** Between [r.mu.Lock] and [r.mu.Unlock]. *)
Definition writes_reg (q : pc) : bool :=
  match q with
  | RegPool _ _ | RegDrop _ _ _ | RegAdd _ _ _ | RegHealthy _ | RegIndex _ | RegUnlock _
  | RemLookup _ | RemPool _ _ _ | RemUnlock => true
  | _ => false
  end.

(** Between [r.mu.RLock] and [r.mu.RUnlock]. *)
Definition reads_reg (q : pc) : bool :=
  match q with SnapScan _ _ => true | _ => false end.

(** Between [p.mu.RLock] and [p.mu.RUnlock]. *)
Definition reads_pool (p : pref) (q : pc) : bool :=
  match q with ReqScan _ p' _ _ _ => bool_decide (p = p') | _ => false end.

Definition done_pc (q : pc) : bool :=
  match q with RegDone _ | RemDone | SetDone | SnapDone _ | ReqDone _ | CloseDone => true | _ => false end.

(** Whether [r.mu] can be taken for reading, for writing, and [p.mu] for writing. *)
Definition may_rlock (ths : list pc) : bool := forallb (λ q, negb (writes_reg q)) ths.
Definition may_lock (ths : list pc) : bool :=
  forallb (λ q, negb (writes_reg q) && negb (reads_reg q)) ths.
Definition may_lock_pool (p : pref) (ths : list pc) : bool :=
  forallb (λ q, negb (reads_pool p q)) ths.

Section Interleave.
  Context `{Transport}.

Record cfg := mkCfg { cf_store : store; cf_threads : list pc }.

(** ** One step of a thread *)

(** [Register]: the pool of the subdomain, the session of the member that will be replaced,
    [pool.Add], the health flag, the session index. *)
Definition step_Register (ths : list pc) (q : pc) (s : store) : option (store * pc) :=
  match q with
  | RegWait t max => if may_lock ths then Some (s, RegPool t max) else None
  | RegPool t max =>
      let '(s, p) := EnsurePool (ct_Subdomain (tunnel s t)) s in Some (s, RegDrop t max p)
  | RegDrop t max p => Some (drop_old_session p (ct_ID (tunnel s t)) s, RegAdd t max p)
  | RegAdd t max p =>
      if may_lock_pool p ths then
        match Add p t max (supersedeDrainTimeout (s_reg s)) s with
        | (s, Err e) => Some (s, RegUnlock (Err e))
        | (s, Ok _) => Some (s, RegHealthy t)
        end
      else None
  | RegHealthy t => Some (upd_tunnel t (store_LocalHealthy true) s, RegIndex t)
  | RegIndex t =>
      Some (match ct_Session (tunnel s t) with
            | None => s
            | Some se => set_bySess (<[Session_ID se := t]> (bySess (s_reg s))) s
            end, RegUnlock (Ok tt))
  | RegUnlock r => Some (s, RegDone r)
  | _ => None
  end.

Definition step_Remove (ths : list pc) (q : pc) (s : store) : option (store * pc) :=
  match q with
  | RemWait sid => if may_lock ths then Some (s, RemLookup sid) else None
  | RemLookup sid =>
      match bySess (s_reg s) !! sid with
      | None => Some (s, RemUnlock)
      | Some t =>
          let s := set_bySess (delete sid (bySess (s_reg s))) s in
          match byName (s_reg s) !! ct_Subdomain (tunnel s t) with
          | None => Some (s, RemUnlock)
          | Some p => Some (s, RemPool sid t p)
          end
      end
  | RemPool sid t p =>
      if may_lock_pool p ths then Some (Remove p (ct_ID (tunnel s t)) s, RemUnlock) else None
  | RemUnlock => Some (s, RemDone)
  | _ => None
  end.

(** The lookups of [SetLocalHealth] are each under their lock, the store is under none. *)
Definition step_SetLocalHealth (ths : list pc) (q : pc) (s : store) : option (store * pc) :=
  match q with
  | SetWait sub id ok =>
      if may_rlock ths then
        match Pool sub s with
        | None => Some (s, SetDone)
        | Some p => Some (s, SetFind p id ok)
        end
      else None
  | SetFind p id ok =>
      match ByID p id s with
      | None => Some (s, SetDone)
      | Some t => Some (s, SetStore t ok)
      end
  | SetStore t ok => Some (upd_tunnel t (store_LocalHealthy ok) s, SetDone)
  | _ => None
  end.

(** [Snapshot]: [r.mu] is held for reading over the loop, which copies the members of one
    pool at a time. *)
Definition step_Snapshot (ths : list pc) (q : pc) (s : store) : option (store * pc) :=
  match q with
  | SnapWait =>
      if may_rlock ths then Some (s, SnapScan (map_to_list (byName (s_reg s))) []) else None
  | SnapScan [] out => Some (s, SnapDone out)
  | SnapScan ((n, p) :: todo) out => Some (s, SnapScan todo (out ++ [(n, Members p s)]))
  | _ => None
  end.

(** One load of [firstAvailable.Pick] on [m], the first of the members left. *)
Definition step_scan (s : store) (n : string) (p : pref) (max : Z) (m : tref)
    (rest : list tref) (at_ : scan_point) : pc :=
  let next := ReqScan n p max rest AtYamux in
  match at_ with
  | AtYamux =>
      match ct_Yamux (tunnel s m) with
      | None => next
      | Some y => if Yamux_IsClosed (s_world s) y then next
                  else ReqScan n p max (m :: rest) AtSession
      end
  | AtSession =>
      match ct_Session (tunnel s m) with
      | None => next
      | Some se => if Session_IsClosed (s_world s) se then next
                   else ReqScan n p max (m :: rest) AtHealthy
      end
  | AtHealthy =>
      if ct_LocalHealthy (tunnel s m) then ReqScan n p max (m :: rest) AtDraining else next
  | AtDraining => if ct_Draining (tunnel s m) then next else ReqHealth m max
  end.

(** [Pick] under [p.mu.RLock], the two tests of [servePublic], [OpenStream] of the dialer,
    and the closing of the connection. *)
Definition step_request (q : pc) (s : store) : option (store * pc) :=
  match q with
  | ReqPick n p max =>
      let tp := pool s p in
      Some (set_pool p (mkPool (tp_members tp) (Some (default firstAvailable (tp_bal tp)))) s,
            ReqScan n p max (tp_members tp) AtYamux)
  | ReqScan n p max [] _ => Some (s, ReqDone NoBackend)
  | ReqScan n p max (m :: rest) a => Some (s, step_scan s n p max m rest a)
  | ReqHealth t max =>
      Some (s, if ct_LocalHealthy (tunnel s t) then ReqLimit t max else ReqDone UnhealthyBackend)
  | ReqLimit t max =>
      Some (s, if Z.leb max (ct_ActiveStreams (tunnel s t)) then ReqDone StreamLimit
               else ReqOpen t)
  | ReqOpen t =>
      match ct_Yamux (tunnel s t) with
      | None => Some (s, ReqDone NilYamux)
      | Some y =>
          match Yamux_Open (s_world s) y with
          | (w, Some _) => Some (set_world w s, ReqDone BackendError)
          | (w, None) => Some (set_world w s, ReqCount t)
          end
      end
  | ReqCount t => Some (upd_tunnel t (add_ActiveStreams 1) s, ReqServing t)
  | ReqServing t => Some (countedConn_Close t s, ReqDone (Answered t))
  | _ => None
  end.

(** [ClientTunnel.Close]. *)
Definition step_Close (q : pc) (s : store) : option (store * pc) :=
  match q with
  | CloseFlag t => Some (upd_tunnel t (store_Closed true) s, CloseYamux t)
  | CloseYamux t =>
      Some (match ct_Yamux (tunnel s t) with
            | None => s
            | Some y => set_world (Yamux_Close (s_world s) y).1 s
            end, CloseSession t)
  | CloseSession t =>
      Some (match ct_Session (tunnel s t) with
            | None => s
            | Some se => set_world (Session_Close (s_world s) se) s
            end, CloseDone)
  | _ => None
  end.

Definition advance (ths : list pc) (q : pc) (s : store) : option (store * pc) :=
  match q with
  | RegWait _ _ | RegPool _ _ | RegDrop _ _ _ | RegAdd _ _ _ | RegHealthy _ | RegIndex _
  | RegUnlock _ => step_Register ths q s
  | RemWait _ | RemLookup _ | RemPool _ _ _ | RemUnlock => step_Remove ths q s
  | SetWait _ _ _ | SetFind _ _ _ | SetStore _ _ => step_SetLocalHealth ths q s
  | SnapWait | SnapScan _ _ => step_Snapshot ths q s
  | ReqPick _ _ _ | ReqScan _ _ _ _ _ | ReqHealth _ _ | ReqLimit _ _ | ReqOpen _ | ReqCount _
  | ReqServing _ => step_request q s
  | CloseFlag _ | CloseYamux _ | CloseSession _ => step_Close q s
  | RegDone _ | RemDone | SetDone | SnapDone _ | ReqDone _ | CloseDone => None
  end.

(** ** Everything that can happen next *)

(** An operation that begins.  [onConnect] makes the tunnel object before it calls
    [Register]; a request is for a pool of the route table. *)
Inductive op :=
| OpRegister (c : ClientTunnel) (max : Z)
| OpRemove (sid : string)
| OpHealth (sub id : string) (ok : bool)
| OpSnapshot
| OpRequest (n : string) (p : pref) (max : Z).

(** No tunnel object has a session with this id: pollmux draws ids at random. *)
Definition session_unused (sid : string) (s : store) : bool :=
  forallb (λ x, match ct_Session x.2 with
                | Some se => negb (bool_decide (Session_ID se = sid))
                | None => true
                end) (map_to_list (s_tunnels s)).

Definition start (o : op) (s : store) : option (store * pc) :=
  match o with
  | OpRegister c max =>
      if negb (ct_Draining c) && bool_decide (ct_ActiveStreams c = 0%Z)
         && match ct_Session c with
            | Some se => session_unused (Session_ID se) s
            | None => true
            end
      then let '(s, t) := new_tunnel c s in Some (s, RegWait t max)
      else None
  | OpRemove sid => Some (s, RemWait sid)
  | OpHealth sub id ok => Some (s, SetWait sub id ok)
  | OpSnapshot => Some (s, SnapWait)
  | OpRequest n p max =>
      if bool_decide (Pool n s = Some p) then Some (s, ReqPick n p max) else None
  end.

(** A thread runs, an operation begins, a drain goroutine looks at the clock and at the
    counter (and goes on to close its tunnel, as a thread, when its loop is over), or the
    sessions change. *)
Inductive act :=
| Run (i : nat)
| Start (o : op)
| DrainRun (i : nat) (now : Z)
| World (w : world).

Definition run_thread (i : nat) (c : cfg) : option cfg :=
  match cf_threads c !! i with
  | None => None
  | Some q =>
      match advance (cf_threads c) q (cf_store c) with
      | None => None
      | Some (s, q') => Some (mkCfg s (<[i := q']> (cf_threads c)))
      end
  end.

Definition do_act (a : act) (c : cfg) : option cfg :=
  match a with
  | Run i => run_thread i c
  | Start o =>
      match start o (cf_store c) with
      | None => None
      | Some (s, q) => Some (mkCfg s (cf_threads c ++ [q]))
      end
  | DrainRun i now =>
      match s_drains (cf_store c) !! i with
      | None => None
      | Some (t, d) =>
          match (drain_run now t d (cf_store c)).2 with
          | Some d => Some (mkCfg (put_drain i (Some (t, d)) (cf_store c)) (cf_threads c))
          | None => Some (mkCfg (put_drain i None (cf_store c)) (cf_threads c ++ [CloseFlag t]))
          end
      end
  | World w => Some (mkCfg (set_world w (cf_store c)) (cf_threads c))
  end.

Fixpoint do_acts (l : list act) (c : cfg) : option cfg :=
  match l with
  | [] => Some c
  | a :: l => match do_act a c with None => None | Some c => do_acts l c end
  end.

Definition fine_step (c c' : cfg) : Prop := ∃ a, do_act a c = Some c'.
Definition thread_step (c c' : cfg) : Prop := ∃ i, run_thread i c = Some c'.

Definition init_cfg (w : world) (drainTimeout : Z) : cfg :=
  mkCfg (init_store w drainTimeout) [].

(** The store and result of an operation that runs alone, with fuel. *)
Fixpoint solo (fuel : nat) (q : pc) (s : store) : store * pc :=
  match fuel with
  | 0 => (s, q)
  | S fuel =>
      match advance [q] q s with
      | None => (s, q)
      | Some (s, q) => solo fuel q s
      end
  end.

Lemma do_acts_app l1 l2 c :
  do_acts (l1 ++ l2) c = match do_acts l1 c with None => None | Some c1 => do_acts l2 c1 end.
Proof. revert c. induction l1 as [|a l1 IH]; intros c; simpl; [done|]. by destruct (do_act a c). Qed.

Lemma do_acts_steps l c c' : do_acts l c = Some c' → rtc fine_step c c'.
Proof.
  revert c. induction l as [|a l IH]; intros c; simpl; [by intros [= ->]|].
  destruct (do_act a c) as [c1|] eqn:E; [|done]. intros Hl.
  eapply rtc_l; [by exists a | by apply IH].
Qed.

End Interleave.

Arguments cfg {_}.
Arguments op {_}.
Arguments act {_}.
