(* ===== verification/InterleaveInv.v ===== *)
(** The invariant of the interleaved registry, and that every step keeps it.

    While a writer of [r.mu] is in the middle of its operation, the session index lacks an
    entry or has one too few; [repaired] is the registry with that entry put in.  The
    invariant says that the repaired registry is well formed whoever holds the lock, so
    the registry itself is well formed whenever nobody does. *)

From S2P Require Import Prelude GoStrings Config Host Registry RegistryInv RegistryOps.
From S2P Require Import RegistryRun RegistrySpec Interleave.

(** ** Lists of threads *)

Lemma forallb_insert {A} (f : A → bool) l i x y :
  l !! i = Some x → forallb f (<[i := y]> l) = true → f x = true → forallb f l = true.
Proof.
  rewrite !forallb_forall. intros Hi Hf Hx z [j Hj]%list_elem_of_In%list_elem_of_lookup.
  destruct (decide (i = j)) as [<-|Hne]; [congruence|].
  apply Hf, list_elem_of_In, list_elem_of_lookup. exists j.
  by rewrite list_lookup_insert_ne.
Qed.

Lemma forallb_lookup {A} (f : A → bool) l i x : forallb f l = true → l !! i = Some x → f x = true.
Proof.
  rewrite forallb_forall. intros Hf Hi. by apply Hf, list_elem_of_In, (list_elem_of_lookup_2 _ i).
Qed.

Lemma lookup_insert_cases {A} (l : list A) i j x y z :
  l !! i = Some x → <[i := y]> l !! j = Some z →
  (i = j ∧ z = y) ∨ (i ≠ j ∧ l !! j = Some z).
Proof.
  intros Hi. destruct (decide (i = j)) as [<-|Hne].
  - rewrite list_lookup_insert_eq by (by eapply lookup_lt_Some). intros [= ->]. by left.
  - rewrite list_lookup_insert_ne by done. by right.
Qed.

Lemma elem_of_list_insert_weak {A} (l : list A) i x y : x ∈ <[i := y]> l → x = y ∨ x ∈ l.
Proof.
  intros [j Hj]%list_elem_of_lookup. destruct (decide (i < length l)).
  - destruct (lookup_lt_is_Some_2 l i) as [z Hz]; [done|].
    destruct (lookup_insert_cases l i j z y x Hz Hj) as [[_ ->]|[_ Hl]]; [by left|].
    right. by eapply list_elem_of_lookup_2.
  - rewrite list_insert_ge in Hj by lia. right. by eapply list_elem_of_lookup_2.
Qed.

Lemma lookup_snoc_cases {A} (l : list A) j x z :
  (l ++ [x]) !! j = Some z → (j = length l ∧ z = x) ∨ l !! j = Some z.
Proof.
  intros [Hj|[Hge Hj]]%lookup_app_Some; [by right|]. left.
  destruct (j - length l) as [|k] eqn:E; simpl in Hj; [|done].
  injection Hj as <-. split; [lia | done].
Qed.

Section InterleaveInv.
  Context `{Transport}.

(** ** What a thread relies on at each point *)

Definition alloc (s : store) (t : tref) : Prop := is_Some (s_tunnels s !! t).

(** A tunnel object that only the thread that made it can reach. *)
Record detached (s : store) (t : tref) : Prop := {
  dt_alloc : alloc s t;
  dt_pool p : t ∉ Members p s;
  dt_draining : ct_Draining (tunnel s t) = false
}.

(** The new tunnel of a [Register] that has not called [pool.Add] yet. *)
Definition pending (q : pc) : option tref :=
  match q with
  | RegWait t _ | RegPool t _ | RegDrop t _ _ | RegAdd t _ _ => Some t
  | _ => None
  end.

Definition listed (s : store) (l : list (string * pref)) : list (string * list tref) :=
  map (λ x, (x.1, Members x.2 s)) l.

Definition all_listed (s : store) : list (string * list tref) :=
  listed s (map_to_list (byName (s_reg s))).

Definition pc_ok (q : pc) (s : store) : Prop :=
  match q with
  | RegWait t _ | RegPool t _ => detached s t
  | RegDrop t _ p => detached s t ∧ Pool (ct_Subdomain (tunnel s t)) s = Some p
  | RegAdd t _ p => detached s t ∧ Pool (ct_Subdomain (tunnel s t)) s = Some p
      ∧ ∀ o se, ByID p (ct_ID (tunnel s t)) s = Some o → ct_Session (tunnel s o) = Some se →
          bySess (s_reg s) !! Session_ID se = None
  | RegHealthy t | RegIndex t | SetStore t _ | ReqCount t | ReqServing t
  | CloseFlag t | CloseYamux t | CloseSession t => alloc s t
  | RemPool sid t p => alloc s t ∧ Pool (ct_Subdomain (tunnel s t)) s = Some p
      ∧ bySess (s_reg s) !! sid = None
  | SetFind p _ _ => ∃ n, Pool n s = Some p
  | SnapScan todo out => out ++ listed s todo = all_listed s
  | ReqPick n p _ => Pool n s = Some p
  | ReqScan n p _ rest a => Pool n s = Some p ∧ rest `suffix_of` Members p s
      ∧ match rest with
        | m :: _ => a = AtYamux ∨ is_Some (ct_Yamux (tunnel s m))
        | [] => True
        end
  | ReqHealth t _ | ReqLimit t _ | ReqOpen t => alloc s t ∧ is_Some (ct_Yamux (tunnel s t))
  | ReqDone NilYamux => False
  | _ => True
  end.

(** The session index with the entry the writer at [q] has taken out or not yet put in. *)
Definition full_index (q : pc) (s : store) : gmap string tref :=
  let index t := match ct_Session (tunnel s t) with
                 | Some se => <[Session_ID se := t]> (bySess (s_reg s))
                 | None => bySess (s_reg s)
                 end in
  match q with
  | RegAdd t _ p =>
      match ByID p (ct_ID (tunnel s t)) s with
      | Some o => index o
      | None => bySess (s_reg s)
      end
  | RegHealthy t | RegIndex t => index t
  | RemPool sid t _ => <[sid := t]> (bySess (s_reg s))
  | _ => bySess (s_reg s)
  end.

Definition repaired (q : pc) (s : store) : store := set_bySess (full_index q s) s.

Definition sessions_unique (s : store) : Prop :=
  ∀ x y sx sy, ct_Session (tunnel s x) = Some sx → ct_Session (tunnel s y) = Some sy →
    Session_ID sx = Session_ID sy → x = y.

Record fine_inv (c : cfg) : Prop := {
  fi_pc i q : cf_threads c !! i = Some q → pc_ok q (cf_store c);
  fi_pending i j qi qj t : cf_threads c !! i = Some qi → cf_threads c !! j = Some qj →
    pending qi = Some t → pending qj = Some t → i = j;
  fi_writer i j qi qj : cf_threads c !! i = Some qi → cf_threads c !! j = Some qj →
    writes_reg qi = true → writes_reg qj = true → i = j;
  fi_reader i j qi qj : cf_threads c !! i = Some qi → cf_threads c !! j = Some qj →
    writes_reg qi = true → reads_reg qj = false;
  fi_reg i q : cf_threads c !! i = Some q → writes_reg q = true →
    reg_inv (repaired q (cf_store c));
  fi_free : may_rlock (cf_threads c) = true → reg_inv (cf_store c);
  fi_members p x : x ∈ Members p (cf_store c) → alloc (cf_store c) x;
  fi_sessions : sessions_unique (cf_store c)
}.

(** Some session index makes the registry well formed, at every moment. *)
Lemma fine_pools c : fine_inv c → ∃ m, reg_inv (set_bySess m (cf_store c)).
Proof.
  intros Hc. destruct (may_rlock (cf_threads c)) eqn:E.
  - exists (bySess (s_reg (cf_store c))). rewrite set_bySess_id. by apply fi_free.
  - unfold may_rlock in E. rewrite <-not_true_iff_false, forallb_forall in E.
    destruct (decide (Exists (λ q, writes_reg q = true) (cf_threads c))) as [He|He].
    + apply Exists_exists in He as (q & [i Hi]%list_elem_of_lookup & Hw).
      exists (full_index q (cf_store c)). by apply (fi_reg c Hc i).
    + exfalso. apply E. intros q Hq%list_elem_of_In. destruct (writes_reg q) eqn:Hw; [|done].
      exfalso. apply He, Exists_exists. eauto.
Qed.

(** ** What the steps of the others may do meanwhile *)

(** [o] is the tunnel that a [pool.Add] takes in, [w] the pool that is written. *)
Record evolves (o : option tref) (w : option pref) (s s' : store) : Prop := {
  ev_alloc x : alloc s x → alloc s' x;
  ev_fields x : alloc s x → ct_ID (tunnel s' x) = ct_ID (tunnel s x)
    ∧ ct_Subdomain (tunnel s' x) = ct_Subdomain (tunnel s x)
    ∧ ct_Session (tunnel s' x) = ct_Session (tunnel s x)
    ∧ ct_Yamux (tunnel s' x) = ct_Yamux (tunnel s x);
  ev_pool n p : Pool n s = Some p → Pool n s' = Some p;
  ev_members p x : x ∈ Members p s' → x ∈ Members p s ∨ o = Some x;
  ev_frozen p : w ≠ Some p → Members p s' = Members p s;
  ev_draining x : alloc s x → (∀ p, x ∉ Members p s) →
    ct_Draining (tunnel s' x) = ct_Draining (tunnel s x)
}.

(** Steps of threads that hold no lock, of drain goroutines and of the sessions. *)
Record quiet (s s' : store) : Prop := {
  qu_same : same_reg s s';
  qu_yamux x : ct_Yamux (tunnel s' x) = ct_Yamux (tunnel s x)
}.

#[export] Instance quiet_refl : Reflexive quiet.
Proof. by intros s; constructor. Qed.

#[export] Instance quiet_trans : Transitive quiet.
Proof.
  intros s1 s2 s3 [H12 Y12] [H23 Y23]. constructor; [by transitivity s2|].
  intros x. by rewrite Y23.
Qed.

Lemma quiet_evolves s s' : quiet s s' → evolves None None s s'.
Proof.
  intros [Hs Hy]. constructor.
  - intros x. apply (sr_tunnels _ _ Hs).
  - intros x _. destruct (sr_fields _ _ Hs x) as (? & ? & ? & _). by rewrite Hy.
  - intros n p. unfold Pool. by rewrite (sr_reg _ _ Hs).
  - intros p x. rewrite (sr_members _ _ Hs). by left.
  - intros p _. apply (sr_members _ _ Hs).
  - intros x _ _. by apply (sr_fields _ _ Hs).
Qed.

Lemma quiet_upd t f s :
  keeps f → (∀ c, ct_Draining (f c) = ct_Draining c) → alloc s t → quiet s (upd_tunnel t f s).
Proof.
  intros Hf Hd Ht. constructor; [by apply same_reg_upd|]. intros x.
  unfold upd_tunnel. rewrite tunnel_set_tunnel. case_decide; [subst; apply Hf | done].
Qed.

Lemma quiet_world w s : quiet s (set_world w s).
Proof. constructor; [apply same_reg_world | done]. Qed.

Lemma quiet_put_drain i t d d' s :
  s_drains s !! i = Some (t, d) → quiet s (put_drain i (d' ← d'; Some (t, d')) s).
Proof.
  intros Hi. constructor; [|done]. apply same_reg_put_drain. intros u d1 Hd.
  destruct d'; simplify_eq/=. by exists d.
Qed.

Lemma detached_evolves o w s s' t :
  evolves o w s s' → o ≠ Some t → detached s t → detached s' t.
Proof.
  intros He Ho Hd. constructor.
  - apply (ev_alloc _ _ _ _ He), Hd.
  - intros p Hm. apply (ev_members _ _ _ _ He) in Hm as [Hm|Hm]; [|done].
    by apply (dt_pool _ _ Hd p).
  - rewrite (ev_draining _ _ _ _ He); apply Hd.
Qed.

Lemma find_id_ext_on s s' id l :
  (∀ x, x ∈ l → ct_ID (tunnel s' x) = ct_ID (tunnel s x)) → find_id s' id l = find_id s id l.
Proof.
  induction l as [|t l IH]; intros Hs; simpl; [done|].
  rewrite Hs by by left. rewrite IH; [done|]. intros x Hx. apply Hs. by right.
Qed.

(** The members of the registry's pools are allocated, whatever the session index is. *)
Lemma pools_alloc m s n p x :
  reg_inv (set_bySess m s) → Pool n s = Some p → x ∈ Members p s → alloc s x.
Proof. intros Hinv Hp Hx. by apply (ri_mem _ Hinv n p x Hp Hx). Qed.

Lemma ByID_member p id s o : ByID p id s = Some o → o ∈ Members p s ∧ ct_ID (tunnel s o) = id.
Proof.
  unfold ByID. destruct (find_id s id _) as [[i u]|] eqn:E; [|done]. intros [= ->].
  apply find_id_Some in E as [Hi Hid]. split; [by eapply list_elem_of_lookup_2 | done].
Qed.

Lemma ByID_evolves m o s s' n p id :
  reg_inv (set_bySess m s) → Pool n s = Some p → evolves o None s s' →
  ByID p id s' = ByID p id s.
Proof.
  intros Hinv Hp He. pose proof (ev_frozen _ _ _ _ He p ltac:(done)) as Hm.
  unfold ByID. unfold Members in Hm. rewrite Hm. f_equal. apply find_id_ext_on.
  intros x Hx. apply (ev_fields _ _ _ _ He). by eapply pools_alloc.
Qed.

(** What the others did left everything that the thread at [q] relies on alone. *)
Record spares (q : pc) (o : option tref) (w : option pref) (s s' : store) : Prop := {
  sp_evolves : evolves o w s s';
  sp_pending : o ≠ None → pending q ≠ o;
  sp_scan p : reads_pool p q = true → w ≠ Some p;
  sp_reader : reads_reg q = true → w = None ∧ byName (s_reg s') = byName (s_reg s);
  sp_writer : writes_reg q = true → w = None ∧ s_reg s' = s_reg s
}.

Lemma spares_quiet q s s' : quiet s s' → spares q None None s s'.
Proof.
  intros Hq. constructor; try done; [by apply quiet_evolves | |];
    intros _; by rewrite (sr_reg _ _ (qu_same _ _ Hq)).
Qed.

Lemma spares_detached q o w s s' t :
  spares q o w s s' → pending q = Some t → detached s t → detached s' t.
Proof.
  intros Hsp Hp. apply (detached_evolves o w); [apply Hsp|]. intros ->.
  by apply (sp_pending _ _ _ _ _ Hsp).
Qed.

Lemma spares_pool q o w s s' t p :
  spares q o w s s' → alloc s t →
  Pool (ct_Subdomain (tunnel s t)) s = Some p → Pool (ct_Subdomain (tunnel s' t)) s' = Some p.
Proof.
  intros [He _ _ _ _] Ht Hp. destruct (ev_fields _ _ _ _ He t Ht) as (_ & -> & _).
  by apply (ev_pool _ _ _ _ He).
Qed.

Lemma ByID_spares m q o w s s' t p :
  reg_inv (set_bySess m s) → spares q o w s s' → writes_reg q = true → alloc s t →
  Pool (ct_Subdomain (tunnel s t)) s = Some p →
  ByID p (ct_ID (tunnel s' t)) s' = ByID p (ct_ID (tunnel s t)) s
  ∧ ∀ u, ByID p (ct_ID (tunnel s t)) s = Some u → alloc s u.
Proof.
  intros Hinv Hsp Hw Ht Hp. destruct (sp_writer _ _ _ _ _ Hsp Hw) as [-> _].
  destruct (ev_fields _ _ _ _ (sp_evolves _ _ _ _ _ Hsp) t Ht) as (-> & _). split.
  - by apply (ByID_evolves m o s s' (ct_Subdomain (tunnel s t))); [..|apply Hsp].
  - intros u [Hu _]%ByID_member. by eapply pools_alloc.
Qed.

Lemma pc_ok_spares m q o w s s' :
  reg_inv (set_bySess m s) → spares q o w s s' → pc_ok q s → pc_ok q s'.
Proof.
  intros Hinv Hsp. pose proof (sp_evolves _ _ _ _ _ Hsp) as He.
  pose proof (ev_alloc _ _ _ _ He) as Ha. pose proof (ev_pool _ _ _ _ He) as HP.
  assert (∀ x, alloc s x → is_Some (ct_Yamux (tunnel s x)) → is_Some (ct_Yamux (tunnel s' x))) as HY.
  { intros x Hx. by destruct (ev_fields _ _ _ _ He x Hx) as (_ & _ & _ & ->). }
  destruct q; simpl; try done; try by apply Ha.
  - by apply (spares_detached _ _ _ _ _ _ Hsp).
  - by apply (spares_detached _ _ _ _ _ _ Hsp).
  - intros [Hd Hp]. split; [by apply (spares_detached _ _ _ _ _ _ Hsp)|].
    eapply spares_pool; [done | apply Hd | done].
  - intros (Hd & Hp & Hold). pose proof (dt_alloc _ _ Hd) as Ht.
    destruct (ByID_spares m _ o w s s' t p Hinv Hsp eq_refl Ht Hp) as [-> Hu].
    split_and!; [by apply (spares_detached _ _ _ _ _ _ Hsp) | by eapply spares_pool|].
    intros u se Hid. destruct (sp_writer _ _ _ _ _ Hsp eq_refl) as [_ ->].
    destruct (ev_fields _ _ _ _ He u (Hu u Hid)) as (_ & _ & -> & _). by apply Hold.
  - intros (Ht & Hp & Hs). destruct (sp_writer _ _ _ _ _ Hsp eq_refl) as [_ ->].
    split_and!; [by apply Ha | by eapply spares_pool | done].
  - intros [n Hn]. exists n. by apply HP.
  - destruct (sp_reader _ _ _ _ _ Hsp eq_refl) as [-> Hb].
    assert (∀ l, listed s' l = listed s l) as HL.
    { intros l. apply map_ext. intros [n p]. by rewrite (ev_frozen _ _ _ _ He). }
    unfold all_listed. by rewrite Hb, !HL.
  - apply HP.
  - intros (Hp & Hs & Hm).
    assert (Members p s' = Members p s) as ->.
    { apply (ev_frozen _ _ _ _ He), (sp_scan _ _ _ _ _ Hsp). by apply bool_decide_eq_true_2. }
    split_and!; [by apply HP | done |]. destruct rest as [|u rest]; [done|].
    destruct Hm as [?|Hm]; [by left | right]. apply HY; [|done].
    eapply pools_alloc; [done | done |]. destruct Hs as [l ->]. set_solver.
  - intros [??]. auto.
  - intros [??]. auto.
  - intros [??]. auto.
Qed.

(** The repaired index does not move while the others are at work. *)
Lemma full_index_spares m q o w s s' :
  reg_inv (set_bySess m s) → spares q o w s s' → writes_reg q = true → pc_ok q s →
  full_index q s' = full_index q s.
Proof.
  intros Hinv Hsp Hw. destruct (sp_writer _ _ _ _ _ Hsp Hw) as [_ Hr].
  pose proof (ev_fields _ _ _ _ (sp_evolves _ _ _ _ _ Hsp)) as Hf.
  destruct q; simpl; intros Hq; try by rewrite Hr.
  - destruct Hq as (Hd & Hp & _). pose proof (dt_alloc _ _ Hd) as Ht.
    destruct (ByID_spares m _ o w s s' t p Hinv Hsp Hw Ht Hp) as [-> Hu].
    destruct (ByID p _ s) as [u|]; [|by rewrite Hr].
    destruct (Hf u (Hu u eq_refl)) as (_ & _ & -> & _). by rewrite Hr.
  - destruct (Hf t Hq) as (_ & _ & -> & _). by rewrite Hr.
  - destruct (Hf t Hq) as (_ & _ & -> & _). by rewrite Hr.
Qed.

Lemma same_reg_bySess m s s' : same_reg s s' → same_reg (set_bySess m s) (set_bySess m s').
Proof.
  intros Hs. constructor; try apply Hs. simpl. unfold set_bySess, set_reg. simpl.
  by rewrite (sr_reg _ _ Hs).
Qed.

Lemma repaired_quiet m q s s' :
  reg_inv (set_bySess m s) → quiet s s' → writes_reg q = true → pc_ok q s →
  reg_inv (repaired q s) → reg_inv (repaired q s').
Proof.
  intros Hinv Hqu Hw Hq. apply reg_inv_same. unfold repaired.
  rewrite (full_index_spares m q None None s s' Hinv (spares_quiet _ _ _ Hqu) Hw Hq).
  apply same_reg_bySess, Hqu.
Qed.

Lemma repaired_idle q s : full_index q s = bySess (s_reg s) → repaired q s = s.
Proof. intros Hq. unfold repaired. rewrite Hq. apply set_bySess_id. Qed.

Lemma sessions_quiet s s' : quiet s s' → sessions_unique s → sessions_unique s'.
Proof.
  intros [Hs _] Hu x y sx sy. destruct (sr_fields _ _ Hs x) as (_ & _ & -> & _).
  destruct (sr_fields _ _ Hs y) as (_ & _ & -> & _). apply Hu.
Qed.

(** ** Steps of threads that do not hold [r.mu] for writing *)

Lemma suffix_tail {A} (m : A) rest l : m :: rest `suffix_of` l → rest `suffix_of` l.
Proof. intros [k ->]. exists (k ++ [m]). by rewrite <-app_assoc. Qed.

Lemma scan_ok m s n p max u rest a :
  reg_inv (set_bySess m s) → pc_ok (ReqScan n p max (u :: rest) a) s →
  pc_ok (step_scan s n p max u rest a) s.
Proof.
  intros Hinv (Hp & Hs & Hy). pose proof (suffix_tail _ _ _ Hs) as Hs'.
  assert (pc_ok (ReqScan n p max rest AtYamux) s) as Hnext
    by (split_and!; [done | done | by destruct rest; [|left]]).
  assert (alloc s u) as Hu.
  { eapply pools_alloc; [done | done|]. destruct Hs as [l ->]. set_solver. }
  destruct a; simpl in Hy; unfold step_scan.
  - destruct (ct_Yamux (tunnel s u)) as [y|] eqn:E; [|done].
    destruct (Yamux_IsClosed _ y); [done|]. split_and!; [done | done | right; by rewrite E].
  - destruct Hy as [?|Hy]; [done|].
    destruct (ct_Session _) as [se|]; [|done]. destruct (Session_IsClosed _ se); [done|].
    split_and!; auto.
  - destruct Hy as [?|Hy]; [done|]. destruct (ct_LocalHealthy _); [|done]. split_and!; auto.
  - destruct Hy as [?|Hy]; [done|]. destruct (ct_Draining _); [done|]. done.
Qed.

Lemma step_scan_pc s n p max u rest a :
  let q' := step_scan s n p max u rest a in
  writes_reg q' = false ∧ reads_reg q' = false ∧ pending q' = None.
Proof. destruct a; simpl; repeat case_match; done. Qed.

(** What becomes of the point of a thread that held no lock for writing. *)
Record calm (ths : list pc) (q : pc) (s : store) (q' : pc) (s' : store) : Prop := {
  ca_quiet : quiet s s';
  ca_pending : pending q' = pending q ∨ pending q' = None;
  ca_writer : writes_reg q' = true →
    may_lock ths = true ∧ s' = s ∧ full_index q' s = bySess (s_reg s);
  ca_reader : reads_reg q' = true → reads_reg q = true ∨ may_rlock ths = true;
  ca_ok : pc_ok q' s'
}.

(** A step that leads to a point where no lock of the registry is held. *)
Lemma calm_lockfree ths q s q' s' :
  quiet s s' → pending q' = None → writes_reg q' = false → reads_reg q' = false →
  pc_ok q' s' → calm ths q s q' s'.
Proof. intros ?? Hw Hr ?. constructor; rewrite ?Hw, ?Hr; auto; done. Qed.

Lemma request_calm m ths q s s' q' :
  reg_inv (set_bySess m s) → pc_ok q s → step_request q s = Some (s', q') → calm ths q s q' s'.
Proof.
  intros Hinv Hq. destruct q; simpl; try done.
  - intros [= <- <-]. simpl in Hq.
    assert (is_Some (s_pools s !! p)) as Hp by by apply (ri_pool _ Hinv n p).
    apply calm_lockfree; try done.
    + constructor; [apply (Pick_same s p Hp) | done].
    + simpl. split_and!; [done | | by destruct (tp_members _); [|left]].
      unfold Members. rewrite pool_set_pool, decide_True by done. by exists [].
  - destruct rest as [|u rest]; intros [= <- <-]; [by apply calm_lockfree|].
    destruct (step_scan_pc s n p max u rest at_) as (Hw & Hr & Hp).
    apply calm_lockfree; try done. by eapply scan_ok.
  - intros [= <- <-]. case_match; by apply calm_lockfree.
  - intros [= <- <-]. case_match; by apply calm_lockfree.
  - destruct Hq as [Ha [y Hy]]. rewrite Hy. destruct (Yamux_Open (s_world s) y) as [w [e|]];
      intros [= <- <-]; apply calm_lockfree; try done; apply quiet_world.
  - intros [= <- <-]. assert (quiet s (upd_tunnel t (add_ActiveStreams 1) s)) as Hqu
      by by apply quiet_upd; [apply keeps_ActiveStreams|..].
    apply calm_lockfree; try done. by apply (sr_tunnels _ _ (qu_same _ _ Hqu)).
  - intros [= <- <-]. apply calm_lockfree; try done.
    by apply quiet_upd; [apply keeps_ActiveStreams|..].
Qed.

Lemma health_calm m ths q s s' q' :
  reg_inv (set_bySess m s) → pc_ok q s → step_SetLocalHealth ths q s = Some (s', q') →
  calm ths q s q' s'.
Proof.
  intros Hinv Hq. destruct q; simpl; try done.
  - destruct (may_rlock ths); [|done]. destruct (Pool sub s) as [p|] eqn:E; intros [= <- <-];
      apply calm_lockfree; try done. by exists sub.
  - destruct (ByID p id s) as [t|] eqn:E; intros [= <- <-]; apply calm_lockfree; try done.
    destruct Hq as [n Hn]. apply ByID_member in E as [E _]. by eapply pools_alloc.
  - intros [= <- <-]. apply calm_lockfree; try done.
    by apply quiet_upd; [apply keeps_LocalHealthy|..].
Qed.

Lemma snapshot_calm ths q s s' q' :
  pc_ok q s → step_Snapshot ths q s = Some (s', q') → calm ths q s q' s'.
Proof.
  intros Hq. destruct q; simpl; try done.
  - destruct (may_rlock ths) eqn:E; [|done]. intros [= <- <-]. constructor; try done; by right.
  - destruct todo as [|[n p] todo]; intros [= <- <-]; constructor; auto; try done.
    simpl. simpl in Hq. rewrite <-Hq, <-app_assoc. done.
Qed.

Lemma close_calm ths q s s' q' :
  pc_ok q s → step_Close q s = Some (s', q') → calm ths q s q' s'.
Proof.
  intros Hq. destruct q; simpl; try done; intros [= <- <-]; apply calm_lockfree; try done.
  - by apply quiet_upd; [apply keeps_Closed|..].
  - assert (quiet s (upd_tunnel t (store_Closed true) s)) as Hqu
      by by apply quiet_upd; [apply keeps_Closed|..].
    by apply (sr_tunnels _ _ (qu_same _ _ Hqu)).
  - case_match; [apply quiet_world | done].
  - by case_match.
  - case_match; [apply quiet_world | done].
Qed.

Lemma lock_calm m ths q s s' q' :
  reg_inv (set_bySess m s) → writes_reg q = false → pc_ok q s →
  advance ths q s = Some (s', q') → calm ths q s q' s'.
Proof.
  intros Hinv Hw Hq Hadv.
  destruct q; try done; simpl in Hadv;
    first [ by eapply request_calm | by eapply health_calm | by eapply snapshot_calm
          | by eapply close_calm | idtac ].
  - destruct (may_lock ths) eqn:E; [|done]. simplify_eq. constructor; auto; done.
  - destruct (may_lock ths) eqn:E; [|done]. simplify_eq. constructor; auto; done.
Qed.

(** ** Steps of the thread that holds [r.mu] for writing *)

Lemma evolves_bySess m s : evolves None None s (set_bySess m s).
Proof. constructor; auto. Qed.

(** Writing the members of one pool. *)
Lemma evolves_set_pool o p l b s :
  (∀ x, x ∈ l → x ∈ Members p s ∨ o = Some x) → evolves o (Some p) s (set_pool p (mkPool l b) s).
Proof.
  intros Hl. constructor; try done.
  - intros q x. unfold Members at 1. rewrite pool_set_pool. case_decide; [subst; apply Hl | by left].
  - intros q Hq. unfold Members. rewrite pool_set_pool, decide_False by congruence. done.
Qed.

(** A member that is replaced starts to drain. *)
Lemma evolves_replace p i old t b d s :
  alloc s old → old ∈ Members p s →
  evolves (Some t) (Some p) s
    (beginSupersedeDrain old d (set_pool p (mkPool (<[i := t]> (Members p s)) b) s)).
Proof.
  intros Ha Hm. set (s1 := set_pool p _ s).
  assert (evolves (Some t) (Some p) s s1) as H1.
  { apply evolves_set_pool. intros x [->|Hx]%elem_of_list_insert_weak; auto. }
  constructor.
  - intros x Hx. by apply is_Some_insert_alloc, (ev_alloc _ _ _ _ H1).
  - intros x Hx. rewrite tunnel_beginSupersedeDrain. case_decide; [by subst | done].
  - apply H1.
  - apply H1.
  - apply H1.
  - intros x Hx Hnm. rewrite tunnel_beginSupersedeDrain, decide_False; [done|].
    intros ->. by apply (Hnm p).
Qed.

(** The tunnel [Add] decides about, in the registry that [Register] started from. *)
Lemma add_register q t max p s :
  q = RegAdd t max p → reg_inv (repaired q s) → pc_ok q s →
  let '(s', r) := Add p t max (supersedeDrainTimeout (s_reg s)) s in
  Register t max (repaired q s) =
    match r with Ok _ => (index_session t s', Ok tt) | Err e => (repaired q s, Err e) end
  ∧ (∀ e, r = Err e → s' = s ∧ repaired q s = s)
  ∧ evolves (Some t) (Some p) s s'.
Proof.
  intros -> Hinv (Hd & Hp & Hold). set (q := RegAdd t max p) in *. set (s0 := repaired q s) in *.
  assert (is_Some (s_pools s0 !! p)) as Hpa by by eapply (ri_pool s0 Hinv).
  assert (EnsurePool (ct_Subdomain (tunnel s0 t)) s0 = (s0, p)) as He.
  { unfold EnsurePool. unfold Pool in Hp. change (byName (s_reg s0)) with (byName (s_reg s)).
    change (tunnel s0 t) with (tunnel s t). by rewrite Hp. }
  rewrite Register_unfold, He, register_in_eq by (done || apply Hd).
  rewrite (find_id_ext s s0) by done. change (tunnel s0 t) with (tunnel s t).
  change (Members p s0) with (tp_members (pool s p)).
  unfold Add. destruct (find_id s (ct_ID (tunnel s t)) _) as [[i old]|] eqn:E.
  - assert (ByID p (ct_ID (tunnel s t)) s = Some old) as Hby by (unfold ByID; by rewrite E).
    pose proof (ByID_member _ _ _ _ Hby) as [Hm _].
    assert (set_bySess (sess_without s0 (Some old)) s0 = s) as Hback.
    { transitivity (set_bySess (sess_without s0 (Some old)) s); [done|].
      rewrite <-(set_bySess_id s) at 2. f_equal. unfold sess_without. simpl.
      change (ct_Session (tunnel s0 old)) with (ct_Session (tunnel s old)). rewrite Hby.
      destruct (ct_Session (tunnel s old)) as [se|] eqn:Hse; [|done].
      rewrite delete_insert_id; [done|]. by apply Hold with old. }
    split_and!; [|done|].
    + unfold replaced. by rewrite Hback.
    + apply evolves_replace; [by eapply (pools_alloc _ s) | done].
  - assert (s0 = s) as Hs0.
    { apply repaired_idle. simpl. unfold ByID. by rewrite E. }
    rewrite Hs0. change (Len p s) with (Z.of_nat (length (tp_members (pool s p)))).
    destruct (Z.leb max _) eqn:Hmax.
    + split_and!; [done | done |]. constructor; auto; done.
    + split_and!; [done | done |]. apply evolves_set_pool. set_solver.
Qed.

(** What a step of the writer leaves. *)
Record wrote (ths : list pc) (q : pc) (s : store) (q' : pc) (s' : store) : Prop := {
  wr_evolves : ∃ o w, evolves o w s s' ∧ (o = None ∨ o = pending q)
    ∧ ∀ p, w = Some p → may_lock_pool p ths = true;
  wr_pending : pending q' = pending q ∨ pending q' = None;
  wr_reader : reads_reg q' = false;
  wr_ok : pc_ok q' s';
  wr_inv : reg_inv (repaired q' s')
}.

(** Steps that write no pool and keep the repaired registry. *)
Lemma wrote_same ths q s q' s' :
  evolves None None s s' → (pending q' = pending q ∨ pending q' = None) →
  reads_reg q' = false → pc_ok q' s' → reg_inv (repaired q' s') → wrote ths q s q' s'.
Proof.
  intros He ????. constructor; [|done..]. exists None, None.
  split_and!; [done | by left | done].
Qed.

Lemma index_session_unhealthy t s :
  alloc s t → reg_inv (index_session t s) → reg_inv (repaired (RegHealthy t) s).
Proof.
  intros Ht. apply reg_inv_same. constructor; try done; eauto.
  - intros x. simpl. by rewrite is_Some_insert_alloc.
  - intros x. rewrite tunnel_index_session. by case_decide; [subst|].
Qed.

(** A tunnel nobody else can reach is new to the registry. *)
Lemma detached_fresh m t s :
  detached s t → reg_inv (set_bySess m s) → sessions_unique s →
  fresh_tunnel (set_bySess m s) t.
Proof.
  intros Hd Hinv Hu. constructor; [apply Hd | intros n p _; apply (dt_pool _ _ Hd) | apply Hd |].
  intros se Hse. destruct (GetBySessionID _ _) as [u|] eqn:E; [|done]. exfalso.
  destruct (ri_sess _ Hinv _ _ E) as (su & p & Hsu & Hid & _ & Hm).
  assert (u = t) as -> by by eapply Hu. by apply (dt_pool _ _ Hd p).
Qed.

Lemma register_wrote ths q s s' q' :
  writes_reg q = true → pc_ok q s → reg_inv (repaired q s) → sessions_unique s →
  step_Register ths q s = Some (s', q') → wrote ths q s q' s'.
Proof.
  intros Hw Hq Hinv Huniq. destruct q; try done; simpl.
  - rewrite repaired_idle in Hinv by done.
    pose proof (EnsurePool_spec s (ct_Subdomain (tunnel s t)) Hinv) as He.
    destruct (EnsurePool _ s) as [s1 p]. intros [= <- <-].
    assert (∀ x, tunnel s1 x = tunnel s x) as HT
      by (intros x; unfold tunnel; by rewrite (en_tunnels _ _ _ _ He)).
    assert (evolves None None s s1) as Hev.
    { constructor.
      - intros x. unfold alloc. by rewrite (en_tunnels _ _ _ _ He).
      - intros x _. by rewrite HT.
      - intros n p0. rewrite (en_pool _ _ _ _ He). case_decide; [subst|done]. intros Hn.
        destruct (en_old _ _ _ _ He) as [Ho|[Ho _]]; congruence.
      - intros p0 x. rewrite (en_members _ _ _ _ He). by left.
      - intros p0 _. apply (en_members _ _ _ _ He).
      - intros x _ _. by rewrite HT. }
    apply wrote_same; auto.
    + split; [by eapply detached_evolves|]. by rewrite HT, (en_pool _ _ _ _ He), decide_True.
    + rewrite repaired_idle by done. apply He.
  - rewrite repaired_idle in Hinv by done. destruct Hq as [Hd Hp]. intros [= <- <-].
    rewrite drop_old_session_eq. set (s1 := set_bySess _ s). set (id := ct_ID (tunnel s t)) in *.
    assert (ByID p id s1 = ByID p id s) as HB.
    { unfold ByID. by rewrite (find_id_ext s s1). }
    assert (∀ o se, ByID p id s = Some o → ct_Session (tunnel s o) = Some se →
      bySess (s_reg s) !! Session_ID se = Some o) as Hback.
    { intros o se [Ho _]%ByID_member Hse. by apply (ri_back s Hinv (ct_Subdomain (tunnel s t)) p). }
    apply wrote_same; auto.
    + apply evolves_bySess.
    + split_and!; [by destruct Hd | done |]. intros o se Ho. change (tunnel s1 o) with (tunnel s o).
      intros Hse. change (tunnel s1 t) with (tunnel s t) in Ho. fold id in Ho. rewrite HB in Ho.
      simpl. unfold sess_without. rewrite Ho. simpl. rewrite Hse. apply lookup_delete_eq.
    + replace (repaired (RegAdd t max p) s1) with s; [done|].
      rewrite <-(set_bySess_id s) at 1. unfold repaired.
      transitivity (set_bySess (full_index (RegAdd t max p) s1) s); [|done]. f_equal. simpl.
      change (tunnel s1 t) with (tunnel s t). fold id. rewrite HB. unfold sess_without.
      destruct (ByID p id s) as [o|] eqn:Ho; [|done]. simpl.
      change (tunnel s1 o) with (tunnel s o).
      destruct (ct_Session (tunnel s o)) as [se|] eqn:Hse; [|done].
      symmetry. by apply insert_delete_id, Hback.
  - destruct (may_lock_pool p ths) eqn:Hl; [|done].
    pose proof (add_register _ t max p s eq_refl Hinv Hq) as Hadd. destruct Hq as (Hd & Hp & _).
    pose proof (detached_fresh _ t _ Hd Hinv Huniq) as Hf.
    pose proof (Register_spec _ t max Hinv Hf) as HR.
    destruct (Add p t max _ s) as [s1 [[]|e]]; destruct Hadd as (Hreg & Herr & Hev);
      rewrite Hreg in HR; intros [= <- <-].
    + assert (alloc s1 t) as Ht by apply (ev_alloc _ _ _ _ Hev), Hd.
      constructor; [|by right|done|done|by apply index_session_unhealthy; [|apply HR]].
      exists (Some t), (Some p). split_and!; [done | by right |]. by intros ? [= <-].
    + destruct (Herr e eq_refl) as [-> Hs]. rewrite Hs in HR.
      apply wrote_same; auto; [by apply quiet_evolves | done |].
      rewrite repaired_idle by done. apply HR.
  - intros [= <- <-]. assert (quiet s (upd_tunnel t (store_LocalHealthy true) s)) as Hqu
      by by apply quiet_upd; [apply keeps_LocalHealthy|..].
    apply wrote_same; auto; [by apply quiet_evolves | by apply (sr_tunnels _ _ (qu_same _ _ Hqu)) |].
    by apply (repaired_quiet (full_index (RegHealthy t) s) (RegHealthy t) s).
  - intros [= <- <-].
    assert ((match ct_Session (tunnel s t) with
             | None => s
             | Some se => set_bySess (<[Session_ID se := t]> (bySess (s_reg s))) s
             end) = repaired (RegIndex t) s) as ->.
    { unfold repaired. simpl. destruct (ct_Session _); [done | symmetry; apply set_bySess_id]. }
    apply wrote_same; auto; [apply evolves_bySess | done].
  - intros [= <- <-]. by apply wrote_same; auto; [apply quiet_evolves|..].
Qed.

(** [pool.Remove] ends what [RemoveBySessionID] does to the registry it started from. *)
Lemma remove_repaired sid t p s :
  Pool (ct_Subdomain (tunnel s t)) s = Some p → bySess (s_reg s) !! sid = None →
  RemoveBySessionID sid (repaired (RemPool sid t p) s) = Remove p (ct_ID (tunnel s t)) s.
Proof.
  intros Hp Hs. unfold RemoveBySessionID. simpl. rewrite lookup_insert_eq.
  rewrite delete_insert_id by done. unfold Pool in Hp.
  change (tunnel (set_bySess _ _) t) with (tunnel s t). rewrite Hp.
  f_equal. apply (set_bySess_id s).
Qed.

Lemma remove_wrote ths q s s' q' :
  writes_reg q = true → pc_ok q s → reg_inv (repaired q s) →
  step_Remove ths q s = Some (s', q') → wrote ths q s q' s'.
Proof.
  intros Hw Hq Hinv. destruct q; try done; simpl.
  - rewrite repaired_idle in Hinv by done. destruct (bySess (s_reg s) !! sid) as [t|] eqn:Hs.
    2:{ intros [= <- <-]. apply wrote_same; auto; [by apply quiet_evolves | by rewrite repaired_idle]. }
    destruct (ri_sess s Hinv sid t Hs) as (se & p & Hse & Hid & Hp & Hm).
    set (s1 := set_bySess _ s). unfold Pool in Hp. change (byName (s_reg s1)) with (byName (s_reg s)).
    change (tunnel s1 t) with (tunnel s t). rewrite Hp. intros [= <- <-].
    apply wrote_same; auto; [apply evolves_bySess| |].
    + split_and!; [by apply (ri_mem s Hinv _ _ _ Hp) | done | apply lookup_delete_eq].
    + replace (repaired (RemPool sid t p) s1) with s; [done|].
      rewrite <-(set_bySess_id s) at 1.
      transitivity (set_bySess (<[sid := t]> (delete sid (bySess (s_reg s)))) s); [|done].
      by rewrite insert_delete_id.
  - destruct (may_lock_pool p ths) eqn:Hl; [|done]. intros [= <- <-]. destruct Hq as (Ha & Hp & Hs).
    constructor; try done; [|by right|].
    + exists None, (Some p). split_and!; [|by left | by intros ? [= <-]].
      unfold Remove. destruct (find_id s _ _) as [[i u]|].
      * apply evolves_set_pool. rewrite <-delete_take_drop. intros x Hx. left.
        by eapply list_elem_of_delete_inv.
      * constructor; auto.
    + rewrite repaired_idle by done. rewrite <-(remove_repaired sid t p) by done.
      by apply RemoveBySessionID_spec.
  - intros [= <- <-]. by apply wrote_same; auto; [apply quiet_evolves|..].
Qed.

(** The writer assigns no field of a tunnel but the flags. *)
Lemma writer_field {A} (f : ClientTunnel → A) ths q s s' q' :
  (∀ b c, f (store_LocalHealthy b c) = f c) → (∀ b c, f (store_Draining b c) = f c) →
  step_Register ths q s = Some (s', q') ∨ step_Remove ths q s = Some (s', q') →
  ∀ x, f (tunnel s' x) = f (tunnel s x).
Proof.
  intros Hh Hd [Hs|Hs] x; destruct q; simpl in Hs; try discriminate Hs.
  - by destruct (may_lock ths); simplify_eq.
  - unfold EnsurePool in Hs. by destruct (byName _ !! _); simplify_eq/=.
  - rewrite drop_old_session_eq in Hs. by simplify_eq.
  - destruct (may_lock_pool p ths); [|done]. unfold Add in Hs.
    destruct (find_id s _ _) as [[i old]|]; [|by destruct (Z.leb _ _); simplify_eq].
    simplify_eq. rewrite tunnel_beginSupersedeDrain. case_decide; [|done]. subst x. apply Hd.
  - simplify_eq. unfold upd_tunnel. rewrite tunnel_set_tunnel. case_decide; [|done].
    subst x. apply Hh.
  - simplify_eq. by case_match.
  - by simplify_eq.
  - by destruct (may_lock ths); simplify_eq.
  - by repeat case_match; simplify_eq.
  - destruct (may_lock_pool p ths); [|done]. simplify_eq. unfold Remove. by repeat case_match.
  - by simplify_eq.
Qed.

Lemma lock_wrote ths q s s' q' :
  writes_reg q = true → pc_ok q s → reg_inv (repaired q s) → sessions_unique s →
  advance ths q s = Some (s', q') → wrote ths q s q' s' ∧ sessions_unique s'.
Proof.
  intros Hw Hq Hinv Hu Hadv.
  assert (step_Register ths q s = Some (s', q') ∨ step_Remove ths q s = Some (s', q')) as Hs
    by (destruct q; try done; auto).
  split; [destruct Hs; [by apply register_wrote | by apply remove_wrote]|].
  intros x y sx sy. rewrite !(writer_field ct_Session _ _ _ _ _ ltac:(done) ltac:(done) Hs). apply Hu.
Qed.

End InterleaveInv.
