(* ===== verification/InterleaveRun.v ===== *)
(** Every step of the interleaved registry keeps its invariant: the steps of threads, of
    drain goroutines and of the sessions, and the beginning of an operation. *)

From S2P Require Import Prelude GoStrings Config Host Registry RegistryInv RegistryOps.
From S2P Require Import RegistryRun RegistrySpec Interleave InterleaveInv.

Section InterleaveRun.
  Context `{Transport}.

(** ** Every step keeps the invariant *)

Lemma may_lock_lookup ths i q :
  may_lock ths = true → ths !! i = Some q → writes_reg q = false ∧ reads_reg q = false.
Proof.
  intros Hf Hi. pose proof (forallb_lookup _ _ _ _ Hf Hi) as Hq. simpl in Hq. by breflect.
Qed.

Lemma may_rlock_lookup ths i q :
  may_rlock ths = true → ths !! i = Some q → writes_reg q = false.
Proof.
  intros Hf Hi. pose proof (forallb_lookup _ _ _ _ Hf Hi) as Hq. simpl in Hq. by breflect.
Qed.

Lemma may_lock_rlock ths : may_lock ths = true → may_rlock ths = true.
Proof.
  unfold may_lock, may_rlock. rewrite !forallb_forall. intros Hf q Hq.
  by destruct (proj1 (andb_true_iff _ _) (Hf q Hq)).
Qed.

Lemma members_evolves o w s s' :
  evolves o w s s' → (∀ t, o = Some t → alloc s t) → (∀ p x, x ∈ Members p s → alloc s x) →
  ∀ p x, x ∈ Members p s' → alloc s' x.
Proof.
  intros He Ho Hm p x Hx. apply (ev_alloc _ _ _ _ He).
  apply (ev_members _ _ _ _ He) in Hx as [Hx|Hx]; [by eapply Hm | by apply Ho].
Qed.

Lemma full_index_idle q s : writes_reg q = false → full_index q s = bySess (s_reg s).
Proof. by destruct q. Qed.

Lemma pending_detached q s t : pc_ok q s → pending q = Some t → detached s t.
Proof. by destruct q; simpl; intros Hq [= <-]; try apply Hq. Qed.

(** A step of a thread that holds no lock for writing. *)
Lemma calm_inv c i q q' s' :
  fine_inv c → cf_threads c !! i = Some q → writes_reg q = false →
  calm (cf_threads c) q (cf_store c) q' s' →
  fine_inv (mkCfg s' (<[i := q']> (cf_threads c))).
Proof.
  intros Hc Hi Hnw Hca. destruct (fine_pools c Hc) as [m Hm]. pose proof (ca_quiet _ _ _ _ _ Hca) as Hqu.
  assert (∀ j qj, <[i := q']> (cf_threads c) !! j = Some qj →
    (i = j ∧ qj = q') ∨ (i ≠ j ∧ cf_threads c !! j = Some qj)) as Hj
    by (intros j qj; by apply lookup_insert_cases with q).
  constructor; simpl.
  - intros j qj [[<- ->]|[Hne Hqj]]%Hj; [apply Hca|].
    eapply pc_ok_spares; [done | by apply spares_quiet | by eapply fi_pc].
  - intros j k qj qk t [[<- ->]|[Hnj Hqj]]%Hj [[<- ->]|[Hnk Hqk]]%Hj Hpj Hpk; [done| | |].
    + destruct (ca_pending _ _ _ _ _ Hca) as [E|E]; rewrite E in Hpj; [|done]. by eapply (fi_pending c).
    + destruct (ca_pending _ _ _ _ _ Hca) as [E|E]; rewrite E in Hpk; [|done]. by eapply (fi_pending c).
    + by eapply (fi_pending c).
  - intros j k qj qk [[<- ->]|[Hnj Hqj]]%Hj [[<- ->]|[Hnk Hqk]]%Hj Hwj Hwk; [done| | |].
    + destruct (ca_writer _ _ _ _ _ Hca Hwj) as [Hl _]. destruct (may_lock_lookup _ _ _ Hl Hqk); congruence.
    + destruct (ca_writer _ _ _ _ _ Hca Hwk) as [Hl _]. destruct (may_lock_lookup _ _ _ Hl Hqj); congruence.
    + by eapply (fi_writer c).
  - intros j k qj qk [[<- ->]|[Hnj Hqj]]%Hj [[<- ->]|[Hnk Hqk]]%Hj Hwj; apply not_true_iff_false; intros Hr.
    + by destruct q'.
    + destruct (ca_writer _ _ _ _ _ Hca Hwj) as [Hl _]. destruct (may_lock_lookup _ _ _ Hl Hqk). congruence.
    + destruct (ca_reader _ _ _ _ _ Hca Hr) as [Hrq|Hl].
      * pose proof (fi_reader c Hc _ _ _ _ Hqj Hi Hwj). congruence.
      * pose proof (may_rlock_lookup _ _ _ Hl Hqj). congruence.
    + pose proof (fi_reader c Hc _ _ _ _ Hqj Hqk Hwj). congruence.
  - intros j qj [[<- ->]|[Hne Hqj]]%Hj Hwj.
    + destruct (ca_writer _ _ _ _ _ Hca Hwj) as (Hl & -> & Hidx). rewrite repaired_idle by done.
      by apply (fi_free c Hc), may_lock_rlock.
    + eapply repaired_quiet; [done | done | done | by eapply fi_pc | by eapply fi_reg].
  - intros Hf. eapply reg_inv_same; [apply Hqu|]. apply (fi_free c Hc).
    eapply forallb_insert; [done | exact Hf | by rewrite Hnw].
  - eapply members_evolves; [by apply quiet_evolves | done | apply (fi_members c Hc)].
  - eapply sessions_quiet; [done | apply (fi_sessions c Hc)].
Qed.

(** A step of the writer. *)
Lemma wrote_inv c i q q' s' :
  fine_inv c → cf_threads c !! i = Some q → writes_reg q = true →
  wrote (cf_threads c) q (cf_store c) q' s' → sessions_unique s' →
  fine_inv (mkCfg s' (<[i := q']> (cf_threads c))).
Proof.
  intros Hc Hi Hw Hwr Hu. destruct (fine_pools c Hc) as [m Hm].
  destruct (wr_evolves _ _ _ _ _ Hwr) as (o & w & He & Ho & Hwp).
  assert (∀ j qj, i ≠ j → cf_threads c !! j = Some qj → writes_reg qj = false ∧ reads_reg qj = false) as Hoth.
  { intros j qj Hne Hj. split; [|by eapply (fi_reader c Hc i j q qj)]. apply not_true_iff_false. intros Hwj.
    apply Hne. by eapply (fi_writer c). }
  assert (∀ j qj, <[i := q']> (cf_threads c) !! j = Some qj →
    (i = j ∧ qj = q') ∨ (i ≠ j ∧ cf_threads c !! j = Some qj)) as Hj
    by (intros j qj; by apply lookup_insert_cases with q).
  constructor; simpl.
  - intros j qj [[<- ->]|[Hne Hqj]]%Hj; [apply Hwr|]. destruct (Hoth j qj Hne Hqj) as [Hwj Hrj].
    eapply (pc_ok_spares m qj o w); [done | | by eapply fi_pc].
    constructor; rewrite ?Hwj, ?Hrj; try done.
    + intros Hon Hp. apply Hne. destruct Ho as [-> | ->]; [done|]. destruct (pending q) eqn:Eq; [|done].
      by eapply (fi_pending c).
    + intros p Hp ->. specialize (Hwp p eq_refl). pose proof (forallb_lookup _ _ _ _ Hwp Hqj) as Hf.
      simpl in Hf. by rewrite Hp in Hf.
  - intros j k qj qk t [[<- ->]|[Hnj Hqj]]%Hj [[<- ->]|[Hnk Hqk]]%Hj Hpj Hpk; [done| | |].
    + destruct (wr_pending _ _ _ _ _ Hwr) as [E|E]; rewrite E in Hpj; [|done]. by eapply (fi_pending c).
    + destruct (wr_pending _ _ _ _ _ Hwr) as [E|E]; rewrite E in Hpk; [|done]. by eapply (fi_pending c).
    + by eapply (fi_pending c).
  - intros j k qj qk [[<- ->]|[Hnj Hqj]]%Hj [[<- ->]|[Hnk Hqk]]%Hj Hwj Hwk; [done| | |];
      [destruct (Hoth k qk) | destruct (Hoth j qj) | destruct (Hoth k qk)]; congruence.
  - intros j k qj qk [[<- ->]|[Hnj Hqj]]%Hj [[<- ->]|[Hnk Hqk]]%Hj Hwj;
      [apply Hwr | by destruct (Hoth k qk) | apply Hwr | by destruct (Hoth k qk)].
  - intros j qj [[<- ->]|[Hne Hqj]]%Hj Hwj; [apply Hwr|]. destruct (Hoth j qj); congruence.
  - intros Hf. rewrite <-(repaired_idle q'); [apply Hwr|]. apply full_index_idle.
    eapply (may_rlock_lookup _ i); [done|]. apply list_lookup_insert_eq. by eapply lookup_lt_Some.
  - apply (members_evolves o w (cf_store c)); [done | | apply (fi_members c Hc)].
    intros t ->. destruct Ho as [|Ho]; [done|].
    by eapply dt_alloc, pending_detached; [eapply (fi_pc c Hc) |].
  - done.
Qed.

Lemma lookup_app_option {A} (l : list A) (o : option A) j x :
  (l ++ option_list o) !! j = Some x → (j = length l ∧ o = Some x) ∨ l !! j = Some x.
Proof.
  destruct o as [y|]; simpl; [|rewrite app_nil_r; by right].
  intros [[-> ->]|Hj]%lookup_snoc_cases; [by left | by right].
Qed.

(** Everything else: the store changes under the threads, and perhaps one more begins. *)
Lemma others_inv c o s' :
  fine_inv c → evolves None None (cf_store c) s' → s_reg s' = s_reg (cf_store c) →
  (∀ m, reg_inv (set_bySess m (cf_store c)) → reg_inv (set_bySess m s')) → sessions_unique s' →
  (∀ q, o = Some q → pc_ok q s' ∧ writes_reg q = false ∧ reads_reg q = false
     ∧ ∀ t, pending q = Some t → ¬ alloc (cf_store c) t) →
  fine_inv (mkCfg s' (cf_threads c ++ option_list o)).
Proof.
  intros Hc He Hr Hreg Hu Ho. destruct (fine_pools c Hc) as [m Hm].
  assert (∀ q, spares q None None (cf_store c) s') as Hsp by (intros q; constructor; by rewrite ?Hr).
  assert (∀ i q t, cf_threads c !! i = Some q → pending q = Some t → alloc (cf_store c) t) as Hp
    by (intros i q t Hi Hq; by eapply dt_alloc, pending_detached; [eapply (fi_pc c Hc) |]).
  constructor; simpl.
  - intros i q [[_ Hq]|Hi]%lookup_app_option; [by destruct (Ho q Hq)|].
    eapply pc_ok_spares; [done | done | by eapply fi_pc].
  - intros i j qi qj t [[-> Hi]|Hi]%lookup_app_option [[-> Hj]|Hj]%lookup_app_option Hti Htj;
      [done | | | by eapply (fi_pending c)]; exfalso.
    + destruct (Ho qi Hi) as (_ & _ & _ & Hf). by eapply Hf, Hp.
    + destruct (Ho qj Hj) as (_ & _ & _ & Hf). by eapply Hf, Hp.
  - intros i j qi qj [[-> Hi]|Hi]%lookup_app_option [[-> Hj]|Hj]%lookup_app_option Hwi Hwj;
      [done | | | by eapply (fi_writer c)].
    + destruct (Ho qi Hi); naive_solver congruence.
    + destruct (Ho qj Hj); naive_solver congruence.
  - intros i j qi qj [[-> Hi]|Hi]%lookup_app_option [[-> Hj]|Hj]%lookup_app_option Hwi;
      [by apply Ho in Hj as (_ & _ & ? & _) | | by apply Ho in Hj as (_ & _ & ? & _)
      | by eapply (fi_reader c Hc i j qi qj)]. apply Ho in Hi as (_ & ? & _). congruence.
  - intros i q [[-> Hi]|Hi]%lookup_app_option Hw; [apply Ho in Hi as (_ & ? & _); congruence|].
    unfold repaired. rewrite (full_index_spares m q None None (cf_store c)); auto.
    + by apply Hreg, (fi_reg c Hc i).
    + by eapply (fi_pc c Hc).
  - unfold may_rlock. rewrite forallb_app, andb_true_iff. intros [Hf _].
    rewrite <-(set_bySess_id s'), Hr. apply Hreg. rewrite set_bySess_id. by apply (fi_free c Hc).
  - apply (members_evolves None None (cf_store c)); [done | done | apply (fi_members c Hc)].
  - done.
Qed.

Lemma quiet_others c o s' :
  fine_inv c → quiet (cf_store c) s' →
  (∀ q, o = Some q → pc_ok q s' ∧ writes_reg q = false ∧ reads_reg q = false ∧ pending q = None) →
  fine_inv (mkCfg s' (cf_threads c ++ option_list o)).
Proof.
  intros Hc Hqu Ho. pose proof (qu_same _ _ Hqu) as Hs. apply others_inv; try done.
  - by apply quiet_evolves.
  - apply Hs.
  - intros m. apply reg_inv_same. by apply same_reg_bySess.
  - eapply sessions_quiet; [done | apply (fi_sessions c Hc)].
  - intros q Hq. destruct (Ho q Hq) as (? & ? & ? & E). rewrite E. done.
Qed.

Lemma session_unused_spec sid s x se :
  session_unused sid s = true → ct_Session (tunnel s x) = Some se → Session_ID se ≠ sid.
Proof.
  unfold session_unused, tunnel. rewrite forallb_forall. intros Hf Hx.
  destruct (s_tunnels s !! x) as [c|] eqn:E; [|done]. simpl in Hx.
  specialize (Hf (x, c) (proj1 (list_elem_of_In _ _) (proj2 (elem_of_map_to_list _ _ _) E))).
  simpl in Hf. rewrite Hx in Hf. by apply negb_true_iff, bool_decide_eq_false_1 in Hf.
Qed.

(** A connection begins: the object is made before [Register] is called. *)
Lemma register_begins c ct max :
  fine_inv c → start (OpRegister ct max) (cf_store c) =
    Some ((new_tunnel ct (cf_store c)).1, RegWait (s_nexttunnel (cf_store c)) max) →
  fine_inv (mkCfg (new_tunnel ct (cf_store c)).1
    (cf_threads c ++ [RegWait (s_nexttunnel (cf_store c)) max])).
Proof.
  intros Hc Hst. simpl in Hst. destruct (negb _ && _ && _) eqn:Hg; [clear Hst | done].
  destruct (fine_pools c Hc) as [m Hm]. set (s := cf_store c) in *. set (s' := (new_tunnel ct s).1).
  apply andb_true_iff in Hg as [[Hd _]%andb_true_iff Hse]. apply negb_true_iff in Hd.
  assert (∀ x, alloc s x → s_nexttunnel s ≠ x) as Hne
    by (intros x [ct' Hx] <-; pose proof (ri_tunnels _ Hm (s_nexttunnel s) ltac:(done)); naive_solver).
  assert (∀ x, alloc s x → tunnel s' x = tunnel s x) as HT
    by (intros x Hx; unfold s'; rewrite tunnel_new, decide_False; [done | by apply Hne]).
  assert (tunnel s' (s_nexttunnel s) = ct) as Hnew by (unfold s'; by rewrite tunnel_new, decide_True).
  apply (others_inv c (Some (RegWait (s_nexttunnel s) max))); auto.
  - constructor; auto.
    + intros x Hx. apply lookup_insert_is_Some'. by right.
    + intros x Hx. by rewrite HT.
    + intros x Hx _. by rewrite HT.
  - intros k Hk. by apply (new_tunnel_inv ct (set_bySess k s)).
  - assert (∀ x sx sy, ct_Session (tunnel s x) = Some sx → ct_Session ct = Some sy →
      Session_ID sx ≠ Session_ID sy) as Hfresh.
    { intros x sx sy Hx Hy. rewrite Hy in Hse. by eapply session_unused_spec. }
    intros x y sx sy. unfold s'. rewrite !tunnel_new.
    destruct (decide (s_nexttunnel s = x)) as [<-|], (decide (s_nexttunnel s = y)) as [<-|]; [done|..].
    + intros Hx Hy Heq. by destruct (Hfresh y sy sx Hy Hx).
    + intros Hx Hy Heq. by destruct (Hfresh x sx sy Hx Hy).
    + apply (fi_sessions c Hc).
  - intros q [= <-]. split_and!; try done.
    + simpl. constructor.
      * unfold alloc. simpl. rewrite lookup_insert_eq. eauto.
      * intros p Hp. by apply (Hne _ (fi_members c Hc p _ Hp)).
      * by rewrite Hnew.
    + simpl. intros t [= <-] Ha. by apply (Hne _ Ha).
Qed.

Lemma fine_inv_step c c' : fine_inv c → fine_step c c' → fine_inv c'.
Proof.
  intros Hc [a Ha]. destruct (fine_pools c Hc) as [m Hm]. destruct a as [i|o|i now|w]; simpl in Ha.
  - unfold run_thread in Ha. destruct (cf_threads c !! i) as [q|] eqn:Hi; [|done].
    destruct (advance _ q _) as [[s' q']|] eqn:Hadv; [|done]. injection Ha as <-.
    pose proof (fi_pc c Hc i q Hi) as Hq. destruct (writes_reg q) eqn:Hw.
    + destruct (lock_wrote _ _ _ _ _ Hw Hq (fi_reg c Hc i q Hi Hw) (fi_sessions c Hc) Hadv).
      by apply wrote_inv with q.
    + apply calm_inv with q; [done..|]. by eapply lock_calm.
  - destruct (start o (cf_store c)) as [[s' q]|] eqn:Hst; [|done]. injection Ha as <-.
    assert ((∀ ct max, o ≠ OpRegister ct max) → s' = cf_store c ∧ pc_ok q s' ∧ writes_reg q = false
      ∧ reads_reg q = false ∧ pending q = None) as Hother.
    { intros Hne. destruct o as [ct max| | | |n p max]; simpl in Hst; simplify_eq; try done.
      - by destruct (Hne ct max).
      - case_bool_decide; by simplify_eq. }
    destruct o as [ct max| | | |];
      [pose proof Hst as Hst'; simpl in Hst'; destruct (negb _ && _ && _); [|done];
       simplify_eq; by apply register_begins|..].
    all: destruct (Hother ltac:(done)) as (-> & Hq);
      apply (quiet_others c (Some q)); [done | done |]; by intros ? [= <-].
  - destruct (s_drains (cf_store c) !! i) as [[t d]|] eqn:Hi; [|done].
    assert (alloc (cf_store c) t) as Ht
      by (apply (ri_drains _ Hm t d); by eapply list_elem_of_lookup_2).
    destruct (drain_run now t d (cf_store c)).2 as [d'|]; injection Ha as <-.
    + rewrite <-(app_nil_r (cf_threads c)). apply (quiet_others c None); try done.
      by apply (quiet_put_drain i t d (Some d')).
    + pose proof (quiet_put_drain i t d None _ Hi) as Hqu.
      apply (quiet_others c (Some (CloseFlag t))); [done | done |]. by intros ? [= <-].
  - injection Ha as <-. rewrite <-(app_nil_r (cf_threads c)).
    apply (quiet_others c None); try done. apply quiet_world.
Qed.

Lemma init_fine_inv w d : fine_inv (init_cfg w d).
Proof.
  constructor; simpl; try done.
  - intros _. apply init_inv.
  - intros p x Hx. by apply elem_of_nil in Hx.
Qed.

Lemma fine_inv_steps c c' : rtc fine_step c c' → fine_inv c → fine_inv c'.
Proof. induction 1; eauto using fine_inv_step. Qed.

Lemma reachable_fine_inv w d c : rtc fine_step (init_cfg w d) c → fine_inv c.
Proof. intros Hr. eapply fine_inv_steps; [done | apply init_fine_inv]. Qed.

End InterleaveRun.
