(* ===== verification/InterleaveSpec.v ===== *)
(** What the interleaved registry guarantees: the invariant, which steps change who serves
    a client and how, what [Pick] and [Snapshot] return, and when a drain goroutine closes
    its tunnel. *)

From S2P Require Import Prelude GoStrings Config Host Registry RegistryInv RegistryOps.
From S2P Require Import RegistryRun RegistrySpec Interleave InterleaveInv InterleaveRun.

Section InterleaveSpec.
  Context `{Transport}.

(** ** The session index plays no part in who serves a client *)

Lemma current_bySess m s sub id : current (set_bySess m s) sub id = current s sub id.
Proof.
  unfold current. change (Pool sub (set_bySess m s)) with (Pool sub s).
  destruct (Pool sub s) as [p|]; simpl; [|done]. unfold ByID.
  by rewrite (find_id_ext s (set_bySess m s)).
Qed.

Lemma current_quiet s s' sub id : quiet s s' → current s' sub id = current s sub id.
Proof. intros [Hs _]. by apply current_same. Qed.

Lemma current_new m ct s sub id :
  reg_inv (set_bySess m s) → current (new_tunnel ct s).1 sub id = current s sub id.
Proof.
  intros Hm. pose proof (new_tunnel_current ct _ sub id Hm) as Hn.
  rewrite current_bySess in Hn. rewrite <-Hn.
  symmetry. apply (current_bySess m (new_tunnel ct s).1).
Qed.

Lemma current_index t s sub id : alloc s t → current (index_session t s) sub id = current s sub id.
Proof.
  intros Ht. unfold index_session. rewrite current_bySess. apply current_same.
  by apply same_reg_upd; [apply keeps_LocalHealthy|..].
Qed.

(** ** The step at which [Register] takes effect *)

(** [pool.Add] of a thread of [Register]: what it decides and what becomes of the tunnel
    it replaces. *)
Lemma add_commit t max p ths s s' q' :
  pc_ok (RegAdd t max p) s → reg_inv (repaired (RegAdd t max p) s) → sessions_unique s →
  step_Register ths (RegAdd t max p) s = Some (s', q') →
  let sub := ct_Subdomain (tunnel s t) in
  let id := ct_ID (tunnel s t) in
  (q' = RegHealthy t ∧ (current s sub id ≠ None ∨ (pool_len s sub < max)%Z)
   ∧ (∀ a b, current s' a b = view_set (current s) sub id (Some t) a b)
   ∧ ∀ old, current s sub id = Some old →
       ct_Draining (tunnel s' old) = true ∧ ∃ d, (old, d) ∈ s_drains s')
  ∨ (q' = RegUnlock (Err ErrPoolFull) ∧ s' = s ∧ current s sub id = None
     ∧ (max ≤ pool_len s sub)%Z).
Proof.
  intros Hq Hinv Hu. simpl. destruct (may_lock_pool p ths); [|done].
  pose proof (add_register _ t max p s eq_refl Hinv Hq) as Hadd. destruct Hq as (Hd & Hp & _).
  pose proof (detached_fresh _ t _ Hd Hinv Hu) as Hf.
  pose proof (Register_spec _ t max Hinv Hf) as HR. unfold repaired in HR.
  rewrite current_bySess in HR.
  destruct (Add p t max _ s) as [s1 [[]|[]]]; destruct Hadd as (Hreg & Herr & Hev);
    unfold repaired in Hreg; rewrite Hreg in HR; intros [= <- <-].
  - left. destruct HR as (_ & Hc & Hok). set (s0 := set_bySess _ s) in *.
    assert (alloc s1 t) as Ht by apply (ev_alloc _ _ _ _ Hev), Hd.
    split_and!; [done | done | |].
    + intros a b. rewrite <-(current_index t) by done. rewrite (ro_current _ _ _ Hok).
      unfold view_set. unfold s0. by rewrite current_bySess.
    + intros old Hold.
      assert (t ≠ old) as Hne.
      { intros <-. unfold current in Hold. rewrite Hp in Hold. simpl in Hold.
        apply ByID_member in Hold as [Hold _]. by apply (dt_pool _ _ Hd p). }
      pose proof (ro_draining _ _ _ Hok old) as Hdr. pose proof (ro_drains _ _ _ Hok) as Hds.
      unfold s0 in Hdr, Hds. rewrite !current_bySess in Hdr, Hds. simpl in Hdr, Hds.
      change (tunnel (set_bySess _ s) ?x) with (tunnel s x) in Hdr, Hds.
      rewrite Hold in Hdr, Hds. rewrite bool_decide_eq_true_2 in Hdr by done.
      rewrite tunnel_index_session, decide_False in Hdr by done.
      split; [done|]. eexists. simpl in Hds. rewrite Hds. apply elem_of_app. right. by left.
  - right. destruct (Herr _ eq_refl) as [-> _]. by destruct HR as (_ & ? & ? & _).
Qed.

Lemma current_member_of s a b t : current s a b = Some t → ∃ p, t ∈ Members p s.
Proof.
  unfold current. destruct (Pool a s) as [p|]; simpl; [|done].
  intros [Hm _]%ByID_member. by exists p.
Qed.

(** [pool.Remove] of a thread of [RemoveBySessionID]. *)
Lemma remove_commit sid t p ths s s' q' :
  pc_ok (RemPool sid t p) s → reg_inv (repaired (RemPool sid t p) s) →
  step_Remove ths (RemPool sid t p) s = Some (s', q') →
  let sub := ct_Subdomain (tunnel s t) in
  let id := ct_ID (tunnel s t) in
  q' = RemUnlock ∧ current s sub id = Some t
  ∧ ∀ a b, current s' a b = view_set (current s) sub id None a b.
Proof.
  intros (Ha & Hp & Hs) Hinv. simpl. destruct (may_lock_pool p ths); [|done]. intros [= <- <-].
  rewrite <-(remove_repaired sid t p) by done.
  set (s0 := repaired (RemPool sid t p) s) in *.
  assert (GetBySessionID sid s0 = Some t) as Hget by apply lookup_insert_eq.
  destruct (RemoveBySessionID_spec s0 sid Hinv) as [_ Hd]. rewrite Hget in Hd.
  destruct (ri_sess s0 Hinv sid t Hget) as (se & p' & _ & _ & Hp' & Hm).
  split_and!; [done | |].
  - rewrite <-(current_bySess (full_index (RemPool sid t p) s)). apply current_iff; [done|].
    by exists p'.
  - intros a b. rewrite (di_current _ _ _ _ Hd). unfold view_set, s0, repaired.
    by rewrite current_bySess.
Qed.

(** Only these two steps change who serves a client. *)
Definition commits (q : pc) : bool :=
  match q with RegAdd _ _ _ | RemPool _ _ _ => true | _ => false end.

Lemma writer_view ths q s s' q' :
  writes_reg q = true → pc_ok q s → reg_inv (repaired q s) → sessions_unique s →
  advance ths q s = Some (s', q') →
  view_step (current s) (current s')
  ∧ (commits q = false → ∀ a b, current s' a b = current s a b).
Proof.
  intros Hw Hq Hinv Hu Hadv.
  assert ((∀ a b, current s' a b = current s a b) → view_step (current s) (current s')
    ∧ (commits q = false → ∀ a b, current s' a b = current s a b)) as Hsame
    by (intros Hc; split; [by apply view_same | done]).
  destruct q; try done; simpl in Hadv.
  - apply Hsame. intros a b. rewrite repaired_idle in Hinv by done.
    pose proof (EnsurePool_spec s (ct_Subdomain (tunnel s t)) Hinv) as He.
    destruct (EnsurePool _ s) as [s1 p]. simplify_eq. by apply (ensured_current _ _ _ _ _ _ He).
  - apply Hsame. intros a b. rewrite drop_old_session_eq in Hadv. simplify_eq.
    apply current_bySess.
  - split; [|done]. pose proof Hq as (Hd & _).
    destruct (add_commit t max p ths s s' q' Hq Hinv Hu Hadv) as [(_ & _ & Hc & _)|(_ & -> & _)];
      [|by apply view_same].
    eapply view_connect; [exact Hc|]. intros a b Hab.
    apply current_member_of in Hab as [p' Hm]. by apply (dt_pool _ _ Hd p').
  - apply Hsame. intros a b. simplify_eq. apply current_quiet.
    by apply quiet_upd; [apply keeps_LocalHealthy|..].
  - apply Hsame. intros a b. simplify_eq. destruct (ct_Session _); [apply current_bySess | done].
  - apply Hsame. intros a b. by simplify_eq.
  - apply Hsame. intros a b. destruct (bySess _ !! _); [|by simplify_eq].
    destruct (byName _ !! _); simplify_eq; apply current_bySess.
  - split; [|done]. destruct (remove_commit sid t p ths s s' q' Hq Hinv Hadv) as (_ & Hc & Hv).
    by eapply view_disconnect.
  - apply Hsame. intros a b. by simplify_eq.
Qed.

(** The thread that a step runs, if it is the step of a thread. *)
Definition runs (a : act) (c : cfg) : option pc :=
  match a with Run i => cf_threads c !! i | _ => None end.

Lemma step_view a c c' :
  fine_inv c → do_act a c = Some c' →
  view_step (current (cf_store c)) (current (cf_store c'))
  ∧ ((∀ q, runs a c = Some q → commits q = false) →
     ∀ sub id, current (cf_store c') sub id = current (cf_store c) sub id).
Proof.
  intros Hc Ha. destruct (fine_pools c Hc) as [m Hm].
  assert ((∀ x y, current (cf_store c') x y = current (cf_store c) x y) →
    view_step (current (cf_store c)) (current (cf_store c'))
    ∧ ((∀ q, runs a c = Some q → commits q = false) →
       ∀ sub id, current (cf_store c') sub id = current (cf_store c) sub id)) as Hsame
    by (intros Hs; split; [by apply view_same | done]).
  destruct a as [i|o|i now|w]; simpl in Ha.
  - unfold run_thread in Ha. simpl in *. destruct (cf_threads c !! i) as [q|] eqn:Hi; [|done].
    destruct (advance _ q _) as [[s' q']|] eqn:Hadv; [|done]. injection Ha as <-. simpl in *.
    pose proof (fi_pc c Hc i q Hi) as Hq. destruct (writes_reg q) eqn:Hw.
    + destruct (writer_view _ _ _ _ _ Hw Hq (fi_reg c Hc i q Hi Hw) (fi_sessions c Hc) Hadv)
        as [Hv Hnc]. split; [done|]. intros Hr. apply Hnc. by apply Hr.
    + apply Hsame. intros x y. apply current_quiet.
      by apply (ca_quiet _ _ _ _ _ (lock_calm m _ _ _ _ _ Hm Hw Hq Hadv)).
  - destruct (start o (cf_store c)) as [[s' q]|] eqn:Hst; [|done]. injection Ha as <-.
    apply Hsame. intros x y. simpl. destruct o; simpl in Hst; simplify_eq; try done.
    + destruct (negb _ && _ && _); simplify_eq. by apply (current_new m).
    + case_bool_decide; by simplify_eq.
  - apply Hsame. intros x y. destruct (s_drains (cf_store c) !! i) as [[t d]|] eqn:Hi; [|done].
    destruct (drain_run now t d (cf_store c)).2 as [d'|]; injection Ha as <-; simpl;
      apply current_quiet; [by apply (quiet_put_drain i t d (Some d'))
                           | by apply (quiet_put_drain i t d None)].
  - apply Hsame. intros x y. injection Ha as <-. apply current_quiet, quiet_world.
Qed.

(** ** Claims *)

(** C3: however the operations interleave between their accesses to shared memory, the
    registry is well formed whenever nobody holds [r.mu] for writing, and while somebody
    does it is well formed but for the one session entry that the holder is changing;
    no request dereferences a nil multiplexer. *)
Theorem fine_grained_invariant w d c :
  rtc fine_step (init_cfg w d) c →
  (may_rlock (cf_threads c) = true → reg_inv (cf_store c))
  ∧ (∀ i q, cf_threads c !! i = Some q → writes_reg q = true →
       reg_inv (repaired q (cf_store c)))
  ∧ ∀ i, cf_threads c !! i ≠ Some (ReqDone NilYamux).
Proof.
  intros Hr. pose proof (reachable_fine_inv w d c Hr) as Hc. split_and!.
  - apply (fi_free c Hc).
  - intros i q. apply (fi_reg c Hc).
  - intros i Hi. exact (fi_pc c Hc i _ Hi).
Qed.

(** C2: every step of every interleaving is a step of the abstract registry, and the only
    steps that change who serves a client are [pool.Add] inside [Register] and
    [pool.Remove] inside [RemoveBySessionID]. *)
Theorem fine_grained_refines w d c a c' :
  rtc fine_step (init_cfg w d) c → do_act a c = Some c' →
  view_step (current (cf_store c)) (current (cf_store c'))
  ∧ ((∀ q, runs a c = Some q → commits q = false) →
     ∀ sub id, current (cf_store c') sub id = current (cf_store c) sub id).
Proof. intros Hr. by apply step_view, (reachable_fine_inv w d). Qed.

(** C11: [Register] under concurrency: whatever has happened since it was called, at the
    moment of its [pool.Add] it succeeds exactly when the client has a tunnel there at that
    moment or the pool has room; then the new tunnel is the client's from that step on,
    nobody else's changes, and the tunnel it replaces drains; else nothing changes. *)
Theorem register_takes_effect_once w d c i t max p c' :
  rtc fine_step (init_cfg w d) c → cf_threads c !! i = Some (RegAdd t max p) →
  run_thread i c = Some c' →
  let s := cf_store c in
  let s' := cf_store c' in
  let sub := ct_Subdomain (tunnel s t) in
  let id := ct_ID (tunnel s t) in
  (cf_threads c' !! i = Some (RegHealthy t)
   ∧ (current s sub id ≠ None ∨ (pool_len s sub < max)%Z)
   ∧ (∀ a b, current s' a b = view_set (current s) sub id (Some t) a b)
   ∧ ∀ old, current s sub id = Some old →
       ct_Draining (tunnel s' old) = true ∧ ∃ d, (old, d) ∈ s_drains s')
  ∨ (cf_threads c' !! i = Some (RegUnlock (Err ErrPoolFull)) ∧ s' = s
     ∧ current s sub id = None ∧ (max ≤ pool_len s sub)%Z).
Proof.
  intros Hr Hi. pose proof (reachable_fine_inv w d c Hr) as Hc. unfold run_thread. rewrite Hi.
  destruct (advance _ _ _) as [[s' q']|] eqn:Hadv; [|done]. intros [= <-]. cbv zeta. simpl.
  rewrite list_lookup_insert_eq by (by eapply lookup_lt_Some).
  destruct (add_commit t max p _ _ _ _ (fi_pc c Hc i _ Hi) (fi_reg c Hc i _ Hi eq_refl)
    (fi_sessions c Hc) Hadv) as [(-> & Hrest)|(-> & Hrest)]; [by left | by right].
Qed.

(** C12: the tunnel that a request's [Pick] returns under concurrency is, at the moment it
    returns, the one that serves its client in the request's pool, and is not draining. *)
Theorem pick_returns_current w d c i n p max rest a c' t :
  rtc fine_step (init_cfg w d) c → cf_threads c !! i = Some (ReqScan n p max rest a) →
  run_thread i c = Some c' → cf_threads c' !! i = Some (ReqHealth t max) →
  current (cf_store c') n (ct_ID (tunnel (cf_store c') t)) = Some t
  ∧ ct_Draining (tunnel (cf_store c') t) = false.
Proof.
  intros Hr Hi. pose proof (reachable_fine_inv w d c Hr) as Hc. unfold run_thread. rewrite Hi.
  pose proof (fi_pc c Hc i _ Hi) as (Hp & Hs & Hy).
  destruct (fine_pools c Hc) as [m Hm]. set (s := cf_store c) in *.
  destruct rest as [|u rest]; simpl; intros [= <-]; simpl;
    rewrite list_lookup_insert_eq by (by eapply lookup_lt_Some); [done|].
  intros [= Ht]. assert (u = t ∧ ct_Draining (tunnel s t) = false) as [-> Hd].
  { destruct a; simpl in Ht; repeat case_match; by simplify_eq. }
  split; [|done]. rewrite <-(current_bySess m). apply current_iff; [done|]. exists p.
  split_and!; [done | | done]. change (Members p (set_bySess m s)) with (Members p s).
  destruct Hs as [l ->]. set_solver.
Qed.

(** C15: what a finished [Snapshot] has listed, one pool at a time under [r.mu.RLock], is
    what all the pools hold together when it ends, in a well-formed registry: no writer
    came in between. *)
Theorem snapshot_is_consistent w d c i out :
  rtc fine_step (init_cfg w d) c → cf_threads c !! i = Some (SnapScan [] out) →
  reg_inv (cf_store c) ∧ out = all_listed (cf_store c).
Proof.
  intros Hr Hi. pose proof (reachable_fine_inv w d c Hr) as Hc. split.
  - apply (fi_free c Hc). unfold may_rlock. rewrite forallb_forall.
    intros q [j Hj]%list_elem_of_In%list_elem_of_lookup. apply negb_true_iff.
    apply not_true_iff_false. intros Hw. by pose proof (fi_reader c Hc j i q _ Hj Hi Hw).
  - pose proof (fi_pc c Hc i _ Hi) as Hq. simpl in Hq. by rewrite app_nil_r in Hq.
Qed.

End InterleaveSpec.
