(* ===== verification/InterleaveLive.v ===== *)
(** The counter of open streams under concurrency, what it tells the drain goroutine, and
    that no interleaving of the operations gets stuck. *)

From S2P Require Import Prelude GoStrings Config Host Registry RegistryInv RegistryOps.
From S2P Require Import RegistryRun RegistrySpec Interleave InterleaveInv InterleaveRun.

Section InterleaveLive.
  Context `{Transport}.

(** ** Sums over the threads *)

Definition sum_threads (f : pc → Z) (ths : list pc) : Z := foldr (λ q n, f q + n)%Z 0%Z ths.

Lemma sum_insert f ths i q q' :
  ths !! i = Some q →
  sum_threads f (<[i := q']> ths) = (sum_threads f ths - f q + f q')%Z.
Proof.
  revert i. induction ths as [|r ths IH]; intros [|i] Hi; simplify_eq/=; [lia|].
  rewrite (IH i Hi). lia.
Qed.

Lemma sum_app f l1 l2 : sum_threads f (l1 ++ l2) = (sum_threads f l1 + sum_threads f l2)%Z.
Proof. induction l1 as [|q l1 IH]; simpl; [done|]. rewrite IH. lia. Qed.

Lemma sum_nonneg f ths : (∀ q, 0 ≤ f q)%Z → (0 ≤ sum_threads f ths)%Z.
Proof. intros Hf. induction ths as [|q ths IH]; simpl; [done|]. specialize (Hf q). lia. Qed.

Lemma sum_member f ths i q : (∀ r, 0 ≤ f r)%Z → ths !! i = Some q → (f q ≤ sum_threads f ths)%Z.
Proof.
  intros Hf Hi. pose proof (sum_nonneg f (take i ths ++ drop (S i) ths) Hf) as Hr.
  rewrite <-(take_drop_middle ths i q) by done. rewrite sum_app in *. simpl. lia.
Qed.

(** ** The counter of open streams *)

Definition serves_at (t : tref) (q : pc) : Z := if decide (q = ReqServing t) then 1 else 0.

(** The requests whose connection over [t] is open and counted. *)
Definition open_at (t : tref) (ths : list pc) : Z := sum_threads (serves_at t) ths.

Lemma serves_at_nonneg t q : (0 ≤ serves_at t q)%Z.
Proof. unfold serves_at. case_decide; lia. Qed.

Lemma open_at_bounds t ths : (0 ≤ open_at t ths ≤ Z.of_nat (length ths))%Z.
Proof.
  split; [apply sum_nonneg, serves_at_nonneg|]. unfold open_at.
  induction ths as [|q ths IH]; simpl; [done|].
  assert (serves_at t q ≤ 1)%Z by (unfold serves_at; case_decide; lia). lia.
Qed.

(** Steps other than counting a stream and closing it leave the counters alone. *)
Lemma advance_streams ths q s s' q' x :
  advance ths q s = Some (s', q') → int64 (ct_ActiveStreams (tunnel s x)) →
  ct_ActiveStreams (tunnel s' x) =
    wrap64 (ct_ActiveStreams (tunnel s x) + (serves_at x q' - serves_at x q)).
Proof.
  intros Hadv Hint.
  assert (serves_at x q = 0%Z → serves_at x q' = 0%Z →
    ct_ActiveStreams (tunnel s' x) = ct_ActiveStreams (tunnel s x) →
    ct_ActiveStreams (tunnel s' x) =
      wrap64 (ct_ActiveStreams (tunnel s x) + (serves_at x q' - serves_at x q))) as Hsame.
  { intros -> -> ->. by rewrite Z.add_0_r, wrap64_id. }
  assert (step_Register ths q s = Some (s', q') ∨ step_Remove ths q s = Some (s', q')
    ∨ step_SetLocalHealth ths q s = Some (s', q') ∨ step_Snapshot ths q s = Some (s', q')
    ∨ step_Close q s = Some (s', q') ∨ step_request q s = Some (s', q')) as Hs
    by (destruct q; auto 6; done).
  destruct Hs as [Hs|[Hs|[Hs|[Hs|[Hs|Hs]]]]].
  - apply Hsame; [by destruct q | destruct q; simpl in Hs; repeat case_match; by simplify_eq |].
    apply (writer_field ct_ActiveStreams ths q s s' q'); [done | done | by left].
  - apply Hsame; [by destruct q | destruct q; simpl in Hs; repeat case_match; by simplify_eq |].
    apply (writer_field ct_ActiveStreams ths q s s' q'); [done | done | by right].
  - apply Hsame; [by destruct q | destruct q; simpl in Hs; repeat case_match; by simplify_eq |].
    destruct q; simpl in Hs; repeat case_match; simplify_eq; try done.
    unfold upd_tunnel. rewrite tunnel_set_tunnel. by case_decide; subst.
  - apply Hsame; [by destruct q | |]; destruct q; simpl in Hs; repeat case_match; by simplify_eq.
  - apply Hsame; [by destruct q | destruct q; simpl in Hs; by simplify_eq |].
    destruct q; simpl in Hs; simplify_eq; try by case_match.
    unfold upd_tunnel. rewrite tunnel_set_tunnel. by case_decide; subst.
  - destruct q; simpl in Hs; try done; try (apply Hsame; [done|..]; repeat case_match; by simplify_eq).
    + apply Hsame; [done | |]; destruct rest as [|u rest]; simplify_eq; try done.
      destruct at_; simpl; repeat case_match; done.
    + simplify_eq. unfold upd_tunnel, serves_at. rewrite tunnel_set_tunnel.
      rewrite (decide_False (P := ReqCount t = _)) by done. repeat case_decide; try naive_solver.
      by rewrite Z.add_0_r, wrap64_id.
    + simplify_eq. unfold countedConn_Close, upd_tunnel, serves_at. rewrite tunnel_set_tunnel.
      rewrite (decide_False (P := ReqDone _ = _)) by done. repeat case_decide; try naive_solver.
      by rewrite Z.add_0_r, wrap64_id.
Qed.

Definition counted_threads (c : cfg) : Prop :=
  ∀ t, ct_ActiveStreams (tunnel (cf_store c) t) = wrap64 (open_at t (cf_threads c)).

Lemma counted_threads_step c c' :
  fine_inv c → counted_threads c → fine_step c c' → counted_threads c'.
Proof.
  intros Hinv Hc [a Ha] x. specialize (Hc x). destruct a as [i|o|i now|w]; simpl in Ha.
  - unfold run_thread in Ha. destruct (cf_threads c !! i) as [q|] eqn:Hi; [|done].
    destruct (advance _ q _) as [[s' q']|] eqn:Hadv; [|done]. injection Ha as <-. simpl.
    rewrite (advance_streams _ _ _ _ _ x Hadv) by (rewrite Hc; apply wrap64_int64).
    rewrite Hc, wrap64_add_l. f_equal. unfold open_at. rewrite (sum_insert _ _ i q) by done. lia.
  - destruct (start o (cf_store c)) as [[s' q]|] eqn:Hst; [|done]. injection Ha as <-. simpl.
    unfold open_at. rewrite sum_app. simpl.
    assert (ct_ActiveStreams (tunnel s' x) = ct_ActiveStreams (tunnel (cf_store c) x)
      ∧ serves_at x q = 0%Z) as [-> ->]; [|by rewrite !Z.add_0_r].
    destruct o; simpl in Hst; simplify_eq; try done; [|case_bool_decide; by simplify_eq].
    destruct (negb _ && _ && _) eqn:Hg; [|done]. simplify_eq. split; [|done].
    pose proof (tunnel_new c0 (cf_store c) x) as Hn. simpl in Hn. rewrite Hn.
    case_decide; [|done]. subst x. destruct (fine_pools c Hinv) as [m Hm].
    apply andb_true_iff in Hg as [[_ Hz%bool_decide_eq_true]%andb_true_iff _]. rewrite Hz.
    pose proof (ri_tunnels _ Hm (s_nexttunnel (cf_store c)) ltac:(done)) as Hnone.
    unfold tunnel. simpl in Hnone. by rewrite Hnone.
  - destruct (s_drains (cf_store c) !! i) as [[t d]|]; [|done].
    destruct (drain_run now t d (cf_store c)).2 as [d'|]; injection Ha as <-; simpl; [done|].
    unfold open_at. rewrite sum_app. simpl. by rewrite !Z.add_0_r.
  - by injection Ha as <-.
Qed.

Lemma reachable_counted w d c : rtc fine_step (init_cfg w d) c → fine_inv c ∧ counted_threads c.
Proof.
  assert (∀ c1 c2, rtc fine_step c1 c2 → fine_inv c1 → counted_threads c1 →
    fine_inv c2 ∧ counted_threads c2) as Hrun.
  { intros c1 c2. induction 1 as [|c1 c2 c3 H12 _ IH]; [done|]. intros Hi Hc.
    apply IH; [by eapply fine_inv_step | by eapply counted_threads_step]. }
  intros Hr. apply (Hrun _ _ Hr); [apply init_fine_inv|]. intros t. done.
Qed.

(** The deadline of a drain goroutine has passed. *)
Definition drain_expired (now : Z) (d : drain_pc) : Prop :=
  match d with DStart timeout => (timeout ≤ 0)%Z | DLoop deadline _ => (deadline ≤ now)%Z end.

Lemma drain_stops now t d s :
  (drain_run now t d s).2 = None → ct_ActiveStreams (tunnel s t) = 0%Z ∨ drain_expired now d.
Proof.
  assert (∀ deadline, (drain_check now t deadline s).2 = None →
    ct_ActiveStreams (tunnel s t) = 0%Z ∨ (deadline ≤ now)%Z) as Hc.
  { intros deadline. destruct (drain_check_cases now t deadline s) as [(e & -> & _)|[_ ?]]; done. }
  destruct d as [timeout|deadline wake]; simpl.
  - intros [?|?]%Hc; [by left | right; lia].
  - destruct (Z.ltb now wake); [done | apply Hc].
Qed.

(** C14: at every moment of every interleaving the counter of a tunnel is the number of
    requests that have counted their stream and not closed it; so a drain goroutine that
    goes on to close its tunnel before its deadline has found, when it looked, no such request.
    A request that counts its stream after that look is not protected. *)
Theorem counter_and_drain_interleaved w d c :
  rtc fine_step (init_cfg w d) c → (Z.of_nat (length (cf_threads c)) < 2 ^ 63)%Z →
  (∀ t, ct_ActiveStreams (tunnel (cf_store c) t) = open_at t (cf_threads c))
  ∧ ∀ i now t dr c', s_drains (cf_store c) !! i = Some (t, dr) →
      do_act (DrainRun i now) c = Some c' →
      cf_threads c' = cf_threads c ++ [CloseFlag t] →
      ReqServing t ∉ cf_threads c ∨ drain_expired now dr.
Proof.
  intros Hr Hlen. destruct (reachable_counted w d c Hr) as [_ Hc].
  assert (∀ t, ct_ActiveStreams (tunnel (cf_store c) t) = open_at t (cf_threads c)) as Heq.
  { intros t. rewrite Hc. apply wrap64_id. pose proof (open_at_bounds t (cf_threads c)).
    unfold int64. lia. }
  split; [done|]. intros i now t dr c' Hi Ha Hth. simpl in Ha. rewrite Hi in Ha.
  destruct (drain_run now t dr (cf_store c)).2 as [d'|] eqn:Hd; injection Ha as <-; simpl in Hth.
  { exfalso. apply (f_equal length) in Hth. rewrite length_app in Hth. simpl in Hth. lia. }
  destruct (drain_stops _ _ _ _ Hd) as [Hz|?]; [left | by right].
  intros [j Hj]%list_elem_of_lookup.
  pose proof (sum_member (serves_at t) _ j _ (serves_at_nonneg t) Hj) as Hs.
  rewrite Heq in Hz. unfold open_at in Hz. unfold serves_at at 1 in Hs.
  rewrite decide_True in Hs by done. lia.
Qed.

(** ** No interleaving gets stuck *)

(** Whether the lock the thread waits for, if any, is free. *)
Definition ready (ths : list pc) (q : pc) : bool :=
  match q with
  | RegWait _ _ | RemWait _ => may_lock ths
  | SetWait _ _ _ | SnapWait => may_rlock ths
  | RegAdd _ _ p | RemPool _ _ p => may_lock_pool p ths
  | _ => negb (done_pc q)
  end.

Lemma ready_advances ths q s : ready ths q = true → is_Some (advance ths q s).
Proof.
  destruct q; simpl; intros Hr; try done; rewrite ?Hr; repeat case_match; simplify_eq; eauto.
Qed.

Lemma forallb_or_lookup {A} (f : A → bool) l :
  forallb (λ q, negb (f q)) l = true ∨ ∃ i q, l !! i = Some q ∧ f q = true.
Proof.
  induction l as [|x l IH]; simpl; [by left|]. destruct (f x) eqn:E; simpl.
  - right. by exists 0, x.
  - destruct IH as [->|(i & q & Hi & Hq)]; [by left | right; by exists (S i), q].
Qed.

(** Readers of a pool never wait; without them the writer of [r.mu] does not wait; without
    readers and a writer of [r.mu] nobody waits. *)
Lemma some_thread_ready ths :
  forallb done_pc ths = false → ∃ i q, ths !! i = Some q ∧ ready ths q = true.
Proof.
  intros Hnd.
  destruct (forallb_or_lookup (λ q, match q with ReqScan _ _ _ _ _ | SnapScan _ _ => true
                                    | _ => false end) ths) as [Hr|(i & q & Hi & Hq)].
  2:{ exists i, q. split; [done|]. by destruct q. }
  assert (∀ p, may_lock_pool p ths = true) as Hpool.
  { intros p. unfold may_lock_pool. rewrite forallb_forall in *. intros q Hq.
    specialize (Hr q Hq). by destruct q. }
  destruct (forallb_or_lookup writes_reg ths) as [Hw|(i & q & Hi & Hq)].
  2:{ exists i, q. split; [done|]. destruct q; simpl in *; try done; apply Hpool. }
  assert (may_lock ths = true) as Hl.
  { unfold may_lock. rewrite forallb_forall in *. intros q Hq. rewrite (Hw q Hq).
    specialize (Hr q Hq). by destruct q. }
  destruct (forallb_or_lookup (λ q, negb (done_pc q)) ths) as [Hd|(i & q & Hi & Hq)].
  - exfalso. rewrite <-not_true_iff_false in Hnd. apply Hnd.
    rewrite forallb_forall in *. intros q Hq. specialize (Hd q Hq). by rewrite negb_involutive in Hd.
  - exists i, q. split; [done|]. destruct q; simpl in *; try done; apply Hpool.
Qed.

(** ** Every step of a thread brings its end closer *)

Definition scanned (a : scan_point) : Z :=
  match a with AtYamux => 0 | AtSession => 1 | AtHealthy => 2 | AtDraining => 3 end.

(** An upper bound on the steps a thread has before it, when no pool has more than [N]
    members and there are at most [N] pools. *)
Definition work (N : Z) (q : pc) : Z :=
  match q with
  | RegWait _ _ => 7 | RegPool _ _ => 6 | RegDrop _ _ _ => 5 | RegAdd _ _ _ => 4
  | RegHealthy _ => 3 | RegIndex _ => 2 | RegUnlock _ => 1
  | RemWait _ => 4 | RemLookup _ => 3 | RemPool _ _ _ => 2 | RemUnlock => 1
  | SetWait _ _ _ => 3 | SetFind _ _ _ => 2 | SetStore _ _ => 1
  | SnapWait => N + 2 | SnapScan todo _ => Z.of_nat (length todo) + 1
  | ReqPick _ _ _ => 4 * N + 10
  | ReqScan _ _ _ rest a => 4 * Z.of_nat (length rest) + 9 - scanned a
  | ReqHealth _ _ => 5 | ReqLimit _ _ => 4 | ReqOpen _ => 3 | ReqCount _ => 2 | ReqServing _ => 1
  | CloseFlag _ => 3 | CloseYamux _ => 2 | CloseSession _ => 1
  | RegDone _ | RemDone | SetDone | SnapDone _ | ReqDone _ | CloseDone => 0
  end.

(** A pool that the thread may still add to the registry. *)
Definition new_pools (q : pc) : Z :=
  match q with RegWait _ _ | RegPool _ _ => 1 | _ => 0 end.

Record capacity (N : Z) (c : cfg) : Prop := {
  cap_tunnels : (Z.of_nat (s_nexttunnel (cf_store c)) ≤ N)%Z;
  cap_pools : (Z.of_nat (s_nextpool (cf_store c)) + sum_threads new_pools (cf_threads c) ≤ N)%Z
}.

Definition total_work (N : Z) (c : cfg) : Z := sum_threads (work N) (cf_threads c).

Lemma length_NoDup_lt (l : list nat) n : NoDup l → (∀ x, x ∈ l → x < n) → length l ≤ n.
Proof.
  intros Hnd Hlt. rewrite <-(length_seq n 0). apply submseteq_length, NoDup_submseteq; [done|].
  intros x Hx. apply elem_of_seq. specialize (Hlt x Hx). lia.
Qed.

Lemma members_capacity m s n p :
  reg_inv (set_bySess m s) → Pool n s = Some p → length (Members p s) ≤ s_nexttunnel s.
Proof.
  intros Hm Hp. apply length_NoDup_lt.
  - pose proof (ri_nodup _ Hm n p Hp) as Hnd. unfold ids in Hnd.
    by apply NoDup_fmap_1 in Hnd.
  - intros x Hx. destruct (pools_alloc m s n p x Hm Hp Hx) as [t Ht].
    destruct (decide (x < s_nexttunnel s)); [done|]. exfalso.
    pose proof (ri_tunnels _ Hm x ltac:(simpl; lia)) as Hn. simpl in Hn. congruence.
Qed.

Lemma pools_capacity m s :
  reg_inv (set_bySess m s) → length (map_to_list (byName (s_reg s))) ≤ s_nextpool s.
Proof.
  intros Hm. rewrite <-(length_fmap snd). apply length_NoDup_lt.
  - apply NoDup_fmap_2_strong; [|apply NoDup_map_to_list].
    intros [n1 p1] [n2 p2] H1%elem_of_map_to_list H2%elem_of_map_to_list. simpl. intros ->.
    f_equal. by apply (ri_inj _ Hm n1 n2 p2).
  - intros p ([n q] & -> & Hp%elem_of_map_to_list)%list_elem_of_fmap. simpl.
    destruct (ri_pool _ Hm n q Hp) as [tp Htp].
    destruct (decide (q < s_nextpool s)); [done|]. exfalso.
    pose proof (ri_pools _ Hm q ltac:(simpl; lia)) as Hn. congruence.
Qed.

Lemma step_scan_work N s n p max u rest a :
  (work N (step_scan s n p max u rest a) < work N (ReqScan n p max (u :: rest) a))%Z.
Proof. destruct a; simpl; repeat case_match; simpl; lia. Qed.

Lemma advance_work N m ths q s s' q' :
  reg_inv (set_bySess m s) → pc_ok q s →
  (Z.of_nat (s_nexttunnel s) ≤ N)%Z → (Z.of_nat (s_nextpool s) ≤ N)%Z →
  advance ths q s = Some (s', q') → (work N q' < work N q)%Z.
Proof.
  intros Hm Hq HN HP Hadv. destruct q; simpl in Hadv; try done;
    try (repeat case_match; simplify_eq; simpl; lia).
  - pose proof (pools_capacity m s Hm). destruct (may_rlock ths); simplify_eq. simpl. lia.
  - pose proof (members_capacity m s n p Hm Hq) as Hl. unfold Members in Hl. simplify_eq. simpl. lia.
  - destruct rest as [|u rest]; simplify_eq; [destruct at_; simpl; lia | apply step_scan_work].
Qed.

(** A step of a thread allocates no tunnel, and the pool it may add is one it announced. *)
Lemma advance_allocs ths q s s' q' :
  advance ths q s = Some (s', q') →
  s_nexttunnel s' = s_nexttunnel s
  ∧ (Z.of_nat (s_nextpool s') + new_pools q' ≤ Z.of_nat (s_nextpool s) + new_pools q)%Z.
Proof.
  intros Hadv. destruct q; simpl in Hadv; try done;
    try (repeat case_match; simplify_eq; simpl; (split; [done | lia])).
  - unfold EnsurePool in Hadv. destruct (byName _ !! _); simplify_eq/=; (split; [done | lia]).
  - rewrite drop_old_session_eq in Hadv. simplify_eq/=. split; [done | lia].
  - destruct (may_lock_pool p ths); [|done]. unfold Add in Hadv.
    repeat case_match; simplify_eq; simpl; split; first [done | lia].
  - destruct (may_lock_pool p ths); [|done]. unfold Remove in Hadv.
    repeat case_match; simplify_eq; simpl; split; first [done | lia].
  - destruct rest as [|u rest]; simplify_eq; [simpl; split; [done | lia]|].
    split; [done|]. destruct at_; simpl; repeat case_match; simpl; lia.
Qed.

Lemma run_thread_work N c i c' :
  fine_inv c → capacity N c → run_thread i c = Some c' →
  capacity N c' ∧ (total_work N c' < total_work N c)%Z.
Proof.
  intros Hc [Ht Hp] Hrun. unfold run_thread in Hrun.
  destruct (cf_threads c !! i) as [q|] eqn:Hi; [|done].
  destruct (advance _ q _) as [[s' q']|] eqn:Hadv; [|done]. injection Hrun as <-.
  destruct (fine_pools c Hc) as [m Hm]. destruct (advance_allocs _ _ _ _ _ Hadv) as [Hnt Hnp].
  assert (0 ≤ sum_threads new_pools (cf_threads c))%Z as Hnn
    by (apply sum_nonneg; by intros []).
  split.
  - constructor; simpl; [by rewrite Hnt|]. rewrite (sum_insert _ _ i q) by done. lia.
  - unfold total_work. simpl. rewrite (sum_insert _ _ i q) by done.
    pose proof (advance_work N m _ q _ _ q' Hm (fi_pc c Hc i q Hi) Ht ltac:(lia) Hadv). lia.
Qed.

Lemma capacity_exists c : ∃ N, (0 ≤ N)%Z ∧ capacity N c.
Proof.
  exists (Z.of_nat (s_nexttunnel (cf_store c)) + Z.of_nat (s_nextpool (cf_store c))
    + sum_threads new_pools (cf_threads c))%Z.
  assert (0 ≤ sum_threads new_pools (cf_threads c))%Z
    by (apply sum_nonneg; by intros []).
  split; [lia|]. constructor; lia.
Qed.

Lemma total_work_nonneg N c : (0 ≤ N)%Z → (0 ≤ total_work N c)%Z.
Proof.
  intros HN. apply sum_nonneg. intros q.
  destruct q; simpl; try lia. destruct at_; simpl; lia.
Qed.

Lemma thread_steps_work N k c c' :
  (0 ≤ N)%Z → fine_inv c → capacity N c → nsteps thread_step k c c' →
  (Z.of_nat k ≤ total_work N c)%Z.
Proof.
  intros HN Hc Hcap Hk. revert Hc Hcap. induction Hk as [c|k c c1 c2 [i Hi] _ IH]; intros Hc Hcap.
  { by apply total_work_nonneg. }
  destruct (run_thread_work N c i c1 Hc Hcap Hi) as [Hcap1 Hlt].
  assert (fine_inv c1) as Hc1 by (eapply fine_inv_step; [exact Hc | by exists (Run i)]).
  specialize (IH Hc1 Hcap1). lia.
Qed.

(** C13: no schedule of the operations that are under way can deadlock or run for ever: from
    every reachable configuration there is a bound on the steps they can take, and when
    no thread can take a step every operation has returned. *)
Theorem operations_finish w d c :
  rtc fine_step (init_cfg w d) c →
  ∃ bound : nat, ∀ k c', nsteps thread_step k c c' →
    k ≤ bound
    ∧ ((¬ ∃ c'', thread_step c' c'') → forallb done_pc (cf_threads c') = true).
Proof.
  intros Hr. pose proof (reachable_fine_inv w d c Hr) as Hc.
  destruct (capacity_exists c) as (N & HN & Hcap). exists (Z.to_nat (total_work N c)).
  intros k c' Hk. split.
  - pose proof (thread_steps_work N k c c' HN Hc Hcap Hk). lia.
  - intros Hstuck. apply not_false_iff_true. intros Hnd.
    destruct (some_thread_ready _ Hnd) as (i & q & Hi & Hq). apply Hstuck.
    destruct (ready_advances _ q (cf_store c') Hq) as [[s' q'] Hadv].
    eexists. exists i. unfold run_thread. by rewrite Hi, Hadv.
Qed.

End InterleaveLive.
