(* ===== verification/InterleaveRaces.v ===== *)
(** The interleaved operations against the atomic ones of Registry: run alone they are the
    same; and what goes wrong when other threads get in between. *)

From S2P Require Import Prelude GoStrings Config Host Registry RegistryInv RegistryOps.
From S2P Require Import RegistryRun RegistrySpec Interleave InterleaveInv InterleaveRun.
From S2P Require Import InterleaveSpec InterleaveLive.

Section InterleaveSolo.
  Context `{Transport}.

(** ** An operation that nobody interrupts *)

Lemma solo_step k q s s' q' r :
  advance [q] q s = Some (s', q') → solo k q' s' = r → solo (S k) q s = r.
Proof. intros Ha Hk. simpl. by rewrite Ha. Qed.

Lemma solo_Register t max s :
  solo 7 (RegWait t max) s = let '(s', r) := Register t max s in (s', RegDone r).
Proof.
  eapply solo_step; [done|]. rewrite Register_unfold.
  destruct (EnsurePool (ct_Subdomain (tunnel s t)) s) as [s1 p] eqn:He.
  eapply solo_step; [by simpl; rewrite He|]. eapply solo_step; [done|]. unfold register_in.
  assert (tunnel (drop_old_session p (ct_ID (tunnel s1 t)) s1) t = tunnel s1 t) as HT
    by (rewrite drop_old_session_eq; done).
  set (s2 := drop_old_session _ _ s1).
  destruct (Add p t max (supersedeDrainTimeout (s_reg s2)) s2) as [s3 [[]|e]] eqn:Ha.
  - eapply solo_step; [by simpl; rewrite Ha|]. by do 3 (eapply solo_step; [done|]).
  - eapply solo_step; [by simpl; rewrite Ha|]. done.
Qed.

Lemma solo_Remove sid s : solo 4 (RemWait sid) s = (RemoveBySessionID sid s, RemDone).
Proof.
  eapply solo_step; [done|]. unfold RemoveBySessionID.
  destruct (bySess (s_reg s) !! sid) as [t|] eqn:Hs.
  2:{ eapply solo_step; [by simpl; rewrite Hs | done]. }
  set (s1 := set_bySess _ s). destruct (byName (s_reg s1) !! ct_Subdomain (tunnel s1 t)) eqn:Hp.
  - eapply solo_step; [by unfold advance, step_Remove; rewrite Hs; fold s1; cbv zeta; rewrite Hp|].
    eapply solo_step; [done|]. done.
  - eapply solo_step; [by unfold advance, step_Remove; rewrite Hs; fold s1; cbv zeta; rewrite Hp|]. done.
Qed.

Lemma solo_SetLocalHealth sub id ok s :
  solo 3 (SetWait sub id ok) s = (SetLocalHealth sub id ok s, SetDone).
Proof.
  unfold SetLocalHealth. destruct (Pool sub s) as [p|] eqn:Hp.
  2:{ eapply solo_step; [by simpl; rewrite Hp | done]. }
  eapply solo_step; [by simpl; rewrite Hp|].
  destruct (ByID p id s) as [t|] eqn:Ht; (eapply solo_step; [by simpl; rewrite Ht | done]).
Qed.

Lemma solo_Close t s : solo 3 (CloseFlag t) s = ((Close s t).1, CloseDone).
Proof.
  do 2 (eapply solo_step; [done|]). unfold Close. set (s1 := upd_tunnel _ _ _). clearbody s1.
  destruct (ct_Yamux (tunnel s1 t)) as [y|]; [destruct (Yamux_Close (s_world s1) y)|]; done.
Qed.

Lemma solo_scan n p max rest s :
  ∃ k, solo k (ReqScan n p max rest AtYamux) s =
    (s, match first_available s rest with
        | None => ReqDone NoBackend
        | Some t => ReqHealth t max
        end).
Proof.
  induction rest as [|m rest [k IH]]; simpl; [by exists 1|]. unfold Alive.
  destruct (ct_Yamux (tunnel s m)) as [y|] eqn:Hy.
  2:{ exists (S k). eapply solo_step; [by simpl; rewrite Hy | done]. }
  destruct (Yamux_IsClosed (s_world s) y) eqn:Hyc.
  { exists (S k). eapply solo_step; [by simpl; rewrite Hy, Hyc | done]. }
  destruct (ct_Session (tunnel s m)) as [se|] eqn:Hse.
  2:{ exists (S (S k)). eapply solo_step; [by simpl; rewrite Hy, Hyc|].
      eapply solo_step; [by simpl; rewrite Hse | done]. }
  destruct (Session_IsClosed (s_world s) se) eqn:Hsc; simpl.
  { exists (S (S k)). eapply solo_step; [by simpl; rewrite Hy, Hyc|].
    eapply solo_step; [by simpl; rewrite Hse, Hsc | done]. }
  destruct (ct_LocalHealthy (tunnel s m)) eqn:Hh; simpl.
  2:{ exists (S (S (S k))). eapply solo_step; [by simpl; rewrite Hy, Hyc|].
      eapply solo_step; [by simpl; rewrite Hse, Hsc|].
      eapply solo_step; [by simpl; rewrite Hh | done]. }
  exists (S (S (S (if ct_Draining (tunnel s m) then S k else 1)))).
  eapply solo_step; [by simpl; rewrite Hy, Hyc|].
  eapply solo_step; [by simpl; rewrite Hse, Hsc|].
  eapply solo_step; [by simpl; rewrite Hh|].
  destruct (ct_Draining (tunnel s m)) eqn:Hd;
    (eapply solo_step; [by simpl; rewrite Hd | done]).
Qed.

Lemma solo_Pick n p max s :
  ∃ k, solo k (ReqPick n p max) s =
    ((Pick p s).1, match (Pick p s).2 with
                   | None => ReqDone NoBackend
                   | Some t => ReqHealth t max
                   end).
Proof.
  set (s1 := (Pick p s).1).
  destruct (solo_scan n p max (tp_members (pool s p)) s1) as [k Hk]. exists (S k).
  eapply solo_step; [done|]. fold s1. unfold Pick. simpl.
  assert (Balancer_Pick (default firstAvailable (tp_bal (pool s p))) s (tp_members (pool s p)) =
    first_available s1 (tp_members (pool s p))) as ->; [|done].
  destruct (default firstAvailable (tp_bal (pool s p))). simpl. clear Hk.
  induction (tp_members (pool s p)) as [|m l IH]; simpl; [done|]. by rewrite IH.
Qed.

Lemma solo_Snapshot s : ∃ k, solo k SnapWait s = (s, SnapDone (all_listed s)).
Proof.
  assert (∀ todo out, ∃ k, solo k (SnapScan todo out) s = (s, SnapDone (out ++ listed s todo)))
    as Hscan.
  { induction todo as [|[n p] todo IH]; intros out; [exists 1; by rewrite app_nil_r|].
    destruct (IH (out ++ [(n, Members p s)])) as [k Hk]. exists (S k).
    eapply solo_step; [done|]. rewrite Hk, <-app_assoc. done. }
  destruct (Hscan (map_to_list (byName (s_reg s))) []) as [k Hk]. exists (S k).
  by eapply solo_step.
Qed.

Lemma solo_OpenStream t s :
  solo 2 (ReqOpen t) s =
    match OpenStream t s with
    | None => (s, ReqDone NilYamux)
    | Some (s', Some _) => (s', ReqDone BackendError)
    | Some (s', None) => (s', ReqServing t)
    end.
Proof.
  unfold OpenStream. destruct (ct_Yamux (tunnel s t)) as [y|] eqn:Hy.
  2:{ eapply solo_step; [by simpl; rewrite Hy | done]. }
  destruct (Yamux_Open (s_world s) y) as [w [e|]] eqn:Hw;
    (eapply solo_step; [by simpl; rewrite Hy, Hw | done]).
Qed.

(** An operation that nobody interrupts does, step by step, what the operations of the
    registry do as one: [Register], [RemoveBySessionID], [SetLocalHealth], [Close] and
    [Snapshot] with their results, [Pick] of a request and [OpenStream]. *)
Lemma alone_is_atomic s :
  (∀ t max, solo 7 (RegWait t max) s = let '(s', r) := Register t max s in (s', RegDone r))
  ∧ (∀ sid, solo 4 (RemWait sid) s = (RemoveBySessionID sid s, RemDone))
  ∧ (∀ sub id ok, solo 3 (SetWait sub id ok) s = (SetLocalHealth sub id ok s, SetDone))
  ∧ (∀ t, solo 3 (CloseFlag t) s = ((Close s t).1, CloseDone))
  ∧ (∃ k, solo k SnapWait s = (s, SnapDone (all_listed s)))
  ∧ (∀ n p max, ∃ k, solo k (ReqPick n p max) s =
       ((Pick p s).1, match (Pick p s).2 with
                      | None => ReqDone NoBackend
                      | Some t => ReqHealth t max
                      end))
  ∧ ∀ t, solo 2 (ReqOpen t) s =
      match OpenStream t s with
      | None => (s, ReqDone NilYamux)
      | Some (s', Some _) => (s', ReqDone BackendError)
      | Some (s', None) => (s', ReqServing t)
      end.
Proof.
  split_and!; auto using solo_Register, solo_Remove, solo_SetLocalHealth, solo_Close,
    solo_Snapshot, solo_Pick, solo_OpenStream.
Qed.

(** A request takes no lock that others see, so that it runs alone in any company. *)
Definition is_request (q : pc) : bool :=
  match q with
  | ReqPick _ _ _ | ReqScan _ _ _ _ _ | ReqHealth _ _ | ReqLimit _ _ | ReqOpen _ | ReqCount _
  | ReqServing _ | ReqDone _ => true
  | _ => false
  end.

Lemma request_advance ths q s s' q' :
  is_request q = true → advance [q] q s = Some (s', q') →
  advance ths q s = Some (s', q') ∧ is_request q' = true.
Proof.
  intros Hq Ha. destruct q; simpl in *; try done; (split; [done|]);
    repeat (case_match || simplify_eq/=); try done.
  destruct at_; simpl; repeat case_match; done.
Qed.

Lemma request_runs k q s s' q' ths j :
  is_request q = true → solo k q s = (s', q') → ths !! j = Some q →
  ∃ k', do_acts (replicate k' (Run j)) (mkCfg s ths) = Some (mkCfg s' (<[j := q']> ths)).
Proof.
  revert q s ths. induction k as [|k IH]; intros q s ths Hq Hs Hj; simpl in Hs.
  { exists 0. simplify_eq. simpl. by rewrite list_insert_id. }
  destruct (advance [q] q s) as [[s1 q1]|] eqn:Ha.
  2:{ exists 0. simplify_eq. simpl. by rewrite list_insert_id. }
  destruct (request_advance ths q s s1 q1 Hq Ha) as [Hadv Hq1].
  destruct (IH q1 s1 (<[j := q1]> ths) Hq1 Hs) as [k' Hk'].
  { apply list_lookup_insert_eq. by eapply lookup_lt_Some. }
  exists (S k'). simpl. unfold run_thread. simpl. rewrite Hj, Hadv, Hk'. by rewrite list_insert_insert_eq.
Qed.

(** ** A tunnel is replaced while others look *)

Section Replacing.
  Context (w : world) (d : Z) (c : cfg) (r : nat) (t : tref) (max : Z) (p : pref) (old : tref).
  Context (Hreach : rtc fine_step (init_cfg w d) c).
  Context (Hr : cf_threads c !! r = Some (RegAdd t max p)).
  Context (Hlock : may_lock_pool p (cf_threads c) = true).

Local Notation s := (cf_store c).
Local Notation sub := (ct_Subdomain (tunnel s t)).
Local Notation id := (ct_ID (tunnel s t)).

  Context (Hold : current s sub id = Some old).

(** What the registration leaves behind: the old tunnel is draining, everything else about the
    tunnels and the world is as before. *)
Record replaced (c' : cfg) : Prop := {
  rp_run : run_thread r c = Some c';
  rp_threads : cf_threads c' = <[r := RegHealthy t]> (cf_threads c);
  rp_world : s_world (cf_store c') = s_world s;
  rp_tunnel x : tunnel (cf_store c') x =
    if decide (x = old) then store_Draining true (tunnel s x) else tunnel s x;
  rp_Pool : Pool sub (cf_store c') = Some p;
  rp_members x : x ∈ Members p (cf_store c') → x = t ∨ x ∈ Members p s;
  rp_current : current (cf_store c') sub id = Some t;
  rp_drains : ∃ timeout, (0 < timeout)%Z
    ∧ s_drains (cf_store c') = s_drains s ++ [(old, DStart timeout)]
}.

Lemma register_detached : detached s t ∧ Pool sub s = Some p.
Proof. destruct (fi_pc c (reachable_fine_inv w d c Hreach) r _ Hr) as (? & ? & _). done. Qed.

Lemma old_other : old ≠ t.
Proof.
  destruct register_detached as [Ht Hp]. unfold current in Hold. rewrite Hp in Hold.
  destruct (ByID_member _ _ _ _ Hold) as [Hm _]. intros ->. by apply (dt_pool _ _ Ht p).
Qed.

Lemma registration_replaces : ∃ c', replaced c'.
Proof.
  destruct register_detached as [Ht Hp]. pose proof Hold as Hby.
  unfold current in Hby. rewrite Hp in Hby. simpl in Hby. unfold ByID in Hby.
  destruct (find_id s id (tp_members (pool s p))) as [[k o]|] eqn:Hf; [|done].
  injection Hby as ->. destruct (find_id_Some _ _ _ _ _ Hf) as [Hk Hid].
  set (dt := supersedeDrainTimeout (s_reg s)).
  set (s1 := beginSupersedeDrain old dt
    (set_pool p (mkPool (<[k := t]> (tp_members (pool s p))) (tp_bal (pool s p))) s)).
  set (c' := mkCfg s1 (<[r := RegHealthy t]> (cf_threads c))).
  assert (run_thread r c = Some c') as Hrun.
  { unfold run_thread. rewrite Hr. simpl. rewrite Hlock. unfold Add. by rewrite Hf. }
  assert (tp_members (pool s1 p) = <[k := t]> (tp_members (pool s p))) as Hm.
  { unfold s1, pool, beginSupersedeDrain. simpl. by rewrite lookup_insert_eq. }
  assert (∀ x, tunnel s1 x = if decide (x = old) then store_Draining true (tunnel s x) else tunnel s x)
    as HT.
  { intros x. unfold s1. rewrite tunnel_beginSupersedeDrain. by repeat case_decide; subst. }
  exists c'. constructor; try done.
  - intros x. change (x ∈ tp_members (pool s1 p) → x = t ∨ x ∈ tp_members (pool s p)). rewrite Hm.
    apply elem_of_list_insert_weak.
  - assert (rtc fine_step (init_cfg w d) c') as Hreach'
      by (eapply rtc_r; [exact Hreach | by exists (Run r)]).
    destruct (fine_pools c' (reachable_fine_inv w d c' Hreach')) as [m Hinv].
    rewrite <-(current_bySess m). apply current_iff; [done|].
    exists p. split_and!; [done | |].
    + change (t ∈ tp_members (pool s1 p)). rewrite Hm.
      eapply list_elem_of_lookup_2, list_lookup_insert_eq. by eapply lookup_lt_Some.
    + change (ct_ID (tunnel s1 t) = id). rewrite HT. by case_decide.
  - exists (if Z.leb dt 0 then defaultSupersedeDrainTimeout else dt). split; [|done].
    destruct (Z.leb_spec dt 0); [done | lia].
Qed.

(** C16: a client reconnects while a request has opened its stream on the client's old tunnel
    and not counted it yet, in whatever configuration this happens: the drain goroutine that
    [pool.Add] starts finds the counter at zero and closes the old tunnel under the request at
    once, with all of the drain timeout still to go. *)
Theorem drain_cuts_uncounted_stream `{!TransportOk} i now :
  cf_threads c !! i = Some (ReqCount old) → ct_ActiveStreams (tunnel s old) = 0%Z →
  let n := length (cf_threads c) in let k := length (s_drains s) in
  ∃ c1 c2 timeout,
    do_acts [Run r] c = Some c1 ∧ Alive (cf_store c1) old = Alive s old
    ∧ s_drains (cf_store c1) !! k = Some (old, DStart timeout) ∧ ¬ drain_expired now (DStart timeout)
    ∧ do_acts [DrainRun k now; Run n; Run n; Run n; Run i] c1 = Some c2
    ∧ cf_threads c2 !! i = Some (ReqServing old)
    ∧ ct_ActiveStreams (tunnel (cf_store c2) old) = 1%Z ∧ Alive (cf_store c2) old = false.
Proof.
  intros Hi Hz. cbv zeta. destruct registration_replaces as [c1 Hrp].
  destruct (rp_drains c1 Hrp) as (timeout & Hpos & Hd). destruct c1 as [s1 ths1].
  pose proof (rp_threads _ Hrp) as Hths. simpl in Hths, Hd. subst ths1.
  pose proof (rp_tunnel _ Hrp old) as HT. rewrite decide_True in HT by done. simpl in HT.
  assert (r ≠ i) as Hri by (intros ->; congruence).
  assert (s_drains s1 !! length (s_drains s) = Some (old, DStart timeout)) as Hk
    by (rewrite Hd, lookup_app_r, Nat.sub_diag by done; done).
  set (ths := <[r := RegHealthy t]> (cf_threads c)) in *.
  assert (length ths = length (cf_threads c)) as Hlen by apply length_insert.
  assert (ths !! i = Some (ReqCount old)) as Hthi
    by (unfold ths; by rewrite list_lookup_insert_ne).
  set (s2 := put_drain (length (s_drains s)) None s1).
  set (s3 := upd_tunnel old (store_Closed true) s2).
  set (s4 := match ct_Yamux (tunnel s3 old) with
             | None => s3 | Some y => set_world (Yamux_Close (s_world s3) y).1 s3 end).
  set (s5 := match ct_Session (tunnel s4 old) with
             | None => s4 | Some se => set_world (Session_Close (s_world s4) se) s4 end).
  assert (∀ x, tunnel s2 x = tunnel s1 x) as H2 by done.
  assert (tunnel s5 old = store_Closed true (tunnel s1 old)) as H5.
  { transitivity (tunnel s4 old); [unfold s5; by case_match|].
    transitivity (tunnel s3 old); [unfold s4; by case_match|].
    unfold s3, upd_tunnel. by rewrite tunnel_set_tunnel, decide_True. }
  exists (mkCfg s1 ths), (mkCfg (upd_tunnel old (add_ActiveStreams 1) s5)
    (<[i := ReqServing old]> (ths ++ [CloseDone]))), timeout.
  split_and!.
  - simpl. by rewrite (rp_run _ Hrp).
  - change (Alive s1 old = Alive s old). unfold Alive. pose proof (rp_world _ Hrp) as HW.
    simpl in HW. by rewrite HT, HW.
  - done.
  - simpl. lia.
  - assert (drain_run now old (DStart timeout) s1 = ((Close s1 old).1, None)) as Hdr.
    { unfold drain_run, drain_check. rewrite (proj2 (Z.ltb_lt _ _)) by lia.
      by rewrite HT, bool_decide_eq_true_2. }
    assert (∀ q s', run_thread (length (cf_threads c)) (mkCfg s' (ths ++ [q])) =
      match advance (ths ++ [q]) q s' with
      | Some (s', q') => Some (mkCfg s' (ths ++ [q'])) | None => None end) as Hlast.
    { intros q s'. unfold run_thread. simpl.
      rewrite <-Hlen, lookup_app_r, Nat.sub_diag by done. simpl.
      destruct (advance _ q s') as [[s'' q']|]; [|done].
      by rewrite insert_app_r_alt, Nat.sub_diag by done. }
    cbn [do_acts do_act cf_store cf_threads]. rewrite Hk, Hdr. simpl snd. cbv iota beta.
    fold s2. rewrite Hlast. simpl advance. cbv iota beta. fold s3. rewrite Hlast. simpl advance.
    cbv iota beta. fold s4. rewrite Hlast. simpl advance. cbv iota beta. fold s5.
    unfold run_thread. cbn [cf_threads cf_store].
    rewrite lookup_app_l by (by eapply lookup_lt_Some). rewrite Hthi. done.
  - simpl. apply list_lookup_insert_eq. rewrite length_app. apply lookup_lt_Some in Hthi. lia.
  - simpl. unfold upd_tunnel. rewrite tunnel_set_tunnel, decide_True, H5, HT by done. simpl.
    by rewrite Hz.
  - simpl. unfold Alive, upd_tunnel. rewrite tunnel_set_tunnel, decide_True, H5 by done. simpl.
    destruct (ct_Yamux (tunnel s1 old)) as [y|] eqn:Hy; [|done].
    assert (Yamux_IsClosed (s_world s5) y = true) as ->; [|done].
    assert (Yamux_IsClosed (s_world s4) y = true) as Hc4.
    { unfold s4. assert (ct_Yamux (tunnel s3 old) = Some y) as ->; [|apply yamux_close_closes].
      unfold s3, upd_tunnel. by rewrite tunnel_set_tunnel, decide_True. }
    unfold s5. case_match; [by apply session_close_keeps_yamux | done].
Qed.

(** C17: a client whose tunnel is the only one of its host that serves reconnects, in whatever
    configuration this happens: a request that comes between [pool.Add] and the setting of
    the health flag in [Register], and that nobody interrupts, is refused as having no
    backend, though nothing has happened to the old tunnel but that it drains, and the new
    one is alive and current; the next step of [Register] makes it serve. *)
Theorem reconnect_refuses_request lim :
  serving s old = true → (∀ u, u ∈ Members p s → u ≠ old → serving s u = false) →
  Alive s t = true → ct_LocalHealthy (tunnel s t) = false →
  let j := length (cf_threads c) in
  ∃ k c1 c2,
    do_acts (Run r :: Start (OpRequest sub p lim) :: replicate k (Run j)) c = Some c1
    ∧ cf_threads c1 !! j = Some (ReqDone NoBackend)
    ∧ Alive (cf_store c1) old = true ∧ tunnel (cf_store c1) old = store_Draining true (tunnel s old)
    ∧ Alive (cf_store c1) t = true ∧ current (cf_store c1) sub id = Some t
    ∧ do_acts [Run r] c1 = Some c2 ∧ serving (cf_store c2) t = true.
Proof.
  intros Hserve Hothers Halive Hunhealthy j. destruct registration_replaces as [[s1 ths] Hrp].
  pose proof (rp_threads _ Hrp) as Hths. simpl in Hths.
  pose proof (rp_tunnel _ Hrp) as HT. pose proof (rp_world _ Hrp) as HW. simpl in HT, HW.
  pose proof old_other as Hne. destruct register_detached as [Ht _].
  assert (length ths = j) as Hlen by (subst ths; apply length_insert).
  assert (tunnel s1 t = tunnel s t) as HTt by (rewrite HT; by rewrite decide_False).
  assert (∀ x, Alive s1 x = Alive s x) as HA.
  { intros x. unfold Alive. rewrite HT, HW. by case_decide. }
  assert ((Pick p s1).2 = None) as Hnone.
  { unfold Pick. simpl. assert (first_available s1 (Members p s1) = None) as Hfa.
    { apply first_available_None. intros u Hu. apply (rp_members _ Hrp) in Hu. unfold serving.
      rewrite HA, HT. case_decide as Hu'; [by rewrite andb_false_r|].
      destruct Hu as [->|Hu]; [by rewrite Hunhealthy, andb_false_r | by apply Hothers]. }
    by destruct (default firstAvailable (tp_bal (pool s1 p))). }
  destruct (solo_Pick sub p lim s1) as [k0 Hk0]. rewrite Hnone in Hk0.
  destruct (request_runs k0 (ReqPick sub p lim) _ _ _ (ths ++ [ReqPick sub p lim]) j eq_refl Hk0) as [k Hk].
  { by rewrite <-Hlen, lookup_app_r, Nat.sub_diag by done. }
  set (s2 := (Pick p s1).1) in *.
  assert (ths !! r = Some (RegHealthy t)) as Hthr.
  { subst ths. apply list_lookup_insert_eq. by eapply lookup_lt_Some. }
  assert (r < j) as Hrj by (rewrite <-Hlen; by eapply lookup_lt_Some).
  eexists k, _, (mkCfg (upd_tunnel t (store_LocalHealthy true) s2) _).
  assert (current s2 sub id = Some t) as Hcur.
  { assert (current s2 sub id = current s1 sub id) as ->; [|apply (rp_current _ Hrp)].
    unfold current, ByID. change (Pool sub s2) with (Pool sub s1).
    destruct (Pool sub s1) as [q|]; [|done]. simpl. rewrite (find_id_ext s1 s2) by done.
    unfold s2, Pick. simpl. rewrite pool_set_pool. by case_decide; subst. }
  split_and!.
  - cbn [do_acts do_act]. rewrite (rp_run _ Hrp). simpl.
    rewrite bool_decide_eq_true_2 by exact (rp_Pool _ Hrp). exact Hk.
  - simpl. apply list_lookup_insert_eq. rewrite length_app, Hlen. simpl. lia.
  - simpl. change (Alive s1 old = true). rewrite HA. unfold serving in Hserve. by destruct (Alive s old).
  - simpl. change (tunnel s1 old = store_Draining true (tunnel s old)). by rewrite HT, decide_True.
  - simpl. change (Alive s1 t = true). by rewrite HA.
  - done.
  - simpl. unfold run_thread. simpl. rewrite list_lookup_insert_ne by lia.
    rewrite lookup_app_l, Hthr by (rewrite Hlen; lia). simpl. done.
  - simpl. unfold serving, Alive, upd_tunnel. rewrite tunnel_set_tunnel, decide_True by done.
    change (tunnel s2 t) with (tunnel s1 t). rewrite HTt. simpl.
    rewrite (dt_draining _ _ Ht). unfold Alive in Halive. change (s_world s2) with (s_world s1).
    rewrite HW. destruct (ct_Yamux (tunnel s t)) as [y|]; [|done].
    destruct (Yamux_IsClosed _ _); [done|]. destruct (ct_Session (tunnel s t)); [|done].
    by rewrite Halive.
Qed.

End Replacing.

End InterleaveSolo.

(** ** Runs of a client that reconnects *)

Section InterleaveDemo.
  #[local] Existing Instance demo_transport.
  #[local] Existing Instance demo_transport_ok.

(** The object [onConnect] makes for the client "a" of subdomain "demo". *)
Definition demo_tunnel (se : string) (y : nat) : ClientTunnel :=
  mkTunnel "a" "demo" (Some se) (Some y) 0 "" false false false 0.

Definition demo_init : cfg := init_cfg ([], []) (10 * Minute).

Definition steps (i n : nat) : list act := replicate n (Run i).

(** Thread 0: the client connects, and its session is "s1". *)
Definition connected : list act := Start (OpRegister (demo_tunnel "s1" 1) 1) :: steps 0 7.

Definition outcome (l : list act) : cfg := default demo_init (do_acts l demo_init).

Lemma outcome_reached l c : do_acts l demo_init = Some c → rtc fine_step demo_init c.
Proof. apply do_acts_steps. Qed.

(** Thread 1: the client connects again, as session "s2", up to the end of [pool.Add]. *)
Definition reconnecting : list act :=
  connected ++ Start (OpRegister (demo_tunnel "s2" 2) 1) :: steps 1 4.

(** Thread 1: a request picks the tunnel and opens a stream; before it is counted, thread 2
    replaces the tunnel, whose drain goroutine finds no stream and closes it as thread 3. *)
Definition opened : list act :=
  connected ++ Start (OpRequest "demo" 0 64) :: steps 1 8.
Definition superseded : list act :=
  opened ++ Start (OpRegister (demo_tunnel "s2" 2) 1) :: steps 2 7 ++ [DrainRun 0 0].

(** The same, just before [pool.Add] of the new connection. *)
Definition overtaken : list act := opened ++ Start (OpRegister (demo_tunnel "s2" 2) 1) :: steps 2 3.

(** The test of [servePublic] on the health of the tunnel that [Pick] returned refuses a
    request only if the health changes in between. *)
Example unhealthy_after_pick :
  cf_threads (outcome (connected ++ Start (OpRequest "demo" 0 64) :: steps 1 5
    ++ Start (OpHealth "demo" "a" false) :: steps 2 3 ++ steps 1 1)) !! 1 =
  Some (ReqDone UnhealthyBackend).
Proof. vm_compute. reflexivity. Qed.

(** ** Witnesses *)

Lemma connected_reached : rtc fine_step (init_cfg ([], []) (10 * Minute)) (outcome connected).
Proof. apply (outcome_reached connected). vm_compute. reflexivity. Qed.

Lemma reconnecting_reached :
  rtc fine_step (init_cfg ([], []) (10 * Minute)) (outcome reconnecting).
Proof. apply (outcome_reached reconnecting). vm_compute. reflexivity. Qed.

(** One step before [pool.Add] of the second connection. *)
Definition adding : list act := removelast reconnecting.

Lemma adding_reached : rtc fine_step (init_cfg ([], []) (10 * Minute)) (outcome adding).
Proof. apply (outcome_reached adding). vm_compute. reflexivity. Qed.

(** A request that has read everything but the last flag of tunnel 0. *)
Definition picking : list act := connected ++ Start (OpRequest "demo" 0 64) :: steps 1 4.

Lemma picking_reached : rtc fine_step (init_cfg ([], []) (10 * Minute)) (outcome picking).
Proof. apply (outcome_reached picking). vm_compute. reflexivity. Qed.

Definition listing : list act := connected ++ Start OpSnapshot :: steps 1 2.

Lemma listing_reached : rtc fine_step (init_cfg ([], []) (10 * Minute)) (outcome listing).
Proof. apply (outcome_reached listing). vm_compute. reflexivity. Qed.

(** The drain goroutine of the replaced tunnel is about to look at the counter. *)
Definition draining : list act := removelast superseded.

Lemma draining_reached : rtc fine_step (init_cfg ([], []) (10 * Minute)) (outcome draining).
Proof. apply (outcome_reached draining). vm_compute. reflexivity. Qed.

Lemma fine_grained_invariant_witness :
  may_rlock (cf_threads (outcome reconnecting)) = false
  ∧ reg_inv (repaired (RegHealthy 1) (cf_store (outcome reconnecting))).
Proof.
  split; [by vm_compute|].
  apply (fine_grained_invariant _ _ _ reconnecting_reached) with 1; by vm_compute.
Defined.

Lemma fine_grained_refines_witness :
  view_step (current (cf_store (outcome adding))) (current (cf_store (outcome reconnecting))).
Proof.
  apply (fine_grained_refines _ _ (outcome adding) (Run 1) (outcome reconnecting)
    adding_reached). vm_compute. reflexivity.
Defined.

Lemma register_takes_effect_once_witness :
  ct_Draining (tunnel (cf_store (outcome reconnecting)) 0) = true.
Proof.
  destruct (register_takes_effect_once _ _ (outcome adding) 1 1 1 0 (outcome reconnecting)
    adding_reached) as [(_ & _ & _ & Hd)|(Ht & _)].
  - by vm_compute.
  - by vm_compute.
  - apply (Hd 0). by vm_compute.
  - by vm_compute in Ht.
Defined.

Lemma pick_returns_current_witness :
  current (cf_store (outcome (picking ++ [Run 1]))) "demo" "a" = Some 0.
Proof.
  destruct (pick_returns_current _ _ (outcome picking) 1 "demo" 0 64 [0] AtDraining
    (outcome (picking ++ [Run 1])) 0 picking_reached) as [Hc _]; [by vm_compute..|].
  exact Hc.
Defined.

Lemma snapshot_is_consistent_witness :
  all_listed (cf_store (outcome listing)) = [("demo", [0])].
Proof.
  destruct (snapshot_is_consistent _ _ (outcome listing) 1 [("demo", [0])] listing_reached)
    as [_ Hs]; [by vm_compute | by rewrite <-Hs].
Defined.

Lemma counter_and_drain_interleaved_witness :
  ReqServing 0 ∉ cf_threads (outcome draining) ∨ drain_expired 0 (DStart (10 * Minute)).
Proof.
  destruct (counter_and_drain_interleaved _ _ (outcome draining) draining_reached) as [_ Hd];
    [by vm_compute|].
  apply (Hd 0 0%Z 0 (DStart (10 * Minute)) (outcome superseded)); vm_compute; reflexivity.
Defined.

Lemma overtaken_reached : rtc fine_step (init_cfg ([], []) (10 * Minute)) (outcome overtaken).
Proof. apply (outcome_reached overtaken). vm_compute. reflexivity. Qed.

Lemma drain_cuts_uncounted_stream_witness :
  Alive (cf_store (outcome overtaken)) 0 = true
  ∧ ∃ c1 c2, do_acts [Run 2] (outcome overtaken) = Some c1
      ∧ do_acts [DrainRun 0 5; Run 3; Run 3; Run 3; Run 1] c1 = Some c2
      ∧ cf_threads c2 !! 1 = Some (ReqServing 0) ∧ Alive (cf_store c2) 0 = false.
Proof.
  split; [by vm_compute|].
  destruct (drain_cuts_uncounted_stream _ _ (outcome overtaken) 2 1 1 0 0 overtaken_reached
    ltac:(by vm_compute) ltac:(by vm_compute) ltac:(by vm_compute) 1 5%Z ltac:(by vm_compute)
    ltac:(by vm_compute)) as (c1 & c2 & timeout & Hc1 & _ & _ & _ & Hc2 & Hth & _ & Ha).
  exists c1, c2. exact (conj Hc1 (conj Hc2 (conj Hth Ha))).
Defined.

Lemma reconnect_refuses_request_witness :
  serving (cf_store (outcome adding)) 0 = true
  ∧ ∃ k c1, do_acts (Run 1 :: Start (OpRequest "demo" 0 64) :: replicate k (Run 2)) (outcome adding)
        = Some c1 ∧ cf_threads c1 !! 2 = Some (ReqDone NoBackend).
Proof.
  split; [by vm_compute|].
  assert (∀ u, u ∈ Members 0 (cf_store (outcome adding)) → u ≠ 0 →
    serving (cf_store (outcome adding)) u = false) as Honly.
  { intros u Hu Hne. vm_compute in Hu. apply list_elem_of_singleton in Hu. done. }
  destruct (reconnect_refuses_request _ _ (outcome adding) 1 1 1 0 0 adding_reached
    ltac:(by vm_compute) ltac:(by vm_compute) ltac:(by vm_compute) 64%Z ltac:(by vm_compute)
    Honly ltac:(by vm_compute) ltac:(by vm_compute)) as (k & c1 & c2 & Hc1 & Hth & _).
  exists k, c1. exact (conj Hc1 Hth).
Defined.

Lemma operations_finish_witness :
  ∃ bound : nat, ∀ k c', nsteps thread_step k (outcome reconnecting) c' → k ≤ bound.
Proof.
  destruct (operations_finish _ _ (outcome reconnecting) reconnecting_reached) as [b Hb].
  exists b. intros k c' Hk. apply (Hb k c' Hk).
Defined.

End InterleaveDemo.
