(* ===== verification/Route.v ===== *)
(** internal/router/route.go: the route table, the longest-prefix match and the
    stripping of path prefixes. *)

From stdpp Require Import sorting.
From S2P Require Import Prelude GoStrings GoPath Config ControlPath Validate Host Registry.
From S2P Require Import RegistryInv RegistryOps RegistryRun RegistrySpec.

(** [sort.Slice]: any rearrangement that puts no element before one it is [less]
    than; the order of elements that tie is not specified. *)
Class SliceSort := {
  sort_Slice : ∀ {A : Type}, (A → A → bool) → list A → list A;
  sort_perm : ∀ {A} (less : A → A → bool) l, sort_Slice less l ≡ₚ l;
  sort_ordered : ∀ {A} (less : A → A → bool) (key : A → nat) l,
    (∀ a b, less a b = true ↔ key b < key a) →
    ∀ i j x y, i < j → sort_Slice less l !! i = Some x → sort_Slice less l !! j = Some y →
      less y x = false
}.

(** ** Paths *)

Definition NormalizePathPrefix (p : string) : string :=
  if bool_decide (p = "") then ""
  else let cleaned := Clean p in
       if bool_decide (cleaned = "/") then "/" else TrimSuffix cleaned "/".

Definition StripPathPrefix (pathStr prefix : string) : string * bool :=
  let prefix := NormalizePathPrefix prefix in
  if bool_decide (prefix = "") then (pathStr, true)
  else if bool_decide (prefix = "/") then (pathStr, true)
  else if bool_decide (pathStr = prefix) then ("/", true)
  else if HasPrefix pathStr (prefix +:+ "/") then (str_drop (String.length prefix) pathStr, true)
  else (pathStr, false).

(** ** Routes *)

Record Route := mkRoute {
  rt_HostKey : string;
  rt_PathPrefix : string;
  rt_Strip : bool;
  rt_Pool : pref
}.

Inductive route_error := ErrNoRoute.

Definition MatchError (err : option route_error) : string :=
  match err with None => "" | Some ErrNoRoute => "no route for host/path" end.

(** A [*hostRoutes] is the slice of routes it holds. *)
Record RouteTable := mkRouteTable { byHost : gmap string (list Route) }.

Section RouteTable.
  Context `{Transport, SliceSort}.

(** [append] to the routes of a host; a nil slice is an empty one. *)
Definition add_route (r : Route) (rt : RouteTable) : RouteTable :=
  mkRouteTable (<[rt_HostKey r := default [] (byHost rt !! rt_HostKey r) ++ [r]]> (byHost rt)).

Definition binding_route (b : ClientBinding) (p : pref) : Route :=
  mkRoute (cb_Subdomain b) (NormalizePathPrefix (cb_PathPrefix b)) (cb_StripPrefix b) p.

Fixpoint add_bindings (bindings : list ClientBinding) (rt : RouteTable) (s : store)
    : store * RouteTable :=
  match bindings with
  | [] => (s, rt)
  | b :: rest =>
      let '(s, p) := EnsurePool (cb_Subdomain b) s in
      add_bindings rest (add_route (binding_route b p) rt) s
  end.

Definition less_prefix (a b : Route) : bool :=
  String.length (rt_PathPrefix b) <? String.length (rt_PathPrefix a).

Definition RouteTable_Validate (rt : RouteTable) : result route_error unit := Ok tt.

Definition NewRouteTable (bindings : list ClientBinding) (s : store)
    : store * RouteTable * result route_error unit :=
  let '(s, rt) := add_bindings bindings (mkRouteTable ∅) s in
  let rt := mkRouteTable (sort_Slice less_prefix <$> byHost rt) in
  (s, rt, RouteTable_Validate rt).

(** The condition of the loop body of [Match]. *)
Definition route_hit (cleanPath : string) (r : Route) : bool :=
  bool_decide (rt_PathPrefix r = "/") || bool_decide (cleanPath = rt_PathPrefix r)
  || HasPrefix cleanPath (rt_PathPrefix r +:+ "/").

Fixpoint match_loop (cleanPath : string) (routes : list Route) (fallback : option Route)
    : option Route :=
  match routes with
  | [] => fallback
  | r :: rest =>
      if bool_decide (rt_PathPrefix r = "") then match_loop cleanPath rest (Some r)
      else if route_hit cleanPath r then Some r
      else match_loop cleanPath rest fallback
  end.

Definition Match (rt : RouteTable) (hostKey pathStr : string) : result route_error Route :=
  match byHost rt !! hostKey with
  | None => Err ErrNoRoute
  | Some routes =>
      match match_loop (Clean pathStr) routes None with
      | Some r => Ok r
      | None => Err ErrNoRoute
      end
  end.

(** [range t.byHost] in some order. *)
Definition HostKeys (rt : RouteTable) : list string := (map_to_list (byHost rt)).*1.

End RouteTable.

Fixpoint binding_host_keys (bindings : list ClientBinding) (seen : gset string) (out : list string)
    : list string :=
  match bindings with
  | [] => out
  | b :: rest =>
      if bool_decide (cb_Subdomain b ∈ seen) then binding_host_keys rest seen out
      else binding_host_keys rest ({[cb_Subdomain b]} ∪ seen) (out ++ [cb_Subdomain b])
  end.

Definition BindingHostKeys (bindings : list ClientBinding) : list string :=
  binding_host_keys bindings ∅ [].

Definition PublicHost `{UnicodeTables} (hostKey rootDomain : string) : string :=
  FQDN hostKey rootDomain.

(** Insertion sort is such a [sort.Slice]. *)
Fixpoint insert_by {A} (less : A → A → bool) (x : A) (l : list A) : list A :=
  match l with
  | [] => [x]
  | y :: l' => if less y x then y :: insert_by less x l' else x :: l
  end.

Definition insertion_sort {A} (less : A → A → bool) (l : list A) : list A :=
  foldr (insert_by less) [] l.

Section InsertionSort.
  Context {A : Type} (less : A → A → bool).

Lemma insert_by_perm x l : insert_by less x l ≡ₚ x :: l.
Proof.
  induction l as [|y l IH]; simpl; [done|]. destruct (less y x); [|done].
  rewrite IH. apply Permutation_swap.
Qed.

Lemma insertion_sort_perm l : insertion_sort less l ≡ₚ l.
Proof. induction l as [|x l IH]; simpl; [done|]. by rewrite insert_by_perm, IH. Qed.

  Context (key : A → nat) (Hless : ∀ a b, less a b = true ↔ key b < key a).

Definition key_desc : relation A := λ a b, key b ≤ key a.

Lemma less_false a b : less b a = false ↔ key_desc a b.
Proof.
  unfold key_desc. rewrite <-not_true_iff_false, Hless. lia.
Qed.

Lemma insert_by_sorted x l : StronglySorted key_desc l → StronglySorted key_desc (insert_by less x l).
Proof.
  induction 1 as [|y l Hl IH Hy]; simpl; [by repeat constructor|].
  destruct (less y x) eqn:E.
  - constructor; [done|]. apply Forall_forall. intros z. rewrite insert_by_perm.
    intros [->|Hz]%elem_of_cons.
    + apply Hless in E. unfold key_desc. lia.
    + by eapply Forall_forall in Hy.
  - apply less_false in E. constructor; [by constructor|]. constructor; [done|].
    eapply Forall_impl; [exact Hy|]. unfold key_desc in *. lia.
Qed.

Lemma insertion_sort_sorted l : StronglySorted key_desc (insertion_sort less l).
Proof. induction l; simpl; [constructor | by apply insert_by_sorted]. Qed.

End InsertionSort.

Lemma StronglySorted_lookup {A} (R : relation A) l i j x y :
  StronglySorted R l → i < j → l !! i = Some x → l !! j = Some y → R x y.
Proof.
  intros Hl. revert i j. induction Hl as [|z l Hl IH Hz]; intros i j; [done|].
  destruct i as [|i], j as [|j]; simpl; intros Hij Hi Hj; try lia.
  - simplify_eq. rewrite Forall_forall in Hz. apply Hz. by eapply list_elem_of_lookup_2.
  - apply (IH i j); [lia | done | done].
Qed.

Definition insertion_SliceSort : SliceSort.
Proof.
  refine {| sort_Slice := λ A, insertion_sort |}.
  - intros A. apply insertion_sort_perm.
  - intros A less key l Hless i j x y Hij Hi Hj. apply (less_false less key Hless).
    by eapply StronglySorted_lookup; [apply insertion_sort_sorted| | |].
Defined.

(** ** Which requests a prefix covers *)

(** The empty prefix covers every path, [/a/b] the paths whose clean form starts
    with the segments [a], [b]. *)
Definition path_covers (prefix pathStr : string) : Prop :=
  prefix = "" ∨ ∃ segs, Forall plain_seg segs ∧ prefix = abs_path segs
    ∧ segs `prefix_of` clean_segs true pathStr.

Lemma NormalizePathPrefix_eq p : NormalizePathPrefix p = normalizePathPrefix p.
Proof. done. Qed.

Lemma route_hit_covers pathStr r :
  is_rooted pathStr = true → canonical_prefix (rt_PathPrefix r) → rt_PathPrefix r ≠ "" →
  (route_hit (Clean pathStr) r = true ↔ path_covers (rt_PathPrefix r) pathStr).
Proof.
  intros Hroot [?|(segs & Hs & Hp)] Hne; [done|]. unfold route_hit, path_covers.
  rewrite Clean_rooted by done. pose proof (clean_segs_plain pathStr) as Hc.
  rewrite Hp in *. rewrite !orb_true_iff, !bool_decide_eq_true.
  destruct (decide (segs = [])) as [->|Hnil].
  - split; [|by left; left]. intros _. right. exists []. split_and!; [done..|]. apply prefix_nil.
  - pose proof (under_prefix _ _ Hc Hs Hnil) as Hu. rewrite abs_path_root by done. split.
    + intros [[?|?]|?]; [done| |]; right; exists segs; split_and!; try done; apply Hu; auto.
    + intros [?|(segs' & Hs' & Heq & Hpre)]; [done|]. apply abs_path_inj in Heq as ->; [|done..].
      apply Hu in Hpre as [?|?]; auto.
Qed.

(** Two covering prefixes of one length are one prefix. *)
Lemma covers_same_length a b pathStr :
  path_covers a pathStr → path_covers b pathStr → String.length a = String.length b → a = b.
Proof.
  intros [->|(sa & Ha & -> & Hpa)] [->|(sb & Hb & -> & Hpb)] Hlen; try done.
  assert (∀ x y, Forall plain_seg x → Forall plain_seg y → x `prefix_of` y →
    String.length (abs_path x) = String.length (abs_path y) → x = y) as Hxy.
  { intros x y Hx Hy [l ->] Hl. destruct l as [|s l]; [by rewrite app_nil_r|]. exfalso.
    apply Forall_app in Hy as [_ [Hs _]%Forall_cons]. apply plain_length in Hs.
    rewrite (abs_path_segs_str (x ++ s :: l)) in Hl by by destruct x.
    rewrite segs_str_app in Hl. destruct (decide (x = [])) as [->|Hx0].
    - simpl in Hl. rewrite str_length_app in Hl. lia.
    - rewrite (abs_path_segs_str x), str_length_app in Hl by done. simpl in Hl. lia. }
  destruct (prefix_weak_total sa sb _ Hpa Hpb) as [Hp|Hp].
  - by rewrite (Hxy sa sb).
  - by rewrite (Hxy sb sa).
Qed.

(** ** The loop of [Match] *)

Definition longer_first : relation Route :=
  λ a b, String.length (rt_PathPrefix b) ≤ String.length (rt_PathPrefix a).

Lemma match_loop_spec pathStr l fb :
  is_rooted pathStr = true → Forall (λ r, canonical_prefix (rt_PathPrefix r)) l →
  StronglySorted longer_first l →
  match match_loop (Clean pathStr) l fb with
  | Some r =>
      (r ∈ l ∧ path_covers (rt_PathPrefix r) pathStr
       ∧ ∀ r', r' ∈ l → path_covers (rt_PathPrefix r') pathStr → longer_first r r')
      ∨ (fb = Some r ∧ ∀ r', r' ∈ l → ¬ path_covers (rt_PathPrefix r') pathStr)
  | None => fb = None ∧ ∀ r', r' ∈ l → ¬ path_covers (rt_PathPrefix r') pathStr
  end.
Proof.
  intros Hroot Hcan Hsort. revert fb. induction Hsort as [|x l Hl IH Hx]; intros fb.
  { simpl. destruct fb; [right; split; [done|] | split; [done|]]; by intros r' ?%elem_of_nil. }
  apply Forall_cons in Hcan as [Hxc Hcan]. specialize (IH Hcan). rewrite Forall_forall in Hx.
  simpl. case_bool_decide as Hx0.
  - specialize (IH (Some x)). destruct (match_loop _ _ _) as [r|]; [|by destruct IH].
    assert (path_covers (rt_PathPrefix x) pathStr) as Hcx by by left.
    assert (∀ r, longer_first r x) as Hmax by (intros r'; unfold longer_first; rewrite Hx0; simpl; lia).
    destruct IH as [(Hr & Hc & Hm)|[[= ->] Hn]]; left.
    + split_and!; [by right | done |]. intros r' [->|Hr']%elem_of_cons; [done | by apply Hm].
    + split_and!; [by left | done |]. intros r' [->|Hr']%elem_of_cons Hc'; [done|].
      by apply Hn in Hc'.
  - pose proof (route_hit_covers pathStr x Hroot Hxc Hx0) as Hhit.
    destruct (route_hit (Clean pathStr) x).
    + left. split_and!; [by left | by apply Hhit |].
      intros r' [->|Hr']%elem_of_cons _; [by unfold longer_first | by apply Hx].
    + assert (¬ path_covers (rt_PathPrefix x) pathStr) as Hnx by by rewrite <-Hhit.
      specialize (IH fb). destruct (match_loop _ _ _) as [r|].
      * destruct IH as [(Hr & Hc & Hm)|[Hfb Hn]]; [left|right].
        -- split_and!; [by right | done |]. intros r' [->|Hr']%elem_of_cons Hc'; [done | by apply Hm].
        -- split; [done|]. by intros r' [->|Hr']%elem_of_cons; [|apply Hn].
      * destruct IH as [-> Hn]. split; [done|].
        by intros r' [->|Hr']%elem_of_cons; [|apply Hn].
Qed.

Section RouteTheorems.
  Context `{Transport, SliceSort}.

(** ** Building the table *)

Definition route_in (rt : RouteTable) (h : string) (r : Route) : Prop := r ∈ default [] (byHost rt !! h).

Lemma route_in_add r rt h r' :
  route_in (add_route r rt) h r' ↔ route_in rt h r' ∨ (h = rt_HostKey r ∧ r' = r).
Proof.
  unfold route_in, add_route. simpl. rewrite lookup_insert. case_decide as Hd; simpl.
  - subst h. rewrite elem_of_app, list_elem_of_singleton. naive_solver.
  - split; [by left|]. intros [?|[-> _]]; done.
Qed.

Lemma add_bindings_spec bindings rt s :
  reg_inv s →
  let '(s', rt') := add_bindings bindings rt s in
  reg_inv s' ∧ (∀ n q, Pool n s = Some q → Pool n s' = Some q)
  ∧ (∀ b, b ∈ bindings → is_Some (Pool (cb_Subdomain b) s'))
  ∧ (∀ a b, current s' a b = current s a b)
  ∧ ∀ h r, route_in rt' h r ↔ route_in rt h r ∨
      ∃ b p, b ∈ bindings ∧ cb_Subdomain b = h ∧ Pool h s' = Some p ∧ r = binding_route b p.
Proof.
  revert rt s. induction bindings as [|b bindings IH]; intros rt s Hinv; simpl.
  { split_and!; try done; [by intros b ?%elem_of_nil|]. intros h r. split; [by left|].
    intros [?|(b & p & Hb & _)]; [done | by apply elem_of_nil in Hb]. }
  pose proof (EnsurePool_spec s (cb_Subdomain b) Hinv) as He.
  destruct (EnsurePool (cb_Subdomain b) s) as [s1 p].
  specialize (IH (add_route (binding_route b p) rt) s1 (en_inv _ _ _ _ He)).
  destruct (add_bindings _ _ _) as [s2 rt2]. destruct IH as (Hinv2 & Hkeep & Hall & Hcur & Hin).
  assert (Pool (cb_Subdomain b) s2 = Some p) as Hp
    by by apply Hkeep; rewrite (en_pool _ _ _ _ He), decide_True.
  split_and!.
  - done.
  - intros n q Hq. apply Hkeep. rewrite (en_pool _ _ _ _ He). case_decide as Hd; [|done]. subst n.
    destruct (en_old _ _ _ _ He) as [?|[? _]]; congruence.
  - intros b' [->|Hb']%elem_of_cons; [eauto | by apply Hall].
  - intros a c. rewrite Hcur. by apply (ensured_current _ _ _ _ _ _ He).
  - intros h r. rewrite Hin, route_in_add. setoid_rewrite elem_of_cons. simpl. split.
    + intros [[?|[-> ->]]|(b' & p' & ? & ? & ? & ->)]; [by left| |]; right; eauto 10.
    + intros [?|(b' & p' & [->|?] & <- & Hp' & ->)]; [by left; left| |].
      * left. right. split; [done|]. congruence.
      * right. eauto 10.
Qed.

Lemma sorted_routes (less : Route → Route → bool) l : sort_Slice less l ≡ₚ l.
Proof. apply sort_perm. Qed.

Lemma StronglySorted_of_lookup {A} (R : relation A) l :
  (∀ i j x y, i < j → l !! i = Some x → l !! j = Some y → R x y) → StronglySorted R l.
Proof.
  induction l as [|x l IH]; intros Hl; constructor.
  - apply IH. intros i j a b Hij Ha Hb. apply (Hl (S i) (S j)); [lia | done | done].
  - apply Forall_forall. intros y [j Hj]%list_elem_of_lookup. apply (Hl 0 (S j)); [lia | done | done].
Qed.

Lemma sort_longer_first l : StronglySorted longer_first (sort_Slice less_prefix l).
Proof.
  apply StronglySorted_of_lookup. intros i j x y Hij Hi Hj.
  pose proof (sort_ordered less_prefix (λ r, String.length (rt_PathPrefix r)) l) as Hs.
  specialize (Hs ltac:(intros a b; unfold less_prefix; by rewrite Nat.ltb_lt)).
  specialize (Hs i j x y Hij Hi Hj). unfold less_prefix in Hs. apply Nat.ltb_ge in Hs. done.
Qed.

(** The table [NewRouteTable] builds, for any sort. *)
Lemma NewRouteTable_spec bindings s :
  reg_inv s →
  let '(s', rt, r) := NewRouteTable bindings s in
  r = Ok tt ∧ reg_inv s' ∧ (∀ n q, Pool n s = Some q → Pool n s' = Some q)
  ∧ (∀ b, b ∈ bindings → is_Some (Pool (cb_Subdomain b) s'))
  ∧ (∀ a b, current s' a b = current s a b)
  ∧ (∀ h l, byHost rt !! h = Some l → StronglySorted longer_first l)
  ∧ ∀ h r, route_in rt h r ↔
      ∃ b p, b ∈ bindings ∧ cb_Subdomain b = h ∧ Pool h s' = Some p ∧ r = binding_route b p.
Proof.
  intros Hinv. unfold NewRouteTable. pose proof (add_bindings_spec bindings (mkRouteTable ∅) s Hinv) as Hb.
  destruct (add_bindings _ _ _) as [s' rt]. destruct Hb as (Hinv' & Hkeep & Hall & Hcur & Hin).
  split_and!; try done.
  - intros h l. simpl. rewrite lookup_fmap. destruct (byHost rt !! h) as [l0|]; [|done]. intros [= <-].
    apply sort_longer_first.
  - intros h r. assert (route_in (mkRouteTable (sort_Slice less_prefix <$> byHost rt)) h r
      ↔ route_in rt h r) as ->.
    { unfold route_in. simpl. rewrite lookup_fmap. destruct (byHost rt !! h) as [l0|]; simpl; [|done].
      by rewrite sorted_routes. }
    rewrite Hin. split; [|by right]. intros [Hr|?]; [|done]. unfold route_in in Hr.
    simpl in Hr. rewrite lookup_empty in Hr. by apply elem_of_nil in Hr.
Qed.

Definition bindings_rooted (bindings : list ClientBinding) : Prop :=
  ∀ b, b ∈ bindings → cb_PathPrefix b = "" ∨ is_rooted (cb_PathPrefix b) = true.

Lemma binding_route_canonical b p :
  cb_PathPrefix b = "" ∨ is_rooted (cb_PathPrefix b) = true →
  canonical_prefix (rt_PathPrefix (binding_route b p)).
Proof. intros Hb. simpl. rewrite NormalizePathPrefix_eq. by apply normalizePathPrefix_canonical. Qed.

(** [Match] in a table whose routes are those of the bindings. *)
Lemma Match_in_table bindings s rt h pathStr :
  bindings_rooted bindings → is_rooted pathStr = true →
  (∀ b, b ∈ bindings → is_Some (Pool (cb_Subdomain b) s)) →
  (∀ h l, byHost rt !! h = Some l → StronglySorted longer_first l) →
  (∀ h r, route_in rt h r ↔
     ∃ b p, b ∈ bindings ∧ cb_Subdomain b = h ∧ Pool h s = Some p ∧ r = binding_route b p) →
  match Match rt h pathStr with
  | Ok r =>
      ∃ b p, b ∈ bindings ∧ cb_Subdomain b = h ∧ Pool h s = Some p ∧ r = binding_route b p
        ∧ path_covers (NormalizePathPrefix (cb_PathPrefix b)) pathStr
        ∧ ∀ b', b' ∈ bindings → cb_Subdomain b' = h →
            path_covers (NormalizePathPrefix (cb_PathPrefix b')) pathStr →
            String.length (NormalizePathPrefix (cb_PathPrefix b'))
              ≤ String.length (NormalizePathPrefix (cb_PathPrefix b))
  | Err ErrNoRoute =>
      ∀ b, b ∈ bindings → cb_Subdomain b = h →
        ¬ path_covers (NormalizePathPrefix (cb_PathPrefix b)) pathStr
  end.
Proof.
  intros Hrooted Hroot Hall Hsort Hin.
  unfold Match. destruct (byHost rt !! h) as [l|] eqn:Hl.
  - assert (∀ x, x ∈ l ↔ ∃ b p, b ∈ bindings ∧ cb_Subdomain b = h ∧ Pool h s = Some p
      ∧ x = binding_route b p) as Hlin by (intros x; rewrite <-Hin; unfold route_in; by rewrite Hl).
    assert (Forall (λ r, canonical_prefix (rt_PathPrefix r)) l) as Hcan.
    { apply Forall_forall. intros x (b & p & Hb & _ & _ & ->)%Hlin.
      apply binding_route_canonical. by apply Hrooted. }
    pose proof (match_loop_spec pathStr l None Hroot Hcan (Hsort h l Hl)) as Hm.
    assert (∀ b, b ∈ bindings → cb_Subdomain b = h → ∃ p, binding_route b p ∈ l) as Hex.
    { intros b Hb <-. destruct (Hall b Hb) as [p Hp]. exists p. apply Hlin. eauto 10. }
    destruct (match_loop _ _ _) as [x|].
    + destruct Hm as [(Hx & Hc & Hmax)|[? _]]; [|done].
      apply Hlin in Hx as (b & p & Hb & Hsub & Hp & ->). exists b, p. split_and!; try done.
      intros b' Hb' Hsub' Hc'. destruct (Hex b' Hb' Hsub') as [p' Hp'].
      by apply (Hmax (binding_route b' p')).
    + destruct Hm as [_ Hn]. intros b Hb Hsub. destruct (Hex b Hb Hsub) as [p Hp].
      by apply (Hn (binding_route b p)).
  - intros b Hb Hsub. exfalso. destruct (Hall b Hb) as [p Hp]. rewrite Hsub in Hp.
    assert (route_in rt h (binding_route b p)) as Hr by (apply Hin; eauto 10).
    unfold route_in in Hr. rewrite Hl in Hr. by apply elem_of_nil in Hr.
Qed.

Lemma Match_spec bindings s s' rt r h pathStr :
  reg_inv s → bindings_rooted bindings → NewRouteTable bindings s = (s', rt, r) →
  is_rooted pathStr = true →
  match Match rt h pathStr with
  | Ok r =>
      ∃ b p, b ∈ bindings ∧ cb_Subdomain b = h ∧ Pool h s' = Some p ∧ r = binding_route b p
        ∧ path_covers (NormalizePathPrefix (cb_PathPrefix b)) pathStr
        ∧ ∀ b', b' ∈ bindings → cb_Subdomain b' = h →
            path_covers (NormalizePathPrefix (cb_PathPrefix b')) pathStr →
            String.length (NormalizePathPrefix (cb_PathPrefix b'))
              ≤ String.length (NormalizePathPrefix (cb_PathPrefix b))
  | Err ErrNoRoute =>
      ∀ b, b ∈ bindings → cb_Subdomain b = h →
        ¬ path_covers (NormalizePathPrefix (cb_PathPrefix b)) pathStr
  end.
Proof.
  intros Hinv Hrooted Hnew Hroot. pose proof (NewRouteTable_spec bindings s Hinv) as Hs.
  rewrite Hnew in Hs. destruct Hs as (_ & _ & _ & Hall & _ & Hsort & Hin).
  by apply Match_in_table.
Qed.

End RouteTheorems.

(** ** Stripping *)

Lemma NormalizePathPrefix_segs segs : Forall plain_seg segs → NormalizePathPrefix (abs_path segs) = abs_path segs.
Proof. apply normalizePathPrefix_abs. Qed.

(** [StripPathPrefix] on a normalized prefix other than the root. *)
Lemma StripPathPrefix_eq segs p :
  Forall plain_seg segs → segs ≠ [] →
  StripPathPrefix p (abs_path segs) =
    if bool_decide (p = abs_path segs) then ("/", true)
    else if HasPrefix p (abs_path segs +:+ "/")
    then (str_drop (String.length (abs_path segs)) p, true) else (p, false).
Proof.
  intros Hs Hne. unfold StripPathPrefix. rewrite NormalizePathPrefix_segs by done.
  rewrite (bool_decide_eq_false_2 (abs_path segs = "")) by done.
  rewrite (bool_decide_eq_false_2 (abs_path segs = "/")); [done|]. by rewrite abs_path_root.
Qed.

Lemma strip_slash_tail segs q :
  str_drop (String.length (abs_path segs)) (abs_path segs +:+ String slash q) = String slash q.
Proof. apply str_drop_app. Qed.

(** [/x/../a/b]: a path with an unrelated segment that a [..] takes back. *)
Definition detour (x : string) (segs : list string) : string :=
  String slash (x +:+ (String slash (".." +:+ abs_path segs))).

Lemma detour_segs x segs :
  plain_seg x → Forall plain_seg segs → clean_segs true (detour x segs) = segs.
Proof.
  intros Hx Hs. unfold clean_segs, detour.
  change (String slash (x +:+ ?r)) with ("" +:+ String slash (x +:+ r)).
  destruct Hx as (Hx1 & Hx2 & Hx3 & Hxf).
  rewrite Split_app by done. rewrite Split_app by done.
  change (".." +:+ abs_path segs) with (".." +:+ String slash (Join segs "/")).
  rewrite Split_app by done. simpl.
  change (clean_step true [] "") with (@nil string).
  assert (clean_step true [] x = [x]) as ->
    by (unfold clean_step; by rewrite !bool_decide_eq_false_2).
  assert (clean_step true [x] ".." = []) as ->
    by (unfold clean_step; simpl; by rewrite bool_decide_eq_false_2).
  destruct segs as [|s segs]; [done|].
  rewrite (Split_Join slash); [|done|by apply plain_no_slash].
  rewrite fold_clean_plain by done. by rewrite app_nil_r, rev_involutive.
Qed.

(** ** Claims *)

Section RouteClaims.
  Context `{PollmuxConsts, Transport}.

(** [Match] returns a route of a binding of the host whose normalized prefix covers
    the path (segment-wise, on the cleaned path, the empty prefix covering every path)
    and is the longest that does; it fails exactly when no binding of the host covers
    the path.  Whatever order [sort.Slice] leaves ties in. *)
Theorem Match_longest_prefix `{SliceSort} bindings s s' rt r h pathStr :
  reg_inv s → bindings_rooted bindings → NewRouteTable bindings s = (s', rt, r) →
  is_rooted pathStr = true →
  match Match rt h pathStr with
  | Ok r =>
      ∃ b p, b ∈ bindings ∧ cb_Subdomain b = h ∧ Pool h s' = Some p ∧ r = binding_route b p
        ∧ path_covers (NormalizePathPrefix (cb_PathPrefix b)) pathStr
        ∧ ∀ b', b' ∈ bindings → cb_Subdomain b' = h →
            path_covers (NormalizePathPrefix (cb_PathPrefix b')) pathStr →
            String.length (NormalizePathPrefix (cb_PathPrefix b'))
              ≤ String.length (NormalizePathPrefix (cb_PathPrefix b))
  | Err ErrNoRoute =>
      ∀ b, b ∈ bindings → cb_Subdomain b = h →
        ¬ path_covers (NormalizePathPrefix (cb_PathPrefix b)) pathStr
  end.
Proof. apply Match_spec. Qed.

(** For the bindings of a valid configuration the route [Match] finds is unique:
    two tables built with different sorts give the same answer for every path. *)
Theorem Match_sort_independent (S1 S2 : SliceSort) c s s1 s2 rt1 rt2 r1 r2 h pathStr :
  reg_inv s → server_valid c →
  @NewRouteTable _ S1 (sc_Clients c) s = (s1, rt1, r1) →
  @NewRouteTable _ S2 (sc_Clients c) s = (s2, rt2, r2) →
  is_rooted pathStr = true → Match rt1 h pathStr = Match rt2 h pathStr.
Proof.
  intros Hinv Hv H1 H2 Hroot.
  assert (bindings_rooted (sc_Clients c)) as Hb.
  { intros b Hb. pose proof (sv_bindings c Hv) as Hf. rewrite Forall_forall in Hf.
    apply (bv_prefix b (Hf b Hb)). }
  assert (s1 = s2) as <-.
  { unfold NewRouteTable in *. destruct (add_bindings _ _ _). congruence. }
  pose proof (Match_spec (H0 := S1) _ s _ _ _ h pathStr Hinv Hb H1 Hroot) as M1.
  pose proof (Match_spec (H0 := S2) _ s _ _ _ h pathStr Hinv Hb H2 Hroot) as M2.
  destruct (Match rt1 h pathStr) as [x|[]], (Match rt2 h pathStr) as [y|[]]; [| | |done].
  - destruct M1 as (b1 & p1 & Hb1 & Hs1 & Hp1 & -> & Hc1 & Hm1).
    destruct M2 as (b2 & p2 & Hb2 & Hs2 & Hp2 & -> & Hc2 & Hm2).
    assert (NormalizePathPrefix (cb_PathPrefix b1) = NormalizePathPrefix (cb_PathPrefix b2)) as Heq.
    { apply (covers_same_length _ _ pathStr); [done | done |].
      pose proof (Hm1 b2 Hb2 Hs2 Hc2). pose proof (Hm2 b1 Hb1 Hs1 Hc1). lia. }
    assert (b1 = b2) as -> by (eapply (NoDup_map_inj routeKey);
      [apply (sv_routes c Hv) | done | done | unfold routeKey; by rewrite Hs1, Hs2, <-!NormalizePathPrefix_eq, Heq]).
    congruence.
  - destruct M1 as (b1 & p1 & Hb1 & Hs1 & _ & _ & Hc1 & _). by destruct (M2 b1 Hb1 Hs1).
  - destruct M2 as (b2 & p2 & Hb2 & Hs2 & _ & _ & Hc2 & _). by destruct (M1 b2 Hb2 Hs2).
Qed.

(** Stripping a normalized prefix other than the root succeeds exactly on the prefix
    itself, which leaves the root, and on the prefix followed by a rooted rest, which
    leaves the rest; any other path is returned as it is. *)
Theorem StripPathPrefix_outcome segs p :
  Forall plain_seg segs → segs ≠ [] →
  let '(q, ok) := StripPathPrefix p (abs_path segs) in
  (ok = true ↔ (p = abs_path segs ∧ q = "/")
    ∨ (is_rooted q = true ∧ p = abs_path segs +:+ q))
  ∧ (ok = false → q = p).
Proof.
  intros Hs Hne. rewrite StripPathPrefix_eq by done. case_bool_decide as Hp.
  { split; [|done]. split; [by left | done]. }
  destruct (HasPrefix p (abs_path segs +:+ "/")) eqn:E.
  - apply HasPrefix_spec in E as [t ->]. rewrite <-(assoc_L String.append).
    change ("/" +:+ t) with (String slash t). rewrite str_drop_app. split; [|done].
    split; [|done]. intros _. right. split; [|done]. by apply is_rooted_spec; eexists.
  - split; [|done]. split; [done|]. intros [[? _]|[Hr Heq]]; [done|].
    exfalso. apply (f_equal String.length) in Heq. rewrite str_length_app in Heq.
    simpl in Heq. lia.
Qed.

(** On a path already in clean form the match and the strip agree: the prefix of any
    route that covers the path can be stripped from it. *)
Theorem covered_clean_path_strips prefix p :
  is_rooted p = true → Clean p = p → path_covers prefix p →
  (StripPathPrefix p prefix).2 = true ∧ is_rooted (StripPathPrefix p prefix).1 = true.
Proof.
  intros Hr Hc [->|(segs & Hs & -> & Hpre)]; [done|].
  destruct (decide (segs = [])) as [->|Hne].
  { unfold StripPathPrefix. by rewrite NormalizePathPrefix_segs by done. }
  rewrite StripPathPrefix_eq by done. case_bool_decide as Hp; [done|].
  pose proof (proj2 (under_prefix _ _ (clean_segs_plain p) Hs Hne) Hpre) as Hu.
  rewrite <-Clean_rooted, Hc in Hu by done. destruct Hu as [?|Hu]; [done|]. rewrite Hu.
  split; [done|]. apply HasPrefix_spec in Hu as [t ->]. rewrite <-(assoc_L String.append).
  simpl. rewrite str_drop_app. by apply is_rooted_spec; eexists.
Qed.

(** [Match] and [StripPathPrefix] disagree on a path that is not in clean form:
    [/x/../a/b] is covered by, and hits, a route of the prefix [/a/b], since [Match] looks
    at the cleaned path, but [StripPathPrefix] looks at the raw path and leaves it whole,
    so the backend gets the public prefix and the dot-dot. *)
Theorem detour_matched_not_stripped x segs :
  plain_seg x → Forall plain_seg segs → segs ≠ [] → head segs ≠ Some x →
  path_covers (abs_path segs) (detour x segs)
  ∧ (∀ r, rt_PathPrefix r = abs_path segs → route_hit (Clean (detour x segs)) r = true)
  ∧ StripPathPrefix (detour x segs) (abs_path segs) = (detour x segs, false).
Proof.
  intros Hx Hs Hne Hhd.
  assert (path_covers (abs_path segs) (detour x segs)) as Hcov
    by (right; exists segs; split_and!; [done..|]; by rewrite detour_segs).
  split_and!; [done | |].
  { intros r Hr. apply route_hit_covers; rewrite ?Hr; [by apply is_rooted_spec; eexists | |done..].
    right. by exists segs. }
  rewrite StripPathPrefix_eq by done. destruct segs as [|s segs]; [done|].
  assert (∀ t, detour x (s :: segs) = abs_path (s :: segs) +:+ t →
    (t = "" ∨ ∃ q, t = String slash q) → False) as Hno.
  { intros t Heq Ht. apply Hhd. simpl. f_equal. unfold detour in Heq.
    rewrite abs_path_segs_str in Heq by done.
    simpl in Heq. injection Heq as Heq. rewrite <-(assoc_L String.append) in Heq. symmetry in Heq.
    apply Forall_cons in Hs as [Hs _].
    apply plain_seg_tail_eq in Heq as [-> _]; [done | apply Hs | apply Hx |].
    destruct (segs_str_shape segs) as [->|[q ->]]; [done | eauto]. }
  rewrite bool_decide_eq_false_2.
  - destruct (HasPrefix _ _) eqn:E; [|done]. exfalso. apply HasPrefix_spec in E as [t Ht].
    rewrite <-(assoc_L String.append) in Ht. apply (Hno _ Ht). right. eauto.
  - intros Heq. apply (Hno ""); [by rewrite str_app_nil_r | by left].
Qed.

End RouteClaims.

(** ** The hosts of a table *)

Lemma binding_host_keys_spec bindings seen out :
  NoDup out → (∀ h, h ∈ seen ↔ h ∈ out) →
  NoDup (binding_host_keys bindings seen out)
  ∧ ∀ h, h ∈ binding_host_keys bindings seen out ↔ h ∈ out ∨ h ∈ map cb_Subdomain bindings.
Proof.
  revert seen out. induction bindings as [|b bindings IH]; intros seen out Hnd Hseen; simpl.
  { split; [done|]. set_solver. }
  setoid_rewrite elem_of_cons. case_bool_decide as Hb.
  - destruct (IH seen out Hnd Hseen) as [Hnd' Hin]. split; [done|]. intros h. rewrite Hin.
    apply Hseen in Hb. naive_solver.
  - destruct (IH ({[cb_Subdomain b]} ∪ seen) (out ++ [cb_Subdomain b])) as [Hnd' Hin].
    + apply NoDup_app. split_and!; [done | | apply NoDup_singleton].
      intros x Hx. rewrite list_elem_of_singleton. intros ->. by apply Hb, Hseen.
    + intros h. rewrite elem_of_union, elem_of_singleton, elem_of_app, list_elem_of_singleton, Hseen.
      naive_solver.
    + split; [done|]. intros h. rewrite Hin, elem_of_app, list_elem_of_singleton. naive_solver.
Qed.

Section Hosts.
  Context `{Transport, SliceSort}.

Lemma add_bindings_hosts bindings rt s h :
  is_Some (byHost (add_bindings bindings rt s).2 !! h)
  ↔ is_Some (byHost rt !! h) ∨ h ∈ map cb_Subdomain bindings.
Proof.
  revert rt s. induction bindings as [|b bindings IH]; intros rt s; simpl.
  { split; [by left|]. by intros [?|?%elem_of_nil]. }
  destruct (EnsurePool (cb_Subdomain b) s) as [s1 p]. rewrite IH. simpl.
  rewrite lookup_insert_is_Some', elem_of_cons. naive_solver.
Qed.

(** The hosts of the route table are the subdomains of the bindings, each once. *)
Theorem HostKeys_are_binding_hosts bindings s :
  HostKeys (NewRouteTable bindings s).1.2 ≡ₚ BindingHostKeys bindings
  ∧ NoDup (BindingHostKeys bindings).
Proof.
  destruct (binding_host_keys_spec bindings ∅ []) as [Hnd Hin];
    [constructor | set_solver |]. split; [|done].
  unfold NewRouteTable. pose proof (add_bindings_hosts bindings (mkRouteTable ∅) s) as Hh.
  destruct (add_bindings _ _ _) as [s' rt]. simpl in *. apply NoDup_Permutation.
  - apply NoDup_fst_map_to_list.
  - done.
  - intros h. unfold HostKeys, BindingHostKeys. rewrite Hin. simpl.
    rewrite list_elem_of_fmap. trans (is_Some (byHost rt !! h)).
    + split.
      * intros ([k l] & -> & Hkl). apply elem_of_map_to_list in Hkl. simpl.
        rewrite lookup_fmap in Hkl. by destruct (byHost rt !! k).
      * intros [l Hl]. exists (h, sort_Slice less_prefix l). split; [done|].
        apply elem_of_map_to_list. by rewrite lookup_fmap, Hl.
    + rewrite Hh. split; [|by intros [?%elem_of_nil|?]; [|right]].
      intros [[x Hx]|?]; [by rewrite lookup_empty in Hx | by right].
Qed.

End Hosts.

(** ** Witnesses *)

Definition reversed_SliceSort : SliceSort.
Proof.
  refine {| sort_Slice := λ A less l, insertion_sort less (rev l) |}.
  - intros A less l. rewrite insertion_sort_perm. symmetry. apply Permutation_rev.
  - intros A less key l Hless i j x y Hij Hi Hj. apply (less_false less key Hless).
    by eapply StronglySorted_lookup; [apply insertion_sort_sorted| | |].
Defined.

Section RouteDemo.
  #[local] Existing Instance demo_transport.
  #[local] Existing Instance insertion_SliceSort.

Definition demo_bindings : list ClientBinding := sc_Clients example_validated.

Definition demo_table : store * RouteTable * result route_error unit :=
  NewRouteTable demo_bindings demo_s0.

Lemma demo_bindings_rooted : bindings_rooted demo_bindings.
Proof.
  intros b Hb. repeat (apply elem_of_cons in Hb as [->|Hb]; [by vm_compute; auto|]).
  by apply elem_of_nil in Hb.
Qed.

Lemma demo_s0_inv : reg_inv demo_s0.
Proof. apply init_inv. Qed.

Lemma Match_longest_prefix_witness :
  ∃ b p, b ∈ demo_bindings ∧ cb_PathPrefix b = "/service/"
    ∧ Match demo_table.1.2 "@" "/service/x" = Ok (binding_route b p).
Proof.
  pose proof (Match_longest_prefix demo_bindings demo_s0 demo_table.1.1 demo_table.1.2
    demo_table.2 "@" "/service/x" demo_s0_inv demo_bindings_rooted eq_refl eq_refl) as Hm.
  assert (∃ r, Match demo_table.1.2 "@" "/service/x" = Ok r ∧ rt_PathPrefix r = "/service")
    as (r & Hr & Hpre) by (eexists; vm_compute; done).
  rewrite Hr in Hm. destruct Hm as (b & p & Hb & _ & _ & -> & _).
  exists b, p. split_and!; [done | | done].
  repeat (apply elem_of_cons in Hb as [->|Hb]; [by vm_compute in Hpre|]).
  by apply elem_of_nil in Hb.
Defined.

Lemma demo_server_valid : @server_valid example_consts example_validated.
Proof. destruct (@validate_server_sound example_consts _ _ example_server_ok) as (? & _ & _ & Hv). done. Qed.

Definition demo_table' : store * RouteTable * result route_error unit :=
  @NewRouteTable _ reversed_SliceSort demo_bindings demo_s0.

Lemma Match_sort_independent_witness :
  Match demo_table.1.2 "@" "/api/v1/users" = Match demo_table'.1.2 "@" "/api/v1/users"
  ∧ is_ok (Match demo_table.1.2 "@" "/api/v1/users") = true.
Proof.
  split; [|by vm_compute].
  eapply (@Match_sort_independent example_consts _ insertion_SliceSort reversed_SliceSort
    example_validated demo_s0 demo_table.1.1 demo_table'.1.1 _ _ demo_table.2 demo_table'.2).
  - apply demo_s0_inv.
  - apply demo_server_valid.
  - vm_compute. reflexivity.
  - vm_compute. reflexivity.
  - reflexivity.
Defined.

Lemma demo_segs : Forall plain_seg ["api"; "v1"].
Proof. repeat constructor; vm_compute; done. Qed.

Lemma StripPathPrefix_outcome_witness : StripPathPrefix "/api/v1/users" "/api/v1" = ("/users", true).
Proof.
  pose proof (StripPathPrefix_outcome ["api"; "v1"] "/api/v1/users" demo_segs ltac:(done)) as Hs.
  destruct (StripPathPrefix "/api/v1/users" (abs_path ["api"; "v1"])) as [q ok] eqn:E.
  assert (ok = true) as -> by by vm_compute in E; simplify_eq.
  destruct Hs as [[Hs _] _]. destruct (Hs eq_refl) as [[? _]|[_ Hq]]; [done|].
  apply (str_app_inj_r "/api/v1" "/users") in Hq. by subst q.
Defined.

Lemma covered_clean_path_strips_witness : (StripPathPrefix "/api/v1" "/api/v1").2 = true.
Proof.
  apply covered_clean_path_strips; [reflexivity | by vm_compute |].
  right. exists ["api"; "v1"]. split_and!; [apply demo_segs | done |]. vm_compute. by exists [].
Defined.

Lemma detour_matched_not_stripped_witness :
  StripPathPrefix "/x/../api/v1" "/api/v1" = ("/x/../api/v1", false).
Proof.
  apply (detour_matched_not_stripped "x" ["api"; "v1"]);
    [by vm_compute | apply demo_segs | done | done].
Defined.

End RouteDemo.
