(* ===== verification/Rewrite.v ===== *)
(** internal/server/proxy_rewrite.go: response headers after [strip_prefix] has
    removed a public path segment from the request. *)

From S2P Require Import Prelude GoStrings GoPath Config ControlPath Registry RegistrySpec.
From S2P Require Import Route.

(** ** [net/http.Header], on canonical keys *)

Notation Header := (gmap string (list string)).

Definition Header_Values (h : Header) (k : string) : list string := default [] (h !! k).
Definition Header_Get (h : Header) (k : string) : string := default "" (head (Header_Values h k)).
Definition Header_Set (k v : string) (h : Header) : Header := <[k := [v]]> h.
Definition Header_Del (k : string) (h : Header) : Header := delete k h.
Definition Header_Add (k v : string) (h : Header) : Header := <[k := Header_Values h k ++ [v]]> h.

(** ** [net/url]: a parsed URL, its path and its string form *)

Class NetURL := {
  URL : Type;
  url_Parse : string → option URL;
  url_Path : URL → string;
  url_set_Path : string → URL → URL;
  url_String : URL → string
}.

(** ** The rewriting functions *)

Definition prependPublicPath (publicPrefix p : string) : string :=
  let publicPrefix := NormalizePathPrefix publicPrefix in
  if bool_decide (publicPrefix = "") then p
  else
    let cleaned := Clean p in
    if bool_decide (cleaned = "/") then publicPrefix
    else if bool_decide (cleaned = publicPrefix) || HasPrefix cleaned (publicPrefix +:+ "/")
    then cleaned
    else publicPrefix +:+ cleaned.

Definition rewriteLocation `{NetURL} (loc publicPrefix : string) : string :=
  if HasPrefix loc "/" then prependPublicPath publicPrefix loc
  else match url_Parse loc with
       | None => loc
       | Some u =>
           if bool_decide (url_Path u = "") || negb (HasPrefix (url_Path u) "/") then loc
           else
             let newPath := prependPublicPath publicPrefix (url_Path u) in
             if bool_decide (newPath = url_Path u) then loc
             else url_String (url_set_Path newPath u)
       end.

Definition rewriteCookiePath (cookiePath publicPrefix : string) : string :=
  let publicPrefix := NormalizePathPrefix publicPrefix in
  if bool_decide (publicPrefix = "") then cookiePath
  else
    let p := cookiePath in
    let p := if bool_decide (p = "") then "/" else p in
    let p := if HasPrefix p "/" then p else "/" +:+ p in
    prependPublicPath publicPrefix p.

(** The test and the value of a [Path] attribute. *)
Definition is_path_attr (part : string) : bool :=
  let trimmed := TrimSpace part in
  negb (String.length trimmed <? 5) && EqualFold_ascii (str_take 5 trimmed) "path=".

Definition path_attr_value (part : string) : string := TrimSpace (str_drop 5 (TrimSpace part)).

(** The loop over [parts[1:]]; [None] when no part was changed. *)
Fixpoint rewrite_parts (publicPrefix : string) (parts : list string) : option (list string) :=
  match parts with
  | [] => None
  | part :: rest =>
      if is_path_attr part then
        let rawPath := path_attr_value part in
        let newPath := rewriteCookiePath rawPath publicPrefix in
        if bool_decide (newPath ≠ rawPath) then Some ((" Path=" +:+ newPath) :: rest) else None
      else (λ rest, part :: rest) <$> rewrite_parts publicPrefix rest
  end.

Definition semicolon : ascii := ";"%char.

Definition rewriteSetCookiePath (setCookie publicPrefix : string) : string :=
  match Split semicolon setCookie with
  | [] => setCookie
  | first :: rest =>
      match rewrite_parts publicPrefix rest with
      | None => setCookie
      | Some rest' => Join (first :: rest') ";"
      end
  end.

Definition rewritePublicPrefixHeaders `{NetURL} (publicPrefix : string) (h : Header) : Header :=
  let publicPrefix := NormalizePathPrefix publicPrefix in
  if bool_decide (publicPrefix = "") then h
  else
    let loc := Header_Get h "Location" in
    let h := if bool_decide (loc ≠ "") then
               let rewritten := rewriteLocation loc publicPrefix in
               if bool_decide (rewritten ≠ loc) then Header_Set "Location" rewritten h else h
             else h in
    let cookies := Header_Values h "Set-Cookie" in
    if bool_decide (length cookies = 0) then h
    else fold_left (λ h c, Header_Add "Set-Cookie" (rewriteSetCookiePath c publicPrefix) h)
           cookies (Header_Del "Set-Cookie" h).

(** ** Prepending *)

Section Prepend.
  Context (segs : list string) (Hs : Forall plain_seg segs) (Hne : segs ≠ []).

Lemma under_bool l :
  Forall plain_seg l →
  bool_decide (abs_path l = abs_path segs) || HasPrefix (abs_path l) (abs_path segs +:+ "/")
  = bool_decide (segs `prefix_of` l).
Proof.
  intros Hl. apply eq_true_iff_eq. rewrite orb_true_iff, !bool_decide_eq_true.
  by apply under_prefix.
Qed.

Lemma abs_path_app l : l ≠ [] → abs_path segs +:+ abs_path l = abs_path (segs ++ l).
Proof.
  intros Hl. rewrite !abs_path_segs_str, segs_str_app; try done. by destruct segs.
Qed.

(** What [prependPublicPath] does, segment by segment. *)
Lemma prependPublicPath_segs p :
  is_rooted p = true →
  prependPublicPath (abs_path segs) p =
    abs_path (if bool_decide (segs `prefix_of` clean_segs true p)
              then clean_segs true p else segs ++ clean_segs true p).
Proof.
  intros Hr. unfold prependPublicPath. rewrite NormalizePathPrefix_segs by done.
  rewrite (bool_decide_eq_false_2 (abs_path segs = "")) by done.
  rewrite Clean_rooted by done. pose proof (clean_segs_plain p) as Hc.
  rewrite under_bool by done. destruct (decide (clean_segs true p = [])) as [->|Hnil].
  - rewrite bool_decide_eq_true_2 by done. rewrite bool_decide_eq_false_2; [by rewrite app_nil_r|].
    by intros ?%prefix_nil_inv.
  - rewrite (bool_decide_eq_false_2 (abs_path (clean_segs true p) = "/")) by by rewrite abs_path_root.
    case_bool_decide; [done | by apply abs_path_app].
Qed.

Lemma prependPublicPath_clean p :
  is_rooted p = true →
  ∃ l, Forall plain_seg l ∧ segs `prefix_of` l ∧ prependPublicPath (abs_path segs) p = abs_path l.
Proof.
  intros Hr. rewrite prependPublicPath_segs by done. pose proof (clean_segs_plain p) as Hc.
  case_bool_decide; [eauto|]. eexists. split_and!; [| |done].
  - by apply Forall_app.
  - by exists (clean_segs true p).
Qed.

End Prepend.

(** ** Claims *)

(** C30: for a public prefix other than the root, whatever rooted path the backend names,
    the rewritten path is clean and under the prefix, its segments are those of the path
    if that was under the prefix already and those of the prefix followed by those of the
    path otherwise, and rewriting again changes nothing. *)
Theorem prependPublicPath_correct segs p :
  Forall plain_seg segs → segs ≠ [] → is_rooted p = true →
  let q := prependPublicPath (abs_path segs) p in
  path_covers (abs_path segs) q ∧ Clean q = q
  ∧ (segs `prefix_of` clean_segs true p → clean_segs true q = clean_segs true p)
  ∧ (¬ segs `prefix_of` clean_segs true p → clean_segs true q = segs ++ clean_segs true p)
  ∧ prependPublicPath (abs_path segs) q = q.
Proof.
  intros Hs Hne Hr. cbv zeta. pose proof (clean_segs_plain p) as Hc.
  destruct (prependPublicPath_clean segs Hs Hne p Hr) as (l & Hl & Hpre & Hq).
  pose proof (prependPublicPath_segs segs Hs Hne p Hr) as Heq. rewrite Heq in Hq.
  apply abs_path_inj in Hq; [|by case_bool_decide; [|apply Forall_app] | done].
  rewrite Heq, Hq, clean_segs_abs by done. split_and!.
  - right. exists segs. by rewrite clean_segs_abs.
  - by apply Clean_abs.
  - intros Hp. by rewrite bool_decide_eq_true_2 in Hq.
  - intros Hp. by rewrite bool_decide_eq_false_2 in Hq.
  - rewrite prependPublicPath_segs by (done || apply is_rooted_abs).
    rewrite clean_segs_abs by done. by rewrite bool_decide_eq_true_2.
Qed.

(** Stripping on the way in and prepending on the way out are inverse to each other:
    a clean backend path that does not itself start with the public prefix comes back
    from the public side as it was, and a clean public path under the prefix, whose
    stripped form does not start with the prefix again, is rebuilt from what the backend
    was given. *)
Theorem strip_prepend_roundtrip segs l :
  Forall plain_seg segs → segs ≠ [] → Forall plain_seg l → ¬ segs `prefix_of` l →
  StripPathPrefix (prependPublicPath (abs_path segs) (abs_path l)) (abs_path segs)
    = (abs_path l, true)
  ∧ prependPublicPath (abs_path segs)
      (StripPathPrefix (abs_path (segs ++ l)) (abs_path segs)).1 = abs_path (segs ++ l).
Proof.
  intros Hs Hne Hl Hn.
  assert (prependPublicPath (abs_path segs) (abs_path l) = abs_path (segs ++ l)) as Hpp.
  { rewrite prependPublicPath_segs, clean_segs_abs by (done || apply is_rooted_abs).
    by rewrite bool_decide_eq_false_2. }
  assert (StripPathPrefix (abs_path (segs ++ l)) (abs_path segs) = (abs_path l, true)) as Hst.
  { rewrite StripPathPrefix_eq by done. destruct (decide (l = [])) as [->|Hl0].
    - by rewrite app_nil_r, bool_decide_eq_true_2.
    - rewrite <-abs_path_app by done. rewrite bool_decide_eq_false_2.
      + assert (HasPrefix (abs_path segs +:+ abs_path l) (abs_path segs +:+ "/") = true) as ->.
        { apply HasPrefix_spec. exists (Join l "/"). by rewrite <-(assoc_L String.append). }
        by rewrite str_drop_app.
      + intros Heq. apply (f_equal String.length) in Heq. rewrite str_length_app in Heq.
        simpl in Heq. lia. }
  split; [by rewrite Hpp | by rewrite Hst].
Qed.

(** With the root as public prefix (a valid [path_prefix] of ["/"] with
    [strip_prefix]) every redirect of the backend to a path other than the root becomes
    a protocol-relative URL: [/login] turns into [//login], whose host is [login]. *)
Theorem root_prefix_doubles_slash `{NetURL} s l :
  Forall plain_seg (s :: l) →
  rewriteLocation (abs_path (s :: l)) "/" = "//" +:+ Join (s :: l) "/".
Proof.
  intros Hs. unfold rewriteLocation. fold (is_rooted (abs_path (s :: l))).
  rewrite is_rooted_abs. unfold prependPublicPath. change (NormalizePathPrefix "/") with "/".
  rewrite (bool_decide_eq_false_2 ("/" = "")) by done.
  rewrite Clean_abs by done. rewrite (bool_decide_eq_false_2 (abs_path (s :: l) = "/"))
    by by rewrite abs_path_root. simpl orb.
  assert (HasPrefix (abs_path (s :: l)) "//" = false) as ->; [|done].
  apply not_true_iff_false. rewrite HasPrefix_spec. intros [t Ht].
  apply (f_equal (Split slash)) in Ht. rewrite Split_abs_path in Ht by done.
  apply Forall_cons in Hs as [(Hs0 & _) _]. simpl in Ht. congruence.
Qed.

(** A redirect to another site is rewritten like one to the own site: any absolute
    URL whose path is rooted and not under the prefix gets the public prefix, whatever
    its host is. *)
Theorem foreign_redirect_rewritten `{NetURL} segs loc u l :
  Forall plain_seg segs → segs ≠ [] → is_rooted loc = false → url_Parse loc = Some u →
  Forall plain_seg l → url_Path u = abs_path l → ¬ segs `prefix_of` l →
  rewriteLocation loc (abs_path segs) = url_String (url_set_Path (abs_path (segs ++ l)) u).
Proof.
  intros Hs Hne Hr Hu Hl Hp Hn. unfold rewriteLocation. fold (is_rooted loc).
  rewrite Hr, Hu, Hp, bool_decide_eq_false_2 by done. simpl orb.
  rewrite prependPublicPath_segs, clean_segs_abs by (done || apply is_rooted_abs).
  rewrite (bool_decide_eq_false_2 (segs `prefix_of` l)) by done.
  rewrite bool_decide_eq_false_2; [done|]. intros Heq.
  apply abs_path_inj in Heq; [|by apply Forall_app|done].
  apply (f_equal length) in Heq. rewrite length_app in Heq. destruct segs; [done|].
  simpl in Heq. lia.
Qed.

(** ** Queries and double slashes *)

Lemma double_slash_segs a b :
  Forall plain_seg a → Forall plain_seg b → b ≠ [] →
  clean_segs true (abs_path a +:+ ("//" +:+ Join b "/")) = a ++ b.
Proof.
  intros Ha Hb Hne. unfold clean_segs.
  change ("//" +:+ Join b "/") with (String slash (abs_path b)).
  rewrite Split_app_sep, !Split_abs_path by done. rewrite fold_left_app.
  assert (fold_left (clean_step true) ("" :: match a with [] => [""] | _ => a end) [] = rev a) as ->.
  { simpl. change (clean_step true [] "") with (@nil string). destruct a; [done|].
    by rewrite fold_clean_plain, app_nil_r. }
  simpl. assert (clean_step true (rev a) "" = rev a) as -> by done.
  destruct b as [|x b]; [done|].
  by rewrite fold_clean_plain, rev_app_distr, !rev_involutive.
Qed.

(** [rewriteLocation] cleans the whole header value, query included: a double slash
    after a rooted path collapses, so [/login?next=https://a] comes out as
    [<prefix>/login?next=https:/a], and a scheme-relative [//host/x] becomes a local
    path. *)
Theorem location_double_slash_collapses `{NetURL} segs a b :
  Forall plain_seg segs → segs ≠ [] → Forall plain_seg a → Forall plain_seg b → b ≠ [] →
  ¬ segs `prefix_of` a ++ b →
  rewriteLocation (abs_path a +:+ ("//" +:+ Join b "/")) (abs_path segs)
    = abs_path (segs ++ a ++ b).
Proof.
  intros Hs Hne Ha Hb Hnb Hn. unfold rewriteLocation.
  set (loc := abs_path a +:+ ("//" +:+ Join b "/")).
  assert (is_rooted loc = true) as Hr by by apply is_rooted_spec; eexists.
  fold (is_rooted loc). rewrite Hr, prependPublicPath_segs by done. subst loc.
  by rewrite double_slash_segs, bool_decide_eq_false_2.
Qed.

(** ** Cookies *)

Lemma rewriteCookiePath_covers segs v :
  Forall plain_seg segs → segs ≠ [] →
  path_covers (abs_path segs) (rewriteCookiePath v (abs_path segs)).
Proof.
  intros Hs Hne. unfold rewriteCookiePath. rewrite NormalizePathPrefix_segs by done.
  rewrite (bool_decide_eq_false_2 (abs_path segs = "")) by done. cbv zeta.
  set (p := if bool_decide (v = "") then "/" else v).
  set (q := if HasPrefix p "/" then p else "/" +:+ p).
  assert (is_rooted q = true) as Hq.
  { subst q. destruct (HasPrefix p "/") eqn:E; [done|]. by apply is_rooted_spec; eexists. }
  destruct (prependPublicPath_clean segs Hs Hne q Hq) as (l & Hl & Hpre & ->).
  right. exists segs. by rewrite clean_segs_abs.
Qed.

Lemma rewrite_parts_spec P parts :
  match rewrite_parts P parts with
  | None => ∀ pre part post, parts = pre ++ part :: post →
      Forall (λ x, is_path_attr x = false) pre → is_path_attr part = true →
      rewriteCookiePath (path_attr_value part) P = path_attr_value part
  | Some parts' => ∃ pre part post, parts = pre ++ part :: post
      ∧ Forall (λ x, is_path_attr x = false) pre ∧ is_path_attr part = true
      ∧ parts' = pre ++ (" Path=" +:+ rewriteCookiePath (path_attr_value part) P) :: post
  end.
Proof.
  induction parts as [|x parts IH]; simpl; [by intros []|].
  destruct (is_path_attr x) eqn:Hx.
  - case_bool_decide as Hv.
    + exists [], x, parts. split_and!; [done | constructor | done | done].
    + intros [|y pre] part post [= -> ->] Hpre Hp.
      * done.
      * apply Forall_cons in Hpre as [? _]. congruence.
  - destruct (rewrite_parts P parts) as [parts'|]; simpl.
    + destruct IH as (pre & part & post & -> & Hpre & Hp & ->).
      exists (x :: pre), part, post. split_and!; [done | by constructor | done | done].
    + intros [|y pre] part post [= -> ->] Hpre Hp; [congruence|].
      apply Forall_cons in Hpre as [_ ?]. by eapply IH.
Qed.

(** C33: [rewriteSetCookiePath] leaves the cookie's name, value and all attributes as they
    are, except that the value of the first [Path] attribute is replaced by one under
    the public prefix; it returns the header unchanged exactly when there is no [Path]
    attribute or its value needs no change. *)
Theorem rewriteSetCookiePath_outcome segs c :
  Forall plain_seg segs → segs ≠ [] →
  let P := abs_path segs in
  ∃ first rest, Split semicolon c = first :: rest ∧
  ((rewriteSetCookiePath c P = c
    ∧ ∀ pre part post, rest = pre ++ part :: post →
        Forall (λ x, is_path_attr x = false) pre → is_path_attr part = true →
        rewriteCookiePath (path_attr_value part) P = path_attr_value part)
   ∨ ∃ pre part post, rest = pre ++ part :: post
      ∧ Forall (λ x, is_path_attr x = false) pre ∧ is_path_attr part = true
      ∧ rewriteSetCookiePath c P =
          Join (first :: pre ++ (" Path=" +:+ rewriteCookiePath (path_attr_value part) P) :: post) ";"
      ∧ path_covers P (rewriteCookiePath (path_attr_value part) P)).
Proof.
  intros Hs Hne. cbv zeta. unfold rewriteSetCookiePath.
  destruct (Split semicolon c) as [|first rest] eqn:E; [by destruct (Split_nonempty _ _ E)|].
  exists first, rest. split; [done|].
  pose proof (rewrite_parts_spec (abs_path segs) rest) as Hp.
  destruct (rewrite_parts (abs_path segs) rest) as [rest'|]; [right|by left].
  destruct Hp as (pre & part & post & -> & Hpre & Hp & ->). exists pre, part, post.
  split_and!; try done. by apply rewriteCookiePath_covers.
Qed.

(** ** Headers *)

Lemma Header_Values_Add k v h k' :
  Header_Values (Header_Add k v h) k' =
    if decide (k = k') then Header_Values h k ++ [v] else Header_Values h k'.
Proof. unfold Header_Values, Header_Add. rewrite lookup_insert. by case_decide. Qed.

Lemma fold_Header_Add (f : string → string) k vs h k' :
  Header_Values (fold_left (λ h c, Header_Add k (f c) h) vs h) k' =
    if decide (k = k') then Header_Values h k ++ map f vs else Header_Values h k'.
Proof.
  revert h. induction vs as [|v vs IH]; intros h; simpl.
  - case_decide; [subst; by rewrite app_nil_r | done].
  - rewrite IH, !Header_Values_Add. case_decide; [|done].
    by rewrite decide_True, <-(assoc_L (++)).
Qed.

(** C32: of a response's headers exactly two change: [Location] becomes its rewritten form
    and each [Set-Cookie] value its own, in order. *)
Theorem rewritePublicPrefixHeaders_outcome `{NetURL} segs h :
  Forall plain_seg segs →
  let P := abs_path segs in
  let h' := rewritePublicPrefixHeaders P h in
  Header_Values h' "Set-Cookie" =
    map (λ c, rewriteSetCookiePath c P) (Header_Values h "Set-Cookie")
  ∧ Header_Get h' "Location" =
      (if bool_decide (Header_Get h "Location" = "") then ""
       else rewriteLocation (Header_Get h "Location") P)
  ∧ ∀ k, k ≠ "Location" → k ≠ "Set-Cookie" → Header_Values h' k = Header_Values h k.
Proof.
  intros Hs. cbv zeta. unfold rewritePublicPrefixHeaders.
  rewrite NormalizePathPrefix_segs by done.
  rewrite (bool_decide_eq_false_2 (abs_path segs = "")) by done. cbv zeta.
  set (P := abs_path segs). set (loc := Header_Get h "Location").
  set (h1 := if bool_decide (loc ≠ "") then _ else h).
  assert (∀ k, k ≠ "Location" → Header_Values h1 k = Header_Values h k) as Hk.
  { intros k Hne. subst h1. repeat case_bool_decide; try done.
    unfold Header_Values, Header_Set. by rewrite lookup_insert_ne. }
  assert (Header_Get h1 "Location" =
    if bool_decide (loc = "") then "" else rewriteLocation loc P) as Hloc.
  { subst h1. destruct (decide (loc = "")) as [Hl|Hl].
    - rewrite (bool_decide_eq_true_2 (loc = "")) by done.
      rewrite bool_decide_eq_false_2 by (by intros []). done.
    - rewrite (bool_decide_eq_false_2 (loc = "")), bool_decide_eq_true_2 by done.
      destruct (decide (rewriteLocation loc P = loc)) as [Hr|Hr].
      + by rewrite bool_decide_eq_false_2, Hr by (by intros []).
      + rewrite bool_decide_eq_true_2 by done. unfold Header_Get, Header_Values, Header_Set.
        by rewrite lookup_insert_eq. }
  clearbody h1. rewrite (Hk "Set-Cookie") by done.
  rewrite <-Hloc. destruct (Header_Values h "Set-Cookie") as [|c cs] eqn:Hc.
  - rewrite bool_decide_eq_true_2 by done. split_and!; [|done|].
    + by rewrite (Hk "Set-Cookie").
    + intros k H1 _. by apply Hk.
  - rewrite bool_decide_eq_false_2 by done. split_and!.
    + rewrite fold_Header_Add, decide_True by done.
      unfold Header_Values at 1, Header_Del. by rewrite lookup_delete_eq.
    + unfold Header_Get. rewrite fold_Header_Add, decide_False by done.
      unfold Header_Values, Header_Del. by rewrite lookup_delete_ne.
    + intros k H1 H2. rewrite fold_Header_Add, decide_False by done.
      unfold Header_Values at 1, Header_Del. rewrite lookup_delete_ne by done. by apply Hk.
Qed.

(** ** Witnesses *)

(** URLs of the form [scheme://host/path], as what comes before the path and the path. *)
Definition demo_NetURL : NetURL := {|
  URL := string * string;
  url_Parse := λ s,
    match Split slash s with
    | scheme :: "" :: host :: segs => Some (Join [scheme; ""; host] "/", segs_str segs)
    | _ => Some ("", s)
    end;
  url_Path := snd;
  url_set_Path := λ p u, (u.1, p);
  url_String := λ u, u.1 +:+ u.2
|}.

Section RewriteDemo.
  #[local] Existing Instance demo_NetURL.

Lemma demo_service : Forall plain_seg ["service"].
Proof. repeat constructor; vm_compute; done. Qed.

Lemma demo_login : Forall plain_seg ["login"].
Proof. repeat constructor; vm_compute; done. Qed.

Lemma demo_login_apart l : ¬ ["service"] `prefix_of` "login" :: l.
Proof. intros [k [=]]. Qed.

Lemma prependPublicPath_correct_witness :
  path_covers "/service" (prependPublicPath "/service" "/a/../login/").
Proof. by apply (prependPublicPath_correct ["service"] "/a/../login/" demo_service). Defined.

Lemma strip_prepend_roundtrip_witness :
  StripPathPrefix (prependPublicPath "/service" "/login") "/service" = ("/login", true).
Proof.
  apply (strip_prepend_roundtrip ["service"] ["login"] demo_service);
    [done | apply demo_login | apply demo_login_apart].
Defined.

Lemma root_prefix_doubles_slash_witness : rewriteLocation "/login" "/" = "//login".
Proof. apply (root_prefix_doubles_slash "login" [] demo_login). Defined.

Lemma foreign_redirect_rewritten_witness :
  rewriteLocation "https://accounts.example.org/login" "/service"
    = "https://accounts.example.org/service/login".
Proof.
  change "/service" with (abs_path ["service"]) at 1.
  rewrite (foreign_redirect_rewritten ["service"] "https://accounts.example.org/login"
    (("https://accounts.example.org", "/login") : @URL demo_NetURL) ["login"]);
    [reflexivity | apply demo_service | done | reflexivity | reflexivity | apply demo_login
     | reflexivity | apply demo_login_apart].
Defined.

Lemma location_double_slash_collapses_witness :
  rewriteLocation "/login?next=https://a" "/service" = "/service/login?next=https:/a".
Proof.
  apply (location_double_slash_collapses ["service"] ["login?next=https:"] ["a"] demo_service);
    [done | | | done |]; try (repeat constructor; vm_compute; done).
  intros [k [=]].
Defined.

Lemma rewriteSetCookiePath_outcome_witness :
  rewriteSetCookiePath "sid=1; path = /; Path=/auth; Secure" "/service"
    = "sid=1; path = /; Path=/service/auth; Secure".
Proof.
  destruct (rewriteSetCookiePath_outcome ["service"] "sid=1; path = /; Path=/auth; Secure"
    demo_service ltac:(done)) as (first & rest & Hs & _).
  vm_compute in Hs. injection Hs as <- <-. by vm_compute.
Defined.

Lemma rewritePublicPrefixHeaders_outcome_witness :
  Header_Get (rewritePublicPrefixHeaders "/service"
    {["Location" := ["/login"]; "Set-Cookie" := ["sid=1; Path=/"]]}) "Location" = "/service/login".
Proof.
  destruct (rewritePublicPrefixHeaders_outcome ["service"]
    {["Location" := ["/login"]; "Set-Cookie" := ["sid=1; Path=/"]]} demo_service) as (_ & Hl & _).
  etrans; [exact Hl | by vm_compute].
Defined.

End RewriteDemo.
