(* ===== verification/Auth.v ===== *)
(** internal/server/auth.go: the clients a server knows, and their tokens. *)

From S2P Require Import Prelude GoStrings GoPath Config ControlPath Validate Host Registry.
From S2P Require Import Route Rewrite.

(** ** What the server reads of an [*http.Request] *)

Record Request := mkRequest {
  rq_Method : string;
  rq_Host : string;
  rq_Path : string;
  rq_RequestURI : string;
  rq_RemoteAddr : string;
  rq_TLS : bool;
  rq_Header : gmap string (list string)
}.

(** ** [ClientRegistry] *)

(** The bindings are never changed after they have been loaded, so a pointer to one is
    its value. *)
Record ClientRegistry := mkClientRegistry { byID : gmap string ClientBinding }.

Definition NewClientRegistry (bindings : list ClientBinding) : ClientRegistry :=
  mkClientRegistry (fold_left (λ m b, <[cb_ClientID b := b]> m) bindings ∅).

Definition cr_Lookup (cr : ClientRegistry) (clientID : string) : option ClientBinding :=
  byID cr !! clientID.

(** [subtle.ConstantTimeCompare] is 1 exactly on equal byte strings. *)
Definition ConstantTimeCompare (x y : string) : Z := if bool_decide (x = y) then 1 else 0.

Definition validToken (expected provided : string) : bool :=
  if bool_decide (expected = "") || bool_decide (provided = "") then false
  else Z.eqb (ConstantTimeCompare expected provided) 1.

Definition bearerToken (r : Request) : string :=
  let h := Header_Get (rq_Header r) "Authorization" in
  if negb (HasPrefix h "Bearer ") then "" else TrimPrefix h "Bearer ".

(** ** Lemmas *)

Lemma validToken_spec expected provided :
  validToken expected provided = true ↔ expected = provided ∧ expected ≠ "".
Proof.
  unfold validToken, ConstantTimeCompare. repeat case_bool_decide; simpl; split; naive_solver.
Qed.

Lemma client_fold_lookup (bindings : list ClientBinding) (m : gmap string ClientBinding) id :
  NoDup (map cb_ClientID bindings) →
  (∀ b, b ∈ bindings → m !! cb_ClientID b = None) →
  ∀ b, fold_left (λ m b, <[cb_ClientID b := b]> m) bindings m !! id = Some b ↔
    (b ∈ bindings ∧ cb_ClientID b = id) ∨ m !! id = Some b.
Proof.
  revert m. induction bindings as [|x bindings IH]; intros m Hnd Hm b; simpl.
  { split; [by right|]. intros [[Hb _]|?]; [by apply elem_of_nil in Hb | done]. }
  apply NoDup_cons in Hnd as [Hx Hnd]. rewrite IH; [|done|].
  - rewrite lookup_insert_Some, elem_of_cons. split.
    + intros [[? ?]|[[<- <-]|[? ?]]]; auto.
    + intros [[[->|?] <-]|Hb]; [by right; left | by left|].
      right. right. split; [|done]. intros <-. rewrite Hm in Hb; [done | by left].
  - intros y Hy. rewrite lookup_insert_ne; [apply Hm; by right|].
    intros Heq. apply Hx. rewrite Heq. by apply (list_elem_of_fmap_2 cb_ClientID).
Qed.

Lemma cr_Lookup_spec bindings id b :
  NoDup (map cb_ClientID bindings) →
  (cr_Lookup (NewClientRegistry bindings) id = Some b ↔ b ∈ bindings ∧ cb_ClientID b = id).
Proof.
  intros Hnd. unfold cr_Lookup, NewClientRegistry. simpl.
  rewrite client_fold_lookup; [|done | by intros; rewrite lookup_empty].
  rewrite lookup_empty. naive_solver.
Qed.

(** The token of the one [Authorization] header [Bearer <token>]. *)
Lemma bearerToken_spec r t :
  Header_Get (rq_Header r) "Authorization" = "Bearer " +:+ t → bearerToken r = t.
Proof. intros Hh. unfold bearerToken. rewrite Hh, HasPrefix_app. apply TrimPrefix_app. Qed.

(** A bearer token authorizes a client id exactly when the configuration has a binding
    of that id whose non-empty token it is; under a valid configuration a token belongs to
    one client only. *)
Theorem token_authorizes_one_client `{PollmuxConsts} c id1 id2 b1 b2 tok :
  server_valid c →
  let cr := NewClientRegistry (sc_Clients c) in
  (cr_Lookup cr id1 = Some b1 ↔ b1 ∈ sc_Clients c ∧ cb_ClientID b1 = id1)
  ∧ (validToken (cb_Token b1) tok = true ↔ cb_Token b1 = tok ∧ tok ≠ "")
  ∧ (cr_Lookup cr id1 = Some b1 → cr_Lookup cr id2 = Some b2 →
     validToken (cb_Token b1) tok = true → validToken (cb_Token b2) tok = true → id1 = id2).
Proof.
  intros Hv. cbv zeta. pose proof (sv_ids c Hv) as Hids. split_and!.
  - by apply cr_Lookup_spec.
  - rewrite validToken_spec. naive_solver.
  - rewrite !cr_Lookup_spec, !validToken_spec by done. intros [H1 <-] [H2 <-] [Ht1 _] [Ht2 _].
    f_equal. eapply (NoDup_map_inj cb_Token); [apply (sv_tokens c Hv) | done | done | congruence].
Qed.

Lemma token_authorizes_one_client_witness :
  cr_Lookup (NewClientRegistry (sc_Clients example_validated)) "b"
    = Some (example_binding "b" "@" "/api/v1" "b"%char).
Proof.
  destruct (@token_authorizes_one_client example_consts example_validated "b" "b"
    (example_binding "b" "@" "/api/v1" "b"%char) (example_binding "b" "@" "/api/v1" "b"%char)
    (example_token "b"%char) demo_server_valid) as (Hl & _ & _).
  apply Hl. split; [right; by left | done].
Defined.
