(* ===== verification/Directory.v ===== *)
(** The contract between the registry and those who rely on it: a directory of which
    session serves which client, changed by labelled events.  What clients of the registry
    may conclude is proved here once, for every implementation of the interface; the
    running server implements it in ServerDirectory. *)

From S2P Require Import Prelude.

(** A client of a subdomain is connected by a session, a session ends, or nothing happens
    that concerns the directory. *)
Inductive dir_event :=
| Connected (sub id sid : string)
| Disconnected (sid : string)
| Quiet.

(** What an event means for the session of a client. *)
Definition event_effect (sub id : string) (cur : option string) (e : dir_event) : option string :=
  match e with
  | Connected a b sid => if decide (a = sub ∧ b = id) then Some sid else cur
  | Disconnected sid => if decide (cur = Some sid) then None else cur
  | Quiet => cur
  end.

Class Directory (R : Type) := {
  dir_ok : R → Prop;
  dir_step : R → dir_event → R → Prop;
  dir_session : R → string → string → option string
}.

Class DirectoryOk (R : Type) `{Directory R} : Prop := {
  dir_step_ok r e r' : dir_ok r → dir_step r e r' → dir_ok r';
  dir_step_session r e r' sub id :
    dir_ok r → dir_step r e r' →
    dir_session r' sub id = event_effect sub id (dir_session r sub id) e
}.

(** A run and the events along it, oldest first. *)
Inductive dir_run `{Directory R} : R → list dir_event → R → Prop :=
| run_nil r : dir_run r [] r
| run_cons r e r1 tr r' : dir_step r e r1 → dir_run r1 tr r' → dir_run r (e :: tr) r'.

Section Directory.
  Context `{DirectoryOk R}.

Lemma run_app r tr1 tr2 r' :
  dir_run r (tr1 ++ tr2) r' ↔ ∃ r1, dir_run r tr1 r1 ∧ dir_run r1 tr2 r'.
Proof.
  split.
  - revert r. induction tr1 as [|e tr1 IH]; intros r; simpl; [by exists r; split; [constructor|]|].
    inversion 1; subst. edestruct IH as (r2 & ? & ?); [done|]. exists r2. by split; [econstructor|].
  - intros (r1 & Hrun & Hrest). induction Hrun; simpl; [done|]. econstructor; eauto.
Qed.

Lemma run_ok r tr r' : dir_run r tr r' → dir_ok r → dir_ok r'.
Proof. induction 1; eauto using dir_step_ok. Qed.

(** The directory is a function of what has happened. *)
Lemma run_session r tr r' sub id :
  dir_ok r → dir_run r tr r' →
  dir_session r' sub id = fold_left (event_effect sub id) tr (dir_session r sub id).
Proof.
  intros Hok Hrun. revert Hok. induction Hrun as [|r e r1 tr r' Hstep _ IH]; intros Hok; [done|].
  simpl. rewrite IH by eauto using dir_step_ok. by rewrite (dir_step_session r e r1).
Qed.

(** Events after which a client still has the session it had. *)
Definition keeps_session (sub id sid : string) (e : dir_event) : Prop :=
  (∀ x, e ≠ Connected sub id x) ∧ e ≠ Disconnected sid.

Lemma keeps_session_effect sub id sid e :
  keeps_session sub id sid e → event_effect sub id (Some sid) e = Some sid.
Proof.
  intros [Hc Hd]. destruct e as [a b x|x|]; simpl; [| |done]; case_decide as Heq; try done.
  - destruct Heq as [-> ->]. by destruct (Hc x).
  - injection Heq as ->. done.
Qed.

(** The last session that connected a client, if it has not ended since, serves it,
    whatever other sessions did meanwhile: those it replaced may end at any time. *)
Lemma last_connected_serves r tr1 tr2 r' sub id sid :
  dir_ok r → dir_run r (tr1 ++ Connected sub id sid :: tr2) r' →
  Forall (keeps_session sub id sid) tr2 →
  dir_session r' sub id = Some sid.
Proof.
  intros Hok Hrun Hkeep. rewrite (run_session _ _ _ _ _ Hok Hrun), fold_left_app. simpl.
  rewrite decide_True by done. clear Hrun.
  induction Hkeep as [|e tr2 He _ IH]; simpl; [done|]. by rewrite keeps_session_effect.
Qed.

(** A client whose session has ended is unserved until it connects again. *)
Lemma ended_unserved r tr1 tr2 r1 r' sub id sid :
  dir_ok r → dir_run r tr1 r1 → dir_session r1 sub id = Some sid →
  dir_run r1 (Disconnected sid :: tr2) r' →
  Forall (λ e, ∀ x, e ≠ Connected sub id x) tr2 →
  dir_session r' sub id = None.
Proof.
  intros Hok Hrun Hs Hrun' Hnone.
  rewrite (run_session _ _ _ _ _ (run_ok _ _ _ Hrun Hok) Hrun'), Hs. simpl.
  rewrite decide_True by done. clear Hrun'.
  induction Hnone as [|e tr2 He _ IH]; simpl; [done|].
  destruct e as [a b x|x|]; simpl; [|done..].
  rewrite decide_False; [done|]. intros [-> ->]. by destruct (He x).
Qed.

(** Only a session that once connected the client can serve it. *)
Lemma serving_session_connected r tr r' sub id sid :
  dir_ok r → dir_run r tr r' → dir_session r sub id = None →
  dir_session r' sub id = Some sid → Connected sub id sid ∈ tr.
Proof.
  intros Hok Hrun Hnone. rewrite (run_session _ _ _ _ _ Hok Hrun), Hnone.
  assert (∀ cur, fold_left (event_effect sub id) tr cur = Some sid →
    cur = Some sid ∨ Connected sub id sid ∈ tr) as Hfold;
    [|by intros [?|?]%Hfold].
  clear. induction tr as [|e tr IH]; intros cur; simpl; [by left|].
  intros [He|?]%IH; [|by right; right].
  destruct e as [a b x|x|]; simpl in He; [| |by left]; case_decide as Heq; try done; try by left.
  right. destruct Heq as [-> ->]. injection He as ->. by left.
Qed.

End Directory.
