(* ===== verification/Server.v ===== *)
(** internal/server/server.go and tls.go: building a server, and the hooks pollmux
    calls when a client connects, polls and disconnects. *)

From S2P Require Import Prelude GoStrings GoPath Config ControlPath Validate Host Registry.
From S2P Require Import RegistryInv RegistryOps RegistryRun RegistrySpec Route Rewrite Auth.

(** The pollmux server side: its session store, the multiplexer over a session and the
    header, in canonical form, in which a client reports the health of its local service. *)
Class PollmuxServer `{Transport} := {
  HeaderLocalHealth : string;
  SessionStore_Get : world → string → option session;
  ClientSession : world → session → world * result string yamux
}.

(** [pollmux.StatusErrorf(code, msg)] and other errors. *)
Inductive conn_error :=
| StatusError (code : Z) (msg : string)
| UnknownClient (clientID : string)
| OtherError (msg : string).

Definition StatusBadRequest : Z := 400.
Definition StatusUnauthorized : Z := 401.
Definition StatusForbidden : Z := 403.
Definition StatusNotFound : Z := 404.
Definition StatusConflict : Z := 409.

(** The options of the [autocert.Manager]; its host policy is [HostPolicyFunc] on the
    server's registry and this root domain. *)
Inductive tos_prompt := AcceptTOS.

Record CertManager := mkCertManager {
  cm_Cache : string;
  cm_Prompt : tos_prompt;
  cm_Email : string;
  cm_RootDomain : string
}.

Record Server := mkServer {
  sv_cfg : ServerConfig;
  sv_routeTable : RouteTable;
  sv_clientRegistry : ClientRegistry;
  sv_certManager : option CertManager
}.

(** ** The control routes *)

Inductive control_handler := ConnectHandler | PollHandler | WebSocketHandler | ResumeHandler | DeleteHandler.

Record control_route := mkControlRoute {
  cr_pattern : string;
  cr_method : string;
  cr_handler : control_handler;
  cr_authenticated : bool
}.

Definition buildControlMux (c : ServerConfig) : list control_route :=
  let prefix := NormalizeControlPath (sc_ControlPath c) in
  [mkControlRoute (prefix +:+ "/connect") "POST" ConnectHandler false;
   mkControlRoute (prefix +:+ "/{id}/poll") "POST" PollHandler true;
   mkControlRoute (prefix +:+ "/{id}/ws") "GET" WebSocketHandler true;
   mkControlRoute (prefix +:+ "/{id}/resume") "POST" ResumeHandler true;
   mkControlRoute (prefix +:+ "/{id}") "DELETE" DeleteHandler true].

(** What [authenticateSession] does with a request: pass it on or answer 404. *)
Inductive session_verdict := ServeNext | NotFound.

Section Server.
  Context `{PollmuxConsts, UnicodeTables, PollmuxServer, SliceSort}.

(** ** tls.go *)

Definition buildRouteTable (c : ServerConfig) (s : store)
    : store * RouteTable * result route_error unit :=
  let s := fold_left (λ s b, (EnsurePool (cb_Subdomain b) s).1) (sc_Clients c) s in
  NewRouteTable (sc_Clients c) s.

Definition cert_manager (c : ServerConfig) : CertManager :=
  mkCertManager (tls_CacheDir (sc_TLS c)) AcceptTOS (tls_Email (sc_TLS c)) (sc_RootDomain c).

(** Whether the manager may obtain a certificate for a host; [None] is yes. *)
Definition cert_HostPolicy (m : CertManager) (s : store) (host : string) : option string :=
  HostPolicyFunc s (cm_RootDomain m) host.

Definition setupTLS (srv : Server) : result string Server :=
  if tls_Disable (sc_TLS (sv_cfg srv)) then Ok srv
  else
    guard bool_decide (tls_CacheDir (sc_TLS (sv_cfg srv)) = "")
      else "tls.cache_dir is required when TLS is enabled" ;
    Ok (mkServer (sv_cfg srv) (sv_routeTable srv) (sv_clientRegistry srv)
          (Some (cert_manager (sv_cfg srv)))).

(** The host whose certificate is requested in the background, if any. *)
Definition warmCert (srv : Server) (subdomain : string) : option string :=
  match sv_certManager srv with
  | None => None
  | Some _ => Some (FQDN subdomain (sc_RootDomain (sv_cfg srv)))
  end.

(** ** [NewServer] *)

Inductive server_error := SConfig (e : cfg_error) | SRoute (e : route_error).

Definition NewServer (c : ServerConfig) (w : world) : result server_error (Server * store) :=
  match ValidateServer c with
  | (_, Err e) => Err (SConfig e)
  | (c, Ok _) =>
      let s := init_store w (tn_SupersedeDrainTimeout (sc_Tunnel c)) in
      match buildRouteTable c s with
      | (_, _, Err e) => Err (SRoute e)
      | (s, rt, Ok _) => Ok (mkServer c rt (NewClientRegistry (sc_Clients c)) None, s)
      end
  end.

(** ** The hooks *)

Definition meta_get (m : gmap string string) (k : string) : string := default "" (m !! k).

(** The capacity check of [authenticateConnect]. *)
Definition at_capacity (s : store) (b : ClientBinding) (clientID : string) : bool :=
  match Pool (cb_Subdomain b) s with
  | None => false
  | Some p =>
      bool_decide (ByID p clientID s = None) && Z.leb (cb_MaxClients b) (Len p s)
  end.

Definition authenticateConnect (srv : Server) (s : store) (r : Request)
    (meta : option (gmap string string)) : result conn_error (gmap string string) :=
  let token := bearerToken r in
  guard bool_decide (token = "") else StatusError StatusUnauthorized "invalid token" ;
  let clientID := match meta with None => "" | Some m => meta_get m "client_id" end in
  guard bool_decide (clientID = "")
    else StatusError StatusBadRequest "client_id is required in meta" ;
  match cr_Lookup (sv_clientRegistry srv) clientID with
  | None => Err (StatusError StatusForbidden "unknown client_id")
  | Some binding =>
      guard negb (validToken (cb_Token binding) token)
        else StatusError StatusUnauthorized "invalid token" ;
      guard at_capacity s binding clientID
        else StatusError StatusConflict "subdomain has reached max_clients" ;
      Ok {["subdomain" := cb_Subdomain binding; "host_key" := cb_Subdomain binding;
           "client_id" := clientID]}
  end.

Definition authenticateSession (srv : Server) (s : store) (id : string) (r : Request)
    : session_verdict :=
  match SessionStore_Get (s_world s) id with
  | None => ServeNext
  | Some sess =>
      let clientID := meta_get (Session_Meta sess) "client_id" in
      match cr_Lookup (sv_clientRegistry srv) clientID with
      | None => NotFound
      | Some binding =>
          if validToken (cb_Token binding) (bearerToken r) then ServeNext else NotFound
      end
  end.

Definition remoteAddrFromSession (_ : session) : string := "".

(** [onConnect] at time [now]; also the hosts whose certificates it warms up. *)
Definition onConnect (srv : Server) (now : Z) (sess : session) (meta : gmap string string)
    (s : store) : store * result conn_error unit * list string :=
  match ClientSession (s_world s) sess with
  | (w, Err e) => (set_world w s, Err (OtherError e), [])
  | (w, Ok y) =>
      let s := set_world w s in
      let clientID := meta_get meta "client_id" in
      match cr_Lookup (sv_clientRegistry srv) clientID with
      | None => (s, Err (UnknownClient clientID), [])
      | Some binding =>
          let '(s, tun) := new_tunnel (mkTunnel clientID (cb_Subdomain binding) (Some sess) (Some y)
            now (remoteAddrFromSession sess) false false false 0) s in
          match Register tun (cb_MaxClients binding) s with
          | (s, Err ErrPoolFull) =>
              let s := set_world (Yamux_Close (s_world s) y).1 s in
              (s, Err (StatusError StatusConflict "subdomain has reached max_clients"), [])
          | (s, Ok _) => (s, Ok tt, option_list (warmCert srv (cb_Subdomain binding)))
          end
      end
  end.

Definition onPoll (sess : session) (r : Request) (s : store) : store :=
  let h := Header_Get (rq_Header r) HeaderLocalHealth in
  if bool_decide (h ≠ "") then
    let meta := Session_Meta sess in
    let sub := meta_get meta "subdomain" in
    let cid := meta_get meta "client_id" in
    if bool_decide (sub ≠ "") && bool_decide (cid ≠ "")
    then SetLocalHealth sub cid (bool_decide (h = "ok")) s else s
  else s.

Definition onDisconnect (sess : session) (s : store) : store :=
  let s := match GetBySessionID (Session_ID sess) s with
           | None => s
           | Some tun =>
               match ct_Yamux (tunnel s tun) with
               | None => s
               | Some y => set_world (Yamux_Close (s_world s) y).1 s
               end
           end in
  RemoveBySessionID (Session_ID sess) s.

(** [buildHooks]: what the server tells pollmux to call. *)
Record Hooks := mkHooks {
  Authenticate : store → Request → option (gmap string string) → result conn_error (gmap string string);
  OnConnect : Z → session → gmap string string → store
    → store * result conn_error unit * list string;
  OnPoll : session → Request → store → store;
  OnDisconnect : session → store → store
}.

Definition buildHooks (srv : Server) : Hooks :=
  mkHooks (authenticateConnect srv) (onConnect srv) onPoll onDisconnect.

(** ** Which listeners [Start] opens *)

Inductive listener :=
| PublicHTTP (addr : string)
| PublicHTTPS (addr : string)
| RedirectHTTP (addr : string)
| StatusHTTP (addr : string).

Definition publicListenAddr (c : ServerConfig) : string :=
  if tls_Disable (sc_TLS c) then
    if bool_decide (sc_DevListen c ≠ "") then sc_DevListen c else sc_PublicListen c
  else sc_PublicListen c.

Definition status_listeners (c : ServerConfig) : list listener :=
  if st_Enabled (sc_Status c) && bool_decide (st_Listen (sc_Status c) ≠ "")
  then [StatusHTTP (st_Listen (sc_Status c))] else [].

Definition Start (srv : Server) : result string (Server * list listener) :=
  let c := sv_cfg srv in
  if tls_Disable (sc_TLS c) then Ok (srv, PublicHTTP (publicListenAddr c) :: status_listeners c)
  else
    try srv <- setupTLS srv ;
    Ok (srv, PublicHTTPS (publicListenAddr c) :: RedirectHTTP (sc_HTTPListen c)
             :: status_listeners c).

End Server.
