(* ===== verification/ServerSpec.v ===== *)
(** What the server's hooks guarantee: who may connect, what a connection changes in
    the registry, and that the registry stays well formed under all of them. *)

From stdpp Require Import sorting.
From S2P Require Import Prelude GoStrings GoPath Config ControlPath Validate Host Registry.
From S2P Require Import RegistryInv RegistryOps RegistryRun RegistrySpec Route Rewrite Auth.
From S2P Require Import Server Directory.

Section ServerSpec.
  Context `{PollmuxConsts, UnicodeTables, PollmuxServer, SliceSort}.

(** ** Building a server *)

Lemma ensure_all_spec (bindings : list ClientBinding) s :
  reg_inv s →
  let s' := fold_left (λ s b, (EnsurePool (cb_Subdomain b) s).1) bindings s in
  reg_inv s' ∧ (∀ a b, current s' a b = current s a b)
  ∧ s_drains s' = s_drains s ∧ bySess (s_reg s') = bySess (s_reg s).
Proof.
  revert s. induction bindings as [|b bindings IH]; intros s Hinv; simpl; [done|].
  pose proof (EnsurePool_spec s (cb_Subdomain b) Hinv) as He.
  destruct (EnsurePool (cb_Subdomain b) s) as [s1 p]. simpl.
  destruct (IH s1 (en_inv _ _ _ _ He)) as (Hi & Hc & Hd & Hs). split_and!.
  - done.
  - intros x y. rewrite Hc. by apply (ensured_current _ _ _ _ _ _ He).
  - by rewrite Hd, (en_drains _ _ _ _ He).
  - by rewrite Hs, (en_bySess _ _ _ _ He).
Qed.

(** The route table of a server: its routes are those of the bindings, and every
    binding's subdomain has a pool. *)
Record serves (srv : Server) (s : store) : Prop := {
  sv_valid : server_valid (sv_cfg srv);
  sv_clients_eq : sv_clientRegistry srv = NewClientRegistry (sc_Clients (sv_cfg srv));
  sv_pools b : b ∈ sc_Clients (sv_cfg srv) → is_Some (Pool (cb_Subdomain b) s);
  sv_sorted h l : byHost (sv_routeTable srv) !! h = Some l → StronglySorted longer_first l;
  sv_route_in h r : route_in (sv_routeTable srv) h r ↔
    ∃ b p, b ∈ sc_Clients (sv_cfg srv) ∧ cb_Subdomain b = h ∧ Pool h s = Some p
      ∧ r = binding_route b p
}.

Lemma init_current w d a b : current (init_store w d) a b = None.
Proof. unfold current, Pool. simpl. by rewrite lookup_empty. Qed.

(** A new server has no tunnel objects at all. *)
Lemma EnsurePool_tunnels sub s : s_tunnels (EnsurePool sub s).1 = s_tunnels s.
Proof. unfold EnsurePool. by destruct (byName (s_reg s) !! sub). Qed.

Lemma ensure_all_tunnels l s :
  s_tunnels (fold_left (λ s b, (EnsurePool (cb_Subdomain b) s).1) l s) = s_tunnels s.
Proof.
  revert s. induction l as [|b l IH]; intros s; simpl; [done|]. by rewrite IH, EnsurePool_tunnels.
Qed.

Lemma add_bindings_tunnels l rt s : s_tunnels (add_bindings l rt s).1 = s_tunnels s.
Proof.
  revert rt s. induction l as [|b l IH]; intros rt s; simpl; [done|].
  pose proof (EnsurePool_tunnels (cb_Subdomain b) s) as He.
  destruct (EnsurePool (cb_Subdomain b) s) as [s1 p]. by rewrite IH.
Qed.

Lemma NewServer_tunnels c w srv s : NewServer c w = Ok (srv, s) → s_tunnels s = ∅.
Proof.
  unfold NewServer, buildRouteTable, NewRouteTable.
  destruct (ValidateServer c) as [c' [[]|e]]; [|done].
  set (s0 := init_store w _).
  pose proof (ensure_all_tunnels (sc_Clients c') s0) as Hf. set (s1 := fold_left _ _ s0) in *.
  pose proof (add_bindings_tunnels (sc_Clients c') (mkRouteTable ∅) s1) as Ha.
  destruct (add_bindings _ _ _) as [s2 rt]. simpl in *. intros [= _ <-]. by rewrite Ha, Hf.
Qed.

Lemma NewServer_spec c w :
  match ValidateServer c with
  | (_, Err e) => NewServer c w = Err (SConfig e)
  | (c', Ok _) =>
      ∃ srv s, NewServer c w = Ok (srv, s) ∧ sv_cfg srv = c' ∧ sv_certManager srv = None
        ∧ reg_inv s ∧ serves srv s ∧ ∀ a b, current s a b = None
  end.
Proof.
  unfold NewServer. destruct (ValidateServer c) as [c' [[]|e]] eqn:Hv; [|done].
  apply validate_server_sound in Hv as (cp & _ & _ & Hv).
  set (s0 := init_store w (tn_SupersedeDrainTimeout (sc_Tunnel c'))).
  pose proof (init_inv w (tn_SupersedeDrainTimeout (sc_Tunnel c'))) as Hi0. fold s0 in Hi0.
  unfold buildRouteTable. destruct (ensure_all_spec (sc_Clients c') s0 Hi0) as (Hi1 & Hc1 & _ & _).
  set (s1 := fold_left _ _ s0) in *.
  pose proof (NewRouteTable_spec (sc_Clients c') s1 Hi1) as Hr.
  destruct (NewRouteTable (sc_Clients c') s1) as [[s2 rt] r].
  destruct Hr as (-> & Hi2 & _ & Hall & Hcur & Hsort & Hin).
  eexists _, s2. split_and!; try done.
  intros a b. rewrite Hcur, Hc1. apply init_current.
Qed.

Lemma NewServer_serves c w srv s : NewServer c w = Ok (srv, s) → serves srv s ∧ reg_inv s.
Proof.
  intros Hn. pose proof (NewServer_spec c w) as Hspec.
  destruct (ValidateServer c) as [c' [[]|e]]; [|congruence].
  destruct Hspec as (srv' & s' & Hn' & _ & _ & Hi & Hs & _). rewrite Hn in Hn'.
  by injection Hn' as <- <-.
Qed.

(** ** Connecting *)

Lemma sv_lookup srv s id b :
  serves srv s →
  (cr_Lookup (sv_clientRegistry srv) id = Some b ↔
   b ∈ sc_Clients (sv_cfg srv) ∧ cb_ClientID b = id).
Proof.
  intros Hs. rewrite (sv_clients_eq _ _ Hs). apply cr_Lookup_spec, (sv_ids _ (sv_valid _ _ Hs)).
Qed.

Lemma at_capacity_spec s b id :
  at_capacity s b id = true ↔
  is_Some (Pool (cb_Subdomain b) s) ∧ current s (cb_Subdomain b) id = None
  ∧ (cb_MaxClients b ≤ pool_len s (cb_Subdomain b))%Z.
Proof.
  unfold at_capacity, current, pool_len. destruct (Pool (cb_Subdomain b) s) as [p|]; simpl.
  - rewrite andb_true_iff, bool_decide_eq_true, Z.leb_le. split; [naive_solver | tauto].
  - split; [done | by intros [[] _]].
Qed.

Lemma serves_set_world srv s w : serves srv s → serves srv (set_world w s).
Proof. intros []. by constructor. Qed.

(** The tunnel that [onConnect] makes of a session. *)
Definition connecting (clientID sub : string) (sess : session) (y : yamux) (now : Z) : ClientTunnel :=
  mkTunnel clientID sub (Some sess) (Some y) now (remoteAddrFromSession sess) false false false 0.

(** The outcome of [Register] for a tunnel object that has just been allocated. *)
Lemma register_new_spec c s max :
  reg_inv s → ct_Draining c = false →
  (∀ se, ct_Session c = Some se → GetBySessionID (Session_ID se) s = None) →
  let '(s1, t) := new_tunnel c s in
  let '(s', r) := Register t max s1 in
  reg_inv s'
  ∧ (r = Ok tt ↔ current s (ct_Subdomain c) (ct_ID c) ≠ None
                 ∨ (pool_len s (ct_Subdomain c) < max)%Z)
  ∧ match r with
    | Ok _ =>
        (∀ a b, current s' a b = view_set (current s) (ct_Subdomain c) (ct_ID c) (Some t) a b)
        ∧ (∀ se, ct_Session c = Some se → GetBySessionID (Session_ID se) s' = Some t)
        ∧ ct_LocalHealthy (tunnel s' t) = true ∧ ct_Session (tunnel s' t) = ct_Session c
    | Err _ =>
        (∀ a b, current s' a b = current s a b)
        ∧ (∀ sid, GetBySessionID sid s' = GetBySessionID sid s)
    end.
Proof.
  intros Hinv Hd Hse. pose proof (new_tunnel_inv c s Hinv) as Hinv1.
  pose proof (new_tunnel_fresh c s Hinv Hd Hse) as Hf.
  pose proof (λ a b, new_tunnel_current c s a b Hinv) as HC.
  assert (tunnel (new_tunnel c s).1 (s_nexttunnel s) = c) as HT by by rewrite tunnel_new, decide_True.
  assert (pool_len (new_tunnel c s).1 (ct_Subdomain c) = pool_len s (ct_Subdomain c)) as HL by done.
  pose proof (Register_spec _ _ max Hinv1 Hf) as HR. rewrite HT, HC, HL in HR.
  simpl in *. destruct (Register _ _ _) as [s' [[]|e]]; destruct HR as [Hi HR]; split; try done.
  - destruct HR as [Hc Hok]. split; [by split|]. split.
    + intros a b. rewrite (ro_current _ _ _ Hok), HT. unfold view_set. case_decide; [done | apply HC].
    + split_and!.
      * intros se Hs. apply (ro_session _ _ _ Hok). left. rewrite HT. eauto.
      * apply (ro_healthy _ _ _ Hok).
      * destruct (ro_fields _ _ _ Hok (s_nexttunnel s)) as (_ & _ & ->). by rewrite HT.
  - destruct HR as (Hn & Hlen & Hr). split; [split; [done | intros [?|?]; [done | lia]]|].
    split; [intros a b; rewrite (rr_current _ _ Hr); apply HC | apply Hr].
Qed.

(** ** The server in operation *)

(** What [onConnect] tells the directory: with the binding the metadata name, if it
    returned no error. *)
Definition connect_event (srv : Server) (sess : session) (meta : gmap string string)
    (r : result conn_error unit) : dir_event :=
  match r, cr_Lookup (sv_clientRegistry srv) (meta_get meta "client_id") with
  | Ok _, Some b => Connected (cb_Subdomain b) (meta_get meta "client_id") (Session_ID sess)
  | _, _ => Quiet
  end.

(** What the hooks, the choice of a tunnel for a request, the drain goroutines and the
    sessions themselves do to the store of a running server, with the event it is for the
    directory of sessions.  pollmux hands [onConnect] a session with a new id. *)
Inductive hook_step (srv : Server) (s : store) : dir_event → store → Prop :=
| hs_connect now sess meta s' r warm :
    GetBySessionID (Session_ID sess) s = None →
    onConnect srv now sess meta s = (s', r, warm) →
    hook_step srv s (connect_event srv sess meta r) s'
| hs_poll sess r : hook_step srv s Quiet (onPoll sess r s)
| hs_disconnect sess : hook_step srv s (Disconnected (Session_ID sess)) (onDisconnect sess s)
| hs_pick n p : Pool n s = Some p → hook_step srv s Quiet (Pick p s).1
| hs_drain i now t pc s1 o :
    s_drains s !! i = Some (t, pc) → drain_run now t pc s = (s1, o) →
    hook_step srv s Quiet (put_drain i ((λ pc', (t, pc')) <$> o) s1)
| hs_world w : hook_step srv s Quiet (set_world w s).

(** All that happens to it: requests also open and close streams. *)
Inductive server_step (srv : Server) (s : store) : store → Prop :=
| ss_hook e s' : hook_step srv s e s' → server_step srv s s'
| ss_open t s' e :
    is_Some (s_tunnels s !! t) → OpenStream t s = Some (s', e) → server_step srv s s'
| ss_close_stream t :
    is_Some (s_tunnels s !! t) → server_step srv s (countedConn_Close t s).

(** The largest [max_clients] among the bindings of a subdomain. *)
Definition max_clients_of (c : ServerConfig) (sub : string) : Z :=
  foldr (λ b m, if bool_decide (cb_Subdomain b = sub) then Z.max (cb_MaxClients b) m else m)
    0%Z (sc_Clients c).

Lemma max_clients_of_ge c b :
  b ∈ sc_Clients c → (cb_MaxClients b ≤ max_clients_of c (cb_Subdomain b))%Z.
Proof.
  unfold max_clients_of. induction (sc_Clients c) as [|x l IH]; [by intros ?%elem_of_nil|].
  intros [->|Hb]%elem_of_cons; simpl.
  - rewrite bool_decide_eq_true_2 by done. lia.
  - specialize (IH Hb). case_bool_decide; lia.
Qed.

(** Every step of the server is a run of the registry. *)
Lemma hook_step_reg srv s e s' :
  serves srv s → hook_step srv s e s' →
  rtc (reg_step (max_clients_of (sv_cfg srv))) s s'.
Proof.
  intros Hs Hstep. destruct Hstep as [now sess meta s' r warm Hsess Heq| | | | |].
  - unfold onConnect in Heq. destruct (ClientSession (s_world s) sess) as [w [y|e]].
    2:{ simplify_eq. apply rtc_once, step_world. }
    apply (rtc_l _ _ (set_world w s)); [apply step_world|].
    destruct (cr_Lookup _ _) as [b|] eqn:Hb; [|simplify_eq; reflexivity].
    apply (sv_lookup srv s) in Hb as [Hb Hid]; [|done]. rewrite <-Hid in Heq.
    fold (connecting (cb_ClientID b) (cb_Subdomain b) sess y now) in Heq.
    destruct (new_tunnel _ _) as [s1 t] eqn:Hn.
    destruct (Register t (cb_MaxClients b) s1) as [s2 r2] eqn:Hr.
    apply (rtc_l _ _ s2).
    { apply (step_connect _ _ (connecting (cb_ClientID b) (cb_Subdomain b) sess y now)
        (cb_MaxClients b) s2 r2); [done | by apply max_clients_of_ge | by intros se [= <-] |].
      by rewrite Hn. }
    destruct r2 as [[]|[]]; simplify_eq; [reflexivity | apply rtc_once, step_world].
  - unfold onPoll. repeat case_match; try reflexivity. apply rtc_once, step_health.
  - unfold onDisconnect.
    destruct (GetBySessionID (Session_ID sess) s) as [t|]; [|apply rtc_once, step_disconnect].
    destruct (ct_Yamux (tunnel s t)) as [y|]; [|apply rtc_once, step_disconnect].
    eapply rtc_l; [apply (step_world _ s) | apply rtc_once, step_disconnect].
  - eapply rtc_once, step_pick. done.
  - eapply rtc_once, step_drain; done.
  - apply rtc_once, step_world.
Qed.

Lemma server_step_reg srv s s' :
  serves srv s → server_step srv s s' →
  rtc (reg_step (max_clients_of (sv_cfg srv))) s s'.
Proof.
  intros Hs [e s1 Hh|t s1 e Ht Ho|t Ht]; [by eapply hook_step_reg| |].
  - eapply rtc_once, step_open; done.
  - by eapply rtc_once, step_close_stream.
Qed.

Lemma reg_run_inv limit s s' : rtc (reg_step limit) s s' → reg_inv s → reg_inv s'.
Proof. induction 1; [done|]. intros. eauto using reg_inv_step. Qed.

Lemma reg_run_pools limit s s' n q :
  rtc (reg_step limit) s s' → reg_inv s → Pool n s = Some q → Pool n s' = Some q.
Proof.
  induction 1 as [|s s1 s' Hstep _ IH]; [done|]. intros Hinv Hq.
  apply IH; [by eapply reg_inv_step | by eapply reg_step_pools].
Qed.

Lemma reg_run_len limit s s' sub :
  rtc (reg_step limit) s s' → reg_inv s →
  (pool_len s' sub ≤ Z.max (pool_len s sub) (limit sub))%Z.
Proof.
  induction 1 as [|s s1 s' Hstep _ IH]; [lia|]. intros Hinv.
  pose proof (reg_step_len limit s s1 sub Hinv Hstep).
  specialize (IH (reg_inv_step _ _ _ Hstep Hinv)). lia.
Qed.

Lemma serves_pools srv s s' :
  serves srv s → (∀ n q, Pool n s = Some q → Pool n s' = Some q) → serves srv s'.
Proof.
  intros Hs Hkeep. constructor; try apply Hs.
  - intros b Hb. destruct (sv_pools _ _ Hs b Hb) as [p Hp]. eauto.
  - intros h r. rewrite (sv_route_in _ _ Hs). split; intros (b & p & Hb & Hh & Hp & ->).
    + eauto 10.
    + destruct (sv_pools _ _ Hs b Hb) as [q Hq]. subst h.
      pose proof (Hkeep _ _ Hq). exists b, q. split_and!; try done. congruence.
Qed.

(** A running server keeps its invariant and its routes. *)
Lemma server_run_inv srv s s' :
  rtc (server_step srv) s s' → serves srv s → reg_inv s → serves srv s' ∧ reg_inv s'.
Proof.
  induction 1 as [|s s1 s' Hstep _ IH]; [done|]. intros Hs Hinv.
  pose proof (server_step_reg srv s s1 Hs Hstep) as Hr.
  apply IH; [|by eapply reg_run_inv]. eapply serves_pools; [done|].
  intros n q. by eapply reg_run_pools.
Qed.

Lemma server_run_len srv s s' sub :
  rtc (server_step srv) s s' → serves srv s → reg_inv s →
  (pool_len s' sub ≤ Z.max (pool_len s sub) (max_clients_of (sv_cfg srv) sub))%Z.
Proof.
  induction 1 as [|s s1 s' Hstep _ IH]; [lia|]. intros Hs Hinv.
  pose proof (server_step_reg srv s s1 Hs Hstep) as Hr.
  destruct (server_run_inv srv s s1 (rtc_once _ _ Hstep) Hs Hinv) as [Hs1 Hinv1].
  pose proof (reg_run_len _ s s1 sub Hr Hinv). specialize (IH Hs1 Hinv1). lia.
Qed.

(** ** Claims *)

(** [NewServer] succeeds exactly when the configuration is valid; the server then
    holds the validated configuration, a well-formed registry with a pool for every
    binding and no tunnel in any, a lookup table of the clients and a route table whose
    routes are the bindings', longest prefix first. *)
Theorem NewServer_outcome c w :
  match ValidateServer c with
  | (_, Err e) => NewServer c w = Err (SConfig e)
  | (c', Ok _) =>
      ∃ srv s, NewServer c w = Ok (srv, s) ∧ sv_cfg srv = c' ∧ sv_certManager srv = None
        ∧ reg_inv s ∧ serves srv s ∧ ∀ a b, current s a b = None
  end.
Proof. apply NewServer_spec. Qed.

Lemma auth_decides srv s r m meta :
  serves srv s →
  let id := meta_get m "client_id" in
  authenticateConnect srv s r (Some m) = Ok meta ↔
  ∃ b, b ∈ sc_Clients (sv_cfg srv) ∧ cb_ClientID b = id ∧ bearerToken r = cb_Token b
    ∧ (current s (cb_Subdomain b) id ≠ None ∨ (pool_len s (cb_Subdomain b) < cb_MaxClients b)%Z)
    ∧ meta = {["subdomain" := cb_Subdomain b; "host_key" := cb_Subdomain b; "client_id" := id]}.
Proof.
  intros Hs. cbv zeta. unfold authenticateConnect.
  assert (∀ b, b ∈ sc_Clients (sv_cfg srv) → cb_ClientID b ≠ "" ∧ cb_Token b ≠ "") as Hb.
  { intros b Hb. pose proof (sv_bindings _ (sv_valid _ _ Hs)) as Hf. rewrite Forall_forall in Hf.
    destruct (Hf b Hb) as [Hid Htok _]. split; [done|]. intros Ht. rewrite Ht in Htok. simpl in Htok. lia. }
  rewrite !guard_ok, !bool_decide_eq_false.
  destruct (cr_Lookup (sv_clientRegistry srv) (meta_get m "client_id")) as [b|] eqn:E.
  - apply (sv_lookup srv s) in E as [Hin Hid]; [|done].
    rewrite !guard_ok, negb_false_iff, validToken_spec.
    pose proof (sv_pools _ _ Hs b Hin) as Hp. pose proof (at_capacity_spec s b (meta_get m "client_id")) as Hc.
    split.
    + intros (_ & _ & [Ht _] & Hcap & [= <-]). exists b. split_and!; try done.
      apply not_true_iff_false in Hcap. rewrite Hc in Hcap.
      destruct (current s (cb_Subdomain b) (meta_get m "client_id")) eqn:Hcur; [by left | right].
      apply Znot_ge_lt. intros Hge. apply Hcap. split_and!; [done | done | lia].
    + intros (b' & Hin' & Hid' & Ht & Hcap & ->).
      assert (b' = b) as -> by (eapply (NoDup_map_inj cb_ClientID);
        [apply (sv_ids _ (sv_valid _ _ Hs)) | done | done | congruence]).
      destruct (Hb b Hin) as [Hid0 Ht0]. rewrite Ht. split_and!; try done; [congruence|].
      apply not_true_iff_false. rewrite Hc. intros (_ & Hn & Hlen). destruct Hcap; [done | lia].
  - split; [by intros (_ & _ & [=])|]. intros (b & Hin & Hid & _).
    assert (cr_Lookup (sv_clientRegistry srv) (meta_get m "client_id") = Some b) as Hl
      by by apply (sv_lookup srv s). congruence.
Qed.

(** Why [authenticateConnect] refuses a client that presents [token] and names [id]: the
    status and text of its answer, in the order in which it looks. *)
Inductive connect_refusal (srv : Server) (s : store) (token id : string) : conn_error → Prop :=
| no_token : token = "" → connect_refusal srv s token id (StatusError 401 "invalid token")
| no_client_id : token ≠ "" → id = "" →
    connect_refusal srv s token id (StatusError 400 "client_id is required in meta")
| not_configured : token ≠ "" → id ≠ "" →
    (∀ b, b ∈ sc_Clients (sv_cfg srv) → cb_ClientID b ≠ id) →
    connect_refusal srv s token id (StatusError 403 "unknown client_id")
| not_its_token b : token ≠ "" →
    b ∈ sc_Clients (sv_cfg srv) → cb_ClientID b = id → token ≠ cb_Token b →
    connect_refusal srv s token id (StatusError 401 "invalid token")
| no_room b :
    b ∈ sc_Clients (sv_cfg srv) → cb_ClientID b = id → token = cb_Token b →
    current s (cb_Subdomain b) id = None → (cb_MaxClients b ≤ pool_len s (cb_Subdomain b))%Z →
    connect_refusal srv s token id (StatusError 409 "subdomain has reached max_clients").

(** A configured binding has an id and a token, and no other has its id. *)
Lemma binding_named srv s b :
  serves srv s → b ∈ sc_Clients (sv_cfg srv) →
  cb_ClientID b ≠ "" ∧ cb_Token b ≠ ""
  ∧ ∀ b', b' ∈ sc_Clients (sv_cfg srv) → cb_ClientID b' = cb_ClientID b → b' = b.
Proof.
  intros Hs Hb. pose proof (sv_bindings _ (sv_valid _ _ Hs)) as Hf. rewrite Forall_forall in Hf.
  destruct (Hf b Hb) as [Hid Htok _]. split_and!; [done | |].
  - intros Ht. rewrite Ht in Htok. simpl in Htok. lia.
  - intros b' Hb' Hsame. eapply (NoDup_map_inj cb_ClientID);
      [apply (sv_ids _ (sv_valid _ _ Hs)) | done..].
Qed.

Lemma auth_refusal_sound srv s r om e :
  serves srv s → authenticateConnect srv s r om = Err e →
  connect_refusal srv s (bearerToken r) (meta_get (default ∅ om) "client_id") e.
Proof.
  intros Hs. unfold authenticateConnect.
  assert (match om with None => "" | Some m => meta_get m "client_id" end
    = meta_get (default ∅ om) "client_id") as -> by by destruct om.
  set (id := meta_get _ "client_id"). case_bool_decide as Htok; [intros [= <-]; by apply no_token|].
  case_bool_decide as Hid; [intros [= <-]; by apply no_client_id|].
  destruct (cr_Lookup _ _) as [b|] eqn:Hl.
  - apply (sv_lookup srv s) in Hl as [Hb Hbid]; [|done].
    pose proof (validToken_spec (cb_Token b) (bearerToken r)) as Hv.
    pose proof (at_capacity_spec s b id) as Hc.
    destruct (validToken _ _); simpl.
    + destruct (at_capacity s b id); [|done]. intros [= <-].
      destruct (proj1 Hv eq_refl) as [Ht _]. destruct (proj1 Hc eq_refl) as (_ & Hn & Hle).
      by apply (no_room srv s _ id b).
    + intros [= <-]. apply (not_its_token srv s _ id b); [done..|].
      intros Heq. assert (false = true) by (apply Hv; destruct (binding_named srv s b Hs Hb) as (? & ? & _);
        by split). done.
  - intros [= <-]. apply not_configured; [done..|]. intros b Hb Hbid.
    assert (cr_Lookup (sv_clientRegistry srv) id = Some b) by by apply (sv_lookup srv s). congruence.
Qed.

Lemma connect_refusal_unique srv s token id e e' :
  serves srv s → connect_refusal srv s token id e → connect_refusal srv s token id e' → e = e'.
Proof.
  intros Hs Ha Hb.
  destruct Ha as [| |? ? Hno1|b1 ? Hb1 Hid1 Ht1|b1 Hb1 Hid1 Ht1 Hn1 Hf1];
    destruct Hb as [| |? ? Hno2|b2 ? Hb2 Hid2 Ht2|b2 Hb2 Hid2 Ht2 Hn2 Hf2];
    try congruence; try (destruct (binding_named srv s b1 Hs Hb1) as (? & ? & Hu1));
    try (destruct (binding_named srv s b2 Hs Hb2) as (? & ? & Hu2)); try congruence.
  all: try (by destruct (Hno1 b2)); try (by destruct (Hno2 b1)).
  all: rewrite (Hu1 b2) in * by congruence; congruence.
Qed.

(** C20: [authenticateConnect] lets a client in exactly when the request carries the token
    of the binding whose id its metadata names, and that client has a tunnel already or
    its subdomain is below [max_clients]; the session metadata is then the binding's
    subdomain and the client's id.  It refuses in exactly five cases, each with its answer:
    no token or not the named client's (401), no client id (400), a client that is not
    configured (403), and a client without a tunnel whose subdomain is full (409). *)
Theorem authenticateConnect_decides srv s r om :
  serves srv s →
  let id := meta_get (default ∅ om) "client_id" in
  (∀ meta, authenticateConnect srv s r om = Ok meta ↔
    ∃ b, b ∈ sc_Clients (sv_cfg srv) ∧ cb_ClientID b = id ∧ bearerToken r = cb_Token b
      ∧ (current s (cb_Subdomain b) id ≠ None ∨ (pool_len s (cb_Subdomain b) < cb_MaxClients b)%Z)
      ∧ meta = {["subdomain" := cb_Subdomain b; "host_key" := cb_Subdomain b; "client_id" := id]})
  ∧ ∀ e, authenticateConnect srv s r om = Err e ↔ connect_refusal srv s (bearerToken r) id e.
Proof.
  intros Hs. cbv zeta. assert (authenticateConnect srv s r om
    = authenticateConnect srv s r (Some (default ∅ om))) as Hom by by destruct om.
  split; [intros meta; rewrite Hom; by apply auth_decides|]. intros e. split.
  { by apply auth_refusal_sound. }
  intros Hrefused. destruct (authenticateConnect srv s r om) as [meta|e'] eqn:Ha.
  - exfalso. symmetry in Hom. apply auth_decides in Hom as (b & Hb & Hid & Htok & Hroom & _); [|done].
    destruct (binding_named srv s b Hs Hb) as (Hid0 & Htok0 & Huniq).
    inversion Hrefused as [| |? ? Hno|b' ? Hb' Hid' Hne|b' Hb' Hid' _ Hnone Hfull]; try congruence.
    + exact (Hno b Hb Hid).
    + rewrite (Huniq b') in Hne by congruence. done.
    + rewrite (Huniq b') in * by congruence. destruct Hroom; [done | lia].
  - apply auth_refusal_sound in Ha; [|done]. f_equal. by eapply connect_refusal_unique.
Qed.

Lemma auth_session_decides srv s id r :
  serves srv s →
  authenticateSession srv s id r = ServeNext ↔
  match SessionStore_Get (s_world s) id with
  | None => True
  | Some sess => ∃ b, b ∈ sc_Clients (sv_cfg srv)
      ∧ cb_ClientID b = meta_get (Session_Meta sess) "client_id" ∧ bearerToken r = cb_Token b
  end.
Proof.
  intros Hs. unfold authenticateSession.
  destruct (SessionStore_Get (s_world s) id) as [sess|]; [|done].
  destruct (cr_Lookup _ _) as [b|] eqn:E.
  - apply (sv_lookup srv s) in E as [Hin Hid]; [|done].
    assert (validToken (cb_Token b) (bearerToken r) = true ↔ bearerToken r = cb_Token b) as Hv.
    { rewrite validToken_spec. split; [by intros []|]. intros ->. split; [done|].
      pose proof (sv_bindings _ (sv_valid _ _ Hs)) as Hf. rewrite Forall_forall in Hf.
      intros Ht. pose proof (bv_token b (Hf b Hin)) as Hl. rewrite Ht in Hl. simpl in Hl. lia. }
    destruct (validToken _ _).
    + split; [|done]. intros _. exists b. split_and!; [done | done | by apply Hv].
    + split; [done|]. intros (b' & Hin' & Hid' & Ht).
      assert (b' = b) as -> by (eapply (NoDup_map_inj cb_ClientID);
        [apply (sv_ids _ (sv_valid _ _ Hs)) | done | done | congruence]).
      by apply Hv in Ht.
  - split; [done|]. intros (b & Hin & Hid & _).
    assert (cr_Lookup (sv_clientRegistry srv) (meta_get (Session_Meta sess) "client_id") = Some b)
      by by apply (sv_lookup srv s). congruence.
Qed.

(** A request to a session endpoint is passed on exactly when the session does not
    exist or the request carries the token of the client the session belongs to. *)
Theorem authenticateSession_decides srv s id r :
  serves srv s →
  authenticateSession srv s id r = ServeNext ↔
  match SessionStore_Get (s_world s) id with
  | None => True
  | Some sess => ∃ b, b ∈ sc_Clients (sv_cfg srv)
      ∧ cb_ClientID b = meta_get (Session_Meta sess) "client_id" ∧ bearerToken r = cb_Token b
  end.
Proof. apply auth_session_decides. Qed.

Lemma on_connect srv s now sess meta b w y :
  serves srv s → reg_inv s → GetBySessionID (Session_ID sess) s = None →
  ClientSession (s_world s) sess = (w, Ok y) →
  b ∈ sc_Clients (sv_cfg srv) → meta_get meta "client_id" = cb_ClientID b →
  let '(s', r, warm) := onConnect srv now sess meta s in
  reg_inv s'
  ∧ (r = Ok tt ↔ current s (cb_Subdomain b) (cb_ClientID b) ≠ None
                 ∨ (pool_len s (cb_Subdomain b) < cb_MaxClients b)%Z)
  ∧ match r with
    | Ok _ =>
        (∃ t, s_tunnels s !! t = None ∧ GetBySessionID (Session_ID sess) s' = Some t
          ∧ ct_Session (tunnel s' t) = Some sess ∧ ct_LocalHealthy (tunnel s' t) = true
          ∧ ∀ a d, current s' a d =
              view_set (current s) (cb_Subdomain b) (cb_ClientID b) (Some t) a d)
        ∧ warm = if sv_certManager srv
                 then [FQDN (cb_Subdomain b) (sc_RootDomain (sv_cfg srv))] else []
    | Err e =>
        e = StatusError StatusConflict "subdomain has reached max_clients" ∧ warm = []
        ∧ (∃ w', s_world s' = (Yamux_Close w' y).1)
        ∧ (∀ a d, current s' a d = current s a d)
        ∧ ∀ sid, GetBySessionID sid s' = GetBySessionID sid s
    end.
Proof.
  intros Hs Hinv Hsess Hy Hb Hid. unfold onConnect. rewrite Hy, Hid.
  rewrite (proj2 (sv_lookup srv s (cb_ClientID b) b Hs)) by done.
  set (s0 := set_world w s). fold (connecting (cb_ClientID b) (cb_Subdomain b) sess y now).
  assert (reg_inv s0) as Hinv0 by (eapply reg_inv_same; [apply same_reg_world | done]).
  pose proof (register_new_spec (connecting (cb_ClientID b) (cb_Subdomain b) sess y now) s0
    (cb_MaxClients b) Hinv0 eq_refl) as HR. simpl in HR.
  specialize (HR ltac:(by intros se [= <-])).
  assert (∀ a d, current s0 a d = current s a d) as HC
    by (intros; apply current_same, same_reg_world).
  change (pool_len s0) with (pool_len s) in HR. rewrite HC in HR.
  simpl. destruct (Register _ _ _) as [s' [[]|[]]]; destruct HR as (Hi & Hiff & HR).
  - split_and!; [done | by rewrite <-Hiff | |].
    + exists (s_nexttunnel s0). destruct HR as (Hc & Hg & Hh & Hse). split_and!;
        [by apply (ri_tunnels s Hinv) | by apply Hg | done | done|].
      intros a d. rewrite Hc. unfold view_set. case_decide; [done | apply HC].
    + unfold warmCert. by destruct (sv_certManager srv).
  - destruct HR as [Hc Hg]. split_and!; try done.
    + eapply reg_inv_same; [apply same_reg_world | done].
    + rewrite <-Hiff. split; intros [=].
    + by exists (s_world s').
    + intros a d. rewrite (current_same s') by apply same_reg_world. by rewrite Hc.
Qed.

(** C21: [onConnect] of a session pollmux has just created, with metadata that name a
    binding: the client is taken in exactly when it has a tunnel already or there is
    room.  It then has a new tunnel, which is its current one, is marked healthy and is
    found by the session id, everyone else's is as before, and the binding's host name is
    warmed up if certificates are managed; otherwise the answer is 409, the multiplexer
    over the session has been closed, and nobody's tunnel and no session entry has
    changed. *)
Theorem onConnect_outcome `{!TransportOk} srv s now sess meta b w y :
  serves srv s → reg_inv s → GetBySessionID (Session_ID sess) s = None →
  ClientSession (s_world s) sess = (w, Ok y) →
  b ∈ sc_Clients (sv_cfg srv) → meta_get meta "client_id" = cb_ClientID b →
  let '(s', r, warm) := onConnect srv now sess meta s in
  reg_inv s'
  ∧ (r = Ok tt ↔ current s (cb_Subdomain b) (cb_ClientID b) ≠ None
                 ∨ (pool_len s (cb_Subdomain b) < cb_MaxClients b)%Z)
  ∧ match r with
    | Ok _ =>
        (∃ t, s_tunnels s !! t = None ∧ GetBySessionID (Session_ID sess) s' = Some t
          ∧ ct_Session (tunnel s' t) = Some sess ∧ ct_LocalHealthy (tunnel s' t) = true
          ∧ ∀ a d, current s' a d =
              view_set (current s) (cb_Subdomain b) (cb_ClientID b) (Some t) a d)
        ∧ warm = if sv_certManager srv
                 then [FQDN (cb_Subdomain b) (sc_RootDomain (sv_cfg srv))] else []
    | Err e =>
        e = StatusError StatusConflict "subdomain has reached max_clients" ∧ warm = []
        ∧ Yamux_IsClosed (s_world s') y = true
        ∧ (∀ a d, current s' a d = current s a d)
        ∧ ∀ sid, GetBySessionID sid s' = GetBySessionID sid s
    end.
Proof.
  intros Hs Hinv Hsess Hy Hb Hid.
  pose proof (on_connect srv s now sess meta b w y Hs Hinv Hsess Hy Hb Hid) as HR.
  destruct (onConnect _ _ _ _ _) as [[s' [[]|e]] warm]; [done|].
  destruct HR as (Hi & Hiff & He & Hw & (w' & Hclose) & HR). split_and!; try done; [|apply HR..].
  rewrite Hclose. apply yamux_close_closes.
Qed.

(** A client that [authenticateConnect] has let in is registered by [onConnect] if
    nothing else happens in between: the two capacity checks agree. *)
Theorem authenticated_connect_succeeds srv s now sess r m meta w y :
  serves srv s → reg_inv s → GetBySessionID (Session_ID sess) s = None →
  ClientSession (s_world s) sess = (w, Ok y) →
  authenticateConnect srv s r (Some m) = Ok meta →
  (onConnect srv now sess meta s).1.2 = Ok tt.
Proof.
  intros Hs Hinv Hsess Hy Ha.
  apply auth_decides in Ha as (b & Hb & Hid & _ & Hcap & Hm); [|done].
  assert (meta_get meta "client_id" = cb_ClientID b) as Hmeta by by rewrite Hm, Hid.
  pose proof (on_connect srv s now sess meta b w y Hs Hinv Hsess Hy Hb Hmeta) as HR.
  destruct (onConnect srv now sess meta s) as [[s' r'] warm]. destruct HR as (_ & Hiff & _).
  apply Hiff. by rewrite Hid.
Qed.

(** Bindings of different clients that share a host by path prefix compete for one
    capacity: with [max_clients] at its default of 1, once one of them is connected the
    other is refused with 409, though its path prefix has no tunnel at all. *)
Theorem prefix_siblings_conflict srv s r m a b t :
  serves srv s → reg_inv s → a ∈ sc_Clients (sv_cfg srv) → b ∈ sc_Clients (sv_cfg srv) →
  cb_Subdomain a = cb_Subdomain b → cb_MaxClients b = 1%Z →
  current s (cb_Subdomain a) (cb_ClientID a) = Some t →
  current s (cb_Subdomain b) (cb_ClientID b) = None →
  meta_get m "client_id" = cb_ClientID b → bearerToken r = cb_Token b →
  authenticateConnect srv s r (Some m)
    = Err (StatusError StatusConflict "subdomain has reached max_clients").
Proof.
  intros Hs Hinv Ha Hb Hsub Hmax Hca Hcb Hid Htok. unfold authenticateConnect.
  pose proof (sv_bindings _ (sv_valid _ _ Hs)) as Hf. rewrite Forall_forall in Hf.
  destruct (Hf b Hb) as [Hid0 Htok0 _].
  assert (cb_Token b ≠ "") as Ht0 by (intros Ht; rewrite Ht in Htok0; simpl in Htok0; lia).
  rewrite Hid, Htok, !bool_decide_eq_false_2 by done.
  rewrite (proj2 (sv_lookup srv s (cb_ClientID b) b Hs)) by done.
  rewrite (proj2 (validToken_spec _ _)) by done. simpl.
  rewrite (proj2 (at_capacity_spec s b (cb_ClientID b))); [done|].
  split_and!; [by apply (sv_pools _ _ Hs) | done |]. rewrite Hmax. unfold pool_len.
  apply current_iff in Hca as (p & Hp & Hm & _); [|done]. rewrite <-Hsub, Hp. unfold Len.
  fold (Members p s). destruct (Members p s); [by apply elem_of_nil in Hm | simpl; lia].
Qed.

(** [onDisconnect] of a served client's session closes its multiplexer, forgets the
    session and leaves the client without a tunnel and everyone else as they were; of
    any other session (such as one whose tunnel has been replaced) it changes nothing. *)
Theorem onDisconnect_outcome `{!TransportOk} sess s :
  reg_inv s →
  let s' := onDisconnect sess s in
  reg_inv s' ∧
  match GetBySessionID (Session_ID sess) s with
  | None => s' = s
  | Some t =>
      GetBySessionID (Session_ID sess) s' = None
      ∧ (∀ a b, current s' a b =
           view_set (current s) (ct_Subdomain (tunnel s t)) (ct_ID (tunnel s t)) None a b)
      ∧ ∀ y, ct_Yamux (tunnel s t) = Some y → Yamux_IsClosed (s_world s') y = true
  end.
Proof.
  intros Hinv. cbv zeta. unfold onDisconnect.
  destruct (GetBySessionID (Session_ID sess) s) as [t|] eqn:Ht.
  2:{ destruct (RemoveBySessionID_spec s (Session_ID sess) Hinv) as [Hi Hr].
      rewrite Ht in Hr. by rewrite Hr. }
  set (s1 := match ct_Yamux (tunnel s t) with Some y => _ | None => s end).
  assert (same_reg s s1) as Hsame by (subst s1; destruct (ct_Yamux _); [apply same_reg_world | done]).
  destruct (RemoveBySessionID_spec s1 (Session_ID sess) (reg_inv_same _ _ Hsame Hinv)) as [Hi Hr].
  assert (GetBySessionID (Session_ID sess) s1 = Some t) as Ht1
    by (unfold GetBySessionID; by rewrite (sr_reg _ _ Hsame)).
  assert (tunnel s1 t = tunnel s t) as HT by (subst s1; by destruct (ct_Yamux (tunnel s t))).
  assert (s_world (RemoveBySessionID (Session_ID sess) s1) = s_world s1) as Hw.
  { unfold RemoveBySessionID, Remove. by repeat case_match. }
  rewrite Ht1 in Hr. split; [done|]. split_and!.
  - by rewrite (di_session _ _ _ _ Hr), decide_True.
  - intros a b. rewrite (di_current _ _ _ _ Hr), HT. unfold view_set.
    case_decide; [done | by apply current_same].
  - intros y Hy. rewrite Hw. subst s1. rewrite Hy. apply yamux_close_closes.
Qed.

(** The health a client reports with a poll decides whether its tunnel gets requests:
    after a report other than [ok] its current tunnel is out of rotation, after [ok] it is
    marked healthy, and no other tunnel is touched. *)
Theorem onPoll_health_report sess r s t :
  reg_inv s →
  let sub := meta_get (Session_Meta sess) "subdomain" in
  let id := meta_get (Session_Meta sess) "client_id" in
  let h := Header_Get (rq_Header r) HeaderLocalHealth in
  sub ≠ "" → id ≠ "" → h ≠ "" → current s sub id = Some t →
  let s' := onPoll sess r s in
  reg_inv s' ∧ current s' sub id = Some t
  ∧ (ct_LocalHealthy (tunnel s' t) = true ↔ h = "ok")
  ∧ (h ≠ "ok" → serving s' t = false)
  ∧ ∀ u, u ≠ t → tunnel s' u = tunnel s u ∧ serving s' u = serving s u.
Proof.
  intros Hinv. cbv zeta. intros Hsub Hid Hh Hcur. unfold onPoll.
  rewrite !bool_decide_eq_true_2 by done. simpl.
  set (ok := bool_decide (_ = "ok")). pose proof Hcur as Hc.
  pose proof (SetLocalHealth_same s (meta_get (Session_Meta sess) "subdomain")
    (meta_get (Session_Meta sess) "client_id") ok Hinv) as Hsame.
  assert (SetLocalHealth (meta_get (Session_Meta sess) "subdomain")
    (meta_get (Session_Meta sess) "client_id") ok s = upd_tunnel t (store_LocalHealthy ok) s) as Heq.
  { unfold SetLocalHealth. unfold current in Hc. destruct (Pool _ s) as [p|]; [|done].
    simpl in Hc. by rewrite Hc. }
  assert (ct_LocalHealthy (tunnel (upd_tunnel t (store_LocalHealthy ok) s) t) = ok) as Hok
    by (unfold upd_tunnel; by rewrite tunnel_set_tunnel, decide_True).
  split_and!.
  - by eapply reg_inv_same.
  - by rewrite (current_same _ _ _ _ Hsame).
  - rewrite Heq, Hok. apply bool_decide_eq_true.
  - intros Hne. rewrite Heq. unfold serving. rewrite Hok. subst ok.
    by rewrite bool_decide_eq_false_2, andb_false_r by done.
  - intros u Hu. rewrite Heq.
    assert (tunnel (upd_tunnel t (store_LocalHealthy ok) s) u = tunnel s u) as HT
      by (unfold upd_tunnel; by rewrite tunnel_set_tunnel, decide_False).
    split; [done|]. unfold serving, Alive. by rewrite HT.
Qed.

(** A pool is empty when nobody has a tunnel. *)
Lemma nobody_pool_len s sub : reg_inv s → (∀ a b, current s a b = None) → pool_len s sub = 0%Z.
Proof.
  intros Hinv Hempty. unfold pool_len. destruct (Pool sub s) as [p|] eqn:Hp; [|done]. unfold Len.
  fold (Members p s). destruct (Members p s) as [|t l] eqn:Hm; [done|]. exfalso.
  assert (current s sub (ct_ID (tunnel s t)) = Some t) as Hc.
  { apply current_iff; [done|]. exists p. rewrite Hm. split_and!; [done | by left | done]. }
  by rewrite Hempty in Hc.
Qed.

(** C1: from the moment [NewServer] has built it, whatever clients, requests, goroutines
    and sessions do, a server keeps its registry well formed and its routes those of the
    configuration, and no subdomain ever has more tunnels than the largest [max_clients]
    of its bindings. *)
Theorem server_invariant c w srv s0 s sub :
  NewServer c w = Ok (srv, s0) → rtc (server_step srv) s0 s →
  reg_inv s ∧ serves srv s ∧ (pool_len s sub ≤ max_clients_of (sv_cfg srv) sub)%Z.
Proof.
  intros Hnew Hrun. pose proof (NewServer_spec c w) as Hspec.
  destruct (ValidateServer c) as [c' [[]|e]]; [|congruence].
  destruct Hspec as (srv' & s' & Hnew' & _ & _ & Hinv & Hs & Hempty). rewrite Hnew in Hnew'.
  injection Hnew' as <- <-. destruct (server_run_inv srv s0 s Hrun Hs Hinv) as [Hs1 Hinv1].
  split_and!; [done | done |]. pose proof (server_run_len srv s0 s sub Hrun Hs Hinv) as Hlen.
  pose proof (nobody_pool_len s0 sub Hinv Hempty) as Hzero.
  assert (0 ≤ max_clients_of (sv_cfg srv) sub)%Z.
  { unfold max_clients_of. induction (sc_Clients (sv_cfg srv)); simpl; [done|].
    case_bool_decide; lia. }
  lia.
Qed.

(** The host whose certificate [onConnect] warms up is one the host policy lets
    autocert issue for, in every store of a running server. *)
Theorem warmed_host_allowed srv s b :
  serves srv s → root_ok (sc_RootDomain (sv_cfg srv)) →
  (∀ k, k ∈ Subdomains s → routable_key k) → b ∈ sc_Clients (sv_cfg srv) →
  HostPolicyFunc s (sc_RootDomain (sv_cfg srv))
    (FQDN (cb_Subdomain b) (sc_RootDomain (sv_cfg srv))) = None.
Proof.
  intros Hs Hroot Hkeys Hb. apply host_policy_exact; [done | by apply Forall_forall|].
  assert (cb_Subdomain b ∈ Subdomains s) as Hin.
  { destruct (sv_pools _ _ Hs b Hb) as [p Hp]. apply list_elem_of_fmap.
    exists (cb_Subdomain b, p). split; [done|]. by apply elem_of_map_to_list. }
  exists (cb_Subdomain b). split; [done|].
  pose proof (plain_host_FQDN _ _ (Hkeys _ Hin) (ro_host _ Hroot)) as Hp.
  assert (is_ascii (FQDN (cb_Subdomain b) (sc_RootDomain (sv_cfg srv))) = true
    ∧ no_upper (FQDN (cb_Subdomain b) (sc_RootDomain (sv_cfg srv))) = true) as [Ha Hu].
  { unfold FQDN. case_bool_decide; [by destruct Hroot|].
    destruct (Hkeys _ Hin) as [?|(_ & Ha & Hu & _)]; [done|].
    rewrite !is_ascii_app, !no_upper_app, Ha, Hu. by destruct Hroot as [_ -> -> _]. }
  rewrite ToLower_id by done. by apply stripPort_idem_plain.
Qed.

End ServerSpec.

(** ** Witnesses: the example server, and its client [a] connecting *)

Section ServerDemo.
  #[local] Existing Instance example_consts.
  #[local] Existing Instance ascii_tables.
  #[local] Existing Instance demo_transport.
  #[local] Existing Instance demo_transport_ok.
  #[local] Existing Instance insertion_SliceSort.

Definition demo_pollmux : PollmuxServer := {|
  HeaderLocalHealth := "X-Local-Health";
  SessionStore_Get := λ w id, if bool_decide (id ∈ w.1) then None else Some id;
  ClientSession := λ w s, (w, Ok (String.length s))
|}.

  #[local] Existing Instance demo_pollmux.

Definition demo_world : world (Transport := demo_transport) := ([], []).

Definition demo_srv : Server * store :=
  match NewServer example_server demo_world with
  | Ok x => x
  | Err _ => (mkServer example_server (mkRouteTable ∅) (NewClientRegistry []) None, demo_s0)
  end.

Lemma demo_srv_new : NewServer example_server demo_world = Ok demo_srv.
Proof. vm_compute. reflexivity. Qed.

Lemma demo_srv_ok : serves demo_srv.1 demo_srv.2 ∧ reg_inv demo_srv.2.
Proof.
  pose proof (NewServer_spec example_server demo_world) as Hn. rewrite example_server_ok in Hn.
  destruct Hn as (srv & s & Hn & _ & _ & Hi & Hs & _). rewrite demo_srv_new in Hn.
  assert (demo_srv = (srv, s)) as -> by congruence. done.
Qed.

Definition demo_sess : session (Transport := demo_transport) := "sess-a".

(** The store after client [a] has connected. *)
Definition demo_meta : gmap string string := {["client_id" := "a"]}.
Definition demo_connected : store * result conn_error unit * list string :=
  onConnect demo_srv.1 0 demo_sess demo_meta demo_srv.2.

Lemma demo_connected_run : rtc (server_step demo_srv.1) demo_srv.2 demo_connected.1.1.
Proof.
  eapply rtc_once, ss_hook, (hs_connect _ _ 0 demo_sess demo_meta _ demo_connected.1.2 demo_connected.2);
    by vm_compute.
Qed.

Lemma demo_connected_ok : serves demo_srv.1 demo_connected.1.1 ∧ reg_inv demo_connected.1.1.
Proof. eapply server_run_inv; [apply demo_connected_run | apply demo_srv_ok..]. Qed.

Definition demo_a : ClientBinding := example_binding "a" "@" "/service/" "a"%char.
Definition demo_b : ClientBinding := example_binding "b" "@" "/api/v1" "b"%char.

Definition demo_request (tok : ascii) : Request :=
  mkRequest "POST" "builderrors.com" "/tunnel/connect" "/tunnel/connect" "10.0.0.1:999" true
    {["Authorization" := ["Bearer " +:+ example_token tok]]}.

Lemma demo_a_in : demo_a ∈ sc_Clients (sv_cfg demo_srv.1).
Proof. by left. Qed.
Lemma demo_b_in : demo_b ∈ sc_Clients (sv_cfg demo_srv.1).
Proof. by right; left. Qed.

Lemma authenticateConnect_decides_witness :
  is_ok (authenticateConnect demo_srv.1 demo_srv.2 (demo_request "a"%char) (Some demo_meta)) = true.
Proof.
  rewrite (proj2 (proj1 (authenticateConnect_decides demo_srv.1 demo_srv.2 (demo_request "a"%char)
    (Some demo_meta) (proj1 demo_srv_ok)) {["subdomain" := "@"; "host_key" := "@"; "client_id" := "a"]}));
    [done|].
  exists demo_a. split_and!; [apply demo_a_in | done | by vm_compute | right; by vm_compute | done].
Defined.

Lemma authenticateSession_decides_witness :
  authenticateSession demo_srv.1 demo_srv.2 "sess-a" (demo_request "a"%char) = ServeNext.
Proof.
  apply (authenticateSession_decides demo_srv.1 demo_srv.2 "sess-a" (demo_request "a"%char)
    (proj1 demo_srv_ok)).
  assert (SessionStore_Get (s_world demo_srv.2) "sess-a" = Some demo_sess) as -> by by vm_compute.
  exists demo_a. split_and!; [apply demo_a_in | by vm_compute | by vm_compute].
Defined.

Lemma onConnect_outcome_witness : demo_connected.1.2 = Ok tt ∧ reg_inv demo_connected.1.1.
Proof.
  pose proof (onConnect_outcome demo_srv.1 demo_srv.2 0 demo_sess demo_meta demo_a demo_world 6
    (proj1 demo_srv_ok) (proj2 demo_srv_ok) ltac:(by vm_compute) ltac:(by vm_compute)
    demo_a_in ltac:(by vm_compute)) as HR.
  change (onConnect demo_srv.1 0 demo_sess demo_meta demo_srv.2) with demo_connected in HR.
  destruct demo_connected as [[s' r] warm]. destruct HR as (Hi & Hr & _).
  split; [apply Hr; right; by vm_compute | done].
Defined.

Lemma authenticated_connect_succeeds_witness :
  (onConnect demo_srv.1 0 demo_sess
    {["subdomain" := "@"; "host_key" := "@"; "client_id" := "a"]} demo_srv.2).1.2 = Ok tt.
Proof.
  apply (authenticated_connect_succeeds demo_srv.1 demo_srv.2 0 demo_sess (demo_request "a"%char)
    demo_meta _ demo_world 6 (proj1 demo_srv_ok) (proj2 demo_srv_ok)); vm_compute; reflexivity.
Defined.

Lemma prefix_siblings_conflict_witness :
  authenticateConnect demo_srv.1 demo_connected.1.1 (demo_request "b"%char)
    (Some {["client_id" := "b"]})
  = Err (StatusError 409 "subdomain has reached max_clients").
Proof.
  apply (prefix_siblings_conflict demo_srv.1 demo_connected.1.1 (demo_request "b"%char)
    {["client_id" := "b"]} demo_a demo_b 0 (proj1 demo_connected_ok) (proj2 demo_connected_ok)
    demo_a_in demo_b_in); by vm_compute.
Defined.

Lemma demo_connected_session : GetBySessionID (Session_ID demo_sess) demo_connected.1.1 = Some 0.
Proof. by vm_compute. Qed.

Lemma onDisconnect_outcome_witness :
  GetBySessionID (Session_ID demo_sess) (onDisconnect demo_sess demo_connected.1.1) = None.
Proof.
  destruct (onDisconnect_outcome demo_sess demo_connected.1.1 (proj2 demo_connected_ok)) as [_ Hd].
  pose proof demo_connected_session as Hs.
  destruct (GetBySessionID (Session_ID demo_sess) demo_connected.1.1) as [t|]; [|discriminate].
  exact (proj1 Hd).
Defined.

Definition demo_poll : Request :=
  mkRequest "POST" "builderrors.com" "/tunnel/sess-a/poll" "/tunnel/sess-a/poll" "10.0.0.1:999"
    true {["X-Local-Health" := ["down"]]}.

Lemma onPoll_health_report_witness :
  serving (onPoll demo_sess demo_poll demo_connected.1.1) 0 = false.
Proof.
  refine (proj1 (proj2 (proj2 (proj2 (onPoll_health_report demo_sess demo_poll demo_connected.1.1 0
    (proj2 demo_connected_ok) _ _ _ _)))) _); vm_compute; try done.
Defined.

Lemma server_invariant_witness : (pool_len demo_connected.1.1 "@" ≤ 1)%Z.
Proof.
  destruct (server_invariant example_server demo_world demo_srv.1 demo_srv.2 demo_connected.1.1 "@")
    as (_ & _ & Hl).
  - etrans; [apply demo_srv_new | by destruct demo_srv].
  - apply demo_connected_run.
  - exact Hl.
Defined.

Lemma warmed_host_allowed_witness :
  HostPolicyFunc demo_srv.2 "builderrors.com" "builderrors.com" = None.
Proof.
  apply (warmed_host_allowed demo_srv.1 demo_srv.2 demo_a (proj1 demo_srv_ok));
    [exact example_root_ok | | apply demo_a_in].
  assert (∀ k, k ∈ Subdomains demo_srv.2 → k = "@" ∨ k = "myapp") as Hk
    by (intros k Hk; vm_compute in Hk; repeat (apply elem_of_cons in Hk as [->|Hk]; [by auto|]);
        by apply elem_of_nil in Hk).
  intros k [->| ->]%Hk; [by left | exact example_key_ok].
Defined.

End ServerDemo.
