(* ===== verification/ServerDirectory.v ===== *)
(** The running server as a directory of sessions: every tunnel it registers has one, and
    each step of the server does to the session that serves a client what the event of the
    step says.  So the conclusions of Directory hold of every run of a server. *)

From S2P Require Import Prelude GoStrings GoPath Config ControlPath Validate Host Registry.
From S2P Require Import RegistryInv RegistryOps RegistryRun RegistrySpec Route Rewrite Auth.
From S2P Require Import Server Directory ServerSpec.

Section ServerDirectory.
  Context `{PollmuxConsts, UnicodeTables, PollmuxServer, SliceSort}.

(** ** Every tunnel of a running server has a session *)

Definition sessions_set (s : store) : Prop :=
  ∀ t, is_Some (s_tunnels s !! t) → is_Some (ct_Session (tunnel s t)).

Lemma sessions_set_same s s' : same_reg s s' → sessions_set s → sessions_set s'.
Proof.
  intros Hs Hset t Ht. apply (sr_tunnels _ _ Hs) in Ht.
  destruct (sr_fields _ _ Hs t) as (_ & _ & -> & _). by apply Hset.
Qed.

Lemma sessions_set_new c s :
  reg_inv s → is_Some (ct_Session c) → sessions_set s → sessions_set (new_tunnel c s).1.
Proof.
  intros Hinv Hc Hset t Ht. rewrite tunnel_new. case_decide as Hd; [done|].
  apply Hset. simpl in Ht. by rewrite lookup_insert_ne in Ht.
Qed.

Lemma sessions_set_register s t max :
  reg_inv s → fresh_tunnel s t → sessions_set s → sessions_set (Register t max s).1.
Proof.
  intros Hinv Hf Hset. pose proof (Register_spec s t max Hinv Hf) as HR.
  destruct (Register t max s) as [s' [[]|e]]; destruct HR as [_ HR]; intros x Hx; simpl in *.
  - destruct HR as [_ Hok]. apply (ro_tunnels _ _ _ Hok) in Hx.
    destruct (ro_fields _ _ _ Hok x) as (_ & _ & ->). by apply Hset.
  - destruct HR as (_ & _ & Hr). unfold tunnel in *. rewrite (rr_tunnels _ _ Hr) in *. by apply Hset.
Qed.

Lemma RemoveBySessionID_tunnels sid s : s_tunnels (RemoveBySessionID sid s) = s_tunnels s.
Proof. unfold RemoveBySessionID, Remove. by repeat case_match. Qed.

Lemma sessions_set_hook srv s e s' :
  serves srv s → reg_inv s → hook_step srv s e s' → sessions_set s → sessions_set s'.
Proof.
  intros Hs Hinv Hstep Hset.
  assert (∀ s', same_reg s s' → sessions_set s') as Hsame by (intros; by eapply sessions_set_same).
  destruct Hstep as [now sess meta s' r warm Hsess Heq| | | | |].
  - unfold onConnect in Heq. destruct (ClientSession (s_world s) sess) as [w [y|err]].
    2:{ simplify_eq. apply Hsame, same_reg_world. }
    assert (sessions_set (set_world w s)) as Hw by apply Hsame, same_reg_world.
    destruct (cr_Lookup _ _) as [b|]; [|by simplify_eq].
    fold (connecting (meta_get meta "client_id") (cb_Subdomain b) sess y now) in Heq.
    set (c := connecting _ _ _ _ _) in Heq.
    assert (reg_inv (set_world w s)) as Hi by (eapply reg_inv_same; [apply same_reg_world | done]).
    assert (∀ se, ct_Session c = Some se → GetBySessionID (Session_ID se) (set_world w s) = None)
      as Hfr by (intros se Hse; by injection Hse as <-).
    assert (is_Some (ct_Session c)) as Hcs by by exists sess.
    pose proof (sessions_set_register _ _ (cb_MaxClients b) (new_tunnel_inv c _ Hi)
      (new_tunnel_fresh c _ Hi eq_refl Hfr) (sessions_set_new c _ Hi Hcs Hw)) as HR.
    simpl in Heq, HR. destruct (Register _ _ _) as [s2 [[]|[]]]; simplify_eq; [done|].
    by eapply sessions_set_same; [apply same_reg_world|].
  - unfold onPoll. repeat case_match; try done. by apply Hsame, SetLocalHealth_same.
  - intros t. unfold tunnel. unfold onDisconnect. rewrite RemoveBySessionID_tunnels.
    repeat case_match; apply Hset.
  - apply Hsame, Pick_same. by eapply ri_pool.
  - apply Hsame. by eapply step_drain_same.
  - apply Hsame, same_reg_world.
Qed.

Lemma sessions_set_step srv s s' :
  serves srv s → reg_inv s → server_step srv s s' → sessions_set s → sessions_set s'.
Proof.
  intros Hs Hinv [e s1 Hh|t s1 e Ht Ho|t Ht] Hset; [by eapply sessions_set_hook| |].
  - eapply sessions_set_same; [by eapply OpenStream_same | done].
  - eapply sessions_set_same; [by apply countedConn_Close_same | done].
Qed.

Lemma sessions_set_run srv s s' :
  rtc (server_step srv) s s' → serves srv s → reg_inv s → sessions_set s → sessions_set s'.
Proof.
  induction 1 as [|s s1 s' Hstep _ IH]; [done|]. intros Hs Hinv Hset.
  destruct (server_run_inv srv s s1 (rtc_once _ _ Hstep) Hs Hinv) as [Hs1 Hinv1].
  apply IH; [done | done | by apply (sessions_set_step srv s)].
Qed.

Lemma NewServer_no_tunnels c w srv s : NewServer c w = Ok (srv, s) → sessions_set s.
Proof. intros Hn t [x Hx]. by rewrite (NewServer_tunnels c w srv s Hn), lookup_empty in Hx. Qed.

Lemma server_run_sessions c w srv s0 s :
  NewServer c w = Ok (srv, s0) → rtc (server_step srv) s0 s → reg_inv s ∧ sessions_set s.
Proof.
  intros Hn Hrun. destruct (NewServer_serves c w srv s0 Hn) as [Hs Hi].
  split; [by apply (server_run_inv srv s0 s)|]. eapply sessions_set_run; try done.
  by eapply NewServer_no_tunnels.
Qed.

(** ** The session that serves a client *)

Definition server_session (s : store) (sub id : string) : option string :=
  t ← current s sub id; Session_ID <$> ct_Session (tunnel s t).

Lemma server_session_same s s' sub id :
  same_reg s s' → server_session s' sub id = server_session s sub id.
Proof.
  intros Hs. unfold server_session. rewrite (current_same s s') by done.
  destruct (current s sub id) as [t|]; simpl; [|done].
  by destruct (sr_fields _ _ Hs t) as (_ & _ & -> & _).
Qed.

(** A client's session is the one under which its tunnel is indexed. *)
Lemma server_session_index s sub id sid :
  reg_inv s →
  server_session s sub id = Some sid ↔
  ∃ t, current s sub id = Some t ∧ GetBySessionID sid s = Some t.
Proof.
  intros Hinv. unfold server_session. split.
  - destruct (current s sub id) as [t|] eqn:Hc; simpl; [|done].
    destruct (ct_Session (tunnel s t)) as [se|] eqn:Hse; simpl; [|done]. intros [= <-].
    exists t. split; [done|]. apply current_iff in Hc as (p & Hp & Hm & _); [|done].
    by eapply (ri_back s Hinv).
  - intros (t & -> & Hg). destruct (ri_sess s Hinv sid t Hg) as (se & _ & Hse & <- & _).
    simpl. by rewrite Hse.
Qed.

(** Connecting a tunnel object that has just been made. *)
Lemma session_register c s max se sub id :
  reg_inv s → ct_Draining c = false → ct_Session c = Some se →
  GetBySessionID (Session_ID se) s = None →
  let '(s1, t) := new_tunnel c s in
  let '(s', r) := Register t max s1 in
  server_session s' sub id =
    event_effect sub id (server_session s sub id)
      (match r with Ok _ => Connected (ct_Subdomain c) (ct_ID c) (Session_ID se) | Err _ => Quiet end).
Proof.
  intros Hinv Hd Hse Hfr. pose proof (new_tunnel_inv c s Hinv) as Hinv1.
  pose proof (new_tunnel_fresh c s Hinv Hd ltac:(by intros x [= <-]%(eq_trans (eq_sym Hse)))) as Hf.
  pose proof (new_tunnel_current c s sub id Hinv) as HC.
  assert (server_session (new_tunnel c s).1 sub id = server_session s sub id) as HS.
  { unfold server_session. rewrite HC. destruct (current s sub id) as [x|] eqn:Hx; simpl; [|done].
    apply current_iff in Hx as (p & Hp & Hm & _); [|done].
    pose proof (tunnel_new_alloc c s x Hinv (member_alloc s sub p x Hinv Hp Hm)) as HT.
    simpl in HT. by rewrite HT. }
  assert (tunnel (new_tunnel c s).1 (s_nexttunnel s) = c) as HT by by rewrite tunnel_new, decide_True.
  pose proof (Register_spec _ _ max Hinv1 Hf) as HR. rewrite HT in HR. simpl in *.
  set (s1 := mkStore _ _ _ _ _ _ _) in *. destruct (Register _ _ s1) as [s' [[]|e]].
  - destruct HR as (_ & _ & Hok). rewrite <-HS. unfold server_session.
    rewrite (ro_current _ _ _ Hok), HT. simpl.
    case_decide as Hdec; case_decide as Hdec'; simpl.
    + destruct (ro_fields _ _ _ Hok (s_nexttunnel s)) as (_ & _ & ->). by rewrite HT, Hse.
    + by destruct Hdec'; destruct Hdec.
    + by destruct Hdec; destruct Hdec'.
    + destruct (current s1 sub id) as [x|]; simpl; [|done].
      by destruct (ro_fields _ _ _ Hok x) as (_ & _ & ->).
  - destruct HR as (_ & _ & _ & Hr). rewrite <-HS. unfold server_session, tunnel.
    rewrite (rr_current _ _ Hr), (rr_tunnels _ _ Hr). done.
Qed.

Lemma session_connect srv s now sess meta s' r warm sub id :
  reg_inv s → GetBySessionID (Session_ID sess) s = None →
  onConnect srv now sess meta s = (s', r, warm) →
  server_session s' sub id =
    event_effect sub id (server_session s sub id) (connect_event srv sess meta r).
Proof.
  intros Hinv Hfr Heq. unfold onConnect, connect_event in *.
  destruct (ClientSession (s_world s) sess) as [w [y|e]].
  2:{ simplify_eq. apply server_session_same, same_reg_world. }
  destruct (cr_Lookup _ _) as [b|].
  2:{ simplify_eq. apply server_session_same, same_reg_world. }
  fold (connecting (meta_get meta "client_id") (cb_Subdomain b) sess y now) in Heq.
  assert (reg_inv (set_world w s)) as Hw by (eapply reg_inv_same; [apply same_reg_world | done]).
  pose proof (session_register (connecting (meta_get meta "client_id") (cb_Subdomain b) sess y now)
    (set_world w s) (cb_MaxClients b) sess sub id Hw eq_refl eq_refl Hfr) as HR.
  rewrite (server_session_same s (set_world w s)) in HR by apply same_reg_world.
  destruct (new_tunnel _ (set_world w s)) as [s1 t].
  destruct (Register t (cb_MaxClients b) s1) as [s2 [[]|[]]]; simplify_eq/=; [done|].
  rewrite <-HR. apply server_session_same, same_reg_world.
Qed.

Lemma session_disconnect s sess sub id :
  reg_inv s →
  server_session (onDisconnect sess s) sub id =
    event_effect sub id (server_session s sub id) (Disconnected (Session_ID sess)).
Proof.
  intros Hinv. unfold onDisconnect. set (s1 := match GetBySessionID _ s with Some t => _ | None => s end).
  assert (same_reg s s1) as Hs by (subst s1; repeat case_match; apply same_reg_world || reflexivity).
  rewrite <-(server_session_same s s1) by done. clearbody s1.
  pose proof (reg_inv_same _ _ Hs Hinv) as Hinv1. clear s Hinv Hs. rename s1 into s, Hinv1 into Hinv.
  destruct (RemoveBySessionID_spec s (Session_ID sess) Hinv) as [_ HR]. set (sid := Session_ID sess) in *.
  simpl. destruct (GetBySessionID sid s) as [t|] eqn:Ht.
  - destruct (ri_sess s Hinv sid t Ht) as (se & p & Hse & Hid & Hp & Hm).
    assert (current s (ct_Subdomain (tunnel s t)) (ct_ID (tunnel s t)) = Some t) as Hc
      by (apply current_iff; eauto).
    case_decide as Hd.
    + apply server_session_index in Hd as (t' & Hc' & Hg); [|done]. assert (t' = t) as -> by congruence.
      unfold server_session. rewrite (di_current _ _ _ _ HR), decide_True; [done|].
      destruct (current_member s sub id t Hinv Hc') as (_ & -> & -> & _). done.
    + unfold server_session, tunnel. rewrite (di_current _ _ _ _ HR), (di_tunnels _ _ _ _ HR).
      fold (tunnel s). case_decide as Hdec; [|done]. destruct Hdec as [-> ->].
      destruct Hd. apply server_session_index; eauto.
  - rewrite HR. case_decide as Hd; [|done].
    apply server_session_index in Hd as (t' & _ & Hg); [|done]. congruence.
Qed.

(** ** The instance *)

Definition server_event (srv : Server) (s : store) (e : dir_event) (s' : store) : Prop :=
  hook_step srv s e s' ∨ e = Quiet ∧ server_step srv s s' ∧ same_reg s s'.

#[export] Instance server_directory (srv : Server) : Directory store := {|
  dir_ok s := serves srv s ∧ reg_inv s;
  dir_step := server_event srv;
  dir_session := server_session
|}.

Lemma connect_step srv s now sess meta s' r warm e :
  GetBySessionID (Session_ID sess) s = None → onConnect srv now sess meta s = (s', r, warm) →
  connect_event srv sess meta r = e → server_event srv s e s'.
Proof. intros Hfr Heq <-. left. by eapply hs_connect. Qed.

Lemma server_event_step srv s e s' : server_event srv s e s' → server_step srv s s'.
Proof. intros [Hh|(_ & Hs & _)]; [by eapply ss_hook | done]. Qed.

#[export] Instance server_directory_ok srv : DirectoryOk store (H := server_directory srv).
Proof.
  constructor.
  - intros s e s' [Hs Hinv] Hstep%server_event_step. simpl.
    by apply (server_run_inv srv s s'); [apply rtc_once|..].
  - intros s e s' sub id [Hs Hinv] [Hh|(-> & _ & Hsame)]; simpl; [|by apply server_session_same].
    destruct Hh as [now sess meta s1 r warm Hsess Heq|sess r|sess|n p Hp|i now t pc s1 o Hi Hr|w].
    + by eapply session_connect.
    + apply server_session_same. unfold onPoll. repeat case_match; try reflexivity.
      by apply SetLocalHealth_same.
    + by apply session_disconnect.
    + apply server_session_same, Pick_same. by eapply ri_pool.
    + apply server_session_same. by eapply step_drain_same.
    + apply server_session_same, same_reg_world.
Qed.

(** Every run of a server is a run of its directory, with some events along it. *)
Lemma server_run_events srv s s' :
  serves srv s → reg_inv s → rtc (server_step srv) s s' →
  ∃ tr, dir_run (H := server_directory srv) s tr s'.
Proof.
  intros Hs Hinv Hrun. revert Hs Hinv.
  induction Hrun as [|s s1 s' Hstep _ IH]; intros Hs Hinv; [eexists; constructor|].
  destruct (server_run_inv srv s s1 (rtc_once _ _ Hstep) Hs Hinv) as [Hs1 Hinv1].
  destruct (IH Hs1 Hinv1) as [tr Htr].
  assert (∃ e, server_event srv s e s1) as [e He]; [|by exists (e :: tr); econstructor].
  pose proof Hstep as Hstep'.
  destruct Hstep as [e s1 Hh|t s1 e Ht Ho|t Ht]; [exists e; by left|..]; exists Quiet; right;
    (split_and!; [done | done |]); [by eapply OpenStream_same | by apply countedConn_Close_same].
Qed.

Lemma NewServer_session c w srv s sub id :
  NewServer c w = Ok (srv, s) → server_session s sub id = None.
Proof.
  intros Hn. pose proof (NewServer_serves c w srv s Hn) as [_ Hinv].
  unfold server_session. destruct (current s sub id) as [t|] eqn:Hc; simpl; [|done].
  apply current_member in Hc as ([x Hx] & _); [|done].
  by rewrite (NewServer_tunnels c w srv s Hn), lookup_empty in Hx.
Qed.

(** ** Only configured clients are served *)

(** A client that an event connects is one of the bindings of its subdomain. *)
Lemma event_configured srv s sub id sid s' :
  serves srv s → server_event srv s (Connected sub id sid) s' →
  ∃ b, b ∈ sc_Clients (sv_cfg srv) ∧ cb_Subdomain b = sub ∧ cb_ClientID b = id.
Proof.
  intros Hs [Hh|[[=] _]].
  inversion Hh as [now sess meta s1 r warm Hf Heq He| | | | |]; subst.
  unfold connect_event in He. destruct r as [[]|]; [|done].
  destruct (cr_Lookup _ _) as [b|] eqn:Hb; [|done]. injection He as <- <- _.
  apply (sv_lookup srv s) in Hb as [Hb Hid]; [|done]. by exists b.
Qed.

Lemma run_configured srv s tr s' sub id sid :
  serves srv s → reg_inv s → dir_run (H := server_directory srv) s tr s' →
  Connected sub id sid ∈ tr →
  ∃ b, b ∈ sc_Clients (sv_cfg srv) ∧ cb_Subdomain b = sub ∧ cb_ClientID b = id.
Proof.
  intros Hs Hinv Hrun. revert Hs Hinv.
  induction Hrun as [|s e s1 tr s' Hstep _ IH]; intros Hs Hinv Hin; [by apply elem_of_nil in Hin|].
  apply elem_of_cons in Hin as [<-|Hin]; [exact (event_configured srv s sub id sid s1 Hs Hstep)|].
  pose proof (server_event_step srv s e s1 Hstep) as Hstep'.
  destruct (server_run_inv srv s s1 (rtc_once _ _ Hstep') Hs Hinv). by apply IH.
Qed.

(** In every state of every run a client with a tunnel is one of the bindings of its
    subdomain. *)
Lemma current_configured c w srv s0 s sub id t :
  NewServer c w = Ok (srv, s0) → rtc (server_step srv) s0 s → current s sub id = Some t →
  ∃ b, b ∈ sc_Clients (sv_cfg srv) ∧ cb_Subdomain b = sub ∧ cb_ClientID b = id.
Proof.
  intros Hn Hrun Hc. destruct (NewServer_serves c w srv s0 Hn) as [Hs Hi].
  destruct (server_run_events srv s0 s Hs Hi Hrun) as [tr Htr].
  destruct (server_run_sessions c w srv s0 s Hn Hrun) as [Hinv Hset].
  destruct (current_member s sub id t Hinv Hc) as (Halloc & _).
  destruct (Hset t Halloc) as [se Hse].
  apply (run_configured srv s0 tr s sub id (Session_ID se) Hs Hi Htr).
  pose proof (server_directory_ok srv) as Hdir.
  assert (dir_ok (Directory := server_directory srv) s0) as Hok by done.
  apply (serving_session_connected s0 tr s sub id (Session_ID se) Hok Htr).
  - by apply (NewServer_session c w srv s0).
  - simpl. unfold server_session. rewrite Hc. simpl. by rewrite Hse.
Qed.

(** C7: in every run of a server the session that serves a client is determined by the
    connects and disconnects so far: the last session that connected the client serves it
    until that session ends, whatever becomes of the sessions it replaced and of everyone
    else; then its tunnel is the client's current one and is indexed by the session. *)
Theorem sessions_follow_events c w srv s0 tr s sub id :
  NewServer c w = Ok (srv, s0) → dir_run (H := server_directory srv) s0 tr s →
  server_session s sub id = fold_left (event_effect sub id) tr None
  ∧ ∀ tr1 tr2 sid, tr = tr1 ++ Connected sub id sid :: tr2 →
      Forall (keeps_session sub id sid) tr2 →
      ∃ t, current s sub id = Some t ∧ GetBySessionID sid s = Some t.
Proof.
  intros Hn Hrun. pose proof (NewServer_session c w srv s0 sub id Hn) as H0s.
  assert (dir_ok (Directory := server_directory srv) s0) as Hok by by eapply NewServer_serves.
  pose proof (server_directory_ok srv) as Hdir. split.
  - rewrite <-H0s. by apply (run_session s0 tr s sub id Hok).
  - intros tr1 tr2 sid -> Hkeep. destruct (run_ok _ _ _ Hrun Hok) as [_ Hinv].
    apply server_session_index; [done|].
    by apply (last_connected_serves s0 tr1 tr2 s sub id sid Hok).
Qed.

End ServerDirectory.

(** ** Witness: a client connects twice, then its first session ends *)

Section DirectoryDemo.
  #[local] Existing Instance example_consts.
  #[local] Existing Instance ascii_tables.
  #[local] Existing Instance demo_transport.
  #[local] Existing Instance demo_pollmux.
  #[local] Existing Instance insertion_SliceSort.

Definition demo_sess2 : session (Transport := demo_transport) := "sess-b".
Definition demo_reconnected : store * result conn_error unit * list string :=
  onConnect demo_srv.1 0 demo_sess2 demo_meta demo_connected.1.1.
Definition demo_late : store := onDisconnect demo_sess demo_reconnected.1.1.

Lemma demo_events :
  dir_run (H := server_directory demo_srv.1) demo_srv.2
    ([Connected "@" "a" "sess-a"] ++ Connected "@" "a" "sess-b" :: [Disconnected "sess-a"]) demo_late.
Proof.
  apply (run_cons _ _ demo_connected.1.1).
  { apply (connect_step _ _ 0 demo_sess demo_meta _ (Ok tt) demo_connected.2); by vm_compute. }
  apply (run_cons _ _ demo_reconnected.1.1).
  { apply (connect_step _ _ 0 demo_sess2 demo_meta _ (Ok tt) demo_reconnected.2); by vm_compute. }
  apply (run_cons _ _ demo_late); [|constructor]. left. apply (hs_disconnect _ _ demo_sess).
Qed.

Lemma sessions_follow_events_witness :
  ∃ t, current demo_late "@" "a" = Some t ∧ GetBySessionID "sess-b" demo_late = Some t.
Proof.
  destruct (sessions_follow_events example_server demo_world demo_srv.1 demo_srv.2 _ demo_late
    "@" "a" ltac:(etrans; [apply demo_srv_new | by destruct demo_srv]) demo_events) as [_ Hw].
  apply (Hw _ _ _ eq_refl). by repeat constructor.
Defined.

End DirectoryDemo.
