(* ===== verification/Fields.v ===== *)
(** Which fields of a tunnel the server's steps leave alone.  The only assignments to a
    tunnel object are those of its health, its [Draining] and [Closed] flags and its stream
    counter, so every other field is what it was when the object was made; the counter is
    changed by opening and closing streams only. *)

From S2P Require Import Prelude GoStrings GoPath Config ControlPath Validate Host Registry.
From S2P Require Import RegistryInv RegistryOps RegistryRun RegistrySpec Route Rewrite Auth.
From S2P Require Import Server Directory ServerSpec.

Section Fields.
  Context `{PollmuxConsts, UnicodeTables, PollmuxServer, SliceSort}.

(** A part of a tunnel object that draining and closing leave alone, and one that health
    reports leave alone too. *)
Class Steady {A} (f : ClientTunnel → A) : Prop := {
  f_draining b c : f (store_Draining b c) = f c;
  f_closed b c : f (store_Closed b c) = f c
}.

Class Unflagged {A} (f : ClientTunnel → A) : Prop := {
  unflagged_steady :: Steady f;
  f_health b c : f (store_LocalHealthy b c) = f c
}.

#[export] Instance steady_health : Steady ct_LocalHealthy.
Proof. done. Qed.
#[export] Instance unflagged_streams : Unflagged ct_ActiveStreams.
Proof. by repeat split. Qed.
#[export] Instance unflagged_yamux : Unflagged ct_Yamux.
Proof. by repeat split. Qed.

Section OneField.
  Context {A} (f : ClientTunnel → A) `{!Steady f} (P : tref → Prop).

(** [f] of the objects in [P] is unchanged. *)
Definition same_field (s s' : store) : Prop := ∀ t, P t → f (tunnel s' t) = f (tunnel s t).

#[export] Instance same_field_refl : Reflexive same_field.
Proof. intros s t _. done. Qed.

#[export] Instance same_field_trans : Transitive same_field.
Proof. intros s1 s2 s3 H12 H23 t Ht. by rewrite (H23 t), (H12 t). Qed.

Lemma field_tunnels s s' : s_tunnels s' = s_tunnels s → same_field s s'.
Proof. intros Ht t _. unfold tunnel. by rewrite Ht. Qed.

Lemma field_insert t c s s' :
  s_tunnels s' = <[t := c]> (s_tunnels s) → (P t → f c = f (tunnel s t)) → same_field s s'.
Proof.
  intros Ht Hc x Hx. unfold tunnel at 1. rewrite Ht, lookup_insert.
  case_decide; [subst; by apply Hc | done].
Qed.

Lemma field_upd t g s : (P t → ∀ c, f (g c) = f c) → same_field s (upd_tunnel t g s).
Proof. intros Hf. eapply field_insert; [done|]. intros Hp. by apply Hf. Qed.

Lemma field_new c s :
  reg_inv s → (P (s_nexttunnel s) → f c = f zero_tunnel) → same_field s (new_tunnel c s).1.
Proof.
  intros Hinv Hc t Hp. rewrite tunnel_new. case_decide; [|done]. subst t.
  unfold tunnel. rewrite (ri_tunnels s Hinv); [by apply Hc | done].
Qed.

Lemma field_Register t max s :
  (P t → ∀ b c, f (store_LocalHealthy b c) = f c) → same_field s (Register t max s).1.
Proof.
  intros Hh. unfold Register, EnsurePool, new_pool.
  set (e := match byName (s_reg s) !! _ with Some p => _ | None => _ end).
  assert (s_tunnels e.1 = s_tunnels s) as He by (subst e; by destruct (byName _ !! _)).
  destruct e as [s1 p]. simpl in He. set (s2 := drop_old_session p _ s1).
  assert (same_field s s2) as HD.
  { apply field_tunnels. rewrite <-He. subst s2. unfold drop_old_session.
    by repeat case_match. }
  assert (same_field s2 (Add p t max (supersedeDrainTimeout (s_reg s2)) s2).1) as HA.
  { unfold Add, beginSupersedeDrain.
    destruct (find_id _ _ _) as [[i old]|]; [|by case_match; apply field_tunnels].
    apply (field_insert old (store_Draining true (tunnel s2 old))); [done | intros _; apply f_draining]. }
  destruct (Add _ _ _ _ s2) as [s3 [[]|]]; simpl in *; [|by transitivity s2].
  transitivity s2; [done|]. transitivity s3; [done|].
  transitivity (upd_tunnel t (store_LocalHealthy true) s3); [apply field_upd; auto|].
  case_match; [by apply field_tunnels | reflexivity].
Qed.

Lemma field_Close t s : same_field s (Close s t).1.
Proof.
  unfold Close. transitivity (upd_tunnel t (store_Closed true) s); [apply field_upd; intros _; apply f_closed|].
  set (s1 := upd_tunnel _ _ _). clearbody s1.
  destruct (ct_Yamux (tunnel s1 t)) as [y|]; [destruct (Yamux_Close _ y)|]; simpl;
    case_match; by apply field_tunnels.
Qed.

Lemma field_drain_run now t pc s : same_field s (drain_run now t pc s).1.
Proof.
  assert (∀ d, same_field s (drain_check now t d s).1) as Hc.
  { intros d. unfold drain_check. repeat case_match; simpl; try reflexivity; apply field_Close. }
  destruct pc; simpl; [apply Hc|]. case_match; [reflexivity | apply Hc].
Qed.

Lemma field_remove sid s : same_field s (RemoveBySessionID sid s).
Proof. apply field_tunnels. unfold RemoveBySessionID, Remove. by repeat case_match. Qed.

Lemma field_disconnect sess s : same_field s (onDisconnect sess s).
Proof.
  unfold onDisconnect. repeat case_match; try apply field_remove.
  etrans; [|apply field_remove]. by apply field_tunnels.
Qed.

(** Connecting: [f] is unchanged, except of the object that [onConnect] makes. *)
Lemma field_connect srv s now sess meta s' r warm :
  reg_inv s →
  (∀ id sub se y now, P (s_nexttunnel s) → f (connecting id sub se y now) = f zero_tunnel) →
  (P (s_nexttunnel s) → ∀ b c, f (store_LocalHealthy b c) = f c) →
  onConnect srv now sess meta s = (s', r, warm) → same_field s s'.
Proof.
  intros Hinv Hnew Hh Heq.
  unfold onConnect in Heq. destruct (ClientSession (s_world s) sess) as [w [y|err]].
  2:{ simplify_eq. by apply field_tunnels. }
  destruct (cr_Lookup _ _) as [b|]; [|simplify_eq; by apply field_tunnels].
  assert (reg_inv (set_world w s)) as Hw by (eapply reg_inv_same; [apply same_reg_world | done]).
  fold (connecting (meta_get meta "client_id") (cb_Subdomain b) sess y now) in Heq.
  set (c := connecting _ _ _ _ _) in Heq.
  pose proof (field_new c (set_world w s) Hw (Hnew _ _ _ _ _)) as Hn.
  assert ((new_tunnel c (set_world w s)).2 = s_nexttunnel s) as Ht by done.
  destruct (new_tunnel c (set_world w s)) as [s2 t]. simpl in Hn, Ht. subst t.
  pose proof (field_Register (s_nexttunnel s) (cb_MaxClients b) s2 Hh) as HR.
  destruct (Register _ (cb_MaxClients b) s2) as [s3 [[]|[]]]; simplify_eq/=;
    (transitivity (set_world w s); [by apply field_tunnels|]);
    (transitivity s2; [done|]); [done|].
  transitivity s3; [done | by apply field_tunnels].
Qed.

(** The object that connecting makes, of a client that is configured: [f] of it is what it was
    made with. *)
Lemma field_connect_new srv s now sess meta s' r warm w y b :
  P (s_nexttunnel s) → (∀ b c, f (store_LocalHealthy b c) = f c) →
  ClientSession (s_world s) sess = (w, Ok y) →
  cr_Lookup (sv_clientRegistry srv) (meta_get meta "client_id") = Some b →
  onConnect srv now sess meta s = (s', r, warm) →
  f (tunnel s' (s_nexttunnel s)) =
    f (connecting (meta_get meta "client_id") (cb_Subdomain b) sess y now).
Proof.
  intros Hp Hh Hy Hb Heq. unfold onConnect in Heq. rewrite Hy, Hb in Heq.
  fold (connecting (meta_get meta "client_id") (cb_Subdomain b) sess y now) in Heq.
  set (c := connecting _ _ _ _ _) in *.
  pose proof (tunnel_new c (set_world w s) (s_nexttunnel s)) as HT.
  rewrite decide_True in HT by done.
  assert ((new_tunnel c (set_world w s)).2 = s_nexttunnel s) as Ht by done.
  destruct (new_tunnel c (set_world w s)) as [s2 t]. simpl in HT, Ht. subst t.
  pose proof (field_Register (s_nexttunnel s) (cb_MaxClients b) s2 (λ _, Hh) _ Hp) as HR.
  destruct (Register _ (cb_MaxClients b) s2) as [s3 [[]|[]]]; simplify_eq/=; by rewrite <-HT.
Qed.

(** One look of a drain goroutine. *)
Lemma field_drain i now t pc s s1 o :
  drain_run now t pc s = (s1, o) → same_field s (put_drain i ((λ pc', (t, pc')) <$> o) s1).
Proof.
  intros Hrun. pose proof (field_drain_run now t pc s) as Hd. rewrite Hrun in Hd.
  transitivity s1; [done | by apply field_tunnels].
Qed.

End OneField.

(** Connecting, polling, disconnecting, picking and draining together. *)
Lemma field_hook {A} (f : ClientTunnel → A) `{!Unflagged f} (P : tref → Prop) srv s e s' :
  reg_inv s → (∀ id sub se y now, P (s_nexttunnel s) → f (connecting id sub se y now) = f zero_tunnel) →
  hook_step srv s e s' → same_field f P s s'.
Proof.
  intros Hinv Hnew [now sess meta s1 r warm _ Heq|sess r|sess|n p _|i now t pc s1 o _ Hrun|w].
  - by apply (field_connect f P srv s now sess meta s1 r warm Hinv Hnew (λ _, f_health)).
  - unfold onPoll, SetLocalHealth. repeat case_match; try reflexivity.
    apply field_upd. intros _. apply f_health.
  - apply field_disconnect; apply _.
  - by apply field_tunnels.
  - by eapply field_drain; [apply _|].
  - by apply field_tunnels.
Qed.

(** Whose tunnel an object is, and over which multiplexer. *)
Definition identity (c : ClientTunnel) : string * option yamux := (ct_ID c, ct_Yamux c).

#[export] Instance unflagged_identity : Unflagged identity.
Proof. by repeat split. Qed.

(** Nothing but connecting gives a tunnel an identity. *)
Lemma identity_step srv s s' t :
  reg_inv s → server_step srv s s' → t ≠ s_nexttunnel s →
  identity (tunnel s' t) = identity (tunnel s t).
Proof.
  intros Hinv Hstep Ht. destruct Hstep as [e s' Hh|u s' e _ Ho|u _].
  - by apply (field_hook identity (λ x, x ≠ s_nexttunnel s) srv s e s' Hinv).
  - unfold OpenStream in Ho. destruct (ct_Yamux (tunnel s u)); [|done].
    destruct (Yamux_Open _ _) as [w [err|]]; simplify_eq; [done|].
    unfold upd_tunnel. rewrite tunnel_set_tunnel. by case_decide; subst.
  - unfold countedConn_Close, upd_tunnel. rewrite tunnel_set_tunnel. by case_decide; subst.
Qed.

(** ** The multiplexer of a tunnel is the one it was made with *)

Lemma yamux_step srv s s' t y :
  reg_inv s → server_step srv s s' → ct_Yamux (tunnel s t) = Some y →
  ct_Yamux (tunnel s' t) = Some y.
Proof.
  intros Hinv Hstep Hy. destruct Hstep as [e s' Hh|u s' e _ Ho|u _].
  - rewrite (field_hook ct_Yamux (eq t) srv s e s' Hinv); [done | | done | done].
    intros id sub se z now ->. unfold tunnel in Hy. by rewrite (ri_tunnels s Hinv) in Hy.
  - unfold OpenStream in Ho. destruct (ct_Yamux (tunnel s u)); [|done].
    destruct (Yamux_Open _ _) as [w [err|]]; simplify_eq; [done|].
    unfold upd_tunnel. rewrite tunnel_set_tunnel. by case_decide; subst.
  - unfold countedConn_Close, upd_tunnel. rewrite tunnel_set_tunnel. by case_decide; subst.
Qed.

Lemma yamux_run srv s s' t y :
  rtc (server_step srv) s s' → serves srv s → reg_inv s → ct_Yamux (tunnel s t) = Some y →
  ct_Yamux (tunnel s' t) = Some y.
Proof.
  induction 1 as [|s s1 s' Hstep _ IH]; [done|]. intros Hs Hinv Hy.
  destruct (server_run_inv srv s s1 (rtc_once _ _ Hstep) Hs Hinv).
  apply IH; [done | done | by apply (yamux_step srv s)].
Qed.

(** A tunnel that can serve has a multiplexer. *)
Lemma serving_yamux s t : serving s t = true → ∃ y, ct_Yamux (tunnel s t) = Some y.
Proof.
  unfold serving, Alive. destruct (ct_Yamux (tunnel s t)) as [y|]; [by exists y | done].
Qed.

End Fields.
