(* ===== verification/HopHeaders.v ===== *)
(** The headers that [httputil.ReverseProxy] does not pass on (net/http/httputil of the Go
    standard library, which internal/server/proxy.go sends every public request through). *)

From S2P Require Import Prelude GoStrings GoPath Config ControlPath Registry RegistrySpec.
From S2P Require Import Route Rewrite.

(** ** Strings of header fields *)

Fixpoint ltrim (p : ascii → bool) (s : string) : string :=
  match s with
  | EmptyString => EmptyString
  | String c s' => if p c then ltrim p s' else s
  end.

Fixpoint rtrim (p : ascii → bool) (s : string) : string :=
  match s with
  | EmptyString => EmptyString
  | String c s' =>
      match rtrim p s' with
      | EmptyString => if p c then EmptyString else String c EmptyString
      | t => String c t
      end
  end.

Definition trim (p : ascii → bool) (s : string) : string := rtrim p (ltrim p s).

(** Space, tab and line ends for [textproto.TrimString]; space and tab for [trimOWS]. *)
Definition is_ascii_space (c : ascii) : bool :=
  bool_decide (byte_val c ∈ [32; 9; 10; 13]).
Definition is_ows (c : ascii) : bool := bool_decide (byte_val c ∈ [32; 9]).

Definition between (lo n hi : nat) : bool := (lo <=? n) && (n <=? hi).

(** Letters, digits and the other bytes a header field name may have. *)
Definition is_token_byte (c : ascii) : bool :=
  let n := byte_val c in
  between 48 n 57 || between 65 n 90 || between 97 n 122
  || bool_decide (n ∈ [33; 35; 36; 37; 38; 39; 42; 43; 45; 46; 94; 95; 96; 124; 126]).

Definition upper_byte (c : ascii) : ascii :=
  if between 97 (byte_val c) 122 then ascii_of_nat (byte_val c - 32) else c.

Fixpoint canonical_bytes (upper : bool) (s : string) : string :=
  match s with
  | EmptyString => EmptyString
  | String c s' =>
      String (if upper then upper_byte c else lower_byte c)
        (canonical_bytes (Ascii.eqb c "-"%char) s')
  end.

(** [textproto.CanonicalMIMEHeaderKey]. *)
Definition CanonicalMIMEHeaderKey (s : string) : string :=
  if str_forall is_token_byte s then canonical_bytes true s else s.

(** [httpguts.HeaderValuesContainsToken]. *)
Definition HeaderValuesContainsToken (values : list string) (token : string) : bool :=
  existsb (λ v, existsb (λ sf, EqualFold_ascii (trim is_ows sf) token) (Split ","%char v)) values.

(** ** [removeHopByHopHeaders] *)

Definition hopHeaders : list string :=
  ["Connection"; "Proxy-Connection"; "Keep-Alive"; "Proxy-Authenticate"; "Proxy-Authorization";
   "Te"; "Trailer"; "Transfer-Encoding"; "Upgrade"].

(** The keys a [Connection] header nominates. *)
Definition nominated (h : Header) : list string :=
  f ← Header_Values h "Connection";
  CanonicalMIMEHeaderKey <$>
    filter (λ sf, sf ≠ "") (trim is_ascii_space <$> Split ","%char f).

Definition del_all (keys : list string) (h : Header) : Header :=
  fold_left (λ h k, Header_Del k h) keys h.

Definition removeHopByHopHeaders (h : Header) : Header :=
  del_all hopHeaders (del_all (nominated h) h).

(** ** Protocol upgrades *)

Definition upgradeType (h : Header) : string :=
  if HeaderValuesContainsToken (Header_Values h "Connection") "Upgrade"
  then Header_Get h "Upgrade" else "".

(** [ascii.IsPrint]. *)
Definition IsPrint (s : string) : bool := str_forall (λ c, between 32 (byte_val c) 126) s.

(** What [ServeHTTP] makes of a request's header before the [Rewrite] hook; [None] if the
    client asks for an upgrade to an unprintable protocol. *)
Definition hop_request (h : Header) : option Header :=
  let reqUpType := upgradeType h in
  if IsPrint reqUpType then
    let out := removeHopByHopHeaders h in
    let out := if HeaderValuesContainsToken (Header_Values h "Te") "trailers"
               then Header_Set "Te" "trailers" out else out in
    Some (if bool_decide (reqUpType = "") then out
          else Header_Set "Upgrade" reqUpType (Header_Set "Connection" "Upgrade" out))
  else None.

(** ** Lemmas *)

Lemma del_all_lookup keys (h : Header) k :
  del_all keys h !! k = if bool_decide (k ∈ keys) then None else h !! k.
Proof.
  unfold del_all. revert h. induction keys as [|x keys IH]; intros h; simpl; [done|].
  rewrite IH. unfold Header_Del. repeat case_bool_decide; try set_solver.
  - destruct (decide (x = k)) as [->|]; [by rewrite lookup_delete_eq | set_solver].
  - by rewrite lookup_delete_ne by set_solver.
Qed.

Lemma hop_lookup h k :
  removeHopByHopHeaders h !! k =
    if bool_decide (k ∈ hopHeaders ∨ k ∈ nominated h) then None else h !! k.
Proof.
  unfold removeHopByHopHeaders. rewrite !del_all_lookup.
  repeat case_bool_decide; naive_solver.
Qed.

(** A request without an upgrade reaches the [Rewrite] hook with the end-to-end headers
    alone, save [Te: trailers]. *)
Lemma hop_request_plain h out k :
  hop_request h = Some out → upgradeType h = "" → k ≠ "Te" →
  out !! k = if bool_decide (k ∈ hopHeaders ∨ k ∈ nominated h) then None else h !! k.
Proof.
  unfold hop_request. intros Ho Hu Hk. rewrite Hu in Ho. simpl in Ho. injection Ho as <-.
  rewrite <-hop_lookup. unfold Header_Set. case_match; [|done]. by rewrite lookup_insert_ne.
Qed.

Example hop_example :
  removeHopByHopHeaders {["Connection" := ["close, x-secret"]; "X-Secret" := ["1"]; "Accept" := ["*/*"]]}
  = {["Accept" := ["*/*"]]}.
Proof. vm_compute. reflexivity. Qed.

Example upgrade_example :
  hop_request {["Connection" := ["keep-alive, upgrade"]; "Upgrade" := ["websocket"]]}
  = Some {["Connection" := ["Upgrade"]; "Upgrade" := ["websocket"]]}.
Proof. vm_compute. reflexivity. Qed.
