(* ===== verification/Proxy.v ===== *)
(** internal/server/proxy.go and errors.go: what happens to a public request. *)

From stdpp Require Import sorting.
From S2P Require Import Prelude GoStrings GoPath Json Config ControlPath Validate Host Registry.
From S2P Require Import RegistryInv RegistryOps RegistryRun RegistrySpec Route Rewrite Auth.
From S2P Require Import Server ServerSpec.

(** ** errors.go *)

Record HTTPResponse := mkResponse {
  rs_Status : Z;
  rs_Header : gmap string (list string);
  rs_Body : string
}.

Definition errorBody (msg : string) : json := JObject [("error", JString msg)].

Definition writeJSONError (status : Z) (msg : string) : HTTPResponse :=
  mkResponse status {["Content-Type" := ["application/json"]]} (json_encode (errorBody msg)).

(** [None] is a value that does not marshal: [Encode] then writes nothing, and its error is
    dropped. *)
Definition writeJSON (status : Z) (v : option json) : HTTPResponse :=
  mkResponse status {["Content-Type" := ["application/json"]]} (default "" (json_encode <$> v)).

Definition writeHTTPError (status : Z) (msg : string) : HTTPResponse := writeJSONError status msg.

Definition StatusServiceUnavailable : Z := 503.
Definition StatusBadGateway : Z := 502.
Definition StatusGatewayTimeout : Z := 504.

(** ** proxy.go *)

Record proxyCtx := mkProxyCtx { pc_tunnel : tref; pc_strip : string }.

Inductive proxy_error := DeadlineExceeded | errNoTunnel | OtherProxyError (msg : string).

(** The request the reverse proxy sends through the tunnel. *)
Record OutRequest := mkOutRequest {
  or_Scheme : string;
  or_URLHost : string;
  or_Path : string;
  or_Host : string;
  or_Header : gmap string (list string)
}.

(** Whether a request is for the control endpoints or for the public proxy. *)
Inductive root_verdict := ToControl | ToPublic.

Section Proxy.
  Context `{PollmuxConsts, UnicodeTables, PollmuxServer, SliceSort, NetURL}.

Definition stripPort (host : string) : string :=
  match SplitHostPort host with None => host | Some (h, _) => h end.

(** Either an error response, or the context with which the proxy serves the request. *)
Definition servePublic (srv : Server) (r : Request) (s : store)
    : store * (HTTPResponse + proxyCtx) :=
  match HostKey (rq_Host r) (sc_RootDomain (sv_cfg srv)) with
  | Err _ => (s, inl (writeHTTPError StatusBadRequest "invalid host"))
  | Ok hostKey =>
      match Match (sv_routeTable srv) hostKey (rq_Path r) with
      | Err _ => (s, inl (writeHTTPError StatusNotFound "no route for host/path"))
      | Ok route =>
          match Pick (rt_Pool route) s with
          | (s, None) => (s, inl (writeHTTPError StatusServiceUnavailable "no available backend"))
          | (s, Some tun) =>
              if negb (ct_LocalHealthy (tunnel s tun)) then
                (s, inl (writeHTTPError StatusServiceUnavailable "backend local service unhealthy"))
              else if Z.leb (tn_MaxStreamsPerTunnel (sc_Tunnel (sv_cfg srv)))
                            (ct_ActiveStreams (tunnel s tun)) then
                (s, inl (writeHTTPError StatusServiceUnavailable "tunnel stream limit reached"))
              else
                let strip := if rt_Strip route && bool_decide (rt_PathPrefix route ≠ "")
                             then rt_PathPrefix route else "" in
                (s, inr (mkProxyCtx tun strip))
          end
      end
  end.

(** What [ReverseProxy] does to the outgoing header [h] (a copy of the incoming one without
    the hop-by-hop headers) before it calls the [Rewrite] hook. *)
Definition drop_forwarded (h : gmap string (list string)) : gmap string (list string) :=
  Header_Del "X-Forwarded-Proto" (Header_Del "X-Forwarded-Host" (Header_Del "X-Forwarded-For"
    (Header_Del "Forwarded" h))).

(** [ProxyRequest.SetXForwarded]. *)
Definition SetXForwarded (r : Request) (out : gmap string (list string))
    : gmap string (list string) :=
  let out := match SplitHostPort (rq_RemoteAddr r) with
             | None => Header_Del "X-Forwarded-For" out
             | Some (clientIP, _) =>
                 let prior := Header_Values out "X-Forwarded-For" in
                 let clientIP := if bool_decide (prior = []) then clientIP
                                 else Join prior ", " +:+ (", " +:+ clientIP) in
                 Header_Set "X-Forwarded-For" clientIP out
             end in
  let out := Header_Set "X-Forwarded-Host" (rq_Host r) out in
  Header_Set "X-Forwarded-Proto" (if rq_TLS r then "https" else "http") out.

(** The [Rewrite] hook of [newProxy]; [ctx] is the value of [ctxKey] in the context, and
    [out] the header of [pr.Out] so far. *)
Definition proxy_Rewrite (ctx : option proxyCtx) (r : Request) (out : gmap string (list string))
    : OutRequest :=
  let path := match ctx with
              | Some pctx =>
                  if bool_decide (pc_strip pctx ≠ "") then
                    match StripPathPrefix (rq_Path r) (pc_strip pctx) with
                    | (stripped, true) => stripped
                    | (_, false) => rq_Path r
                    end
                  else rq_Path r
              | None => rq_Path r
              end in
  mkOutRequest "http" "tunnel" path (rq_Host r) (SetXForwarded r out).

(** The [DialContext] of the transport; the outer [None] is a nil dereference. *)
Definition DialContext (ctx : option proxyCtx) (s : store)
    : option (store * option proxy_error) :=
  match ctx with
  | None => Some (s, Some errNoTunnel)
  | Some pctx =>
      match OpenStream (pc_tunnel pctx) s with
      | None => None
      | Some (s, e) => Some (s, OtherProxyError <$> e)
      end
  end.

Definition modifyProxyResponse (ctx : option proxyCtx) (h : gmap string (list string))
    : gmap string (list string) :=
  match ctx with
  | None => h
  | Some pctx =>
      if bool_decide (pc_strip pctx = "") then h else rewritePublicPrefixHeaders (pc_strip pctx) h
  end.

Definition proxyErrorHandler (err : proxy_error) : HTTPResponse :=
  match err with
  | DeadlineExceeded => writeHTTPError StatusGatewayTimeout "backend timeout"
  | errNoTunnel => writeHTTPError StatusServiceUnavailable "tunnel gone"
  | OtherProxyError _ => writeHTTPError StatusBadGateway "backend error"
  end.

Definition isControlPath (c : ServerConfig) (p : string) : bool :=
  let prefix := NormalizeControlPath (sc_ControlPath c) in
  bool_decide (p = prefix) || HasPrefix p (prefix +:+ "/").

Definition rootHandler (srv : Server) (r : Request) : root_verdict :=
  if isControlPath (sv_cfg srv) (rq_Path r) then ToControl else ToPublic.

(** [httpServer]: address, read-header timeout and header limit of the listener. *)
Definition httpServer (c : ServerConfig) : string * Z * Z :=
  (publicListenAddr c, px_ReadHeaderTimeout (sc_Proxy c), px_MaxHeaderBytes (sc_Proxy c)).

(** ** Lemmas *)

Lemma server_rooted srv s : serves srv s → bindings_rooted (sc_Clients (sv_cfg srv)).
Proof.
  intros Hs b Hb. pose proof (sv_bindings _ (sv_valid _ _ Hs)) as Hf. rewrite Forall_forall in Hf.
  apply (bv_prefix b (Hf b Hb)).
Qed.

(** [Match] in the table of a running server. *)
Lemma server_Match srv s h pathStr :
  serves srv s → is_rooted pathStr = true →
  match Match (sv_routeTable srv) h pathStr with
  | Ok r =>
      ∃ b p, b ∈ sc_Clients (sv_cfg srv) ∧ cb_Subdomain b = h ∧ Pool h s = Some p
        ∧ r = binding_route b p
        ∧ path_covers (NormalizePathPrefix (cb_PathPrefix b)) pathStr
        ∧ ∀ b', b' ∈ sc_Clients (sv_cfg srv) → cb_Subdomain b' = h →
            path_covers (NormalizePathPrefix (cb_PathPrefix b')) pathStr →
            String.length (NormalizePathPrefix (cb_PathPrefix b'))
              ≤ String.length (NormalizePathPrefix (cb_PathPrefix b))
  | Err ErrNoRoute =>
      ∀ b, b ∈ sc_Clients (sv_cfg srv) → cb_Subdomain b = h →
        ¬ path_covers (NormalizePathPrefix (cb_PathPrefix b)) pathStr
  end.
Proof.
  intros Hs Hroot. eapply Match_in_table; [by eapply server_rooted | done | | |].
  - apply (sv_pools _ _ Hs).
  - apply (sv_sorted _ _ Hs).
  - apply (sv_route_in _ _ Hs).
Qed.

Lemma Pick_member p s t :
  (Pick p s).2 = Some t → t ∈ Members p s ∧ serving s t = true.
Proof.
  simpl. unfold Balancer_Pick. destruct (default firstAvailable (tp_bal (pool s p))).
  intros (i & Hi & Ht & _)%first_available_spec. split; [by eapply list_elem_of_lookup_2 | done].
Qed.

Lemma Pick_none p s : (Pick p s).2 = None ↔ ∀ t, t ∈ Members p s → serving s t = false.
Proof.
  simpl. unfold Balancer_Pick. destruct (default firstAvailable (tp_bal (pool s p))).
  apply first_available_None.
Qed.

(** The pool a request is given depends on its host alone. *)
Definition host_pick (srv : Server) (s : store) (h : string) : option tref :=
  p ← Pool h s; (Pick p s).2.

(** [servePublic], with the route and the tunnel it finds named. *)
Lemma servePublic_cases srv r s :
  serves srv s → is_rooted (rq_Path r) = true →
  match HostKey (rq_Host r) (sc_RootDomain (sv_cfg srv)) with
  | Err _ => servePublic srv r s = (s, inl (writeHTTPError StatusBadRequest "invalid host"))
  | Ok h =>
      (servePublic srv r s = (s, inl (writeHTTPError StatusNotFound "no route for host/path"))
       ∧ ∀ b, b ∈ sc_Clients (sv_cfg srv) → cb_Subdomain b = h →
           ¬ path_covers (NormalizePathPrefix (cb_PathPrefix b)) (rq_Path r))
      ∨ ∃ b p, b ∈ sc_Clients (sv_cfg srv) ∧ cb_Subdomain b = h ∧ Pool h s = Some p
          ∧ path_covers (NormalizePathPrefix (cb_PathPrefix b)) (rq_Path r)
          ∧ (∀ b', b' ∈ sc_Clients (sv_cfg srv) → cb_Subdomain b' = h →
               path_covers (NormalizePathPrefix (cb_PathPrefix b')) (rq_Path r) →
               String.length (NormalizePathPrefix (cb_PathPrefix b'))
                 ≤ String.length (NormalizePathPrefix (cb_PathPrefix b)))
          ∧ servePublic srv r s = ((Pick p s).1,
              match (Pick p s).2 with
              | None => inl (writeHTTPError StatusServiceUnavailable "no available backend")
              | Some t =>
                  if Z.leb (tn_MaxStreamsPerTunnel (sc_Tunnel (sv_cfg srv)))
                           (ct_ActiveStreams (tunnel s t))
                  then inl (writeHTTPError StatusServiceUnavailable "tunnel stream limit reached")
                  else inr (mkProxyCtx t
                    (if cb_StripPrefix b then NormalizePathPrefix (cb_PathPrefix b) else ""))
              end)
  end.
Proof.
  intros Hs Hroot. unfold servePublic.
  destruct (HostKey _ _) as [h|]; [|done].
  pose proof (server_Match srv s h (rq_Path r) Hs Hroot) as Hm.
  destruct (Match _ _ _) as [route|[]]; [right | by left].
  destruct Hm as (b & p & Hb & Hh & Hp & -> & Hc & Hmax). exists b, p. split_and!; try done.
  simpl rt_Pool. destruct (Pick p s) as [s' [t|]] eqn:E; [|done].
  assert ((Pick p s).2 = Some t) as Ht by by rewrite E.
  assert (tunnel s' t = tunnel s t) as HT by (injection E as <- _; done).
  apply Pick_member in Ht as [_ Ht]. unfold serving in Ht. rewrite !andb_true_iff in Ht.
  destruct Ht as [[_ Hl] _]. rewrite HT, Hl. simpl.
  destruct (Z.leb _ _); [done|]. do 3 f_equal. simpl.
  destruct (cb_StripPrefix b); [|done]. simpl. by case_bool_decide as Hn; [|rewrite Hn].
Qed.

(** Asking twice gives the same answer: [servePublic] only touches a pool's balancer. *)
Lemma first_available_ext s s' l :
  s_tunnels s' = s_tunnels s → s_world s' = s_world s →
  first_available s' l = first_available s l.
Proof.
  intros Ht Hw. induction l as [|t l IH]; simpl; [done|].
  unfold Alive, tunnel. by rewrite Ht, Hw, IH.
Qed.

Lemma servePublic_again srv r s s1 ctx :
  servePublic srv r s = (s1, inr ctx) →
  ∃ s2, servePublic srv r s1 = (s2, inr ctx) ∧ ∀ t, tunnel s2 t = tunnel s t.
Proof.
  unfold servePublic. destruct (HostKey _ _) as [h|]; [|done].
  destruct (Match _ _ _) as [route|]; [|done].
  destruct (Pick (rt_Pool route) s) as [s' [t|]] eqn:E; [|done].
  assert (s' = (Pick (rt_Pool route) s).1) as Hs' by by rewrite E.
  assert ((Pick (rt_Pool route) s').2 = Some t) as Hp.
  { assert ((Pick (rt_Pool route) s).2 = Some t) as Ht by by rewrite E. rewrite <-Ht, Hs'. simpl.
    rewrite pool_set_pool, decide_True by done. simpl.
    unfold Balancer_Pick. destruct (default firstAvailable (tp_bal _)).
    by apply first_available_ext. }
  assert (∀ x, tunnel s' x = tunnel s x) as HT by by rewrite Hs'.
  destruct (negb _) eqn:Hl; [done|]. destruct (Z.leb _ _) eqn:Hm; [done|]. intros [= <- <-].
  destruct (Pick (rt_Pool route) s') as [s2 o] eqn:E2. simpl in Hp. subst o.
  assert (∀ x, tunnel s2 x = tunnel s x) as HT2.
  { intros x. rewrite <-HT. replace s2 with (Pick (rt_Pool route) s').1 by by rewrite E2. done. }
  exists s2. rewrite HT2. rewrite HT in Hl, Hm. by rewrite Hl, Hm.
Qed.

Lemma OpenStream_active t s s' :
  OpenStream t s = Some (s', None) →
  ct_ActiveStreams (tunnel s' t) = wrap64 (ct_ActiveStreams (tunnel s t) + 1).
Proof.
  unfold OpenStream. destruct (ct_Yamux (tunnel s t)) as [y|]; [|done].
  destruct (Yamux_Open (s_world s) y) as [w [err|]]; [done|]. intros [= <-].
  unfold upd_tunnel. by rewrite tunnel_set_tunnel, decide_True.
Qed.

(** ** Claims *)

(** A public request is proxied only to a tunnel of its own host's subdomain that is
    alive, locally healthy, not draining and below the stream limit, under the binding of
    that host whose prefix is the longest that covers the path; the prefix to strip is
    that binding's, if it asks for stripping.  The registry is as before. *)
Theorem servePublic_proxied srv r s s' ctx :
  serves srv s → reg_inv s → is_rooted (rq_Path r) = true →
  servePublic srv r s = (s', inr ctx) →
  ∃ h b, HostKey (rq_Host r) (sc_RootDomain (sv_cfg srv)) = Ok h
    ∧ b ∈ sc_Clients (sv_cfg srv) ∧ cb_Subdomain b = h
    ∧ path_covers (NormalizePathPrefix (cb_PathPrefix b)) (rq_Path r)
    ∧ (∀ b', b' ∈ sc_Clients (sv_cfg srv) → cb_Subdomain b' = h →
         path_covers (NormalizePathPrefix (cb_PathPrefix b')) (rq_Path r) →
         String.length (NormalizePathPrefix (cb_PathPrefix b'))
           ≤ String.length (NormalizePathPrefix (cb_PathPrefix b)))
    ∧ pc_strip ctx = (if cb_StripPrefix b then NormalizePathPrefix (cb_PathPrefix b) else "")
    ∧ (∃ id, current s h id = Some (pc_tunnel ctx))
    ∧ serving s (pc_tunnel ctx) = true
    ∧ (ct_ActiveStreams (tunnel s (pc_tunnel ctx))
         < tn_MaxStreamsPerTunnel (sc_Tunnel (sv_cfg srv)))%Z
    ∧ same_reg s s'.
Proof.
  intros Hs Hinv Hroot Hsv. pose proof (servePublic_cases srv r s Hs Hroot) as Hc.
  destruct (HostKey _ _) as [h|]; [|congruence].
  destruct Hc as [[Hn _]|(b & p & Hb & Hh & Hp & Hcov & Hmax & Heq)]; [congruence|].
  rewrite Hsv in Heq. destruct (Pick p s).2 as [t|] eqn:E; [|congruence].
  destruct (Z.leb_spec (tn_MaxStreamsPerTunnel (sc_Tunnel (sv_cfg srv)))
    (ct_ActiveStreams (tunnel s t))); [congruence|]. injection Heq as -> ->.
  exists h, b. split_and!; try done.
  - apply Pick_member in E as [Hm _]. exists (ct_ID (tunnel s t)). apply current_iff; eauto.
  - by apply Pick_member in E as [_ ?].
  - apply Pick_same. by eapply ri_pool.
Qed.

(** The error answers mean what they say: 400 exactly when the host is not one of the
    server's, 404 exactly when no binding of the host covers the path, and 503 only when
    no tunnel of the host can serve or the one chosen is at its stream limit.  The branch
    for an unhealthy backend is never taken by a request that nothing interrupts: [Pick] has
    already left such tunnels out ([unhealthy_after_pick] shows when it is taken). *)
Theorem servePublic_errors srv r s s' resp :
  serves srv s → is_rooted (rq_Path r) = true → servePublic srv r s = (s', inl resp) →
  (resp = writeHTTPError 400 "invalid host"
   ∧ is_ok (HostKey (rq_Host r) (sc_RootDomain (sv_cfg srv))) = false)
  ∨ ∃ h, HostKey (rq_Host r) (sc_RootDomain (sv_cfg srv)) = Ok h ∧
    ((resp = writeHTTPError 404 "no route for host/path"
      ∧ ∀ b, b ∈ sc_Clients (sv_cfg srv) → cb_Subdomain b = h →
          ¬ path_covers (NormalizePathPrefix (cb_PathPrefix b)) (rq_Path r))
     ∨ (resp = writeHTTPError 503 "no available backend"
        ∧ ∃ p, Pool h s = Some p ∧ ∀ t, t ∈ Members p s → serving s t = false)
     ∨ (resp = writeHTTPError 503 "tunnel stream limit reached"
        ∧ ∃ p t, Pool h s = Some p ∧ t ∈ Members p s ∧ serving s t = true
          ∧ (tn_MaxStreamsPerTunnel (sc_Tunnel (sv_cfg srv)) ≤ ct_ActiveStreams (tunnel s t))%Z)).
Proof.
  intros Hs Hroot Hsv. pose proof (servePublic_cases srv r s Hs Hroot) as Hc.
  destruct (HostKey _ _) as [h|]; [right; exists h; split; [done|] | left].
  2:{ rewrite Hsv in Hc. by injection Hc as _ ->. }
  destruct Hc as [[Hn Hno]|(b & p & _ & _ & Hp & _ & _ & Heq)].
  { left. rewrite Hsv in Hn. by injection Hn as _ ->. }
  right. rewrite Hsv in Heq. destruct (Pick p s).2 as [t|] eqn:E.
  - destruct (Z.leb_spec (tn_MaxStreamsPerTunnel (sc_Tunnel (sv_cfg srv)))
      (ct_ActiveStreams (tunnel s t))); [|congruence]. injection Heq as _ ->.
    right. split; [done|]. apply Pick_member in E as [Hm Hsrv]. eauto 10.
  - injection Heq as _ ->. left. split; [done|]. exists p. split; [done|]. by apply Pick_none.
Qed.

(** The path of a request does not decide which tunnel serves it: two requests to one
    host, under path prefixes of different clients, go to the same tunnel, the first
    member of the host's pool that can serve. *)
Theorem prefix_siblings_share_tunnel srv r1 r2 s s1 s2 c1 c2 :
  serves srv s → is_rooted (rq_Path r1) = true → is_rooted (rq_Path r2) = true →
  HostKey (rq_Host r1) (sc_RootDomain (sv_cfg srv)) =
    HostKey (rq_Host r2) (sc_RootDomain (sv_cfg srv)) →
  servePublic srv r1 s = (s1, inr c1) → servePublic srv r2 s = (s2, inr c2) →
  pc_tunnel c1 = pc_tunnel c2.
Proof.
  intros Hs Hr1 Hr2 Hh H1s H2s.
  pose proof (servePublic_cases srv r1 s Hs Hr1) as Hc1.
  pose proof (servePublic_cases srv r2 s Hs Hr2) as Hc2. rewrite <-Hh in Hc2.
  destruct (HostKey _ _) as [h|]; [|congruence].
  destruct Hc1 as [[? _]|(b1 & p1 & _ & _ & Hp1 & _ & _ & Heq1)]; [congruence|].
  destruct Hc2 as [[? _]|(b2 & p2 & _ & _ & Hp2 & _ & _ & Heq2)]; [congruence|].
  assert (p1 = p2) as <- by congruence. rewrite H1s in Heq1. rewrite H2s in Heq2.
  destruct (Pick p1 s).2 as [t|]; [|congruence].
  destruct (Z.leb _ _); [congruence|]. by injection Heq1 as _ ->; injection Heq2 as _ ->.
Qed.

(** C29: on clean paths the control endpoints and the prefixes of the bindings never
    overlap, provided that the control path was given absolute or empty: a path under a prefix
    of some binding, other than the root and the empty prefix, goes to the public proxy. *)
Theorem control_and_public_disjoint srv s r b :
  serves srv s → (∃ p, validateControlPath p = Ok (sc_ControlPath (sv_cfg srv))
                     ∧ (p = "" ∨ is_rooted p = true)) →
  b ∈ sc_Clients (sv_cfg srv) → NormalizePathPrefix (cb_PathPrefix b) ≠ "" →
  is_rooted (rq_Path r) = true → Clean (rq_Path r) = rq_Path r →
  path_covers (NormalizePathPrefix (cb_PathPrefix b)) (rq_Path r) →
  NormalizePathPrefix (cb_PathPrefix b) ≠ "/" →
  rootHandler srv r = ToPublic.
Proof.
  intros Hs (p & Hp & Hpr) Hb Hne Hroot Hclean [?|(segs & Hsegs & Hpre & Hcov)] Hnr; [done|].
  destruct (validateControlPath_ok_shape p _ Hpr Hp) as (csegs & Hcs & Hcne & Hcp).
  unfold rootHandler, isControlPath. rewrite Hcp.
  assert (NormalizeControlPath (abs_path csegs) = abs_path csegs) as ->
    by (unfold NormalizeControlPath; by rewrite validateControlPath_abs).
  destruct (_ || _) eqn:E; [exfalso | done].
  rewrite orb_true_iff, bool_decide_eq_true in E.
  pose proof (clean_segs_plain (rq_Path r)) as Hq.
  rewrite <-Hclean, Clean_rooted in E by done.
  apply under_prefix in E; [|done|done|done].
  pose proof (sv_control _ (sv_valid _ _ Hs) b Hb) as Hctl.
  rewrite <-NormalizePathPrefix_eq, Hpre, Hcp in Hctl. specialize (Hctl ltac:(done)).
  assert (segs ≠ []) as Hsne by (intros ->; by apply Hnr).
  unfold control_conflict in Hctl. rewrite !orb_false_iff, bool_decide_eq_false in Hctl.
  destruct Hctl as [[Hneq Hc1] Hc2].
  destruct (prefix_weak_total segs csegs _ Hcov E) as [Ho|Ho].
  - apply (under_prefix csegs segs) in Ho as [Ho|Ho]; [congruence | congruence | done | done | done].
  - apply (under_prefix segs csegs) in Ho as [Ho|Ho]; [congruence | congruence | done | done | done].
Qed.

(** C34: the forwarding headers a backend sees cannot be forged by the public client: they
    are those of the connection, whatever headers [hdr] of the request reach the proxy. *)
Theorem forwarded_headers_trustworthy ctx r hdr :
  let out := proxy_Rewrite ctx r (drop_forwarded hdr) in
  let h := or_Header out in
  Header_Values h "X-Forwarded-For" =
    match SplitHostPort (rq_RemoteAddr r) with Some (ip, _) => [ip] | None => [] end
  ∧ Header_Values h "X-Forwarded-Host" = [rq_Host r]
  ∧ Header_Values h "X-Forwarded-Proto" = [if rq_TLS r then "https" else "http"]
  ∧ Header_Values h "Forwarded" = []
  ∧ or_Host out = rq_Host r.
Proof.
  simpl. unfold SetXForwarded, drop_forwarded, Header_Values, Header_Set, Header_Del.
  destruct (SplitHostPort (rq_RemoteAddr r)) as [[ip port]|]; split_and!;
    by simplify_map_eq.
Qed.

(** Taking a prefix off a clean path that it covers. *)
Lemma stripped_path prefix ctx r hdr :
  is_rooted (rq_Path r) = true → Clean (rq_Path r) = rq_Path r → path_covers prefix (rq_Path r) →
  pc_strip ctx = prefix →
  let out := or_Path (proxy_Rewrite (Some ctx) r hdr) in
  is_rooted out = true
  ∧ (rq_Path r = (if bool_decide (prefix = "/") then "" else prefix) +:+ out
     ∨ (rq_Path r = prefix ∧ out = "/")).
Proof.
  intros Hroot Hclean Hcov <-. simpl.
  destruct Hcov as [->|(segs & Hsegs & -> & Hpre)]; [split; [done | by left]|].
  destruct (decide (segs = [])) as [->|Hne].
  { assert (StripPathPrefix (rq_Path r) "/" = (rq_Path r, true)) as Heq by done.
    change (abs_path []) with "/". rewrite !bool_decide_eq_true_2, Heq by done. auto. }
  assert (abs_path segs ≠ "") as Hn0 by done.
  rewrite (bool_decide_eq_true_2 (abs_path segs ≠ "")) by done.
  rewrite (bool_decide_eq_false_2 (abs_path segs = "/")) by by rewrite abs_path_root.
  rewrite StripPathPrefix_eq by done. case_bool_decide as Hpath; [auto|].
  pose proof (proj2 (under_prefix _ _ (clean_segs_plain (rq_Path r)) Hsegs Hne) Hpre) as Hu.
  rewrite <-Clean_rooted, Hclean in Hu by done. destruct Hu as [?|Hu]; [done|]. rewrite Hu.
  apply HasPrefix_spec in Hu as [q Hq]. rewrite <-(assoc_L String.append) in Hq.
  rewrite Hq. simpl. rewrite str_drop_app. split; [|by left]. by apply is_rooted_spec; eexists.
Qed.

(** C31: which path the backend gets of a request with a clean path that is proxied: if the
    binding of the request's host that covers the path with the longest prefix says
    [strip_prefix], the request's path without exactly this prefix (the path is the prefix
    followed by what the backend sees, or the prefix itself if the backend sees the root);
    otherwise the request's path. *)
Theorem proxied_path_stripped srv r s s' ctx hdr :
  serves srv s → is_rooted (rq_Path r) = true → Clean (rq_Path r) = rq_Path r →
  servePublic srv r s = (s', inr ctx) →
  ∃ h b, HostKey (rq_Host r) (sc_RootDomain (sv_cfg srv)) = Ok h
    ∧ b ∈ sc_Clients (sv_cfg srv) ∧ cb_Subdomain b = h
    ∧ let prefix := NormalizePathPrefix (cb_PathPrefix b) in
      path_covers prefix (rq_Path r)
      ∧ (∀ b', b' ∈ sc_Clients (sv_cfg srv) → cb_Subdomain b' = h →
           path_covers (NormalizePathPrefix (cb_PathPrefix b')) (rq_Path r) →
           String.length (NormalizePathPrefix (cb_PathPrefix b')) ≤ String.length prefix)
      ∧ let out := or_Path (proxy_Rewrite (Some ctx) r hdr) in
        if cb_StripPrefix b then
          is_rooted out = true
          ∧ (rq_Path r = (if bool_decide (prefix = "/") then "" else prefix) +:+ out
             ∨ (rq_Path r = prefix ∧ out = "/"))
        else out = rq_Path r.
Proof.
  intros Hs Hroot Hclean Hsv. pose proof (servePublic_cases srv r s Hs Hroot) as Hc.
  destruct (HostKey _ _) as [h|]; [|congruence].
  destruct Hc as [[? _]|(b & p & Hb & Hh & Hp & Hcov & Hmax & Heq)]; [congruence|].
  rewrite Hsv in Heq. destruct (Pick p s).2 as [t|]; [|congruence].
  destruct (Z.leb _ _); [congruence|]. injection Heq as _ ->.
  exists h, b. cbv zeta. split_and!; try done.
  destruct (cb_StripPrefix b) eqn:Hstrip; [by apply stripped_path | done].
Qed.

(** The stream limit is checked before the stream is opened, not with it: when a
    tunnel is one below the limit, a second request that arrives before the first has
    opened its stream passes the check too, and once both have opened theirs the tunnel
    is above the limit. *)
Theorem stream_limit_overrun srv r s s1 ctx :
  let t := pc_tunnel ctx in
  let max := tn_MaxStreamsPerTunnel (sc_Tunnel (sv_cfg srv)) in
  servePublic srv r s = (s1, inr ctx) →
  ct_ActiveStreams (tunnel s t) = (max - 1)%Z → (1 ≤ max < 2 ^ 62)%Z →
  ∃ s2, servePublic srv r s1 = (s2, inr ctx) ∧
  ∀ s3 s4, OpenStream t s2 = Some (s3, None) → OpenStream t s3 = Some (s4, None) →
   ct_ActiveStreams (tunnel s4 t) = (max + 1)%Z.
Proof.
  cbv zeta. intros Hsv Hact Hmax. destruct (servePublic_again srv r s s1 ctx Hsv) as (s2 & Hs2 & HT).
  exists s2. split; [done|]. intros s3 s4 Ho3%OpenStream_active Ho4%OpenStream_active.
  rewrite Ho4, Ho3, HT, Hact, Z.sub_add. rewrite (wrap64_id (tn_MaxStreamsPerTunnel _)) by (unfold int64; lia).
  rewrite wrap64_id; unfold int64; lia.
Qed.

End Proxy.

(** ** Witnesses *)

Section ProxyDemo.
  #[local] Existing Instance example_consts.
  #[local] Existing Instance ascii_tables.
  #[local] Existing Instance demo_transport.
  #[local] Existing Instance insertion_SliceSort.
  #[local] Existing Instance demo_pollmux.
  #[local] Existing Instance demo_NetURL.

Definition demo_get (path : string) : Request :=
  mkRequest "GET" "builderrors.com:443" path path "198.51.100.7:40000" true
    {["X-Forwarded-For" := ["1.2.3.4"]]}.

Definition demo_s : store := demo_connected.1.1.

Lemma demo_s_ok : serves demo_srv.1 demo_s ∧ reg_inv demo_s.
Proof. apply demo_connected_ok. Qed.

(** The store after a request for a path. *)
Definition demo_after (path : string) : store :=
  (servePublic demo_srv.1 (demo_get path) demo_s).1.

Definition demo_ctx (strip : string) : proxyCtx := mkProxyCtx 0 strip.

Lemma demo_result_service :
  servePublic demo_srv.1 (demo_get "/service/x") demo_s = (demo_after "/service/x", inr (demo_ctx "/service")).
Proof. by vm_compute. Qed.

Lemma demo_result_api :
  servePublic demo_srv.1 (demo_get "/api/v1/x") demo_s = (demo_after "/api/v1/x", inr (demo_ctx "/api/v1")).
Proof. by vm_compute. Qed.

Lemma servePublic_proxied_witness : serving demo_s 0 = true.
Proof.
  destruct (servePublic_proxied demo_srv.1 (demo_get "/service/x") demo_s (demo_after "/service/x") (demo_ctx "/service")
    (proj1 demo_s_ok) (proj2 demo_s_ok) eq_refl demo_result_service)
    as (h & b & _ & _ & _ & _ & _ & _ & _ & Hsv & _).
  exact Hsv.
Defined.

Lemma demo_result_other : servePublic demo_srv.1 (demo_get "/other") demo_s = (demo_after "/other", inl (writeHTTPError 404 "no route for host/path")).
Proof. by vm_compute. Qed.

Lemma servePublic_errors_witness :
  is_ok (HostKey "builderrors.com:443" "builderrors.com") = true
  ∧ writeHTTPError 404 "no route for host/path" ≠ writeHTTPError 400 "invalid host".
Proof.
  destruct (servePublic_errors demo_srv.1 (demo_get "/other") demo_s (demo_after "/other")
    (writeHTTPError 404 "no route for host/path") (proj1 demo_s_ok) eq_refl demo_result_other) as [[[=] _]|(h & Hh & _)].
  split; [|by intros [=]]. by vm_compute.
Defined.

(** The second client's prefix is served by the first client's tunnel. *)
Lemma prefix_siblings_share_tunnel_witness :
  pc_tunnel (demo_ctx "/api/v1") = pc_tunnel (demo_ctx "/service")
  ∧ current demo_s "@" "a" = Some 0 ∧ current demo_s "@" "b" = None.
Proof.
  split; [|by vm_compute].
  exact (prefix_siblings_share_tunnel demo_srv.1 (demo_get "/api/v1/x") (demo_get "/service/x")
    demo_s (demo_after "/api/v1/x") (demo_after "/service/x") (demo_ctx "/api/v1")
    (demo_ctx "/service") (proj1 demo_s_ok) eq_refl eq_refl eq_refl demo_result_api demo_result_service).
Defined.

Lemma control_and_public_disjoint_witness :
  rootHandler demo_srv.1 (demo_get "/service/tunnel") = ToPublic.
Proof.
  apply (control_and_public_disjoint demo_srv.1 demo_s (demo_get "/service/tunnel") demo_a
    (proj1 demo_s_ok)).
  - exists "/tunnel/". split; [by vm_compute | by right].
  - apply demo_a_in.
  - by vm_compute.
  - done.
  - by vm_compute.
  - right. exists ["service"]. split_and!; [apply demo_service | by vm_compute |].
    vm_compute. by exists ["tunnel"].
  - by vm_compute.
Defined.

(** The binding of the path strips, so the backend does not see the prefix. *)
Lemma proxied_path_stripped_witness :
  ∃ b, b ∈ sc_Clients (sv_cfg demo_srv.1) ∧ path_covers (NormalizePathPrefix (cb_PathPrefix b)) "/service/x"
    ∧ (cb_StripPrefix b = true →
       is_rooted (or_Path (proxy_Rewrite (Some (demo_ctx "/service")) (demo_get "/service/x") ∅)) = true).
Proof.
  destruct (proxied_path_stripped demo_srv.1 (demo_get "/service/x") demo_s (demo_after "/service/x")
    (demo_ctx "/service") ∅ (proj1 demo_s_ok) eq_refl ltac:(by vm_compute) demo_result_service)
    as (h & b & _ & Hb & _ & Hcov & _ & Hout).
  exists b. refine (conj Hb (conj Hcov _)). intros Hstrip. rewrite Hstrip in Hout. exact (proj1 Hout).
Defined.

(** A tunnel with one stream less than the limit of 256. *)
Definition demo_busy_s : store := upd_tunnel 0 (add_ActiveStreams 255) demo_s.

Lemma stream_limit_overrun_witness :
  ∃ s2, servePublic demo_srv.1 (demo_get "/service/x")
      (servePublic demo_srv.1 (demo_get "/service/x") demo_busy_s).1 = (s2, inr (demo_ctx "/service"))
    ∧ ∀ s3 s4, OpenStream 0 s2 = Some (s3, None) → OpenStream 0 s3 = Some (s4, None) →
        ct_ActiveStreams (tunnel s4 0) =
          (tn_MaxStreamsPerTunnel (sc_Tunnel (sv_cfg demo_srv.1)) + 1)%Z.
Proof.
  apply (stream_limit_overrun demo_srv.1 (demo_get "/service/x") demo_busy_s _ (demo_ctx "/service"));
    by vm_compute.
Defined.

End ProxyDemo.
