(* ===== verification/Redirect.v ===== *)
(** The plain HTTP listener of internal/server/tls.go: every request is redirected to the
    same address under https, by [http.Redirect]. *)

From S2P Require Import Prelude GoStrings GoPath Json Config ControlPath Validate Host Registry.
From S2P Require Import Route Rewrite Auth Server Proxy.

(** ** The parts of net/http *)

(** [hexEscapeNonASCII]: the bytes of a URL that are not ASCII are escaped. *)
Fixpoint hexEscapeNonASCII (s : string) : string :=
  match s with
  | EmptyString => ""
  | String c s' =>
      let n := byte_val c in
      if n <? 128 then String c (hexEscapeNonASCII s')
      else String "%" (String (hex_digit (n / 16)) (String (hex_digit (n mod 16))
             (hexEscapeNonASCII s')))
  end.

(** [htmlReplacer]. *)
Definition html_byte (c : ascii) : string :=
  match byte_val c with
  | 38 => "&amp;"
  | 60 => "&lt;"
  | 62 => "&gt;"
  | 34 => "&#34;"
  | 39 => "&#39;"
  | _ => String c ""
  end.

Fixpoint htmlEscape (s : string) : string :=
  match s with
  | EmptyString => ""
  | String c s' => html_byte c +:+ htmlEscape s'
  end.

Definition StatusMovedPermanently : Z := 301.

Definition redirect_body (url : string) : string :=
  let q := byte_str 34 in
  "<a href=" +:+ q +:+ htmlEscape url +:+ q +:+ ">Moved Permanently</a>." +:+ bytes [10; 10].

(** [http.Redirect(w, r, url, StatusMovedPermanently)] for a URL with a scheme, on a response
    without headers. *)
Definition http_Redirect (r : Request) (url : string) : HTTPResponse :=
  let location := {["Location" := [hexEscapeNonASCII url]]} in
  let html : list string := ["text/html; charset=utf-8"] in
  if bool_decide (rq_Method r = "GET")
  then mkResponse StatusMovedPermanently (<["Content-Type" := html]> location) (redirect_body url)
  else if bool_decide (rq_Method r = "HEAD")
  then mkResponse StatusMovedPermanently (<["Content-Type" := html]> location) ""
  else mkResponse StatusMovedPermanently location "".

(** ** tls.go *)

(** The body of the handler; its parameter is unused. *)
Definition httpsRedirectHandler (_ : string) (r : Request) : HTTPResponse :=
  http_Redirect r ("https://" +:+ (rq_Host r +:+ rq_RequestURI r)).

(** ** What the redirect promises *)

Definition html_special (c : ascii) : bool := bool_decide (byte_val c ∈ [34; 39; 60; 62]).

(** Escaped text cannot leave an attribute or open a tag. *)
Lemma htmlEscape_inert s : str_forall (λ c, negb (html_special c)) (htmlEscape s) = true.
Proof.
  induction s as [|c s IH]; [done|]. cbn [htmlEscape]. rewrite str_forall_app, IH, andb_true_r.
  by destruct c as [[] [] [] [] [] [] [] []].
Qed.

(** A browser reads the escaped text as the URL. *)
Definition html_unescape_at (s : string) : option (ascii * string) :=
  match find (λ e, HasPrefix s e.1)
    [("&amp;", 38); ("&lt;", 60); ("&gt;", 62); ("&#34;", 34); ("&#39;", 39)] with
  | Some (e, n) => Some (ascii_of_nat n, str_drop (String.length e) s)
  | None => match s with String c s' => Some (c, s') | EmptyString => None end
  end.

Lemma html_unescape_byte c s : html_unescape_at (html_byte c +:+ s) = Some (c, s).
Proof.
  assert (∀ c s, html_byte c = String c "" → byte_val c ≠ 38 →
    html_unescape_at (String c s) = Some (c, s)) as Hplain.
  { intros d t _ Hd. unfold html_unescape_at.
    assert (∀ w, HasPrefix (String d t) (String "&" w) = false) as Hp.
    { intros w. destruct (HasPrefix _ _) eqn:E; [|done]. apply HasPrefix_spec in E as [x Hx].
      injection Hx as -> _. by destruct Hd. }
    cbn [find fst]. by rewrite !Hp. }
  destruct (decide (html_byte c = String c "")) as [Hc|Hc].
  - rewrite Hc. apply Hplain; [done|]. intros H38. unfold html_byte in Hc. by rewrite H38 in Hc.
  - destruct c as [[] [] [] [] [] [] [] []]; first [by destruct Hc | by destruct s].
Qed.

Lemma hexEscapeNonASCII_ascii s : is_ascii (hexEscapeNonASCII s) = true.
Proof.
  induction s as [|c s IH]; [done|]. cbn [hexEscapeNonASCII].
  destruct (byte_val c <? 128) eqn:Hc; unfold is_ascii in *; cbn [str_forall].
  - by rewrite Hc, IH.
  - rewrite IH. by destruct c as [[] [] [] [] [] [] [] []].
Qed.

Lemma hexEscapeNonASCII_id s : is_ascii s = true → hexEscapeNonASCII s = s.
Proof.
  unfold is_ascii. induction s as [|c s IH]; [done|]. cbn [str_forall hexEscapeNonASCII].
  intros [Hc Hs]%andb_true_iff. by rewrite Hc, IH.
Qed.

(** Whatever the method, the client is sent to the same host, path and query under https,
    and only a GET gets a body. *)
Lemma redirect_same_address x r :
  let resp := httpsRedirectHandler x r in
  rs_Status resp = StatusMovedPermanently
  ∧ rs_Header resp !! "Location"
    = Some [hexEscapeNonASCII ("https://" +:+ (rq_Host r +:+ rq_RequestURI r))]
  ∧ (rs_Body resp ≠ "" ↔ rq_Method r = "GET").
Proof.
  unfold httpsRedirectHandler, http_Redirect.
  destruct (bool_decide_reflect (rq_Method r = "GET")) as [Hg|Hg];
    [|destruct (bool_decide_reflect (rq_Method r = "HEAD"))]; simpl;
    split_and!; rewrite ?lookup_insert_ne, ?lookup_singleton_eq by done; done || naive_solver.
Qed.
