(* ===== verification/InterleaveProxy.v ===== *)
(** The request thread of Interleave against [servePublic] of Proxy: run without
    interruption, from [Pick] to the dialing of the tunnel, they give the same answer. *)

From S2P Require Import Prelude GoStrings GoPath Config ControlPath Validate Host Registry.
From S2P Require Import RegistryInv RegistryOps RegistryRun RegistrySpec Interleave.
From S2P Require Import InterleaveInv InterleaveRun InterleaveSpec InterleaveLive.
From S2P Require Import InterleaveRaces Route Rewrite Auth Server ServerSpec Proxy.

Section InterleaveProxy.
  Context `{PollmuxConsts, UnicodeTables, PollmuxServer, SliceSort, NetURL}.

(** What [servePublic] writes for an outcome of the thread that ends before dialing. *)
Definition refusal (r : req_result) : option HTTPResponse :=
  match r with
  | NoBackend => Some (writeHTTPError StatusServiceUnavailable "no available backend")
  | UnhealthyBackend =>
      Some (writeHTTPError StatusServiceUnavailable "backend local service unhealthy")
  | StreamLimit => Some (writeHTTPError StatusServiceUnavailable "tunnel stream limit reached")
  | _ => None
  end.

Lemma solo_app k1 k2 q s : solo (k1 + k2) q s = let '(s1, q1) := solo k1 q s in solo k2 q1 s1.
Proof.
  revert q s. induction k1 as [|k1 IH]; intros q s; simpl; [done|].
  destruct (advance [q] q s) as [[s1 q1]|] eqn:E; [apply IH|].
  destruct k2; simpl; [done | by rewrite E].
Qed.

(** A request whose host and route are found, run alone step by step over [Pick], the
    health and the stream limit, comes to the dialing of the tunnel that [servePublic]
    puts in its context, or ends with the refusal [servePublic] answers. *)
Lemma request_thread_serves srv r s n hostKey route :
  HostKey (rq_Host r) (sc_RootDomain (sv_cfg srv)) = Ok hostKey →
  Match (sv_routeTable srv) hostKey (rq_Path r) = Ok route →
  ∃ k, let '(s', q) := solo k (ReqPick n (rt_Pool route)
           (tn_MaxStreamsPerTunnel (sc_Tunnel (sv_cfg srv)))) s in
    (servePublic srv r s).1 = s' ∧
    match (servePublic srv r s).2 with
    | inr ctx => q = ReqOpen (pc_tunnel ctx)
    | inl resp => ∃ out, q = ReqDone out ∧ refusal out = Some resp
    end.
Proof.
  intros Hh Hm. set (max := tn_MaxStreamsPerTunnel _).
  destruct (solo_Pick n (rt_Pool route) max s) as [k Hk]. unfold servePublic. rewrite Hh, Hm.
  destruct (Pick (rt_Pool route) s) as [s1 [t|]]; simpl in Hk.
  2:{ exists k. rewrite Hk. split; [done|]. by exists NoBackend. }
  exists (k + 2). rewrite solo_app, Hk. fold max. simpl.
  destruct (ct_LocalHealthy (tunnel s1 t)); simpl; [|split; [done | by exists UnhealthyBackend]].
  destruct (Z.leb max (ct_ActiveStreams (tunnel s1 t))); simpl; [|done].
  split; [done | by exists StreamLimit].
Qed.

End InterleaveProxy.

(** ** Witness: the example request on the store of the example client *)

Section InterleaveProxyDemo.
  #[local] Existing Instance example_consts.
  #[local] Existing Instance ascii_tables.
  #[local] Existing Instance demo_transport.
  #[local] Existing Instance demo_pollmux.
  #[local] Existing Instance insertion_SliceSort.
  #[local] Existing Instance demo_NetURL.

Definition demo_match : result route_error Route :=
  Match (sv_routeTable demo_srv.1) "@" "/service/x".

Definition demo_route : Route :=
  match demo_match with Ok route => route | Err _ => mkRoute "" "" false 0 end.

Lemma demo_matched : Match (sv_routeTable demo_srv.1) "@" (rq_Path (demo_get "/service/x")) = Ok demo_route.
Proof. vm_compute. reflexivity. Qed.

Lemma demo_hosted :
  HostKey (rq_Host (demo_get "/service/x")) (sc_RootDomain (sv_cfg demo_srv.1)) = Ok "@".
Proof. vm_compute. reflexivity. Qed.

Lemma request_thread_serves_witness :
  ∃ k, (solo k (ReqPick "@" (rt_Pool demo_route)
    (tn_MaxStreamsPerTunnel (sc_Tunnel (sv_cfg demo_srv.1)))) demo_s).2 = ReqOpen 0.
Proof.
  destruct (request_thread_serves demo_srv.1 (demo_get "/service/x") demo_s "@" "@" demo_route
    demo_hosted demo_matched) as [k Hk].
  exists k. rewrite demo_result_service in Hk. destruct (solo _ _ _) as [s' q].
  exact (proj2 Hk).
Defined.

End InterleaveProxyDemo.
