(* ===== verification/PublicSpec.v ===== *)
(** What the public side of the server promises, without route tables, pools or sorting:
    the binding of the request's host whose prefix has the most segments of the path, and
    the first tunnel of the host that can serve.  [servePublic] implements it. *)

From S2P Require Import Prelude GoStrings GoPath Config ControlPath Validate Host Registry.
From S2P Require Import RegistryInv RegistryOps RegistryRun RegistrySpec Route Rewrite Auth.
From S2P Require Import Server ServerSpec Proxy.

(** ** The binding of a request *)

Definition prefix_segs (b : ClientBinding) : list string := clean_segs true (cb_PathPrefix b).

(** Whether a binding covers a path, and with how many segments; the empty prefix covers
    every path but less well than the root. *)
Definition covers (path : string) (b : ClientBinding) : bool :=
  bool_decide (cb_PathPrefix b = "" ∨ prefix_segs b `prefix_of` clean_segs true path).

Definition rank (b : ClientBinding) : nat :=
  if bool_decide (cb_PathPrefix b = "") then 0 else S (length (prefix_segs b)).

Definition better (b : ClientBinding) (best : option ClientBinding) : option ClientBinding :=
  match best with
  | None => Some b
  | Some b' => if rank b' <? rank b then Some b else Some b'
  end.

Definition best_binding (bindings : list ClientBinding) (h path : string) : option ClientBinding :=
  foldr better None (filter (λ b, cb_Subdomain b = h ∧ covers path b = true) bindings).

Section PublicSpec.
  Context `{PollmuxConsts, UnicodeTables, PollmuxServer, SliceSort, NetURL}.

(** The first tunnel of a host that can serve. *)
Definition first_serving (s : store) (h : string) : option tref :=
  p ← Pool h s; head (filter (λ t, serving s t = true) (Members p s)).

Definition public_reference (c : ServerConfig) (s : store) (r : Request)
    : HTTPResponse + proxyCtx :=
  match HostKey (rq_Host r) (sc_RootDomain c) with
  | Err _ => inl (writeHTTPError 400 "invalid host")
  | Ok h =>
      match best_binding (sc_Clients c) h (rq_Path r) with
      | None => inl (writeHTTPError 404 "no route for host/path")
      | Some b =>
          match first_serving s h with
          | None => inl (writeHTTPError 503 "no available backend")
          | Some t =>
              if Z.leb (tn_MaxStreamsPerTunnel (sc_Tunnel c)) (ct_ActiveStreams (tunnel s t))
              then inl (writeHTTPError 503 "tunnel stream limit reached")
              else inr (mkProxyCtx t
                (if cb_StripPrefix b then NormalizePathPrefix (cb_PathPrefix b) else ""))
          end
      end
  end.

(** ** Lemmas *)

Lemma better_fold l :
  match foldr better None l with
  | None => l = []
  | Some b => b ∈ l ∧ ∀ b', b' ∈ l → rank b' ≤ rank b
  end.
Proof.
  induction l as [|x l IH]; simpl; [done|].
  destruct (foldr better None l) as [b|]; simpl.
  - destruct IH as [Hb Hmax].
    destruct (Nat.ltb_spec (rank b) (rank x)).
    + split; [by left|]. intros b' [->|Hb']%elem_of_cons; [done | specialize (Hmax b' Hb'); lia].
    + split; [by right|]. intros b' [->|Hb']%elem_of_cons; [lia | by apply Hmax].
  - subst l. split; [by left|]. intros b' [->|Hb']%elem_of_cons; [done | by apply elem_of_nil in Hb'].
Qed.

Lemma best_binding_spec bindings h path :
  match best_binding bindings h path with
  | None => ∀ b, b ∈ bindings → cb_Subdomain b = h → covers path b = false
  | Some b => b ∈ bindings ∧ cb_Subdomain b = h ∧ covers path b = true
      ∧ ∀ b', b' ∈ bindings → cb_Subdomain b' = h → covers path b' = true → rank b' ≤ rank b
  end.
Proof.
  unfold best_binding. pose proof (better_fold (filter
    (λ b, cb_Subdomain b = h ∧ covers path b = true) bindings)) as Hf.
  set (l := filter _ bindings) in *. assert (∀ b, b ∈ l ↔ (cb_Subdomain b = h ∧ covers path b = true)
    ∧ b ∈ bindings) as Hl by (intros b; subst l; by rewrite list_elem_of_filter).
  destruct (foldr better None l) as [b|].
  - destruct Hf as [Hb Hmax]. apply Hl in Hb as [[Hh Hc] Hb]. split_and!; [done..|].
    intros b' ???. by apply Hmax, (proj2 (Hl b')).
  - intros b Hb Hh. destruct (covers path b) eqn:Hc; [|done].
    assert (b ∈ l) as Hbl by by apply (proj2 (Hl b)). rewrite Hf in Hbl. by apply elem_of_nil in Hbl.
Qed.

(** The normalized prefix of a rooted binding spells its segments. *)
Lemma rooted_prefix b :
  cb_PathPrefix b ≠ "" → is_rooted (cb_PathPrefix b) = true →
  NormalizePathPrefix (cb_PathPrefix b) = abs_path (prefix_segs b).
Proof.
  intros Hne Hr. unfold NormalizePathPrefix, prefix_segs. rewrite bool_decide_eq_false_2 by done.
  rewrite Clean_rooted by done. case_bool_decide as Hs; [done|].
  apply TrimSuffix_abs; [apply clean_segs_plain|]. intros Hn. by rewrite Hn in Hs.
Qed.

Lemma covers_spec path b :
  cb_PathPrefix b = "" ∨ is_rooted (cb_PathPrefix b) = true →
  covers path b = true ↔ path_covers (NormalizePathPrefix (cb_PathPrefix b)) path.
Proof.
  intros Hb. unfold covers, path_covers. rewrite bool_decide_eq_true.
  destruct (decide (cb_PathPrefix b = "")) as [->|Hne]; [by split; left|].
  destruct Hb as [?|Hr]; [done|]. rewrite (rooted_prefix b Hne Hr). split.
  - intros [?|Hp]; [done|]. right. exists (prefix_segs b). by split_and!; [apply clean_segs_plain|..].
  - intros [?|(segs & Hs & Heq & Hp)]; [done|]. right.
    by apply abs_path_inj in Heq as ->; [|apply clean_segs_plain|].
Qed.

Lemma abs_path_mono a b : a `prefix_of` b → String.length (abs_path a) ≤ String.length (abs_path b).
Proof.
  intros [l ->]. destruct (decide (a = [])) as [->|Ha]; [unfold abs_path; simpl; lia|].
  rewrite !abs_path_segs_str, segs_str_app, str_length_app by (done || by destruct a). lia.
Qed.

(** Of two bindings that cover a path, the one with the lower rank has the shorter prefix. *)
Lemma rank_length path a b :
  cb_PathPrefix a = "" ∨ is_rooted (cb_PathPrefix a) = true →
  cb_PathPrefix b = "" ∨ is_rooted (cb_PathPrefix b) = true →
  covers path a = true → covers path b = true → rank a ≤ rank b →
  String.length (NormalizePathPrefix (cb_PathPrefix a))
    ≤ String.length (NormalizePathPrefix (cb_PathPrefix b)).
Proof.
  unfold covers, rank. rewrite !bool_decide_eq_true. intros Ha Hb Hca Hcb Hr.
  destruct (decide (cb_PathPrefix a = "")) as [Hae|Hae]; [rewrite Hae; simpl; lia|].
  rewrite (bool_decide_eq_false_2 (cb_PathPrefix a = "")) in Hr by done.
  case_bool_decide as Hbe; [lia|].
  destruct Ha as [?|Ha], Hb as [?|Hb], Hca as [?|Hca], Hcb as [?|Hcb]; try done.
  rewrite !rooted_prefix by done. apply abs_path_mono.
  destruct (prefix_weak_total (prefix_segs a) (prefix_segs b) _ Hca Hcb) as [?|Hp]; [done|].
  apply prefix_length_eq in Hp as ->; [done | lia].
Qed.

(** A binding that covers a path with the longest prefix is the best one. *)
Lemma longest_is_best c h path b :
  server_valid c → b ∈ sc_Clients c → cb_Subdomain b = h →
  path_covers (NormalizePathPrefix (cb_PathPrefix b)) path →
  (∀ b', b' ∈ sc_Clients c → cb_Subdomain b' = h →
     path_covers (NormalizePathPrefix (cb_PathPrefix b')) path →
     String.length (NormalizePathPrefix (cb_PathPrefix b'))
       ≤ String.length (NormalizePathPrefix (cb_PathPrefix b))) →
  best_binding (sc_Clients c) h path = Some b.
Proof.
  intros Hv Hb Hh Hc Hmax. pose proof (sv_bindings c Hv) as Hf. rewrite Forall_forall in Hf.
  assert (∀ x, x ∈ sc_Clients c → covers path x = true
    ↔ path_covers (NormalizePathPrefix (cb_PathPrefix x)) path) as Hcov
    by (intros x Hx; apply covers_spec, (bv_prefix x (Hf x Hx))).
  pose proof (best_binding_spec (sc_Clients c) h path) as Hbest.
  destruct (best_binding _ _ _) as [x|].
  2:{ specialize (Hbest b Hb Hh). apply Hcov in Hc; [congruence | done]. }
  destruct Hbest as (Hx & Hxh & Hxc & Hxmax). f_equal.
  pose proof (proj2 (Hcov b Hb) Hc) as Hbc.
  pose proof (Hmax x Hx Hxh (proj1 (Hcov x Hx) Hxc)) as Hle1.
  pose proof (rank_length path b x (bv_prefix b (Hf b Hb)) (bv_prefix x (Hf x Hx)) Hbc Hxc
    (Hxmax b Hb Hh Hbc)) as Hle2.
  assert (NormalizePathPrefix (cb_PathPrefix x) = NormalizePathPrefix (cb_PathPrefix b)) as Heq
    by (apply (covers_same_length _ _ path); [by apply Hcov | done | lia]).
  eapply (NoDup_map_inj routeKey); [apply (sv_routes c Hv) | done | done |].
  unfold routeKey. by rewrite Hxh, Hh, <-!NormalizePathPrefix_eq, Heq.
Qed.

Lemma picks_first_serving p s h :
  Pool h s = Some p → (Pick p s).2 = first_serving s h.
Proof.
  intros Hp. unfold first_serving. rewrite Hp. simpl. unfold Balancer_Pick, Members.
  destruct (default firstAvailable (tp_bal (pool s p))).
  induction (tp_members (pool s p)) as [|t l IH]; simpl; [done|].
  rewrite filter_cons. fold (serving s t). rewrite IH. by destruct (serving s t).
Qed.

(** C6: [servePublic] on a running server is the reference: sorting the routes at start,
    scanning them in that order with a fallback, and asking the pool's balancer give
    exactly the answer read off the configuration and the tunnels. *)
Theorem servePublic_implements_reference srv r s :
  serves srv s → is_rooted (rq_Path r) = true →
  (servePublic srv r s).2 = public_reference (sv_cfg srv) s r.
Proof.
  intros Hs Hroot. pose proof (servePublic_cases srv r s Hs Hroot) as Hc. unfold public_reference.
  destruct (HostKey _ _) as [h|]; [|by rewrite Hc].
  destruct Hc as [[-> Hno]|(b & p & Hb & Hh & Hp & Hcov & Hmax & ->)].
  - pose proof (best_binding_spec (sc_Clients (sv_cfg srv)) h (rq_Path r)) as Hbest.
    destruct (best_binding _ _ _) as [b|]; [|done]. destruct Hbest as (Hb & Hh & Hbc & _).
    apply covers_spec in Hbc; [|by eapply server_rooted]. by destruct (Hno b Hb Hh).
  - rewrite (longest_is_best _ _ _ b (sv_valid _ _ Hs)) by done.
    by rewrite (picks_first_serving p s h Hp).
Qed.

End PublicSpec.

(** ** Witness: the example server, a request for a nested path *)

Section PublicDemo.
  #[local] Existing Instance example_consts.
  #[local] Existing Instance ascii_tables.
  #[local] Existing Instance demo_transport.
  #[local] Existing Instance insertion_SliceSort.
  #[local] Existing Instance demo_pollmux.

Lemma servePublic_implements_reference_witness :
  public_reference (sv_cfg demo_srv.1) demo_s (demo_get "/api//v1/x") = inr (demo_ctx "/api/v1").
Proof.
  rewrite <-(servePublic_implements_reference demo_srv.1 (demo_get "/api//v1/x") demo_s
    (proj1 demo_s_ok)) by done.
  vm_compute. reflexivity.
Defined.

End PublicDemo.
