(* ===== verification/Status.v ===== *)
(** internal/server/status.go and [Registry.Snapshot]: the status page, from the registry to
    the text of the response and back. *)

From Stdlib Require Import SpecFloat.
From stdpp Require Import sorting.
From S2P Require Import Prelude GoStrings GoPath Json Config ControlPath Validate Host Registry.
From S2P Require Import RegistryInv RegistryOps RegistryRun RegistrySpec Route Rewrite Auth.
From S2P Require Import Server Directory ServerSpec ServerDirectory Proxy.

(** The counters a pollmux session keeps. *)
Class SessionStats `{Transport} := {
  Session_LastActive : world → session → Z;
  Session_PollInFlight : world → session → Z;
  Session_HiWater : world → session → Z * Z;
  Session_Resumable : world → session → bool;
  Session_ResumeDeadline : world → session → option Z
}.

Record ClientStatus := mkClientStatus {
  cs_ClientID : string;
  cs_SessionID : string;
  cs_RemoteAddr : string;
  cs_ConnectedAt : Z;
  cs_LastPollAt : Z;
  cs_PollInFlight : Z;
  cs_ActiveStreams : Z;
  cs_LocalHealth : string;
  cs_BufferedToServer : Z;
  cs_BufferedFromServer : Z;
  cs_Resumable : bool;
  cs_ResumeDeadline : option Z
}.

Record TunnelStatus := mkTunnelStatus { ts_Subdomain : string; ts_Clients : list ClientStatus }.

Record statusResponse := mkStatusResponse {
  sp_Version : string;
  sp_UptimeSeconds : Z;
  sp_Tunnels : list TunnelStatus
}.

Definition Version : string := "0.1.0".
Definition StatusMethodNotAllowed : Z := 405.
Definition StatusOK : Z := 200.

(** ** [int64(d.Seconds())]: the whole and the broken seconds of a Duration are added as
    64-bit floats *)

Definition float_of_Z (z : Z) : spec_float := binary_normalize 53 1024 z 0 false.

Definition Seconds (d : Z) : spec_float :=
  SFadd 53 1024 (float_of_Z (Z.quot d Second))
    (SFdiv 53 1024 (float_of_Z (Z.rem d Second)) (float_of_Z Second)).

(** Conversion to an integer drops the fraction. *)
Definition int64_of_float (f : spec_float) : Z :=
  match f with
  | S754_finite sgn m e =>
      let a := if Z.leb 0 e then Z.shiftl (Zpos m) e else Z.shiftr (Zpos m) (- e) in
      if sgn then - a else a
  | _ => 0
  end.

Definition seconds (d : Z) : Z := int64_of_float (Seconds d).

(** The sum is rounded, so that late in a long life of the server the last nanosecond of a
    second counts as the next one. *)
Example seconds_examples :
  map seconds [0; Second - 1; 90 * Second + 1; 4 * 1000 * 1000 * Second - 1;
               1000 * 1000 * 1000 * Second - 1]%Z
  = [0; 0; 90; 3999999; 1000000000]%Z.
Proof. vm_compute. reflexivity. Qed.

(** ** The JSON of the page *)

(** [time.Time.MarshalJSON]: the text between its quotes, RFC 3339 in the time zone of the
    machine, or an error for a year that has no four digits. *)
Class TimeText := { time_MarshalJSON : Z → option string }.

Section StatusJSON.
  Context `{TimeText}.

Definition time_json (t : Z) : option json := JString <$> time_MarshalJSON t.

(** [omitempty] drops a nil pointer. *)
Definition deadline_json (d : option Z) : option (list (string * json)) :=
  match d with
  | None => Some []
  | Some t => j ← time_json t; Some [("resume_deadline", j)]
  end.

Definition client_json (c : ClientStatus) : option json :=
  connected ← time_json (cs_ConnectedAt c);
  lastPoll ← time_json (cs_LastPollAt c);
  deadline ← deadline_json (cs_ResumeDeadline c);
  Some (JObject
    ([("client_id", JString (cs_ClientID c)); ("session_id", JString (cs_SessionID c));
      ("remote_addr", JString (cs_RemoteAddr c)); ("connected_at", connected);
      ("last_poll_at", lastPoll); ("poll_in_flight", JInt (cs_PollInFlight c));
      ("active_streams", JInt (cs_ActiveStreams c)); ("local_health", JString (cs_LocalHealth c));
      ("buffered_to_server", JInt (cs_BufferedToServer c));
      ("buffered_from_server", JInt (cs_BufferedFromServer c));
      ("resumable", JBool (cs_Resumable c))] ++ deadline)).

(** The clients of a tunnel are appended to a nil slice, which marshals to [null]. *)
Definition tunnel_json (t : TunnelStatus) : option json :=
  clients ← mapM client_json (ts_Clients t);
  Some (JObject [("subdomain", JString (ts_Subdomain t));
                 ("clients", match clients with [] => JNull | _ => JArray clients end)]).

Definition status_json (p : statusResponse) : option json :=
  tunnels ← mapM tunnel_json (sp_Tunnels p);
  Some (JObject [("version", JString (sp_Version p)); ("uptime_seconds", JInt (sp_UptimeSeconds p));
                 ("tunnels", JArray tunnels)]).

End StatusJSON.

Section Status.
  Context `{PollmuxConsts, UnicodeTables, PollmuxServer, SliceSort, !SessionStats, TimeText}.

(** The zero [time.Time]. *)
Context (zero_time : Z).

(** The loop body for one tunnel; [None] is the nil dereference of [t.Session.ID], which
    stands outside the nil check. *)
Definition client_status (s : store) (t : tref) : option ClientStatus :=
  let c := tunnel s t in
  let w := s_world s in
  let health := if ct_LocalHealthy c then "ok" else "down" in
  let '(lastPoll, pollInFlight, bufToServer, bufFromServer, resumable, resumeDeadline) :=
    match ct_Session c with
    | Some se =>
        (Session_LastActive w se, Session_PollInFlight w se, (Session_HiWater w se).1,
         (Session_HiWater w se).2, Session_Resumable w se, Session_ResumeDeadline w se)
    | None => (zero_time, 0%Z, 0%Z, 0%Z, false, None)
    end in
  match ct_Session c with
  | None => None
  | Some se =>
      Some (mkClientStatus (ct_ID c) (Session_ID se) (ct_RemoteAddr c) (ct_ConnectedAt c) lastPoll
              pollInFlight (ct_ActiveStreams c) health bufToServer bufFromServer resumable
              resumeDeadline)
  end.

Definition tunnel_status (s : store) (sp : string * pref) : option TunnelStatus :=
  mkTunnelStatus sp.1 <$> mapM (client_status s) (Members sp.2 s).

(** [range r.byName] in some order. *)
Definition Snapshot (s : store) : option (list TunnelStatus) :=
  mapM (tunnel_status s) (map_to_list (byName (s_reg s))).

(** [uptime] at time [now]: [time.Since] stops at the ends of the range of a Duration. *)
Definition uptime (startedAt now : Z) : Z :=
  Z.max (- 2 ^ 63) (Z.min (2 ^ 63 - 1) (now - startedAt)).

(** [handleStatus] of a server that started at [startedAt], at time [now]; [None] is a
    panic. *)
Definition handleStatus (r : Request) (startedAt now : Z) (s : store) : option HTTPResponse :=
  if bool_decide (rq_Method r ≠ "GET")
  then Some (writeHTTPError StatusMethodNotAllowed "method not allowed")
  else
    tunnels ← Snapshot s;
    Some (writeJSON StatusOK
      (status_json (mkStatusResponse Version (seconds (uptime startedAt now)) tunnels))).

Lemma client_status_spec s t :
  match client_status s t with
  | Some cs => cs_ClientID cs = ct_ID (tunnel s t)
      ∧ (∃ se, ct_Session (tunnel s t) = Some se ∧ cs_SessionID cs = Session_ID se)
      ∧ cs_ActiveStreams cs = ct_ActiveStreams (tunnel s t)
      ∧ (cs_LocalHealth cs = "ok" ↔ ct_LocalHealthy (tunnel s t) = true)
      ∧ cs_RemoteAddr cs = ct_RemoteAddr (tunnel s t)
  | None => ct_Session (tunnel s t) = None
  end.
Proof.
  unfold client_status. destruct (ct_Session (tunnel s t)) as [se|]; [|done].
  split_and!; [done | eauto | done | | done]. simpl. by destruct (ct_LocalHealthy _).
Qed.

(** When it does not panic, [Snapshot] lists exactly the current tunnels. *)
Lemma mapM_total {A B} (f : A → option B) l :
  (∀ x, x ∈ l → is_Some (f x)) → is_Some (mapM f l).
Proof. intros Hf. apply mapM_is_Some, Forall_forall. apply Hf. Qed.

Lemma mapM_elem {A B} (f : A → option B) l k y :
  mapM f l = Some k → (y ∈ k ↔ ∃ x, x ∈ l ∧ f x = Some y).
Proof.
  intros Hk%mapM_Some. split.
  - intros [i Hi]%list_elem_of_lookup. destruct (Forall2_lookup_r _ _ _ _ _ Hk Hi) as (x & Hx & Hf).
    exists x. split; [by eapply list_elem_of_lookup_2 | done].
  - intros (x & [i Hi]%list_elem_of_lookup & Hf).
    destruct (Forall2_lookup_l _ _ _ _ _ Hk Hi) as (y' & Hy & Hf').
    rewrite Hf in Hf'. injection Hf' as <-. by eapply list_elem_of_lookup_2.
Qed.

Lemma client_status_Some s t : is_Some (ct_Session (tunnel s t)) → is_Some (client_status s t).
Proof. intros [se Hse]. unfold client_status. rewrite Hse. eauto. Qed.

Lemma Snapshot_spec s :
  reg_inv s → sessions_set s →
  ∃ out, Snapshot s = Some out ∧
  ∀ sub cs, (∃ ts, ts ∈ out ∧ ts_Subdomain ts = sub ∧ cs ∈ ts_Clients ts) ↔
    ∃ t, current s sub (cs_ClientID cs) = Some t ∧ client_status s t = Some cs.
Proof.
  intros Hinv Hset.
  assert (∀ n p t, Pool n s = Some p → t ∈ Members p s → is_Some (client_status s t)) as Hcs.
  { intros n p t Hp Ht. apply client_status_Some, Hset. by eapply member_alloc. }
  assert (is_Some (Snapshot s)) as [out Hout].
  { apply mapM_total. intros [n p] Hnp%elem_of_map_to_list. unfold tunnel_status.
    apply fmap_is_Some, mapM_total. intros t Ht. by eapply Hcs. }
  exists out. split; [done|]. intros sub cs. split.
  - intros (ts & Hts & <- & Hin). apply (mapM_elem _ _ _ _ Hout) in Hts as ([n p] & Hnp & Hts).
    apply elem_of_map_to_list in Hnp. unfold tunnel_status in Hts. simpl in Hts.
    destruct (mapM (client_status s) (Members p s)) as [l|] eqn:Hl; [|done].
    injection Hts as <-. simpl in *. apply (mapM_elem _ _ _ _ Hl) in Hin as (t & Ht & Hc).
    exists t. split; [|done]. apply current_iff; [done|]. exists p.
    pose proof (client_status_spec s t) as Hsp. rewrite Hc in Hsp. destruct Hsp as [-> _]. done.
  - intros (t & Hcur & Hc). apply current_iff in Hcur as (p & Hp & Ht & _); [|done].
    assert (is_Some (mapM (client_status s) (Members p s))) as [l Hl]
      by (apply mapM_total; intros; by eapply Hcs).
    exists (mkTunnelStatus sub l). split_and!; [|done|].
    + apply (mapM_elem _ _ _ _ Hout). exists (sub, p). split; [by apply elem_of_map_to_list|].
      unfold tunnel_status. simpl. by rewrite Hl.
    + apply (mapM_elem _ _ _ _ Hl). eauto.
Qed.

(** On a running server the status page never panics, although [Snapshot] reads the
    session's id outside its nil check; it lists exactly the tunnels that currently serve
    a client, under their subdomain. *)
Theorem Snapshot_lists_current c w srv s0 s :
  NewServer c w = Ok (srv, s0) → rtc (server_step srv) s0 s →
  ∃ out, Snapshot s = Some out ∧
  ∀ sub cs, (∃ ts, ts ∈ out ∧ ts_Subdomain ts = sub ∧ cs ∈ ts_Clients ts) ↔
    ∃ t, current s sub (cs_ClientID cs) = Some t ∧ client_status s t = Some cs.
Proof.
  intros Hnew Hrun. by apply Snapshot_spec; apply (server_run_sessions c w srv s0 s).
Qed.

(** [Register] takes a tunnel without a session, but one such tunnel in a pool makes
    [Snapshot] panic. *)
Lemma Snapshot_nil_session s sub p t :
  Pool sub s = Some p → t ∈ Members p s → ct_Session (tunnel s t) = None → Snapshot s = None.
Proof.
  intros Hp Ht Hn. destruct (Snapshot s) as [out|] eqn:Hout; [exfalso | done].
  apply mapM_Some in Hout.
  assert ((sub, p) ∈ map_to_list (byName (s_reg s))) as [i Hi]%list_elem_of_lookup
    by by apply elem_of_map_to_list.
  destruct (Forall2_lookup_l _ _ _ _ _ Hout Hi) as (ts & _ & Hts). unfold tunnel_status in Hts.
  simpl in Hts. destruct (mapM _ _) as [l|] eqn:Hl; [|done]. apply mapM_Some in Hl.
  apply list_elem_of_lookup in Ht as [j Hj].
  destruct (Forall2_lookup_l _ _ _ _ _ Hl Hj) as (cs & _ & Hcs). unfold client_status in Hcs.
  by rewrite Hn in Hcs.
Qed.

End Status.

Section StatusDemo.
  #[local] Existing Instance example_consts.
  #[local] Existing Instance ascii_tables.
  #[local] Existing Instance demo_transport.
  #[local] Existing Instance insertion_SliceSort.
  #[local] Existing Instance demo_pollmux.

#[local] Instance demo_stats : SessionStats := {|
  Session_LastActive := λ _ _, 1%Z;
  Session_PollInFlight := λ _ _, 0%Z;
  Session_HiWater := λ _ _, (2, 3)%Z;
  Session_Resumable := λ _ _, false;
  Session_ResumeDeadline := λ _ _, None
|}.

Definition demo_status : ClientStatus :=
  mkClientStatus "a" "sess-a" "" 0 1 0 0 "ok" 2 3 false None.

Lemma demo_client_status : client_status 0 demo_connected.1.1 0 = Some demo_status.
Proof. vm_compute. reflexivity. Qed.

Lemma demo_current_a : current demo_connected.1.1 "@" (cs_ClientID demo_status) = Some 0.
Proof. vm_compute. reflexivity. Qed.

Lemma demo_srv_eta : NewServer example_server demo_world = Ok (demo_srv.1, demo_srv.2).
Proof. etrans; [apply demo_srv_new|]. by destruct demo_srv. Qed.

Lemma Snapshot_lists_current_witness :
  ∃ out, Snapshot 0 demo_connected.1.1 = Some out ∧
    ∃ ts, ts ∈ out ∧ ts_Subdomain ts = "@" ∧ demo_status ∈ ts_Clients ts.
Proof.
  destruct (Snapshot_lists_current 0 example_server demo_world demo_srv.1 demo_srv.2
    demo_connected.1.1 demo_srv_eta demo_connected_run) as (out & Hout & Hl).
  exists out. split; [exact Hout|]. apply Hl. exists 0.
  exact (conj demo_current_a demo_client_status).
Defined.

End StatusDemo.
