(* ===== verification/StatusPage.v ===== *)
(** The status page as its readers see it: the text of the response, parsed and taken field
    by field, gives back the tunnels that serve a client. *)

From stdpp Require Import sorting.
From S2P Require Import Prelude GoStrings GoPath Decimal Json Config ControlPath Validate Host.
From S2P Require Import Registry RegistryInv RegistryOps RegistryRun RegistrySpec Route Rewrite.
From S2P Require Import Auth Server Directory ServerSpec ServerDirectory Proxy Status.

(** ** A reader of the page *)

Fixpoint field (k : string) (l : list (string * json)) : option json :=
  match l with
  | [] => None
  | (k', j) :: l => if bool_decide (k = k') then Some j else field k l
  end.

Definition as_object (j : json) : option (list (string * json)) :=
  match j with JObject l => Some l | _ => None end.
Definition as_string (j : json) : option string := match j with JString s => Some s | _ => None end.
Definition as_int (j : json) : option Z := match j with JInt z => Some z | _ => None end.
Definition as_bool (j : json) : option bool := match j with JBool b => Some b | _ => None end.

(** A list that is absent is written [null]. *)
Definition as_list (j : json) : option (list json) :=
  match j with JArray l => Some l | JNull => Some [] | _ => None end.

Definition string_field (k : string) (l : list (string * json)) : option string :=
  field k l ≫= as_string.
Definition int_field (k : string) (l : list (string * json)) : option Z := field k l ≫= as_int.

Section Reader.
  Context (read_time : string → option Z).

Definition time_field (k : string) (l : list (string * json)) : option Z :=
  string_field k l ≫= read_time.

Definition read_client (j : json) : option ClientStatus :=
  l ← as_object j;
  id ← string_field "client_id" l;
  session ← string_field "session_id" l;
  addr ← string_field "remote_addr" l;
  connected ← time_field "connected_at" l;
  lastPoll ← time_field "last_poll_at" l;
  polls ← int_field "poll_in_flight" l;
  streams ← int_field "active_streams" l;
  health ← string_field "local_health" l;
  toServer ← int_field "buffered_to_server" l;
  fromServer ← int_field "buffered_from_server" l;
  resumable ← field "resumable" l ≫= as_bool;
  deadline ← match field "resume_deadline" l with
             | None => Some None
             | Some j => Some <$> (as_string j ≫= read_time)
             end;
  Some (mkClientStatus id session addr connected lastPoll polls streams health toServer fromServer
          resumable deadline).

Definition read_tunnel (j : json) : option TunnelStatus :=
  l ← as_object j;
  sub ← string_field "subdomain" l;
  clients ← field "clients" l ≫= as_list;
  mkTunnelStatus sub <$> mapM read_client clients.

Definition read_status (j : json) : option statusResponse :=
  l ← as_object j;
  version ← string_field "version" l;
  up ← int_field "uptime_seconds" l;
  tunnels ← field "tunnels" l ≫= as_list;
  mkStatusResponse version up <$> mapM read_tunnel tunnels.

Definition read_page (body : string) : option statusResponse := json_parse body ≫= read_status.

(** ** What can be printed and read back *)

Section Laws.
  Context `{TimeText}.

(** The times that are printed are read back, and their text is UTF-8. *)
Definition times_read_back : Prop := ∀ t x,
  time_MarshalJSON t = Some x → read_time x = Some t ∧ valid_utf8 x = true.

Definition time_ok (t : Z) : bool := bool_decide (is_Some (time_MarshalJSON t)).

(** The strings are UTF-8 and the years have four digits. *)
Definition client_printable (c : ClientStatus) : bool :=
  forallb valid_utf8 [cs_ClientID c; cs_SessionID c; cs_RemoteAddr c; cs_LocalHealth c]
  && forallb time_ok (cs_ConnectedAt c :: cs_LastPollAt c :: option_list (cs_ResumeDeadline c)).

Definition tunnel_printable (t : TunnelStatus) : bool :=
  valid_utf8 (ts_Subdomain t) && forallb client_printable (ts_Clients t).

Lemma mapM_inverse {A B} (f : A → option B) (g : B → option A) l k :
  (∀ x y, f x = Some y → g y = Some x) → mapM f l = Some k → mapM g k = Some l.
Proof.
  intros Hfg Hk%mapM_Some. apply mapM_Some. induction Hk; constructor; eauto.
Qed.

Lemma mapM_forallb {A B} (f : A → option B) (p : A → bool) (q : B → bool) l :
  (∀ x, p x = true → ∃ y, f x = Some y ∧ q y = true) → forallb p l = true →
  ∃ k, mapM f l = Some k ∧ forallb q k = true.
Proof.
  intros Hf. induction l as [|x l IH]; simpl; [eauto|].
  intros [Hx Hl]%andb_true_iff. destruct (Hf x Hx) as (y & -> & Hy).
  destruct (IH Hl) as (k & -> & Hk). exists (y :: k). simpl. by rewrite Hy, Hk.
Qed.

Hypothesis Hread : times_read_back.

Lemma time_json_read t j : time_json t = Some j → as_string j ≫= read_time = Some t.
Proof.
  unfold time_json. destruct (time_MarshalJSON t) as [x|] eqn:Hx; [|done]. intros [= <-].
  by destruct (Hread t x Hx).
Qed.

Lemma time_json_ok t : time_ok t = true → ∃ j, time_json t = Some j ∧ json_valid j = true.
Proof.
  intros [x Hx]%bool_decide_eq_true_1. exists (JString x). unfold time_json. rewrite Hx.
  split; [done|]. by destruct (Hread t x Hx).
Qed.

Lemma client_json_read c j : client_json c = Some j → read_client j = Some c.
Proof.
  unfold client_json. destruct (time_json (cs_ConnectedAt c)) as [jc|] eqn:Hc; [|done].
  destruct (time_json (cs_LastPollAt c)) as [jl|] eqn:Hl; [|done].
  apply time_json_read in Hc, Hl. simpl.
  destruct (deadline_json (cs_ResumeDeadline c)) as [d|] eqn:Hd; [|done]. intros [= <-].
  unfold read_client, time_field, string_field, int_field. simpl.
  rewrite Hc. simpl. rewrite Hl. simpl.
  destruct c as [id ses addr cn lp pf st he bt bf re [t|]]; simpl in *.
  - destruct (time_json t) as [jt|] eqn:Ht; [|done]. apply time_json_read in Ht.
    injection Hd as <-. simpl. by rewrite Ht.
  - by injection Hd as <-.
Qed.

Lemma client_json_ok c :
  client_printable c = true → ∃ j, client_json c = Some j ∧ json_valid j = true.
Proof.
  unfold client_printable. simpl. rewrite !andb_true_iff.
  intros ((Hi & Hs & Ha & Hh & _) & Hc & Hl & Hd). unfold client_json.
  destruct (time_json_ok _ Hc) as (jc & -> & Hvc), (time_json_ok _ Hl) as (jl & -> & Hvl). simpl.
  destruct (cs_ResumeDeadline c) as [t|]; simpl in *.
  - apply andb_true_iff in Hd as [Ht _]. destruct (time_json_ok _ Ht) as (jt & -> & Hvt). simpl.
    eexists. split; [done|]. cbn. by rewrite Hi, Hs, Ha, Hh, Hvc, Hvl, Hvt.
  - eexists. split; [done|]. cbn. by rewrite Hi, Hs, Ha, Hh, Hvc, Hvl.
Qed.

Lemma tunnel_json_read t j : tunnel_json t = Some j → read_tunnel j = Some t.
Proof.
  unfold tunnel_json. destruct (mapM client_json (ts_Clients t)) as [l|] eqn:Hl; [|done].
  intros [= <-]. apply (mapM_inverse _ read_client _ _ client_json_read) in Hl.
  unfold read_tunnel. simpl. destruct t as [sub cs]. simpl in *.
  destruct l as [|j l]; simpl; [by injection Hl as <-|]. simpl in Hl. by rewrite Hl.
Qed.

Lemma tunnel_json_ok t :
  tunnel_printable t = true → ∃ j, tunnel_json t = Some j ∧ json_valid j = true.
Proof.
  intros [Hs Hc]%andb_true_iff. unfold tunnel_json.
  destruct (mapM_forallb _ _ _ _ client_json_ok Hc) as (l & -> & Hl).
  eexists. split; [done|]. cbn. rewrite Hs. by destruct l; simpl in *; rewrite ?Hl.
Qed.

(** The response body of a printable page is read back as that page. *)
Lemma status_page_read p :
  valid_utf8 (sp_Version p) = true → forallb tunnel_printable (sp_Tunnels p) = true →
  read_page (rs_Body (writeJSON StatusOK (status_json p))) = Some p.
Proof.
  intros Hv Ht. destruct (mapM_forallb _ _ _ _ tunnel_json_ok Ht) as (l & Hl & Hvl).
  unfold status_json. rewrite Hl. cbn [mbind option_bind]. unfold writeJSON, read_page. simpl.
  rewrite json_parse_valid by (cbn; by rewrite Hv, Hvl). simpl.
  apply (mapM_inverse _ read_tunnel _ _ tunnel_json_read) in Hl.
  unfold read_status. simpl. rewrite Hl. by destruct p.
Qed.

End Laws.

End Reader.

Lemma is_ascii_valid s : is_ascii s = true → valid_utf8 s = true.
Proof.
  unfold is_ascii. intros Hs. apply bool_decide_eq_true_2. induction s as [|c s IH]; [done|].
  cbn [str_forall] in Hs. apply andb_true_iff in Hs as [Hc Hs]. simpl. by rewrite Hc, IH.
Qed.

(** An error response is read back too. *)
Definition read_error (body : string) : option string :=
  j ← json_parse body; l ← as_object j; string_field "error" l.

Lemma error_read status msg :
  valid_utf8 msg = true → read_error (rs_Body (writeHTTPError status msg)) = Some msg.
Proof.
  intros Hm. unfold read_error, writeHTTPError, writeJSONError. simpl rs_Body.
  by rewrite json_parse_valid by (cbn; by rewrite Hm).
Qed.

(** ** The page of a running server *)

Section StatusPage.
  Context `{PollmuxConsts, UnicodeTables, PollmuxServer, SliceSort, !SessionStats, TimeText}.
  Context (zero_time : Z) (read_time : string → option Z).

(** Every pool is listed, the empty ones too. *)
Lemma Snapshot_pools s out sub :
  Snapshot zero_time s = Some out →
  (∃ ts, ts ∈ out ∧ ts_Subdomain ts = sub) ↔ is_Some (Pool sub s).
Proof.
  intros Hout. unfold Snapshot in Hout. split.
  - intros (ts & Hts & <-). apply (mapM_elem _ _ _ _ Hout) in Hts as ([n p] & Hnp & Hts).
    apply elem_of_map_to_list in Hnp. unfold tunnel_status in Hts. simpl in Hts.
    destruct (mapM (client_status _ _) _); simpl in Hts; [|done]. injection Hts as <-. by exists p.
  - intros [p Hp]. pose proof Hout as Hall. apply mapM_Some in Hall.
    assert ((sub, p) ∈ map_to_list (byName (s_reg s))) as [i Hi]%list_elem_of_lookup
      by by apply elem_of_map_to_list.
    destruct (Forall2_lookup_l _ _ _ _ _ Hall Hi) as (ts & Hts & Heq).
    exists ts. split; [by eapply list_elem_of_lookup_2|]. unfold tunnel_status in Heq. simpl in Heq.
    destruct (mapM (client_status _ _) _); simpl in Heq; [|done]. by injection Heq as <-.
Qed.

(** The names and times in a state can be printed. *)
Definition printable (s : store) : Prop :=
  (∀ sub, is_Some (Pool sub s) → valid_utf8 sub = true) ∧
  ∀ sub id t cs, current s sub id = Some t → client_status zero_time s t = Some cs →
    client_printable cs = true.

Lemma Snapshot_printable s out :
  reg_inv s → sessions_set s → Snapshot zero_time s = Some out →
  printable s ↔ forallb tunnel_printable out = true.
Proof.
  intros Hinv Hset Hout. destruct (Snapshot_spec zero_time s Hinv Hset) as (out' & Hout' & Hall).
  rewrite Hout in Hout'. injection Hout' as <-. unfold printable. split.
  - intros [Hsub Hcs]. apply forallb_forall. intros ts Hts%list_elem_of_In. apply andb_true_iff.
    split; [apply Hsub, (Snapshot_pools s out); eauto|].
    apply forallb_forall. intros cs Hin%list_elem_of_In.
    destruct (proj1 (Hall (ts_Subdomain ts) cs)) as (t & Hcur & Hc); [eauto|]. by eapply Hcs.
  - rewrite forallb_forall. intros Hp. split.
    + intros sub (ts & Hts & <-)%(Snapshot_pools s out sub Hout).
      by apply list_elem_of_In, Hp, andb_true_iff in Hts as [Hv _].
    + intros sub id t cs Hcur Hcs. destruct (proj2 (Hall sub cs)) as (ts & Hts & _ & Hin).
      { exists t. pose proof (client_status_spec zero_time s t) as Hsp. rewrite Hcs in Hsp.
        destruct Hsp as [-> _]. split; [|done]. pose proof (proj1 (current_iff s sub id t Hinv) Hcur)
          as (p & _ & _ & ->). done. }
      apply list_elem_of_In, Hp, andb_true_iff in Hts as [_ Hall'].
      rewrite forallb_forall in Hall'. by apply Hall', list_elem_of_In.
Qed.

(** C35: a GET of the status page of a running server answers 200 with a JSON text that reads
    back as the version, the uptime, every subdomain that has a pool, and under each exactly
    the clients it currently serves, with all their fields; any other method is answered 405
    with a JSON error.  It never panics. *)
Theorem status_page_roundtrip c w srv s0 s r startedAt now :
  NewServer c w = Ok (srv, s0) → rtc (server_step srv) s0 s →
  times_read_back read_time → printable s →
  ∃ resp, handleStatus zero_time r startedAt now s = Some resp ∧
  if bool_decide (rq_Method r = "GET") then
    rs_Status resp = StatusOK ∧ ∃ page, read_page read_time (rs_Body resp) = Some page
    ∧ sp_Version page = Version ∧ sp_UptimeSeconds page = seconds (uptime startedAt now)
    ∧ (∀ sub, (∃ ts, ts ∈ sp_Tunnels page ∧ ts_Subdomain ts = sub) ↔ is_Some (Pool sub s))
    ∧ ∀ sub cs, (∃ ts, ts ∈ sp_Tunnels page ∧ ts_Subdomain ts = sub ∧ cs ∈ ts_Clients ts) ↔
        ∃ t, current s sub (cs_ClientID cs) = Some t ∧ client_status zero_time s t = Some cs
  else rs_Status resp = StatusMethodNotAllowed
    ∧ read_error (rs_Body resp) = Some "method not allowed".
Proof.
  intros Hnew Hrun Hread Hpr. unfold handleStatus.
  destruct (server_run_sessions c w srv s0 s Hnew Hrun) as [Hinv Hset].
  destruct (Snapshot_spec zero_time s Hinv Hset) as (out & Hout & Hall).
  destruct (bool_decide_reflect (rq_Method r = "GET")) as [Hm|Hm].
  - rewrite bool_decide_eq_false_2, Hout by tauto. eexists. split; [done|]. split; [done|].
    eexists. split; [apply (status_page_read read_time Hread)|].
    + done.
    + by apply (Snapshot_printable s out Hinv Hset Hout).
    + split_and!; [done | done | | exact Hall]. intros sub. by apply Snapshot_pools.
  - rewrite bool_decide_eq_true_2 by done. eexists. split; [done|]. split; [done|].
    by apply error_read.
Qed.

End StatusPage.

Section StatusPageDemo.
  #[local] Existing Instance example_consts.
  #[local] Existing Instance ascii_tables.
  #[local] Existing Instance demo_transport.
  #[local] Existing Instance insertion_SliceSort.
  #[local] Existing Instance demo_pollmux.
  #[local] Existing Instance demo_stats.

(** Times as decimal numbers. *)
#[local] Instance demo_time : TimeText := {|
  time_MarshalJSON t := if Z.leb 0 t && Z.ltb t (2 ^ 63) then Some (digits t) else None
|}.

Lemma demo_times : times_read_back Atoi.
Proof.
  intros t x. simpl. destruct (Z.leb_spec 0 t), (Z.ltb_spec t (2 ^ 63)); simpl; try done.
  intros [= <-]. split; [by apply Atoi_digits|]. apply is_ascii_valid.
  pose proof (digits_digits t) as Hd. unfold is_ascii. induction (digits t) as [|a s IH]; [done|].
  cbn [str_forall] in *. apply andb_true_iff in Hd as [Ha Hd]. rewrite (IH Hd), andb_true_r.
  unfold is_digit, digit_val in Ha. apply bool_decide_eq_true_1 in Ha.
  destruct ((48 <=? byte_val a) && (byte_val a <=? 57)) eqn:E; [|by destruct Ha].
  apply andb_true_iff in E as [_ E%Nat.leb_le]. apply Nat.ltb_lt. lia.
Qed.

(** The page of the example server before a client connects: a pool without clients shows
    [null]. *)
Example status_page_text :
  rs_Body <$> handleStatus 0 (demo_get "/status") 0 (90 * Second) demo_srv.2
  = Some (json_encode (JObject [("version", JString "0.1.0"); ("uptime_seconds", JInt 90);
      ("tunnels", JArray [JObject [("subdomain", JString "myapp"); ("clients", JNull)];
                          JObject [("subdomain", JString "@"); ("clients", JNull)]])])).
Proof. vm_compute. reflexivity. Qed.

Definition demo_snapshot : list TunnelStatus :=
  [mkTunnelStatus "myapp" []; mkTunnelStatus "@" [demo_status]].

Lemma demo_printable : printable 0 demo_connected.1.1.
Proof.
  destruct (server_run_sessions example_server demo_world demo_srv.1 demo_srv.2
    demo_connected.1.1 demo_srv_eta demo_connected_run) as [Hinv Hset].
  apply (Snapshot_printable 0 _ demo_snapshot Hinv Hset); by vm_compute.
Qed.

Lemma status_page_roundtrip_witness :
  ∃ resp page, handleStatus 0 (demo_get "/status") 0 (90 * Second) demo_connected.1.1 = Some resp
    ∧ read_page Atoi (rs_Body resp) = Some page
    ∧ ∃ ts, ts ∈ sp_Tunnels page ∧ ts_Subdomain ts = "@" ∧ demo_status ∈ ts_Clients ts.
Proof.
  destruct (status_page_roundtrip 0 Atoi example_server demo_world demo_srv.1 demo_srv.2
    demo_connected.1.1 (demo_get "/status") 0 (90 * Second) demo_srv_eta demo_connected_run
    demo_times demo_printable) as (resp & Hresp & _ & page & Hpage & _ & _ & _ & Hl).
  exists resp, page. split; [exact Hresp|]. split; [exact Hpage|]. apply Hl. exists 0.
  exact (conj demo_current_a demo_client_status).
Defined.

End StatusPageDemo.
