(* ===== verification/Streams.v ===== *)
(** The streams of a running server (internal/server/bridge.go): [OpenStream] and
    [countedConn.Close] against the connections that are really open, and what the
    counter [ActiveStreams] is worth to the drain goroutines. *)

From S2P Require Import Prelude GoStrings GoPath Config ControlPath Validate Host Registry.
From S2P Require Import RegistryInv RegistryOps RegistryRun RegistrySpec Route Rewrite Auth.
From S2P Require Import Server Directory ServerSpec Fields.

Section Streams.
  Context `{PollmuxConsts, UnicodeTables, PollmuxServer, SliceSort}.

(** ** The connections that are open *)

(** A store, and for each connection [OpenStream] has returned and nobody has closed the
    tunnel it belongs to.  The transport closes every connection once. *)
Inductive traffic_step (srv : Server) : store * list tref → store * list tref → Prop :=
| tf_hook s e s' conns : hook_step srv s e s' → traffic_step srv (s, conns) (s', conns)
| tf_open s t s' conns :
    is_Some (s_tunnels s !! t) → OpenStream t s = Some (s', None) →
    traffic_step srv (s, conns) (s', t :: conns)
| tf_open_failed s t s' e conns :
    is_Some (s_tunnels s !! t) → OpenStream t s = Some (s', Some e) →
    traffic_step srv (s, conns) (s', conns)
| tf_close s t pre post :
    is_Some (s_tunnels s !! t) →
    traffic_step srv (s, pre ++ t :: post) (countedConn_Close t s, pre ++ post).

Definition conns_of (t : tref) (conns : list tref) : Z :=
  Z.of_nat (length (filter (λ x, x = t) conns)).

Lemma traffic_server srv x y : traffic_step srv x y → server_step srv x.1 y.1.
Proof.
  intros [s e s' conns Hh|s t s' conns Ht Ho|s t s' e conns Ht Ho|s t pre post Ht]; simpl.
  - by eapply ss_hook.
  - by eapply ss_open.
  - by eapply ss_open.
  - by apply ss_close_stream.
Qed.

Lemma OpenStream_streams t s s' e x :
  OpenStream t s = Some (s', e) →
  ct_ActiveStreams (tunnel s' x) =
    if bool_decide (x = t ∧ e = None) then wrap64 (ct_ActiveStreams (tunnel s x) + 1)
    else ct_ActiveStreams (tunnel s x).
Proof.
  unfold OpenStream. destruct (ct_Yamux (tunnel s t)) as [y|]; [|done].
  destruct (Yamux_Open (s_world s) y) as [w [err|]]; intros [= <- <-].
  - by rewrite bool_decide_eq_false_2 by by intros [].
  - unfold upd_tunnel. rewrite tunnel_set_tunnel. case_decide as Hd.
    + subst x. by rewrite bool_decide_eq_true_2.
    + by rewrite bool_decide_eq_false_2 by by intros [? _].
Qed.

(** The counter of a tunnel is the number of its open connections, up to wrap-around. *)
Definition counted (x : store * list tref) : Prop :=
  ∀ t, ct_ActiveStreams (tunnel x.1 t) = wrap64 (conns_of t x.2).

Lemma conns_of_cons t u conns :
  conns_of t (u :: conns) = (conns_of t conns + if decide (u = t) then 1 else 0)%Z.
Proof. unfold conns_of. rewrite filter_cons. case_decide; simpl; lia. Qed.

Lemma conns_of_delete t u pre post :
  conns_of t (pre ++ post) =
    (conns_of t (pre ++ u :: post) + if decide (u = t) then -1 else 0)%Z.
Proof.
  unfold conns_of. rewrite !filter_app, filter_cons, !length_app. case_decide; simpl; lia.
Qed.

Lemma counted_step srv x y :
  reg_inv x.1 → traffic_step srv x y → counted x → counted y.
Proof.
  intros Hinv Hstep Hc u. specialize (Hc u).
  destruct Hstep as [s e s' conns Hh|s t s' conns Ht Ho|s t s' e conns Ht Ho|s t pre post Ht];
    simpl in *.
  - by rewrite (field_hook ct_ActiveStreams (λ _, True) srv s e s' Hinv ltac:(done) Hh u I).
  - rewrite (OpenStream_streams _ _ _ _ u Ho), conns_of_cons, Hc.
    case_bool_decide as Hd; case_decide; [| |exfalso; by apply Hd|by rewrite Z.add_0_r].
    + by rewrite wrap64_add_l.
    + by destruct Hd as [-> _].
  - rewrite (OpenStream_streams _ _ _ _ u Ho), bool_decide_eq_false_2 by by intros [].
    done.
  - unfold countedConn_Close, upd_tunnel. rewrite tunnel_set_tunnel, (conns_of_delete u t).
    case_decide; [|by rewrite Z.add_0_r]. subst u. simpl. by rewrite Hc, wrap64_add_l.
Qed.

Lemma traffic_run srv x y :
  rtc (traffic_step srv) x y → serves srv x.1 → reg_inv x.1 → counted x →
  reg_inv y.1 ∧ counted y.
Proof.
  induction 1 as [|x z y Hstep _ IH]; [done|]. intros Hs Hinv Hc.
  destruct (server_run_inv srv x.1 z.1 (rtc_once _ _ (traffic_server srv x z Hstep)) Hs Hinv).
  apply IH; [done | done | by apply (counted_step srv x)].
Qed.

(** A new server has no tunnels, hence no open connections. *)
Lemma NewServer_counted c w srv s :
  NewServer c w = Ok (srv, s) → serves srv s ∧ reg_inv s ∧ counted (s, []).
Proof.
  intros Hn. pose proof (NewServer_tunnels c w srv s Hn) as Ht.
  destruct (NewServer_serves c w srv s Hn) as [Hs Hi]. split_and!; [done..|].
  intros t. simpl. unfold tunnel. by rewrite Ht.
Qed.

Lemma conns_of_bounds t conns : (0 ≤ conns_of t conns ≤ Z.of_nat (length conns))%Z.
Proof. unfold conns_of. pose proof (length_filter (λ x, x = t) conns). lia. Qed.

Lemma conns_of_zero t conns : conns_of t conns = 0%Z → t ∉ conns.
Proof.
  unfold conns_of. intros Hz Hin.
  assert (t ∈ filter (λ x, x = t) conns) as Hf by by apply list_elem_of_filter.
  destruct (filter _ _); [by apply elem_of_nil in Hf | done].
Qed.

(** [ActiveStreams] of every tunnel is the number of its connections that are open, in
    every state of every run of a server, whatever else happens; so the drain goroutine of
    a replaced tunnel that closes it before its deadline cuts no open connection. *)
Theorem open_streams_counted c w srv s0 s conns :
  NewServer c w = Ok (srv, s0) → rtc (traffic_step srv) (s0, []) (s, conns) →
  (Z.of_nat (length conns) < 2 ^ 63)%Z →
  (∀ t, ct_ActiveStreams (tunnel s t) = conns_of t conns)
  ∧ ∀ t deadline wake now s', drain_run now t (DLoop deadline wake) s = (s', None) →
      t ∉ conns ∨ (deadline ≤ now)%Z.
Proof.
  intros Hn Hrun Hlen. destruct (NewServer_counted c w srv s0 Hn) as (Hs & Hi & Hc).
  destruct (traffic_run srv _ _ Hrun Hs Hi Hc) as [_ Hcs]. simpl in Hcs.
  assert (∀ t, ct_ActiveStreams (tunnel s t) = conns_of t conns) as Heq.
  { intros t. rewrite Hcs. apply wrap64_id. pose proof (conns_of_bounds t conns).
    unfold int64. simpl. lia. }
  split; [done|]. intros t deadline wake now s' Hr. simpl in Hr.
  destruct (Z.ltb now wake); [done|].
  destruct (drain_check_cases now t deadline s) as [(pc & Hd & _)|[_ [Hz|?]]]; [congruence| |by right].
  left. apply conns_of_zero. by rewrite <-Heq.
Qed.

End Streams.

(** ** Witness: the example client connects and a request opens a stream *)

Section StreamsDemo.
  #[local] Existing Instance example_consts.
  #[local] Existing Instance ascii_tables.
  #[local] Existing Instance demo_transport.
  #[local] Existing Instance demo_pollmux.
  #[local] Existing Instance insertion_SliceSort.

Definition demo_opened : store := from_option fst demo_connected.1.1 (OpenStream 0 demo_connected.1.1).

Lemma demo_traffic : rtc (traffic_step demo_srv.1) (demo_srv.2, []) (demo_opened, [0]).
Proof.
  eapply rtc_l; [|apply rtc_once].
  - eapply tf_hook, (hs_connect _ _ 0 demo_sess demo_meta demo_connected.1.1 demo_connected.1.2
      demo_connected.2); by vm_compute.
  - apply tf_open; [by vm_compute; eauto | by vm_compute].
Qed.

Lemma open_streams_counted_witness : ct_ActiveStreams (tunnel demo_opened 0) = 1%Z.
Proof.
  apply (open_streams_counted example_server demo_world demo_srv.1 demo_srv.2 demo_opened [0]).
  - etrans; [apply demo_srv_new | by destruct demo_srv].
  - apply demo_traffic.
  - done.
Defined.

End StreamsDemo.
