(* ===== verification/Serve.v ===== *)
(** A request from its arrival at [rootHandler] to its answer: the control endpoints behind
    gorilla/mux and [authenticateSession], and the public proxy from [servePublic] through
    [httputil.ReverseProxy] and the tunnel back to [modifyProxyResponse] or
    [proxyErrorHandler].  What the rest of the server does in the meantime is a function
    [rest] of the definitions: any run of the server. *)

From S2P Require Import Prelude GoStrings GoPath Config ControlPath Validate Host Registry.
From S2P Require Import RegistryInv RegistryOps RegistryRun RegistrySpec Route Rewrite Auth.
From S2P Require Import Server Directory ServerSpec Fields HopHeaders Proxy Streams.

(** ** What the request meets outside the program *)

(** gorilla/mux: the route a request is dispatched to with its path variables, or the
    status (301, 404, 405) the router answers itself. *)
Inductive mux_answer :=
| MuxRoute (route : control_route) (vars : gmap string string)
| MuxStatus (code : Z).

Class Mux := { mux_match : list control_route → string → string → mux_answer }.

(** It dispatches to one of its routes, of the request's method. *)
Class MuxOk `{Mux} : Prop := {
  mux_match_ok routes method path route vars :
    mux_match routes method path = MuxRoute route vars →
    route ∈ routes ∧ cr_method route = method
}.

(** The settings of [newProxy]'s transport and reverse proxy. *)
Record proxy_settings := mkProxySettings {
  ps_DisableKeepAlives : bool;
  ps_ForceAttemptHTTP2 : bool;
  ps_ResponseHeaderTimeout : Z;
  ps_FlushInterval : Z
}.

(** The HTTP exchange over an open stream of a multiplexer: the transport, the client at the
    other end and its local service, which answer or fail, within the timeout of the settings. *)
Class Backend `{Transport} := {
  exchange : world → yamux → proxy_settings → OutRequest
    → world * result proxy_error HTTPResponse
}.

(** The transport reports no error of the server's own. *)
Class BackendOk `{Backend} : Prop := {
  exchange_error w y ps out : (exchange w y ps out).2 ≠ Err errNoTunnel
}.

(** ** The answers *)

Inductive control_verdict :=
| ControlStatus (code : Z)
| SessionNotFound
| Reached (h : control_handler) (id : string).

(** A response, or the switch to another protocol with the header of the 101 response. *)
Inductive proxy_outcome :=
| Answered (resp : HTTPResponse)
| Switched (h : Header).

Inductive root_answer :=
| ControlAnswer (v : control_verdict)
| PublicAnswer (o : proxy_outcome).

Definition StatusSwitchingProtocols : Z := 101.

Section Serve.
  Context `{PollmuxConsts, UnicodeTables, PollmuxServer, SliceSort, NetURL, !Mux, !Backend}.

(** ** The control endpoints *)

(** The path variable that names a session, for pollmux and for [authenticateSession]. *)
Definition SessionIDFunc (vars : gmap string string) : string := meta_get vars "id".

Definition serve_control (srv : Server) (r : Request) (s : store) : control_verdict :=
  match mux_match (buildControlMux (sv_cfg srv)) (rq_Method r) (rq_Path r) with
  | MuxStatus code => ControlStatus code
  | MuxRoute route vars =>
      let id := SessionIDFunc vars in
      if cr_authenticated route then
        match authenticateSession srv s id r with
        | ServeNext => Reached (cr_handler route) id
        | NotFound => SessionNotFound
        end
      else Reached (cr_handler route) id
  end.

(** ** The reverse proxy *)

Definition newProxy (c : ServerConfig) : proxy_settings :=
  mkProxySettings true false (px_ResponseHeaderTimeout (sc_Proxy c)) (-1).

(** The transport: a connection of its own for every request, closed when the exchange is
    over.  [None] is a panic. *)
Definition RoundTrip (ps : proxy_settings) (rest : store → store) (ctx : proxyCtx)
    (out : OutRequest) (s : store) : option (store * result proxy_error HTTPResponse) :=
  match DialContext (Some ctx) s with
  | None => None
  | Some (s, Some e) => Some (s, Err e)
  | Some (s, None) =>
      match ct_Yamux (tunnel s (pc_tunnel ctx)) with
      | None => None
      | Some y =>
          let '(w, res) := exchange (s_world s) y ps out in
          Some (countedConn_Close (pc_tunnel ctx) (rest (set_world w s)), res)
      end
  end.

(** A request without a [User-Agent] is sent without one. *)
Definition default_User_Agent (out : OutRequest) : OutRequest :=
  let h := or_Header out in
  if bool_decide (h !! "User-Agent" = None) then
    mkOutRequest (or_Scheme out) (or_URLHost out) (or_Path out) (or_Host out)
      (Header_Set "User-Agent" "" h)
  else out.

Definition backend_response (ctx : proxyCtx) (out : OutRequest) (resp : HTTPResponse)
    : proxy_outcome :=
  if bool_decide (rs_Status resp = StatusSwitchingProtocols) then
    let h := modifyProxyResponse (Some ctx) (rs_Header resp) in
    if IsPrint (upgradeType h)
       && EqualFold_ascii (upgradeType (or_Header out)) (upgradeType h)
    then Switched h
    else Answered (proxyErrorHandler (OtherProxyError "backend tried to switch protocol"))
  else
    Answered (mkResponse (rs_Status resp)
      (modifyProxyResponse (Some ctx) (removeHopByHopHeaders (rs_Header resp))) (rs_Body resp)).

(** The request the backend gets, if the proxy sends one. *)
Definition outgoing (ctx : proxyCtx) (r : Request) : option OutRequest :=
  (λ h, default_User_Agent (proxy_Rewrite (Some ctx) r (drop_forwarded h)))
    <$> hop_request (rq_Header r).

(** [ReverseProxy.ServeHTTP] with [newProxy]'s hooks. *)
Definition proxy_ServeHTTP (srv : Server) (rest : store → store) (ctx : proxyCtx) (r : Request)
    (s : store) : option (store * proxy_outcome) :=
  match outgoing ctx r with
  | None =>
      Some (s, Answered (proxyErrorHandler (OtherProxyError "client tried to switch to invalid protocol")))
  | Some out =>
      match RoundTrip (newProxy (sv_cfg srv)) rest ctx out s with
      | None => None
      | Some (s, Err e) => Some (s, Answered (proxyErrorHandler e))
      | Some (s, Ok resp) => Some (s, backend_response ctx out resp)
      end
  end.

Definition serve_public (srv : Server) (rest : store → store) (r : Request) (s : store)
    : option (store * proxy_outcome) :=
  match servePublic srv r s with
  | (s, inl resp) => Some (s, Answered resp)
  | (s, inr ctx) => proxy_ServeHTTP srv rest ctx r (rest s)
  end.

(** [RootHandler], for as long as it takes to answer. *)
Definition root_request (srv : Server) (rest : store → store) (r : Request) (s : store)
    : option (store * root_answer) :=
  match rootHandler srv r with
  | ToControl => Some (s, ControlAnswer (serve_control srv r s))
  | ToPublic => prod_map id PublicAnswer <$> serve_public srv rest r s
  end.

(** ** Lemmas *)

Lemma yamux_alloc s t y : ct_Yamux (tunnel s t) = Some y → is_Some (s_tunnels s !! t).
Proof. unfold tunnel. destruct (s_tunnels s !! t); [eauto | done]. Qed.

(** [rest] is something the server can do. *)
Definition some_run (srv : Server) (rest : store → store) : Prop :=
  ∀ s, rtc (server_step srv) s (rest s).

(** What a round trip over a multiplexer gives: the error of opening a stream, or that of the
    exchange, or a response. *)
Definition round_trip (ps : proxy_settings) (out : OutRequest) (y : yamux) (w : world)
    : result proxy_error HTTPResponse :=
  match Yamux_Open w y with
  | (_, Some e) => Err (OtherProxyError e)
  | (w, None) => (exchange w y ps out).2
  end.

(** For a tunnel with a multiplexer the transport does not panic, all it does are steps of
    the server, and it takes back the stream it has counted. *)
Lemma RoundTrip_spec srv rest ps ctx out s y :
  serves srv s → reg_inv s → some_run srv rest → ct_Yamux (tunnel s (pc_tunnel ctx)) = Some y →
  ∃ s', RoundTrip ps rest ctx out s = Some (s', round_trip ps out y (s_world s))
    ∧ rtc (server_step srv) s s'
    ∧ ((∀ x, rest x = x) → (∀ t, int64 (ct_ActiveStreams (tunnel s t))) →
       ∀ t, ct_ActiveStreams (tunnel s' t) = ct_ActiveStreams (tunnel s t)).
Proof.
  intros Hs Hinv Hrest Hy. unfold RoundTrip, DialContext, round_trip.
  set (t0 := pc_tunnel ctx) in *. pose proof (yamux_alloc _ _ _ Hy) as Halloc.
  destruct (OpenStream t0 s) as [[s1 e]|] eqn:Ho;
    [|unfold OpenStream in Ho; rewrite Hy in Ho; by repeat case_match].
  assert (rtc (server_step srv) s s1) as Hrun1 by (by eapply rtc_once, ss_open).
  assert (Yamux_Open (s_world s) y = (s_world s1, e)) as ->.
  { unfold OpenStream in Ho. rewrite Hy in Ho. by destruct (Yamux_Open _ y) as [w [e'|]]; simplify_eq. }
  destruct e as [e|]; simpl.
  - exists s1. split_and!; [done | done|]. intros _ _ t.
    rewrite (OpenStream_streams _ _ _ _ t Ho). by rewrite bool_decide_eq_false_2 by by intros [].
  - rewrite (yamux_run srv _ _ _ _ Hrun1 Hs Hinv Hy).
    destruct (exchange (s_world s1) y ps out) as [w res].
    assert (rtc (server_step srv) s (rest (set_world w s1))) as Hrun2.
    { etrans; [done|]. etrans; [|apply Hrest]. eapply rtc_once, ss_hook, hs_world. }
    pose proof (yamux_run srv _ _ _ _ Hrun2 Hs Hinv Hy) as Hy2.
    exists (countedConn_Close t0 (rest (set_world w s1))). split_and!; [done| |].
    + eapply rtc_r; [exact Hrun2|]. apply ss_close_stream. by eapply yamux_alloc.
    + intros Hid Hint t. pose proof (OpenStream_streams _ _ _ _ t Ho) as Ht.
      rewrite Hid. unfold countedConn_Close, upd_tunnel. rewrite tunnel_set_tunnel.
      change (tunnel (set_world w s1)) with (tunnel s1). destruct (decide (t = t0)) as [Hd|Hd].
      * subst t. rewrite bool_decide_eq_true_2 in Ht by done.
        rewrite decide_True by done. unfold add_ActiveStreams. simpl.
        rewrite Ht, wrap64_add_l, <-Z.add_assoc, Z.add_0_r. by apply wrap64_id.
      * rewrite bool_decide_eq_false_2 in Ht by by intros [? _]. by rewrite decide_False.
Qed.

(** Choosing a tunnel for a request is a step of the server. *)
Lemma servePublic_run srv r s :
  serves srv s → is_rooted (rq_Path r) = true → rtc (server_step srv) s (servePublic srv r s).1.
Proof.
  intros Hs Hroot. pose proof (servePublic_cases srv r s Hs Hroot) as Hc.
  destruct (HostKey _ _) as [h|]; [|by rewrite Hc].
  destruct Hc as [[-> _]|(b & p & _ & _ & Hp & _ & _ & ->)]; [done|].
  by eapply rtc_once, ss_hook, hs_pick.
Qed.

Lemma servePublic_yamux srv r s s' ctx :
  serves srv s → is_rooted (rq_Path r) = true → servePublic srv r s = (s', inr ctx) →
  (∃ y, ct_Yamux (tunnel s' (pc_tunnel ctx)) = Some y) ∧ ∀ t, tunnel s' t = tunnel s t.
Proof.
  intros Hs Hroot Hsv. pose proof (servePublic_cases srv r s Hs Hroot) as Hc.
  destruct (HostKey _ _) as [h|]; [|congruence].
  destruct Hc as [[Hn _]|(b & p & _ & _ & _ & _ & _ & Heq)]; [congruence|].
  rewrite Hsv in Heq. destruct (Pick p s).2 as [t|] eqn:E; [|congruence].
  destruct (Z.leb _ _); [congruence|]. injection Heq as -> ->.
  apply Pick_member in E as [_ [y Hy]%serving_yamux]. split; [by exists y | done].
Qed.

(** How the proxy answers a request for which it has chosen a tunnel with multiplexer [y],
    when the world is [w] at the moment the stream is opened. *)
Definition proxied_answer (srv : Server) (ctx : proxyCtx) (r : Request) (y : yamux) (w : world)
    : proxy_outcome :=
  match outgoing ctx r with
  | None => Answered (writeHTTPError 502 "backend error")
  | Some out =>
      match round_trip (newProxy (sv_cfg srv)) out y w with
      | Ok resp => backend_response ctx out resp
      | Err DeadlineExceeded => Answered (writeHTTPError 504 "backend timeout")
      | Err _ => Answered (writeHTTPError 502 "backend error")
      end
  end.

Lemma proxy_ServeHTTP_spec `{!BackendOk} srv rest ctx r s y :
  serves srv s → reg_inv s → some_run srv rest → ct_Yamux (tunnel s (pc_tunnel ctx)) = Some y →
  ∃ s', proxy_ServeHTTP srv rest ctx r s = Some (s', proxied_answer srv ctx r y (s_world s))
    ∧ rtc (server_step srv) s s'
    ∧ ((∀ x, rest x = x) → (∀ t, int64 (ct_ActiveStreams (tunnel s t))) →
       ∀ t, ct_ActiveStreams (tunnel s' t) = ct_ActiveStreams (tunnel s t)).
Proof.
  intros Hs Hinv Hrest Hy. unfold proxy_ServeHTTP, proxied_answer.
  destruct (outgoing ctx r) as [out|]; [|by eexists s].
  destruct (RoundTrip_spec srv rest (newProxy (sv_cfg srv)) ctx out s y Hs Hinv Hrest Hy)
    as (s' & -> & Hrun & Hbal).
  exists s'. split_and!; [|done|done].
  assert (round_trip (newProxy (sv_cfg srv)) out y (s_world s) ≠ Err errNoTunnel) as Hne.
  { unfold round_trip. destruct (Yamux_Open _ y) as [w [e|]]; [done | apply exchange_error]. }
  destruct (round_trip _ _ _ _) as [resp|[| |]]; [reflexivity | reflexivity | by destruct Hne |].
  reflexivity.
Qed.

(** Serving a public request: it is answered, by [servePublic] or through the tunnel it has
    chosen, whose multiplexer is there. *)
Lemma serve_public_spec `{!BackendOk} srv rest r s :
  serves srv s → reg_inv s → is_rooted (rq_Path r) = true → some_run srv rest →
  ∃ s' o, serve_public srv rest r s = Some (s', o) ∧ rtc (server_step srv) s s'
    ∧ match servePublic srv r s with
      | (_, inl resp) => o = Answered resp
      | (s1, inr ctx) => ∃ y, ct_Yamux (tunnel s (pc_tunnel ctx)) = Some y
          ∧ o = proxied_answer srv ctx r y (s_world (rest s1))
      end
    ∧ ((∀ x, rest x = x) → (∀ t, int64 (ct_ActiveStreams (tunnel s t))) →
       ∀ t, ct_ActiveStreams (tunnel s' t) = ct_ActiveStreams (tunnel s t)).
Proof.
  intros Hs Hinv Hroot Hrest. unfold serve_public.
  pose proof (servePublic_run srv r s Hs Hroot) as Hrun1.
  pose proof (servePublic_cases srv r s Hs Hroot) as Hc.
  destruct (servePublic srv r s) as [s1 [resp|ctx]] eqn:Hsv; simpl in *.
  { eexists s1, _. split_and!; [done | done | done |]. intros _ _ t.
    destruct (HostKey _ _); [|by simplify_eq].
    destruct Hc as [[[= ->] _]|(b & p & _ & _ & _ & _ & _ & [= -> _])]; done. }
  destruct (servePublic_yamux srv r s s1 ctx Hs Hroot Hsv) as [[y Hy] HT].
  destruct (server_run_inv srv s s1 Hrun1 Hs Hinv) as [Hs1 Hinv1].
  destruct (server_run_inv srv s1 (rest s1) (Hrest s1) Hs1 Hinv1) as [Hs2 Hinv2].
  pose proof (yamux_run srv _ _ _ _ (Hrest s1) Hs1 Hinv1 Hy) as Hy2.
  destruct (proxy_ServeHTTP_spec srv rest ctx r (rest s1) y Hs2 Hinv2 Hrest Hy2)
    as (s' & -> & Hrun2 & Hbal).
  eexists s', _. split_and!; [done | | |].
  - etrans; [exact Hrun1|]. etrans; [apply Hrest | done].
  - exists y. by rewrite <-HT.
  - intros Hid Hint t. rewrite <-HT. rewrite Hid in Hbal. apply Hbal; [done|].
    intros u. rewrite HT. apply Hint.
Qed.

(** ** Claims *)

(** C4: every public request to a running server is answered, and the server never
    dereferences a nil multiplexer for it, whatever else happens between the choice of the
    tunnel, the opening of the stream and the end of the exchange: with [servePublic]'s error;
    or else with 502, with 504 when the exchange ran into the timeout, or with what the
    backend answered to the rewritten request, its headers rewritten in turn.  All of it
    is a run of the server, and by itself leaves every stream counter as it was. *)
Theorem public_request_answered `{!BackendOk} srv rest r s :
  serves srv s → reg_inv s → is_rooted (rq_Path r) = true → some_run srv rest →
  rootHandler srv r = ToPublic →
  ∃ s' o, root_request srv rest r s = Some (s', PublicAnswer o) ∧ rtc (server_step srv) s s'
    ∧ match servePublic srv r s with
      | (_, inl resp) => o = Answered resp
      | (s1, inr ctx) => ∃ y, ct_Yamux (tunnel s (pc_tunnel ctx)) = Some y
          ∧ o = proxied_answer srv ctx r y (s_world (rest s1))
      end
    ∧ ((∀ x, rest x = x) → (∀ t, int64 (ct_ActiveStreams (tunnel s t))) →
       ∀ t, ct_ActiveStreams (tunnel s' t) = ct_ActiveStreams (tunnel s t)).
Proof.
  intros Hs Hinv Hroot Hrest Hpub. unfold root_request. rewrite Hpub.
  destruct (serve_public_spec srv rest r s Hs Hinv Hroot Hrest) as (s' & o & -> & Hrun & Ho & Hbal).
  by exists s', o.
Qed.

(** C18: who gets past the control endpoints: a handler for an existing session is reached
    only with the token of the client the session belongs to, and a request is turned away
    with 404 only if it does not have it; [ConnectHandler], which authenticates in its hook,
    is the only handler reached without, and with the POST method only. *)
Theorem control_requires_token `{!MuxOk} srv rest r s s' v :
  serves srv s → root_request srv rest r s = Some (s', ControlAnswer v) →
  let authorized id sess := ∃ b, b ∈ sc_Clients (sv_cfg srv)
      ∧ cb_ClientID b = meta_get (Session_Meta sess) "client_id" ∧ bearerToken r = cb_Token b in
  s' = s ∧
  match v with
  | ControlStatus _ => True
  | SessionNotFound =>
      ∃ id sess, SessionStore_Get (s_world s) id = Some sess ∧ ¬ authorized id sess
  | Reached ConnectHandler _ => rq_Method r = "POST"
  | Reached _ id =>
      ∀ sess, SessionStore_Get (s_world s) id = Some sess → authorized id sess
  end.
Proof.
  intros Hs Hreq. cbv zeta. unfold root_request in Hreq.
  destruct (rootHandler srv r); [|by destruct (serve_public srv rest r s)].
  injection Hreq as <- <-. split; [done|]. unfold serve_control.
  destruct (mux_match _ _ _) as [route vars|code] eqn:Hm; [|done].
  apply mux_match_ok in Hm as [Hin Hmeth].
  pose proof (auth_session_decides srv s (SessionIDFunc vars) r Hs) as Ha.
  repeat (apply elem_of_cons in Hin as [->|Hin]; [|]); [..|by apply elem_of_nil in Hin]; simpl in *;
    try (by symmetry);
    (destruct (authenticateSession _ _ _ _);
      [destruct Ha as [Ha _]; specialize (Ha eq_refl); intros sess Hse; by rewrite Hse in Ha
      |destruct (SessionStore_Get (s_world s) (SessionIDFunc vars)) as [sess|] eqn:Hse;
       [exists (SessionIDFunc vars), sess; split; [done|]; intros Hok; by apply Ha in Hok
       |discriminate (proj2 Ha I)]]).
Qed.

End Serve.

(** ** Witnesses: a router that compares segments, and a backend that redirects *)

Section ServeDemo.
  #[local] Existing Instance example_consts.
  #[local] Existing Instance ascii_tables.
  #[local] Existing Instance demo_transport.
  #[local] Existing Instance demo_transport_ok.
  #[local] Existing Instance insertion_SliceSort.
  #[local] Existing Instance demo_pollmux.
  #[local] Existing Instance demo_NetURL.

Fixpoint match_segs (pat path : list string) (vars : gmap string string)
    : option (gmap string string) :=
  match pat, path with
  | [], [] => Some vars
  | p :: pat, s :: path =>
      if bool_decide (p = "{id}") && bool_decide (s ≠ "") then match_segs pat path (<["id" := s]> vars)
      else if bool_decide (p = s) then match_segs pat path vars else None
  | _, _ => None
  end.

Fixpoint demo_match (routes : list control_route) (method path : string) : mux_answer :=
  match routes with
  | [] => MuxStatus 404
  | route :: routes =>
      match match_segs (Split slash (cr_pattern route)) (Split slash path) ∅ with
      | Some vars =>
          if bool_decide (cr_method route = method) then MuxRoute route vars
          else demo_match routes method path
      | None => demo_match routes method path
      end
  end.

Definition demo_mux : Mux := {| mux_match := demo_match |}.

Lemma demo_mux_ok : @MuxOk demo_mux.
Proof.
  constructor. intros routes method path route vars. simpl.
  induction routes as [|r routes IH]; simpl; [done|].
  destruct (match_segs _ _ _); [case_bool_decide|].
  - intros [= <- <-]. split; [by left | done].
  - intros [? ?]%IH. split; [by right | done].
  - intros [? ?]%IH. split; [by right | done].
Qed.

(** It answers a request for [/slow] too late, and redirects all others to [/login]. *)
Definition demo_backend : Backend := {|
  exchange w y ps out :=
    (w, if bool_decide (or_Path out = "/slow") then Err DeadlineExceeded
        else Ok (mkResponse 302 {["Location" := ["/login"]; "Connection" := ["close"]]} (or_Path out)))
|}.

Lemma demo_backend_ok : @BackendOk _ demo_backend.
Proof. constructor. intros w y ps out. simpl. by case_bool_decide. Qed.

  #[local] Existing Instance demo_mux.
  #[local] Existing Instance demo_mux_ok.
  #[local] Existing Instance demo_backend.
  #[local] Existing Instance demo_backend_ok.

(** The client's local service goes down while the request is on its way. *)
Definition demo_rest (s : store) : store := onPoll demo_sess demo_poll s.

Lemma demo_rest_run : some_run demo_srv.1 demo_rest.
Proof. intros s. apply rtc_once, (ss_hook _ _ Quiet), hs_poll. Qed.

Definition demo_login : proxy_outcome :=
  Answered (mkResponse 302 {["Location" := ["/service/login"]]} "/x").

Example demo_served :
  snd <$> root_request demo_srv.1 demo_rest (demo_get "/service/x") demo_s
  = Some (PublicAnswer demo_login).
Proof. vm_compute. reflexivity. Qed.

Example demo_timeout :
  snd <$> root_request demo_srv.1 id (demo_get "/service/slow") demo_s
  = Some (PublicAnswer (Answered (writeHTTPError 504 "backend timeout"))).
Proof. vm_compute. reflexivity. Qed.

Lemma public_request_answered_witness :
  is_Some (root_request demo_srv.1 demo_rest (demo_get "/service/x") demo_s).
Proof.
  destruct (public_request_answered demo_srv.1 demo_rest (demo_get "/service/x") demo_s
    (proj1 demo_s_ok) (proj2 demo_s_ok) eq_refl demo_rest_run ltac:(by vm_compute))
    as (s' & o & Heq & _).
  rewrite Heq. eauto.
Defined.

Definition demo_control (tok : ascii) : Request :=
  mkRequest "POST" "builderrors.com" "/tunnel/sess-a/poll" "/tunnel/sess-a/poll" "10.0.0.1:999"
    true {["Authorization" := ["Bearer " +:+ example_token tok]]}.

Example demo_wrong_token :
  serve_control demo_srv.1 (demo_control "b"%char) demo_s = SessionNotFound.
Proof. vm_compute. reflexivity. Qed.

Lemma control_requires_token_witness :
  ∃ b, b ∈ sc_Clients (sv_cfg demo_srv.1) ∧ cb_ClientID b = "a" ∧ example_token "a"%char = cb_Token b.
Proof.
  assert (root_request demo_srv.1 id (demo_control "a"%char) demo_s
    = Some (demo_s, ControlAnswer (Reached PollHandler "sess-a"))) as Hr by by vm_compute.
  assert (SessionStore_Get (s_world demo_s) "sess-a" = Some "sess-a") as Hs by by vm_compute.
  destruct (control_requires_token demo_srv.1 id (demo_control "a"%char) demo_s _ _ (proj1 demo_s_ok) Hr)
    as [_ Ha].
  destruct (Ha "sess-a" Hs) as (b & Hb & Hid & Htok). exists b. split_and!; [done | by rewrite Hid |].
  rewrite <-Htok. by vm_compute.
Defined.

End ServeDemo.
