(* ===== verification/Shutdown.v ===== *)
(** [Server.Stop] of internal/server/server.go: the sessions are closed one after another, each
    with its [OnDisconnect] hook, then the sweeper and the listeners are stopped, once; and what
    the server, which goes on accepting until its listener is shut down, does in between. *)

From S2P Require Import Prelude GoStrings GoPath Config ControlPath Validate Host Registry.
From S2P Require Import RegistryInv RegistryOps RegistryRun RegistrySpec Route Rewrite Auth.
From S2P Require Import Server Directory ServerSpec ServerDirectory Proxy Status.

(** pollmux's session store in full, and [pollmux.CloseSession] with the hook it is given. *)
Class PollmuxStop `{Transport} := {
  SessionStore_All : world → list session;
  CloseSession : (session → store → store) → session → store → store
}.

(** Documented: closing a session calls the hook for it; what it does besides is done to
    pollmux's own objects. *)
Class PollmuxStopOk `{PollmuxStop} : Prop := {
  CloseSession_hook hook sess s :
    ∃ w1 w2, CloseSession hook sess s = set_world w2 (hook sess (set_world w1 s))
}.

Section Shutdown.
  Context `{PollmuxStop}.

(** The fields of a server that [Start] sets and [Stop] uses besides its registry: when it
    started, whether [stopOnce] has run, whether the sweeper has been started, and the
    listeners [Start] has opened. *)
Record lifecycle := mkLifecycle {
  lf_startedAt : Z;
  lf_stopped : bool;
  lf_sweeping : bool;
  lf_httpSrv : option listener;
  lf_http80Srv : option listener;
  lf_statusSrv : option listener
}.

(** What [Stop] does, in order. *)
Inductive stop_event :=
| ClosedSession (sess : session)
| StoppedSweeper
| ShutDown (l : listener)
| ClosedDone.

(** [s.httpSrv.Shutdown(ctx)] on a listener that may not be there. *)
Definition shutdown_of (l : option listener) : list stop_event := option_list (ShutDown <$> l).

(** What [Stop] is about to finish: closing the first of the sessions that are left, stopping
    the sweeper, shutting a listener down, closing [s.done]; with the error it will return. *)
Inductive stop_point :=
| AtSession (rest : list session)
| AtSweeper
| AtPublic
| AtRedirect (errOut : option string)
| AtStatus (errOut : option string)
| AtDone (errOut : option string).

(** The loop over the sessions; [meanwhile] is what the rest of the server does until [Stop]
    has come past a point. *)
Fixpoint close_sessions (meanwhile : stop_point → store → store) (sessions : list session)
    (s : store) : store :=
  match sessions with
  | [] => s
  | sess :: rest =>
      let s := meanwhile (AtSession sessions) s in
      close_sessions meanwhile rest (CloseSession onDisconnect sess s)
  end.

(** [Stop]; [shutdown] is what shutting a listener down returns. *)
Definition Stop (shutdown : listener → option string) (meanwhile : stop_point → store → store)
    (lf : lifecycle) (s : store) : lifecycle * store * list stop_event * option string :=
  if lf_stopped lf then (lf, s, [], None)
  else
    let sessions := SessionStore_All (s_world s) in
    let s := close_sessions meanwhile sessions s in
    let s := meanwhile AtSweeper s in
    let s := meanwhile AtPublic s in
    let errOut := lf_httpSrv lf ≫= shutdown in
    let s := meanwhile (AtRedirect errOut) s in
    let s := meanwhile (AtStatus errOut) s in
    let s := meanwhile (AtDone errOut) s in
    let events :=
      map ClosedSession sessions ++ (if lf_sweeping lf then [StoppedSweeper] else [])
      ++ shutdown_of (lf_httpSrv lf) ++ shutdown_of (lf_http80Srv lf)
      ++ shutdown_of (lf_statusSrv lf) ++ [ClosedDone] in
    (mkLifecycle (lf_startedAt lf) true (lf_sweeping lf) (lf_httpSrv lf) (lf_http80Srv lf)
       (lf_statusSrv lf),
     s, events, errOut).

(** Whether requests from outside can still be running: [Shutdown] returns [nil] only when
    those of the public listener have ended. *)
Definition takes_requests (p : stop_point) : bool :=
  match p with
  | AtSession _ | AtSweeper | AtPublic => true
  | AtRedirect errOut | AtStatus errOut | AtDone errOut => bool_decide (errOut ≠ None)
  end.

End Shutdown.

Section Window.
  Context `{PollmuxConsts, UnicodeTables, PollmuxServer, SliceSort, !PollmuxStop}.

(** ** The server while it is being stopped *)

(** A step in which no session but those in [K] connects. *)
Definition window_step (K : string → Prop) (srv : Server) (s s' : store) : Prop :=
  ∃ e, server_event srv s e s' ∧ ∀ sub id sid, e = Connected sub id sid → K sid.

(** What happens while [Stop] is at its points is a run of the server, in which sessions in [K]
    connect as long as requests can be running, and none connects afterwards. *)
Definition is_window (K : string → Prop) (srv : Server) (meanwhile : stop_point → store → store)
    : Prop :=
  ∀ p s, serves srv s → reg_inv s →
    rtc (window_step (λ sid, takes_requests p = true ∧ K sid) srv) s (meanwhile p s).

(** All clients are served by sessions in [P]. *)
Definition served_by (P : string → Prop) (s : store) : Prop :=
  ∀ sub id sid, server_session s sub id = Some sid → P sid.

Lemma window_server_run K srv s s' : rtc (window_step K srv) s s' → rtc (server_step srv) s s'.
Proof.
  apply rtc_congruence with (f := id). intros x y (e & He & _). by eapply server_event_step.
Qed.

Lemma window_served K (P : string → Prop) srv s s' :
  (∀ sid, K sid → P sid) → rtc (window_step K srv) s s' → serves srv s → reg_inv s →
  served_by P s → served_by P s'.
Proof.
  intros HKP. induction 1 as [|s s1 s' (e & He & Hk) _ IH]; [done|]. intros Hs Hinv HP.
  destruct (server_run_inv srv s s1 (rtc_once _ _ (server_event_step _ _ _ _ He)) Hs Hinv).
  apply IH; [done..|]. intros sub id sid.
  pose proof (dir_step_session (DirectoryOk := server_directory_ok srv) s e s1 sub id (conj Hs Hinv) He)
    as Heff.
  simpl in Heff. rewrite Heff. destruct e as [a b x|x|]; simpl; [case_decide| case_decide |]; try done;
    [|by apply HP..]. intros [= <-]. apply HKP. by eapply Hk.
Qed.

(** Closing a session is a run of the server, after which the session serves nobody. *)
Lemma CloseSession_run `{!PollmuxStopOk} srv sess s :
  rtc (server_step srv) s (CloseSession onDisconnect sess s).
Proof.
  destruct (CloseSession_hook onDisconnect sess s) as (w1 & w2 & ->).
  eapply rtc_l; [eapply ss_hook, (hs_world _ _ w1)|].
  eapply rtc_l; [eapply ss_hook, (hs_disconnect _ _ sess)|].
  eapply rtc_once, ss_hook, hs_world.
Qed.

Lemma CloseSession_served `{!PollmuxStopOk} P sess s :
  reg_inv s → served_by (λ sid, sid = Session_ID sess ∨ P sid) s →
  served_by P (CloseSession onDisconnect sess s).
Proof.
  intros Hinv HP sub id sid. destruct (CloseSession_hook onDisconnect sess s) as (w1 & w2 & ->).
  rewrite (server_session_same (onDisconnect sess (set_world w1 s))) by apply same_reg_world.
  rewrite session_disconnect by (eapply reg_inv_same; [apply same_reg_world | done]).
  rewrite (server_session_same s) by apply same_reg_world. simpl.
  case_decide as Hd; [done|]. intros Hs. rewrite Hs in Hd. destruct (HP sub id sid Hs) as [->|?]; done.
Qed.

(** The loop of [Stop]: of the sessions that served clients before it, only those that have
    connected meanwhile still do. *)
Lemma close_sessions_served `{!PollmuxStopOk} K srv meanwhile l s :
  (∀ rest s, serves srv s → reg_inv s → rtc (window_step K srv) s (meanwhile (AtSession rest) s)) →
  serves srv s → reg_inv s → served_by (λ sid, sid ∈ map Session_ID l ∨ K sid) s →
  let s' := close_sessions meanwhile l s in
  rtc (server_step srv) s s' ∧ served_by K s'.
Proof.
  intros Hw. cbv zeta. revert s. induction l as [|sess l IH]; intros s Hs Hinv HP; simpl.
  { split; [done|]. intros sub id sid Hsid. destruct (HP sub id sid Hsid) as [Hin|?]; [|done].
    by apply elem_of_nil in Hin. }
  set (s1 := meanwhile (AtSession (sess :: l)) s). pose proof (Hw (sess :: l) s Hs Hinv) as Hrun.
  fold s1 in Hrun. pose proof (window_server_run _ _ _ _ Hrun) as Hrun'.
  destruct (server_run_inv srv s s1 Hrun' Hs Hinv) as [Hs1 Hinv1].
  pose proof (CloseSession_run srv sess s1) as Hclose.
  destruct (server_run_inv srv s1 _ Hclose Hs1 Hinv1) as [Hs2 Hinv2].
  destruct (IH _ Hs2 Hinv2) as [Hrest HK].
  - apply CloseSession_served; [done|].
    apply (window_served K _ srv s s1); [by right; right | done..|].
    intros sub id sid Hsid. destruct (HP sub id sid Hsid) as [[<-|?]%elem_of_cons|?]; auto.
  - split; [|done]. by etrans; [|etrans].
Qed.

(** The sessions the registry knows are those that serve clients. *)
Lemma known_serves P s sid :
  reg_inv s → served_by P s → is_Some (GetBySessionID sid s) → P sid.
Proof.
  intros Hinv HP [t Ht]. destruct (ri_sess s Hinv sid t Ht) as (se & p & Hse & Hid & Hp & Hm).
  apply (HP (ct_Subdomain (tunnel s t)) (ct_ID (tunnel s t))). apply server_session_index; [done|].
  exists t. split; [|done]. apply current_iff; eauto.
Qed.

Lemma current_serves P s sub id t :
  reg_inv s → sessions_set s → served_by P s → current s sub id = Some t →
  ∃ se, ct_Session (tunnel s t) = Some se ∧ P (Session_ID se).
Proof.
  intros Hinv Hset HP Hc. destruct (Hset t) as [se Hse]; [by eapply current_member|].
  exists se. split; [done|]. apply (HP sub id). unfold server_session. rewrite Hc. simpl.
  by rewrite Hse.
Qed.


(** Sessions that pollmux's store lists are the ones the loop closes. *)
Definition all_listed_sessions (s : store) : Prop :=
  ∀ sid, is_Some (GetBySessionID sid s) → sid ∈ map Session_ID (SessionStore_All (s_world s)).

Lemma listed_served K s :
  reg_inv s → all_listed_sessions s →
  served_by (λ sid, sid ∈ map Session_ID (SessionStore_All (s_world s)) ∨ K sid) s.
Proof.
  intros Hinv Hall sub id sid (t & _ & Ht)%server_session_index; [|done]. left. apply Hall. eauto.
Qed.

(** The store [Stop] leaves behind. *)
Lemma stop_served `{!PollmuxStopOk} srv s K shutdown meanwhile lf :
  serves srv s → reg_inv s → lf_stopped lf = false → is_window K srv meanwhile →
  all_listed_sessions s →
  let s' := (Stop shutdown meanwhile lf s).1.1.2 in
  rtc (server_step srv) s s' ∧ served_by K s'.
Proof.
  intros Hs Hinv Hlf Hw Hall. unfold Stop. rewrite Hlf. simpl.
  set (s0 := close_sessions _ _ _).
  assert (rtc (server_step srv) s s0 ∧ served_by K s0) as Hclosed.
  { apply close_sessions_served; [|done|done|by apply listed_served]. intros rest x Hx Hix.
    eapply rtc_subrel; [|by apply (Hw (AtSession rest))]. intros a b (e & He & Hk). exists e.
    split; [done|]. intros sub id sid Hc. by destruct (Hk sub id sid Hc). }
  assert (∀ p x, rtc (server_step srv) s x ∧ served_by K x →
    rtc (server_step srv) s (meanwhile p x) ∧ served_by K (meanwhile p x)) as Hstep.
  { intros p x [Hrun HK]. destruct (server_run_inv srv s x Hrun Hs Hinv) as [Hsx Hix].
    pose proof (Hw p x Hsx Hix) as Hp. split; [etrans; [done | by eapply window_server_run]|].
    by eapply (window_served _ K); [|done..]; intros sid [_ ?]. }
  by do 5 apply Hstep.
Qed.

(** The server after [Stop], and the error it returns. *)
Lemma stopped_server `{!PollmuxStopOk} c w srv s0 s K shutdown meanwhile lf :
  NewServer c w = Ok (srv, s0) → rtc (server_step srv) s0 s → lf_stopped lf = false →
  is_window K srv meanwhile → all_listed_sessions s →
  ∃ lf' s' events, Stop shutdown meanwhile lf s = (lf', s', events, lf_httpSrv lf ≫= shutdown)
    ∧ lf_stopped lf' = true
    ∧ ∀ sub id t, current s' sub id = Some t →
        ∃ se, ct_Session (tunnel s' t) = Some se ∧ K (Session_ID se).
Proof.
  intros Hn Hrun Hlf Hw Hall. destruct (NewServer_serves c w srv s0 Hn) as [Hs0 Hi0].
  destruct (server_run_inv srv s0 s Hrun Hs0 Hi0) as [Hs Hinv].
  pose proof (stop_served srv s K shutdown meanwhile lf Hs Hinv Hlf Hw Hall) as HS.
  unfold Stop in *. rewrite Hlf in *. simpl in HS. destruct HS as [Hrun' HK].
  destruct (server_run_sessions c w srv s0 _ Hn ltac:(by etrans)) as [Hinv' Hset].
  eexists _, _, _. split_and!; [done | done |]. intros sub id t. by apply current_serves.
Qed.

(** ** Claims *)

(** C23: stopping a running server all of whose sessions pollmux's store lists, while it goes on
    serving and sessions in [K] connect for as long as requests can be running (until the public
    listener has been shut down in time): only sessions in [K] are known afterwards and only
    their clients have a tunnel (nobody, if none connects), the registry is well formed, the error returned is that of the public listener,
    and stopping again does nothing.  The loop over the sessions comes before the first
    listener is shut down. *)
Theorem Stop_outcome `{!PollmuxStopOk} c w srv s0 s K shutdown meanwhile lf :
  NewServer c w = Ok (srv, s0) → rtc (server_step srv) s0 s → lf_stopped lf = false →
  is_window K srv meanwhile → all_listed_sessions s →
  let '(lf', s', events, err) := Stop shutdown meanwhile lf s in
  rtc (server_step srv) s s' ∧ reg_inv s'
  ∧ (∀ sid, is_Some (GetBySessionID sid s') → K sid)
  ∧ (∀ sub id t, current s' sub id = Some t →
       ∃ se, ct_Session (tunnel s' t) = Some se ∧ K (Session_ID se))
  ∧ err = lf_httpSrv lf ≫= shutdown
  ∧ (∀ shutdown meanwhile s, Stop shutdown meanwhile lf' s = (lf', s, [], None))
  ∧ ∀ i j sess l, events !! i = Some (ClosedSession sess) → events !! j = Some (ShutDown l) →
      i < j.
Proof.
  intros Hn Hrun Hlf Hw Hall. destruct (NewServer_serves c w srv s0 Hn) as [Hs0 Hi0].
  destruct (server_run_inv srv s0 s Hrun Hs0 Hi0) as [Hs Hinv].
  pose proof (stop_served srv s K shutdown meanwhile lf Hs Hinv Hlf Hw Hall) as HS.
  unfold Stop at 1. unfold Stop in HS. rewrite Hlf in *. simpl in HS.
  destruct HS as [Hrun' HK]. split; [done|].
  destruct (server_run_sessions c w srv s0 _ Hn ltac:(by etrans)) as [Hinv' Hset].
  split_and!; [done | | | done | done |].
  - intros sid. by apply known_serves.
  - intros sub id t. by apply current_serves.
  - intros i j sess ln Hi Hj. apply lookup_app_Some in Hi as [Hi|[_ Hi]].
    + apply lookup_app_Some in Hj as [Hj|[Hj _]]; [|apply lookup_lt_Some in Hi; lia].
      change (map ClosedSession ?A) with (ClosedSession <$> A) in Hj.
      rewrite list_lookup_fmap in Hj. by destruct (SessionStore_All _ !! j).
    + exfalso. apply list_elem_of_lookup_2 in Hi. unfold shutdown_of in Hi.
      destruct lf as [? ? [] [] [] []]; simpl in Hi; set_solver.
Qed.



End Window.

(** ** Witness: stopping the example server with its client connected *)

Section ShutdownDemo.
  #[local] Existing Instance example_consts.
  #[local] Existing Instance ascii_tables.
  #[local] Existing Instance demo_transport.
  #[local] Existing Instance demo_pollmux.
  #[local] Existing Instance insertion_SliceSort.

Definition demo_stop : PollmuxStop := {|
  SessionStore_All := λ w, [demo_sess];
  CloseSession := λ hook sess s, hook sess (set_world (Session_Close (s_world s) sess) s)
|}.

  #[local] Existing Instance demo_stop.

#[local] Instance demo_stop_ok : PollmuxStopOk.
Proof.
  constructor. intros hook sess s. exists (Session_Close (s_world s) sess). simpl.
  set (s' := hook sess _). exists (s_world s'). by destruct s'.
Qed.

Definition demo_lifecycle : lifecycle :=
  mkLifecycle 0 false true (Some (PublicHTTP ":8080")) None (Some (StatusHTTP ":9090")).

Lemma demo_session_known : all_listed_sessions demo_connected.1.1.
Proof.
  assert (bySess (s_reg demo_connected.1.1) = {["sess-a" := 0]}) as Hb by by vm_compute.
  unfold all_listed_sessions, GetBySessionID. rewrite Hb. intros sid [t Ht].
  apply lookup_singleton_Some in Ht as [<- _]. by left.
Qed.

(** The client reconnects, as another session, while the public listener is shut down. *)
Definition demo_meanwhile (srv : Server) (p : stop_point) (s : store) : store :=
  match p with
  | AtPublic =>
      if decide (GetBySessionID (Session_ID demo_sess2) s = None)
      then (onConnect srv 0 demo_sess2 demo_meta s).1.1 else s
  | _ => s
  end.

Lemma demo_window srv : is_window (λ sid, sid = "sess-b") srv (demo_meanwhile srv).
Proof.
  intros p s Hs Hinv. unfold demo_meanwhile. destruct p; try reflexivity.
  case_decide as Hf; [|reflexivity]. apply rtc_once.
  destruct (onConnect srv 0 demo_sess2 demo_meta s) as [[s' r] warm] eqn:E.
  exists (connect_event srv demo_sess2 demo_meta r). split; [by eapply connect_step|].
  intros sub id sid. unfold connect_event. destruct r; [|done]. destruct (cr_Lookup _ _); [|done].
  by intros [= _ _ <-].
Qed.

Lemma demo_created_srv : NewServer example_server demo_world = Ok (demo_srv.1, demo_srv.2).
Proof. etrans; [apply demo_srv_new | by destruct demo_srv]. Qed.

(** The first session is gone; the one that came meanwhile is not. *)
Lemma Stop_outcome_witness :
  let s' := (Stop (λ _, None) (demo_meanwhile demo_srv.1) demo_lifecycle demo_connected.1.1).1.1.2 in
  is_Some (GetBySessionID "sess-a" demo_connected.1.1) ∧ is_Some (GetBySessionID "sess-b" s')
  ∧ ∀ sid, is_Some (GetBySessionID sid s') → sid = "sess-b".
Proof.
  cbv zeta. split; [eexists; by vm_compute|]. split; [eexists; by vm_compute|].
  pose proof (Stop_outcome example_server demo_world demo_srv.1 demo_srv.2 demo_connected.1.1
    (λ sid, sid = "sess-b") (λ _, None) (demo_meanwhile demo_srv.1) demo_lifecycle demo_created_srv
    demo_connected_run eq_refl (demo_window _) demo_session_known) as HS.
  destruct (Stop _ _ _ _) as [[[lf s'] events] err]. exact (proj1 (proj2 (proj2 HS))).
Defined.


End ShutdownDemo.
