(* ===== verification/ServerMain.v ===== *)
(** cmd/server/main.go: the server process from reading its configuration to its exit
    status, and internal/server/server.go's [Start] and [StartOnListener] as what [Stop]
    finds later. *)

From S2P Require Import Prelude GoStrings GoPath Config ControlPath Validate Load Host Registry.
From S2P Require Import RegistryInv RegistryOps RegistryRun RegistrySpec Route Rewrite Auth.
From S2P Require Import Server Directory ServerSpec ServerDirectory Proxy Status Shutdown.

(** The zap library: parsing a level, and building a logger. *)
Class Zap := {
  zap_UnmarshalText : string → option string;
  zap_Build : result string unit
}.

Definition newLogger `{Zap} (level : string) : result string unit :=
  if bool_decide (level ≠ "") then
    match zap_UnmarshalText level with
    | Some err => Err err
    | None => zap_Build
    end
  else zap_Build.

(** ** What has been started *)

Definition keep_listener (lf : lifecycle) (l : listener) : lifecycle :=
  match l with
  | PublicHTTP _ | PublicHTTPS _ =>
      mkLifecycle (lf_startedAt lf) (lf_stopped lf) (lf_sweeping lf) (Some l) (lf_http80Srv lf) (lf_statusSrv lf)
  | RedirectHTTP _ =>
      mkLifecycle (lf_startedAt lf) (lf_stopped lf) (lf_sweeping lf) (lf_httpSrv lf) (Some l) (lf_statusSrv lf)
  | StatusHTTP _ =>
      mkLifecycle (lf_startedAt lf) (lf_stopped lf) (lf_sweeping lf) (lf_httpSrv lf) (lf_http80Srv lf) (Some l)
  end.

(** The server after its listeners have been opened, at time [now]; the sweeper is already
    running. *)
Definition started (now : Z) (ls : list listener) : lifecycle :=
  fold_left keep_listener ls (mkLifecycle now false true None None None).

(** [StartOnListener]: the given listener, without TLS, redirect or status server. *)
Definition StartOnListener (now : Z) (l : listener) : lifecycle :=
  mkLifecycle now false true (Some l) None None.

(** How the process ends: a panic or [logger.Fatal] with its cause, or an exit status after
    a shutdown, with the server as it was left. *)
Inductive server_exit `{Transport} :=
| PanicConfig (e : cfg_error)
| PanicLogger (e : string)
| FatalCreate (e : server_error)
| FatalStart (e : string)
| Exited (code : Z) (srv : Server) (lf : lifecycle) (s : store).

Section ServerMain.
  Context `{PollmuxConsts, UnicodeTables, PollmuxServer, SliceSort, Viper, FileSystem, Zap}.
  Context `{!PollmuxStop}.

(** [main], started at time [now]: [serving_period] is what the server does until the signal,
    [meanwhile] what it does while [Stop] runs; shutting a listener down is given the session
    timeout. *)
Definition main (path : string) (w : world) (now : Z) (serving_period : Server → store → store)
    (meanwhile : Server → stop_point → store → store)
    (shutdown : Z → listener → option string) : server_exit :=
  match LoadServer path with
  | Err e => PanicConfig e
  | Ok cfg =>
      match newLogger (lg_Level (sc_Logging cfg)) with
      | Err e => PanicLogger e
      | Ok _ =>
          match NewServer cfg w with
          | Err e => FatalCreate e
          | Ok (srv, s) =>
              match Start srv with
              | Err e => FatalStart e
              | Ok (srv, ls) =>
                  let s := serving_period srv s in
                  let '(lf, s, _, err) :=
                    Stop (shutdown (tn_SessionTimeout (sc_Tunnel cfg))) (meanwhile srv)
                      (started now ls) s in
                  Exited (match err with Some _ => 1 | None => 0 end) srv lf s
              end
          end
      end
  end.

(** ** Lemmas *)

(** Whether certificates are managed makes no difference to what happens to the store. *)
Definition with_certs (b : option CertManager) (srv : Server) : Server :=
  mkServer (sv_cfg srv) (sv_routeTable srv) (sv_clientRegistry srv) b.

Lemma onConnect_certs b srv now sess meta s :
  (onConnect (with_certs b srv) now sess meta s).1 = (onConnect srv now sess meta s).1.
Proof.
  unfold onConnect. simpl. destruct (ClientSession _ _) as [w' [y|e]]; [|done].
  destruct (cr_Lookup _ _) as [b'|]; [|done].
  by destruct (Register _ _ _) as [s' [[]|[]]].
Qed.

Lemma hook_step_certs b srv s e s' : hook_step (with_certs b srv) s e s' → hook_step srv s e s'.
Proof.
  intros [now sess meta s1 r warm Hf Heq| | | | |].
  - pose proof (onConnect_certs b srv now sess meta s) as Hc. rewrite Heq in Hc.
    destruct (onConnect srv now sess meta s) as [[s2 r2] warm2] eqn:E. simpl in Hc.
    injection Hc as -> ->. change (connect_event (with_certs b srv)) with (connect_event srv).
    by eapply hs_connect.
  - apply hs_poll.
  - apply hs_disconnect.
  - by eapply hs_pick.
  - by eapply hs_drain.
  - apply hs_world.
Qed.

Lemma server_step_certs b srv s s' : server_step (with_certs b srv) s s' → server_step srv s s'.
Proof.
  intros [e s1 Hh|t s1 e Ht Ho|t Ht]; [|by eapply ss_open | by apply ss_close_stream].
  by eapply ss_hook, hook_step_certs.
Qed.

Lemma server_run_certs b srv s s' :
  rtc (server_step (with_certs b srv)) s s' → rtc (server_step srv) s s'.
Proof. apply rtc_congruence with (f := id). apply server_step_certs. Qed.

(** A loaded configuration whose control path is in normal form passes the second
    validation, in [NewServer], unchanged. *)
Lemma loaded_revalidates path c :
  LoadServer path = Ok c → validateControlPath (sc_ControlPath c) = Ok (sc_ControlPath c) →
  ValidateServer c = (c, Ok tt).
Proof.
  unfold LoadServer. intros HL Hcp.
  apply res_bind_ok in HL as (v & _ & HL). apply res_bind_ok in HL as (c0 & _ & HL).
  cbv zeta in HL. apply res_bind_ok in HL as (l & Hl & HL).
  destruct (ValidateServer _) as [c' [[]|e]] eqn:Hv; [|done]. injection HL as <-.
  apply validate_server_spec in Hv as (Hr & cp & Hcp' & -> & Hvalid).
  apply validate_server_spec. split; [done|]. exists cp. split_and!; [|done|done].
  simpl in Hcp. done.
Qed.

(** What [Start] does with a server that has no certificate manager yet. *)
Lemma Start_cases srv now :
  let c := sv_cfg srv in
  match Start srv with
  | Err e => tls_Disable (sc_TLS c) = false ∧ tls_CacheDir (sc_TLS c) = ""
      ∧ e = "tls.cache_dir is required when TLS is enabled"
  | Ok (srv', ls) =>
      (tls_Disable (sc_TLS c) = true ∧ srv' = srv
       ∨ tls_Disable (sc_TLS c) = false ∧ tls_CacheDir (sc_TLS c) ≠ "" ∧ 
          srv' = with_certs (Some (cert_manager c)) srv)
      ∧ ∃ l, lf_httpSrv (started now ls) = Some l ∧ (l = PublicHTTP (publicListenAddr c)
            ∨ l = PublicHTTPS (publicListenAddr c))
        ∧ lf_stopped (started now ls) = false
  end.
Proof.
  cbv zeta. unfold Start, setupTLS, status_listeners. destruct (tls_Disable _) eqn:Hd.
  - split; [by left|]. exists (PublicHTTP (publicListenAddr (sv_cfg srv))).
    destruct (st_Enabled _ && _); simpl; eauto.
  - case_bool_decide as Hc; simpl; [done|]. split; [by right|].
    exists (PublicHTTPS (publicListenAddr (sv_cfg srv))).
    destruct (st_Enabled _ && _); simpl; eauto.
Qed.

(** What a serving period is: a run of the server that has been created, with certificates
    or without, after which pollmux's session store has every session the registry serves. *)
Definition is_period (c : ServerConfig) (w : world) (period : Server → store → store) : Prop :=
  ∀ srv s0 b, NewServer c w = Ok (srv, s0) →
    let s := period (with_certs b srv) s0 in
    rtc (server_step (with_certs b srv)) s0 s ∧ all_listed_sessions s.

Lemma server_event_certs b srv s e s' :
  server_event (with_certs b srv) s e s' → server_event srv s e s'.
Proof.
  intros [Hh|(-> & Hs & Hsame)]; [left; by eapply hook_step_certs|].
  right. split_and!; [done | by eapply server_step_certs | done].
Qed.

Lemma is_window_certs K b srv m : is_window K (with_certs b srv) m → is_window K srv m.
Proof.
  intros Hw p s Hs Hinv. assert (serves (with_certs b srv) s) as Hsb by by destruct Hs.
  eapply rtc_subrel; [|by apply (Hw p)]. intros x y (e & He & Hk). exists e.
  split; [by eapply server_event_certs | done].
Qed.

(** ** Claims *)

(** C22: the server process, for a configuration that loads, a logger that can be built and
    a control path in normal form, when pollmux's store lists every session at the signal: it
    never fails to create the server, it fails to start exactly when TLS is on without a cache
    directory, which neither the defaults nor the validation provide; and otherwise it serves
    until the signal and exits with 0 exactly when the public listener shuts down in time.  Then
    a client still has a tunnel only under a session in [K], those that connected while [Stop]
    ran and requests could still be running. *)
Theorem server_process_outcome `{!PollmuxStopOk} path w now period meanwhile shutdown c K :
  LoadServer path = Ok c → newLogger (lg_Level (sc_Logging c)) = Ok tt →
  validateControlPath (sc_ControlPath c) = Ok (sc_ControlPath c) →
  is_period c w period → (∀ srv, is_window K srv (meanwhile srv)) →
  match main path w now period meanwhile shutdown with
  | FatalStart e => tls_Disable (sc_TLS c) = false ∧ tls_CacheDir (sc_TLS c) = ""
      ∧ e = "tls.cache_dir is required when TLS is enabled"
  | Exited code srv lf s =>
      (tls_Disable (sc_TLS c) = true ∨ tls_CacheDir (sc_TLS c) ≠ "")
      ∧ sv_cfg srv = c ∧ sv_certManager srv =
          (if tls_Disable (sc_TLS c) then None else Some (cert_manager c))
      ∧ lf_stopped lf = true
      ∧ (∀ sub id t, current s sub id = Some t →
           ∃ se, ct_Session (tunnel s t) = Some se ∧ K (Session_ID se))
      ∧ ∃ l, (l = PublicHTTP (publicListenAddr c) ∨ l = PublicHTTPS (publicListenAddr c))
          ∧ (code = 0%Z ↔ shutdown (tn_SessionTimeout (sc_Tunnel c)) l = None)
  | _ => False
  end.
Proof.
  intros HL Hlog Hcp Hperiod Hwin. unfold main. rewrite HL, Hlog.
  pose proof (NewServer_spec c w) as Hn. rewrite (loaded_revalidates path c HL Hcp) in Hn.
  destruct Hn as (srv & s0 & Hnew & Hcfg & Hcert & _). rewrite Hnew.
  set (certs := if tls_Disable (sc_TLS c) then None else Some (cert_manager c)).
  pose proof (Start_cases srv now) as HS. cbv zeta in HS. rewrite Hcfg in HS.
  destruct (Start srv) as [[srv' ls]|e]; [|done].
  destruct HS as (Hsrv & l & Hl & Haddr & Hns).
  assert (srv' = with_certs certs srv) as ->.
  { unfold certs. destruct Hsrv as [[-> ->]|(-> & _ & ->)]; [|done].
    destruct srv; by simplify_eq/=. }
  destruct (Hperiod srv s0 certs Hnew) as [Hrun%server_run_certs Hknown].
  set (s := period _ s0) in *. set (timeout := tn_SessionTimeout (sc_Tunnel c)).
  destruct (stopped_server c w srv s0 s K (shutdown timeout) (meanwhile (with_certs certs srv))
    (started now ls) Hnew Hrun Hns (is_window_certs _ _ _ _ (Hwin _)) Hknown)
    as (lf' & s' & events & -> & Hlf & Hcur).
  rewrite Hl. simpl. split_and!; try done.
  - destruct Hsrv as [[? _]|(_ & ? & _)]; auto.
  - exists l. split; [done|]. destruct (shutdown timeout l); done.
Qed.

End ServerMain.

(** ** Witness: the example configuration without TLS; a client connects and is there when
    the signal comes *)

Section ServerMainDemo.
  #[local] Existing Instance example_consts.
  #[local] Existing Instance ascii_tables.
  #[local] Existing Instance demo_transport.
  #[local] Existing Instance demo_pollmux.
  #[local] Existing Instance insertion_SliceSort.
  #[local] Existing Instance demo_stop.
  #[local] Existing Instance demo_stop_ok.
  #[local] Existing Instance example_fs.

Definition set_TLS (tls : TLSConfig) (c : ServerConfig) : ServerConfig :=
  mkServerConfig (sc_PublicListen c) (sc_HTTPListen c) (sc_RootDomain c) (sc_ControlPath c)
    (sc_DevListen c) tls (sc_Tunnel c) (sc_Proxy c) (sc_Clients c) (sc_Status c) (sc_Logging c).

Definition main_viper (tls : TLSConfig) : Viper := {|
  vconfig := unit;
  ReadInConfig _ _ := Ok tt;
  UnmarshalServer _ _ := Ok (set_TLS tls example_file_server);
  UnmarshalClient _ c := Ok c;
  UnmarshalMulti _ _ := Ok example_multi;
  IsSet _ _ := true
|}.

Definition demo_zap : Zap := {|
  zap_UnmarshalText l := if bool_decide (l = "info") then None else Some "unrecognized level";
  zap_Build := Ok tt
|}.

  #[local] Existing Instance demo_zap.

Definition demo_period (srv : Server) (s : store) : store :=
  (onConnect srv 0 demo_sess demo_meta s).1.1.

Definition demo_main (tls : TLSConfig) : server_exit :=
  main (H4 := main_viper tls) "/etc/httphop/server.yaml" demo_world 0 demo_period demo_meanwhile
    (λ _ _, None).

(** TLS is on by default, and the cache directory is not set by default. *)
Example demo_no_cache : demo_main zero_TLS = FatalStart "tls.cache_dir is required when TLS is enabled".
Proof. vm_compute. reflexivity. Qed.

Definition demo_tls : TLSConfig := mkTLSConfig "" "" true.

Definition demo_loaded : ServerConfig :=
  match @LoadServer example_consts (main_viper demo_tls) example_fs "/etc/httphop/server.yaml" with
  | Ok c => c
  | Err _ => example_file_server
  end.

Lemma demo_period_run srv s :
  GetBySessionID (Session_ID demo_sess) s = None → rtc (server_step srv) s (demo_period srv s).
Proof.
  intros Hf. unfold demo_period.
  destruct (onConnect srv 0 demo_sess demo_meta s) as [[s' r] warm] eqn:E.
  eapply rtc_once, ss_hook. by eapply hs_connect.
Qed.

Definition demo_created : Server * store :=
  match NewServer demo_loaded demo_world with Ok x => x | Err _ => demo_srv end.

Lemma demo_created_new : NewServer demo_loaded demo_world = Ok demo_created.
Proof. vm_compute. reflexivity. Qed.

Lemma Ok_inj {E A} (a b : A) : @Ok E A a = Ok b → a = b.
Proof. by intros [= ->]. Qed.

Lemma demo_is_period : is_period demo_loaded demo_world demo_period.
Proof.
  intros srv s0 b Hn.
  pose proof (Ok_inj _ _ (eq_trans (eq_sym Hn) demo_created_new)) as He.
  assert (srv = demo_created.1) as -> by exact (f_equal fst He).
  assert (s0 = demo_created.2) as -> by exact (f_equal snd He).
  cbv zeta. split; [apply demo_period_run; by vm_compute|].
  assert (bySess (s_reg (demo_period (with_certs b demo_created.1) demo_created.2)) = {["sess-a" := 0]})
    as Hs by (destruct b; by vm_compute).
  unfold all_listed_sessions, GetBySessionID. rewrite Hs. intros sid [t Ht].
  apply lookup_singleton_Some in Ht as [<- _]. by left.
Qed.

Lemma demo_loads :
  @LoadServer example_consts (main_viper demo_tls) example_fs "/etc/httphop/server.yaml" = Ok demo_loaded.
Proof. vm_compute. reflexivity. Qed.

Lemma demo_logger : newLogger (lg_Level (sc_Logging demo_loaded)) = Ok tt.
Proof. vm_compute. reflexivity. Qed.

Lemma demo_control_path :
  validateControlPath (sc_ControlPath demo_loaded) = Ok (sc_ControlPath demo_loaded).
Proof. vm_compute. reflexivity. Qed.

Lemma demo_plain : tls_Disable (sc_TLS demo_loaded) = true.
Proof. vm_compute. reflexivity. Qed.

(** The client's first session is closed; its second one, which came meanwhile, is left. *)
Lemma server_process_outcome_witness :
  ∃ srv lf s, demo_main demo_tls = Exited 0 srv lf s
    ∧ ∀ sub id t, current s sub id = Some t →
        ∃ se, ct_Session (tunnel s t) = Some se ∧ Session_ID se = "sess-b".
Proof.
  pose proof (server_process_outcome (H4 := main_viper demo_tls) "/etc/httphop/server.yaml" demo_world 0
    demo_period demo_meanwhile (λ _ _, None) demo_loaded (λ sid, sid = "sess-b") demo_loads demo_logger
    demo_control_path demo_is_period demo_window) as HM.
  rewrite demo_plain in HM.
  unfold demo_main. destruct (main _ _ _ _ _) as [| | |e|code srv lf s] eqn:E; try contradiction.
  - destruct HM as [HM _]. discriminate HM.
  - destruct HM as (_ & _ & _ & _ & Hcur & l & _ & Hcode).
    exists srv, lf, s. split; [|exact Hcur]. rewrite (proj2 Hcode eq_refl). reflexivity.
Defined.

End ServerMainDemo.
