(* ===== verification/Lock.v ===== *)
(** internal/client/preflight.go and preflight_pgrep.go: the single-instance lock file of
    the client as a protocol between processes, and the pids read from it. *)

From S2P Require Import Prelude GoStrings GoPath Decimal.

(** ** The pid in the lock file, and the pids [pgrep] prints *)

(** Up to the first newline or space. *)
Fixpoint stringsTrim (b : string) : string :=
  match b with
  | EmptyString => EmptyString
  | String c b' =>
      if bool_decide (c = newline) || bool_decide (c = " "%char) then EmptyString
      else String c (stringsTrim b')
  end.

(** [LockHolderPID] on the contents of the lock file, [None] when it cannot be read. *)
Definition LockHolderPID (contents : option string) : Z * bool :=
  match contents with
  | None => (0%Z, false)
  | Some b =>
      match Atoi (stringsTrim b) with
      | None => (0%Z, false)
      | Some pid => if Z.leb pid 0 then (0%Z, false) else (pid, true)
      end
  end.

(** What [fmt.Fprintf(f, "%d\n", os.Getpid())] leaves in the truncated file. *)
Definition lock_contents (pid : Z) : string := Itoa pid +:+ String newline "".

(** The outcome of running pgrep: its output, exit status 1, or another failure. *)
Inductive pgrep_result := PgrepOutput (out : string) | PgrepNoMatch | PgrepFailed (err : string).

Fixpoint pid_lines (lines : list string) : list Z :=
  match lines with
  | [] => []
  | line :: rest =>
      let line := TrimSpace line in
      if bool_decide (line = "") then pid_lines rest
      else match Atoi line with
           | None => pid_lines rest
           | Some pid => pid :: pid_lines rest
           end
  end.

Definition listClientPIDs (r : pgrep_result) : result string (list Z) :=
  match r with
  | PgrepNoMatch => Ok []
  | PgrepFailed e => Err e
  | PgrepOutput out => Ok (pid_lines (Split newline (TrimSpace out)))
  end.

Definition RunningClientPIDs (r : pgrep_result) : result string (list Z) := listClientPIDs r.

(** [lockFilePath] from the environment variable and the temporary directory. *)
Definition lockFilePath (env tmp : string) : string :=
  if bool_decide (env ≠ "") then env else FilepathJoin tmp "httphop-client.lock".

Definition LockFilePath (env tmp : string) : string := lockFilePath env tmp.

Definition lockFileDir (env tmp : string) : string := Dir (lockFilePath env tmp).

(** ** [AcquireProcessLock] *)

(** How the system calls went: the errors of creating the directory and opening the file,
    the outcome of [flock], and what can then be read from the file (nothing on an error). *)
Inductive flock_result := FlockOk | FlockWouldBlock | FlockFailed (err : string).

Record lock_calls := mkLockCalls {
  lc_MkdirAll : option string;
  lc_OpenFile : option string;
  lc_Flock : flock_result;
  lc_holder : string
}.

(** A lock to release: the path of the file and what has been written to it. *)
Definition AcquireProcessLock (allowDuplicate : bool) (env tmp : string) (pid : Z) (os : lock_calls)
    : result string (option (string * string)) :=
  if allowDuplicate then Ok None
  else
    let path := lockFilePath env tmp in
    match lc_MkdirAll os with
    | Some err => Err ("httphop-client: lock dir: " +:+ err)
    | None =>
        match lc_OpenFile os with
        | Some err => Err ("httphop-client: lock file: " +:+ err)
        | None =>
            match lc_Flock os with
            | FlockWouldBlock =>
                Err ("another httphop-client is already running (lock " +:+ (path +:+ (" held by PID "
                  +:+ (stringsTrim (lc_holder os) +:+ "); stop it before starting a second copy"))))
            | FlockFailed err => Err ("httphop-client: flock: " +:+ err)
            | FlockOk => Ok (Some (path, lock_contents pid))
            end
        end
    end.

(** A lock is held exactly when every call succeeds, and then the file names the process. *)
Lemma AcquireProcessLock_ok allow env tmp pid os l :
  AcquireProcessLock allow env tmp pid os = Ok l ↔
  if allow then l = None
  else lc_MkdirAll os = None ∧ lc_OpenFile os = None ∧ lc_Flock os = FlockOk
    ∧ l = Some (lockFilePath env tmp, lock_contents pid).
Proof.
  unfold AcquireProcessLock. destruct allow; [naive_solver|].
  destruct (lc_MkdirAll os), (lc_OpenFile os), (lc_Flock os); naive_solver.
Qed.

(** ** Round trip *)

Lemma stringsTrim_digits s t :
  str_forall is_digit s = true → stringsTrim (s +:+ String newline t) = s.
Proof.
  induction s as [|c s IH]; simpl; [done|]. intros [Hc Hs]%andb_true_iff.
  rewrite (bool_decide_eq_false_2 (c = newline)) by (intros ->; done).
  rewrite (bool_decide_eq_false_2 (c = " "%char)) by (intros ->; done). simpl. by rewrite IH.
Qed.

(** ** The lock protocol *)

Definition inode : Type := nat.

(** Where a process stands in [AcquireProcessLock] and in the release function. *)
Inductive lock_pc :=
| Outside
| Opened (i : inode)
| Holding (i : inode)
| Unlocked (i : inode)
| Refused.

(** The directory entry of the lock path, who holds the lock of each inode, the contents
    of each inode, and the processes. *)
Record lock_state := mkLock {
  lk_path : option inode;
  lk_next : inode;
  lk_holder : gmap inode nat;
  lk_contents : gmap inode string;
  lk_procs : gmap nat lock_pc
}.

Definition proc (s : lock_state) (p : nat) : lock_pc := default Outside (lk_procs s !! p).

Definition set_proc (p : nat) (pc : lock_pc) (s : lock_state) : lock_state :=
  mkLock (lk_path s) (lk_next s) (lk_holder s) (lk_contents s) (<[p := pc]> (lk_procs s)).

(** [os.OpenFile(path, O_CREATE|O_RDWR)]: the file at the path, or a new one. *)
Definition lock_open (p : nat) (s : lock_state) : lock_state :=
  match lk_path s with
  | Some i => set_proc p (Opened i) s
  | None =>
      set_proc p (Opened (lk_next s))
        (mkLock (Some (lk_next s)) (S (lk_next s)) (lk_holder s)
           (<[lk_next s := ""]> (lk_contents s)) (lk_procs s))
  end.

(** [Flock(LOCK_EX|LOCK_NB)], then the pid is written; a locked file is given up. *)
Definition lock_flock (p : nat) (i : inode) (s : lock_state) : lock_state :=
  match lk_holder s !! i with
  | Some _ => set_proc p Refused s
  | None =>
      set_proc p (Holding i)
        (mkLock (lk_path s) (lk_next s) (<[i := p]> (lk_holder s))
           (<[i := lock_contents (Z.of_nat p)]> (lk_contents s)) (lk_procs s))
  end.

(** The release function: unlock and close, then remove whatever is at the path. *)
Definition lock_unlock (p : nat) (i : inode) (s : lock_state) : lock_state :=
  set_proc p (Unlocked i)
    (mkLock (lk_path s) (lk_next s) (delete i (lk_holder s)) (lk_contents s) (lk_procs s)).

Definition lock_remove (p : nat) (s : lock_state) : lock_state :=
  set_proc p Outside (mkLock None (lk_next s) (lk_holder s) (lk_contents s) (lk_procs s)).

(** A process that dies: the kernel closes its files, which drops its locks. *)
Definition lock_exit (p : nat) (s : lock_state) : lock_state :=
  set_proc p Outside
    (mkLock (lk_path s) (lk_next s) (filter (λ x, x.2 ≠ p) (lk_holder s)) (lk_contents s)
       (lk_procs s)).

Inductive lock_step : lock_state → lock_state → Prop :=
| lk_open s p : proc s p = Outside → lock_step s (lock_open p s)
| lk_flock s p i : proc s p = Opened i → lock_step s (lock_flock p i s)
| lk_retry s p : proc s p = Refused → lock_step s (set_proc p Outside s)
| lk_exit s p i : proc s p = Opened i ∨ proc s p = Holding i → lock_step s (lock_exit p s)
| lk_unlock s p i : proc s p = Holding i → lock_step s (lock_unlock p i s)
| lk_remove s p i : proc s p = Unlocked i → lock_step s (lock_remove p s).

Definition lock_init : lock_state := mkLock None 0 ∅ ∅ ∅.

Definition holds (s : lock_state) (p : nat) : Prop := ∃ i, proc s p = Holding i.

(** A step that does not remove the lock file. *)
Definition keep_step (s s' : lock_state) : Prop :=
  lock_step s s' ∧ ∀ i, lk_path s = Some i → lk_path s' = Some i.

(** ** Invariants *)

Lemma proc_set p pc s q : proc (set_proc p pc s) q = if decide (p = q) then pc else proc s q.
Proof. unfold proc. simpl. rewrite lookup_insert. by case_decide. Qed.

(** The holder of an inode's lock is the process that thinks it holds it. *)
Definition lock_inv (s : lock_state) : Prop :=
  ∀ p i, proc s p = Holding i ↔ lk_holder s !! i = Some p.

Lemma lock_inv_step s s' : lock_step s s' → lock_inv s → lock_inv s'.
Proof.
  intros Hstep Hinv q j.
  assert (∀ i p, proc s p ≠ Holding i → lk_holder s !! i ≠ Some p) as Hno
    by (intros i p Hp Hh; by apply Hp, Hinv).
  destruct Hstep as [s p Hp|s p i Hp|s p Hp|s p i Hp|s p i Hp|s p i Hp].
  - assert (∀ s1, lk_holder s1 = lk_holder s → lk_procs s1 = lk_procs s →
      ∀ k, proc (set_proc p (Opened k) s1) q = Holding j ↔
           lk_holder (set_proc p (Opened k) s1) !! j = Some q) as Ho.
    { intros s1 Hh Hpr k. rewrite proc_set. simpl. rewrite Hh. unfold proc in *. rewrite Hpr.
      case_decide as Hd; [subst q|apply Hinv]. split; [done|]. intros Hx.
      apply Hinv in Hx. unfold proc in Hx. by rewrite Hp in Hx. }
    unfold lock_open. destruct (lk_path s); by apply Ho.
  - unfold lock_flock. destruct (lk_holder s !! i) as [h|] eqn:Hh; rewrite proc_set; simpl.
    + case_decide as Hd; [subst q|apply Hinv]. split; [done|]. intros Hx.
      apply Hinv in Hx. congruence.
    + rewrite lookup_insert. repeat case_decide; subst; try done.
      * split; [by intros [= ->] | intros Hx; apply Hinv in Hx; congruence].
      * split; [intros Hx; apply Hinv in Hx; congruence | congruence].
      * apply Hinv.
  - rewrite proc_set. simpl. case_decide as Hd; [subst q|apply Hinv]. split; [done|].
    intros Hx. apply Hinv in Hx. congruence.
  - unfold lock_exit. rewrite proc_set. simpl. rewrite map_lookup_filter_Some. simpl.
    case_decide as Hd; [subst q|].
    + split; [done | by intros [_ ?]].
    + destruct (Hinv q j) as [Hto Hfrom].
      split; [intros Hx; split; [by apply Hto | congruence] | intros [Hx _]; by apply Hfrom].
  - unfold lock_unlock. rewrite proc_set. simpl. rewrite lookup_delete_Some.
    case_decide as Hd; [subst q|].
    + split; [done|]. intros [Hne Hx]. apply Hinv in Hx. congruence.
    + destruct (Hinv q j) as [Hto Hfrom]. split; [|intros [_ Hx]; by apply Hfrom].
      intros Hx. split; [|by apply Hto]. intros <-. apply Hinv in Hp.
      assert (lk_holder s !! i = Some q) by by apply Hto. congruence.
  - unfold lock_remove. rewrite proc_set. simpl. case_decide as Hd; [subst q|apply Hinv].
    split; [done|]. intros Hx. apply Hinv in Hx. congruence.
Qed.

(** As long as the file is not removed, everyone works on the inode at the path. *)
Definition same_inode (s : lock_state) : Prop :=
  ∀ p i, proc s p = Opened i ∨ proc s p = Holding i ∨ proc s p = Unlocked i → lk_path s = Some i.

Lemma same_inode_step s s' : keep_step s s' → same_inode s → same_inode s'.
Proof.
  intros [Hstep Hkeep] Hinv q j Hq.
  assert (∀ p pc s1, s' = set_proc p pc s1 → lk_procs s1 = lk_procs s →
    lk_path s' = lk_path s → (∀ i, pc = Opened i ∨ pc = Holding i ∨ pc = Unlocked i → lk_path s = Some i) →
    lk_path s' = Some j) as Hset.
  { intros p pc s1 -> Hpr Hpath Hpc. rewrite proc_set in Hq. rewrite Hpath.
    case_decide; [by apply Hpc|]. apply (Hinv q). unfold proc in *. by rewrite Hpr in Hq. }
  destruct Hstep as [s p Hp|s p i Hp|s p Hp|s p i Hp|s p i Hp|s p i Hp].
  - unfold lock_open in *. destruct (lk_path s) as [k|] eqn:Hk.
    + eapply Hset; try done. naive_solver.
    + rewrite proc_set in Hq. simpl in *. case_decide; [naive_solver|].
      exfalso. apply (Hinv q) in Hq. congruence.
  - unfold lock_flock in *. destruct (lk_holder s !! i); (eapply Hset; [done | done | done |]);
      naive_solver.
  - eapply Hset; [done | done | done | naive_solver].
  - eapply Hset; [done | done | done | naive_solver].
  - eapply Hset; [done | done | done |]. intros k [?|[?|[= <-]]]; [done..|]. apply (Hinv p). auto.
  - specialize (Hkeep i). unfold lock_remove in Hkeep. simpl in Hkeep.
    assert (lk_path s = Some i) as Hi by (apply (Hinv p); auto). by specialize (Hkeep Hi).
Qed.

(** ** Claims *)

(** A lock file that holds a process's pid reads back as that pid: [LockHolderPID]
    inverts what [AcquireProcessLock] writes, for every positive [int]. *)
Theorem LockHolderPID_roundtrip pid :
  (0 < pid < 2 ^ 63)%Z → LockHolderPID (Some (lock_contents pid)) = (pid, true).
Proof.
  intros Hp. unfold LockHolderPID, lock_contents, Itoa.
  assert ((pid <? 0)%Z = false) as -> by (apply Z.ltb_ge; lia).
  rewrite stringsTrim_digits by by apply digits_digits. rewrite Atoi_digits by lia.
  assert ((pid <=? 0)%Z = false) as -> by (apply Z.leb_gt; lia). done.
Qed.

(** C36: as long as no client has removed the lock file, whatever the order in which any
    number of clients open it, lock it, give up, try again, unlock or die, at most one of
    them holds the lock. *)
Theorem lock_exclusive s p q :
  rtc keep_step lock_init s → holds s p → holds s q → p = q.
Proof.
  intros Hrun [i Hi] [j Hj].
  assert (∀ s1 s2, rtc keep_step s1 s2 → lock_inv s1 ∧ same_inode s1 → lock_inv s2 ∧ same_inode s2)
    as HR.
  { intros s1 s2. induction 1 as [|s1 s2 s3 Hstep _ IH]; [done|]. intros [H1 H2]. apply IH.
    split; [by eapply lock_inv_step; [apply Hstep|] | by eapply same_inode_step]. }
  destruct (HR _ _ Hrun) as [Hinv Hsame].
  { split; intros p' i'; unfold proc; simpl; rewrite !lookup_empty; [done | naive_solver]. }
  assert (lk_path s = Some i) as H1 by (apply (Hsame p); auto).
  assert (lk_path s = Some j) as H2 by (apply (Hsame q); auto).
  apply Hinv in Hi, Hj. congruence.
Qed.

(** The release function breaks the exclusion: because it unlocks the file before it
    removes it, a client that had the old file open locks that one, and after the removal
    another client creates and locks a new file, so two clients run at once. *)
Theorem lock_release_race : ∃ s, rtc lock_step lock_init s ∧ holds s 1 ∧ holds s 2.
Proof.
  set (s1 := lock_open 0 lock_init). set (s2 := lock_flock 0 0 s1).
  set (s3 := lock_open 1 s2). set (s4 := lock_unlock 0 0 s3). set (s5 := lock_flock 1 0 s4).
  set (s6 := lock_remove 0 s5). set (s7 := lock_open 2 s6). set (s8 := lock_flock 2 1 s7).
  exists s8. split; [|split; eexists; by vm_compute].
  eapply rtc_l; [by apply (lk_open lock_init 0)|]. eapply rtc_l; [by apply (lk_flock s1 0 0)|].
  eapply rtc_l; [by apply (lk_open s2 1)|]. eapply rtc_l; [by apply (lk_unlock s3 0 0)|].
  eapply rtc_l; [by apply (lk_flock s4 1 0)|]. eapply rtc_l; [by apply (lk_remove s5 0 0)|].
  eapply rtc_l; [by apply (lk_open s6 2)|]. eapply rtc_l; [by apply (lk_flock s7 2 1)|].
  reflexivity.
Qed.

(** ** Witnesses *)

Lemma LockHolderPID_roundtrip_witness : LockHolderPID (Some (lock_contents 4711)) = (4711%Z, true).
Proof. apply (LockHolderPID_roundtrip 4711). split; reflexivity. Defined.

Definition lock_demo : lock_state := lock_flock 7 0 (lock_open 7 lock_init).

Lemma lock_demo_run : rtc keep_step lock_init lock_demo.
Proof.
  eapply rtc_l; [split; [by apply (lk_open lock_init 7) | done]|].
  eapply rtc_l; [split; [by apply (lk_flock (lock_open 7 lock_init) 7 0) | done]|]. reflexivity.
Qed.

Lemma lock_exclusive_witness : holds lock_demo 7 ∧ ∀ q, holds lock_demo q → 7 = q.
Proof.
  assert (holds lock_demo 7) as Hh by (by exists 0; vm_compute).
  split; [done|]. intros q Hq. exact (lock_exclusive lock_demo 7 q lock_demo_run Hh Hq).
Defined.

Example list_pids :
  listClientPIDs (PgrepOutput ("123" +:+ String newline ("x" +:+ String newline (" 77 " +:+ String newline ""))))
  = Ok [123%Z; 77%Z].
Proof. vm_compute. reflexivity. Qed.
