(* ===== verification/Bridge.v ===== *)
(** The byte pumps between a stream and a connection: [bridgeBidirectional] of
    internal/client/handler.go and [Bridge] of internal/server/bridge.go, each as the
    interleavings of its two copying goroutines. *)

From S2P Require Import Prelude.

(** ** One direction *)

(** What the source still has to give, what the destination has got, whether the copy has
    ended and whether the destination was told that no more will come. *)
Record direction := mkDir {
  d_todo : list ascii;
  d_done : list ascii;
  d_ended : bool;
  d_eof : bool
}.

Definition start_dir (l : list ascii) : direction := mkDir l [] false false.

(** The caller has returned with a nil error or with one. *)
Inductive bridge_result := Running | ReturnedNil | ReturnedErr.

(** Both directions, the results sent on [errCh] so far (first one first), whether both
    connections have been closed, and the caller. *)
Record bridge := mkBridge {
  b_ab : direction;
  b_ba : direction;
  b_errCh : list bool;
  b_closed : bool;
  b_result : bridge_result
}.

Definition start_bridge (x y : list ascii) : bridge :=
  mkBridge (start_dir x) (start_dir y) [] false Running.

(** Which direction a step is about: the state of one goroutine, read and replaced. *)
Definition get_dir (fwd : bool) (b : bridge) : direction := if fwd then b_ab b else b_ba b.

Definition set_dir (fwd : bool) (d : direction) (b : bridge) : bridge :=
  if fwd then mkBridge d (b_ba b) (b_errCh b) (b_closed b) (b_result b)
  else mkBridge (b_ab b) d (b_errCh b) (b_closed b) (b_result b).

Definition send_err (ok : bool) (b : bridge) : bridge :=
  mkBridge (b_ab b) (b_ba b) (b_errCh b ++ [ok]) (b_closed b) (b_result b).

(** ** The copying goroutines *)

(** [io.Copy] moves a byte, ends at the end of the source, or fails (it must once the
    connections are closed); [half_close]: whether the destination of a direction can be half-closed. *)
Inductive copy_step (half_close : bool → bool) (b : bridge) : bridge → Prop :=
| copy_byte fwd c rest :
    b_closed b = false → d_ended (get_dir fwd b) = false → d_todo (get_dir fwd b) = c :: rest →
    copy_step half_close b
      (set_dir fwd (mkDir rest (d_done (get_dir fwd b) ++ [c]) false false) b)
| copy_end fwd :
    b_closed b = false → d_ended (get_dir fwd b) = false → d_todo (get_dir fwd b) = [] →
    copy_step half_close b
      (send_err true (set_dir fwd (mkDir [] (d_done (get_dir fwd b)) true (half_close fwd)) b))
| copy_fail fwd :
    d_ended (get_dir fwd b) = false →
    copy_step half_close b
      (send_err false (set_dir fwd
         (mkDir (d_todo (get_dir fwd b)) (d_done (get_dir fwd b)) true (half_close fwd)) b)).

(** ** The callers *)

(** [bridgeBidirectional]: wait for both results; the first error, if any, is returned. *)
Inductive bridgeBidirectional (half_close : bool → bool) (b : bridge) : bridge → Prop :=
| bi_copy b' : b_result b = Running → copy_step half_close b b' → bridgeBidirectional half_close b b'
| bi_return err1 err2 :
    b_result b = Running → b_errCh b = [err1; err2] →
    bridgeBidirectional half_close b
      (mkBridge (b_ab b) (b_ba b) (b_errCh b) (b_closed b)
         (if err1 && err2 then ReturnedNil else ReturnedErr)).

(** [copyOneWay]: at its end it closes the reading side of the source, from which nobody reads
    any more; the destination learns nothing. *)
Definition copyOneWay (b b' : bridge) : Prop := copy_step (λ _, false) b b'.

(** [Bridge]: after the first result close both connections, wait for the second, and
    return the first. *)
Inductive Bridge (b : bridge) : bridge → Prop :=
| br_copy b' : b_result b = Running → copyOneWay b b' → Bridge b b'
| br_close :
    b_result b = Running → b_errCh b ≠ [] → b_closed b = false →
    Bridge b (mkBridge (b_ab b) (b_ba b) (b_errCh b) true (b_result b))
| br_return err1 err2 :
    b_result b = Running → b_closed b = true → b_errCh b = [err1; err2] →
    Bridge b
      (mkBridge (b_ab b) (b_ba b) (b_errCh b) (b_closed b)
         (if err1 then ReturnedNil else ReturnedErr)).

(** ** What a direction has delivered *)

Definition carries (x : list ascii) (d : direction) : Prop := d_done d ++ d_todo d = x.

Lemma copy_step_carries hc b b' x y :
  copy_step hc b b' → carries x (b_ab b) ∧ carries y (b_ba b) →
  carries x (b_ab b') ∧ carries y (b_ba b').
Proof.
  unfold carries. intros Hstep [Hx Hy].
  destruct Hstep as [[] c rest _ _ Ht|[] _ _ Ht|[] _]; simpl in *; rewrite ?Ht in *;
    rewrite <-?(assoc_L (++)); done.
Qed.

(** The results on the channel against the directions: a direction that has ended has
    sent one, and only successes have been sent when nothing is left behind. *)
Record bridge_inv (b : bridge) : Prop := {
  bi_count : length (b_errCh b) =
    (if d_ended (b_ab b) then 1 else 0) + (if d_ended (b_ba b) then 1 else 0);
  bi_ok : Forall (λ ok, ok = true) (b_errCh b) →
    (d_ended (b_ab b) = true → d_todo (b_ab b) = [])
    ∧ (d_ended (b_ba b) = true → d_todo (b_ba b) = [])
}.

Lemma copy_step_inv hc b b' : copy_step hc b b' → bridge_inv b → bridge_inv b'.
Proof.
  intros Hstep [Hc Hok].
  destruct Hstep as [[] c rest _ He Ht|[] _ He Ht|[] He]; simpl in *; rewrite ?He in *;
    constructor; simpl; rewrite ?length_app; simpl; try lia;
    rewrite ?Forall_app, ?Forall_singleton; naive_solver.
Qed.

Lemma bidirectional_inv hc x y b :
  rtc (bridgeBidirectional hc) (start_bridge x y) b →
  carries x (b_ab b) ∧ carries y (b_ba b) ∧ bridge_inv b
  ∧ b_closed b = false
  ∧ (b_result b = ReturnedNil → b_errCh b = [true; true])
  ∧ (b_result b ≠ Running → length (b_errCh b) = 2).
Proof.
  intros Hrun. assert (∀ b1 b2, rtc (bridgeBidirectional hc) b1 b2 →
    carries x (b_ab b1) ∧ carries y (b_ba b1) ∧ bridge_inv b1 ∧ b_closed b1 = false
      ∧ (b_result b1 = ReturnedNil → b_errCh b1 = [true; true])
      ∧ (b_result b1 ≠ Running → length (b_errCh b1) = 2) →
    carries x (b_ab b2) ∧ carries y (b_ba b2) ∧ bridge_inv b2 ∧ b_closed b2 = false
      ∧ (b_result b2 = ReturnedNil → b_errCh b2 = [true; true])
      ∧ (b_result b2 ≠ Running → length (b_errCh b2) = 2)) as HR.
  { intros b1 b2. induction 1 as [|b1 b2 b3 Hstep _ IH]; [done|].
    intros (Hx & Hy & Hi & Hcl & Hn & Hr). apply IH. destruct Hstep as [b' Hrun' Hc|e1 e2 Hrun' He].
    - destruct (copy_step_carries hc b1 b' x y Hc (conj Hx Hy)). split_and!; try done;
        [by eapply copy_step_inv | | |]; destruct Hc as [[]|[]|[]]; simpl; congruence.
    - split_and!; try done; [by destruct Hi; constructor | |]; simpl; rewrite He; [by destruct e1, e2 | done]. }
  apply (HR _ _ Hrun). simpl. split_and!; done.
Qed.

Lemma delivers_all hc x y b :
  rtc (bridgeBidirectional hc) (start_bridge x y) b → b_result b ≠ Running →
  d_ended (b_ab b) = true ∧ d_ended (b_ba b) = true
  ∧ (b_result b = ReturnedNil → d_done (b_ab b) = x ∧ d_done (b_ba b) = y).
Proof.
  intros Hrun Hres.
  destruct (bidirectional_inv hc x y b Hrun) as (Hx & Hy & [Hc Hok] & _ & Hnil & Hlen).
  specialize (Hlen Hres). rewrite Hlen in Hc.
  destruct (d_ended (b_ab b)), (d_ended (b_ba b)); try done. split_and!; try done.
  intros Hr. rewrite Hnil in Hok by done. destruct (Hok ltac:(by repeat constructor)) as [Ha Hb].
  unfold carries in *. rewrite Ha, app_nil_r in Hx by done. by rewrite Hb, app_nil_r in Hy.
Qed.

Lemma returned_err hc x y b :
  rtc (bridgeBidirectional hc) (start_bridge x y) b → b_result b = ReturnedErr →
  ¬ Forall (λ ok, ok = true) (b_errCh b).
Proof.
  intros Hrun. assert (∀ b1 b2, rtc (bridgeBidirectional hc) b1 b2 →
    (b_result b1 = ReturnedErr → ¬ Forall (λ ok, ok = true) (b_errCh b1)) →
    b_result b2 = ReturnedErr → ¬ Forall (λ ok, ok = true) (b_errCh b2)) as HR.
  { induction 1 as [|b1 b2 b3 Hstep _ IH]; [done|]. intros Hb. apply IH.
    destruct Hstep as [b' Hr Hc|e1 e2 Hr He].
    - destruct Hc as [[]|[]|[]]; simpl; congruence.
    - simpl. rewrite He. destruct e1, e2; try done; intros _ Hf; inversion Hf as [|? ? ? Hf'];
        by inversion Hf'. }
  by apply (HR _ _ Hrun).
Qed.

(** ** Claims *)

(** When [bridgeBidirectional] returns, both copying goroutines have ended, and when
    it returns without an error every byte of both directions has been delivered, in
    order, whatever the interleaving of the two copies. *)
Theorem bridge_delivers_all hc x y b :
  rtc (bridgeBidirectional hc) (start_bridge x y) b → b_result b ≠ Running →
  d_ended (b_ab b) = true ∧ d_ended (b_ba b) = true
  ∧ (b_result b = ReturnedNil → d_done (b_ab b) = x ∧ d_done (b_ba b) = y).
Proof. apply delivers_all. Qed.

(** The steps that are left: bytes to move, results to send, connections to close, the
    return. *)
Definition bridge_left (b : bridge) : nat :=
  length (d_todo (b_ab b)) + length (d_todo (b_ba b))
  + (if d_ended (b_ab b) then 0 else 1) + (if d_ended (b_ba b) then 0 else 1)
  + (if b_closed b then 0 else 1)
  + match b_result b with Running => 1 | _ => 0 end.

Lemma copy_step_left hc b b' : copy_step hc b b' → bridge_left b' < bridge_left b.
Proof.
  intros Hstep. unfold bridge_left.
  destruct Hstep as [[] c rest Hcl He Ht|[] Hcl He Ht|[] He]; simpl in *;
    rewrite ?Hcl, ?He, ?Ht; simpl; destruct (b_result b); try lia.
Qed.

Lemma bidirectional_left hc n b1 b2 :
  nsteps (bridgeBidirectional hc) n b1 b2 → n + bridge_left b2 ≤ bridge_left b1.
Proof.
  revert b1. induction n as [|n IH]; intros b1 Hn; inversion Hn as [|m ? b3 ? H12 H23]; subst; [lia|].
  specialize (IH _ H23). assert (bridge_left b3 < bridge_left b1); [|lia].
  destruct H12 as [b' _ Hc|e1 e2 Hr He]; [by eapply copy_step_left|].
  unfold bridge_left. simpl. rewrite Hr. destruct (e1 && e2); lia.
Qed.

Lemma bridge_progress hc b :
  bridge_inv b → b_result b = Running → ∃ b', bridgeBidirectional hc b b'.
Proof.
  intros [Hc _] Hr. destruct (d_ended (b_ab b)) eqn:Ha.
  - destruct (d_ended (b_ba b)) eqn:Hb.
    + destruct (b_errCh b) as [|e1 [|e2 [|]]] eqn:He; try done. eexists. by eapply bi_return.
    + eexists. eapply bi_copy; [done|]. by apply (copy_fail hc b false).
  - eexists. eapply bi_copy; [done|]. by apply (copy_fail hc b true).
Qed.

(** [bridgeBidirectional] always comes to an end: no run has more steps than there are
    bytes, results and the return, and until it has returned some step is possible. *)
Theorem bridge_terminates hc x y b n :
  nsteps (bridgeBidirectional hc) n (start_bridge x y) b →
  n ≤ length x + length y + 4 ∧ (b_result b = Running → ∃ b', bridgeBidirectional hc b b').
Proof.
  intros Hn. split.
  - pose proof (bidirectional_left hc n _ _ Hn) as Hl. unfold bridge_left at 2 in Hl.
    simpl in Hl. lia.
  - intros Hr. apply rtc_nsteps_2 in Hn. apply bidirectional_inv in Hn as (_ & _ & Hi & _).
    by apply bridge_progress.
Qed.

(** A step after which no copy has failed. *)
Definition clean_step (half_close : bool → bool) (b b' : bridge) : Prop :=
  bridgeBidirectional half_close b b' ∧ Forall (λ ok, ok = true) (b_errCh b').

Lemma clean_nsteps hc n b b' : nsteps (clean_step hc) n b b' → nsteps (bridgeBidirectional hc) n b b'.
Proof. apply nsteps_congruence with (f := id). by intros ?? []. Qed.

Lemma clean_results hc n b b' :
  nsteps (clean_step hc) n b b' → Forall (λ ok, ok = true) (b_errCh b) →
  Forall (λ ok, ok = true) (b_errCh b').
Proof. induction 1 as [|n b1 b2 b3 [_ Hc] _ IH]; auto. Qed.

(** As long as the caller has not returned, some copy has a byte to move or its end to
    report, or both have reported. *)
Lemma clean_progress hc b :
  bridge_inv b → b_closed b = false → Forall (λ ok, ok = true) (b_errCh b) →
  b_result b = Running → ∃ b', clean_step hc b b'.
Proof.
  intros [Hc _] Hcl Hok Hr.
  assert (∀ fwd, d_ended (get_dir fwd b) = false → ∃ b', clean_step hc b b') as Hdir.
  { intros fwd He. destruct (d_todo (get_dir fwd b)) as [|c rest] eqn:Ht; eexists; split.
    - apply bi_copy; [done | by apply copy_end].
    - simpl. apply Forall_app. split; [by destruct fwd | by constructor].
    - apply bi_copy; [done | by apply (copy_byte hc b fwd c rest)].
    - by destruct fwd. }
  destruct (d_ended (b_ab b)) eqn:Ha; [|by apply (Hdir true)].
  destruct (d_ended (b_ba b)) eqn:Hb; [|by apply (Hdir false)].
  destruct (b_errCh b) as [|e1 [|e2 [|]]] eqn:He; try done.
  eexists. split; [by eapply bi_return | by simpl; rewrite He].
Qed.

Lemma clean_inv hc n x y b :
  nsteps (clean_step hc) n (start_bridge x y) b →
  nsteps (bridgeBidirectional hc) n (start_bridge x y) b ∧ Forall (λ ok, ok = true) (b_errCh b)
  ∧ bridge_inv b ∧ b_closed b = false.
Proof.
  intros Hn. pose proof (clean_results hc n _ _ Hn ltac:(done)) as Hok.
  apply clean_nsteps in Hn. pose proof (rtc_nsteps_2 _ _ _ Hn) as Hrun.
  by destruct (bidirectional_inv hc x y b Hrun) as (_ & _ & Hi & Hcl & _).
Qed.

Lemma clean_stuck hc n x y b :
  nsteps (clean_step hc) n (start_bridge x y) b → ¬ (∃ b', clean_step hc b b') →
  b_result b = ReturnedNil ∧ d_done (b_ab b) = x ∧ d_done (b_ba b) = y.
Proof.
  intros (Hn & Hok & Hi & Hcl)%clean_inv Hstuck. pose proof (rtc_nsteps_2 _ _ _ Hn) as Hrun.
  destruct (b_result b) eqn:Hr.
  - destruct Hstuck. by apply clean_progress.
  - split; [done|]. by apply (delivers_all hc x y b Hrun); rewrite Hr.
  - exfalso. by apply (returned_err hc x y b Hrun Hr).
Qed.

(** C38: if both sources end and no read or write fails, [bridgeBidirectional] returns
    without an error and everything has been delivered both ways, however the two copies
    are scheduled: a run has at most one step for every byte, two ends and the return, and
    only a state in which all that has happened has no next step. *)
Theorem bridge_completes hc x y n b :
  nsteps (clean_step hc) n (start_bridge x y) b →
  n ≤ length x + length y + 3
  ∧ ((¬ ∃ b', clean_step hc b b') →
     b_result b = ReturnedNil ∧ d_done (b_ab b) = x ∧ d_done (b_ba b) = y).
Proof.
  intros Hn. split; [|by apply (clean_stuck hc n)].
  apply clean_inv in Hn as (Hn & _ & _ & Hcl). pose proof (bidirectional_left hc n _ _ Hn) as Hl.
  unfold bridge_left in Hl. rewrite Hcl in Hl. simpl in Hl. lia.
Qed.

(** [Bridge] of the server, which closes both connections as soon as one direction has
    ended, can return without an error and have delivered nothing of the other one. *)
Theorem Bridge_truncates y c :
  ∃ b, rtc Bridge (start_bridge [] (c :: y)) b
    ∧ b_result b = ReturnedNil ∧ d_done (b_ba b) = [].
Proof.
  set (b0 := start_bridge [] (c :: y)).
  set (b1 := send_err true (set_dir true (mkDir [] [] true false) b0)).
  set (b2 := mkBridge (b_ab b1) (b_ba b1) (b_errCh b1) true (b_result b1)).
  set (b3 := send_err false (set_dir false (mkDir (c :: y) [] true false) b2)).
  set (b4 := mkBridge (b_ab b3) (b_ba b3) (b_errCh b3) (b_closed b3) ReturnedNil).
  exists b4. split; [|done].
  eapply rtc_l; [by apply br_copy; [|apply (copy_end (λ _, false) b0 true)]|].
  eapply rtc_l; [by apply (br_close b1)|].
  eapply rtc_l; [by apply br_copy; [|apply (copy_fail (λ _, false) b2 false)]|].
  eapply rtc_l; [by apply (br_return b3 true false)|]. reflexivity.
Qed.

(** ** Witnesses *)

(** Both connections are TCP connections. *)
Definition both : bool → bool := λ _, true.

Definition bridge_demo : bridge :=
  mkBridge (mkDir [] ["x"%char] true true) (mkDir [] [] true true) [true; true] false ReturnedNil.

Lemma bridge_demo_run : nsteps (bridgeBidirectional both) 4 (start_bridge ["x"%char] []) bridge_demo.
Proof.
  eapply nsteps_l; [apply bi_copy; [done | by apply (copy_byte both _ true "x"%char [])]|].
  eapply nsteps_l; [apply bi_copy; [done | by apply (copy_end both _ false)]|].
  eapply nsteps_l; [apply bi_copy; [done | by apply (copy_end both _ true)]|].
  eapply nsteps_l; [by apply (bi_return both _ true true)|]. constructor.
Qed.

Lemma bridge_delivers_all_witness : d_done (b_ab bridge_demo) = ["x"%char].
Proof.
  apply (bridge_delivers_all both ["x"%char] [] bridge_demo);
    [eapply rtc_nsteps_2, bridge_demo_run | done | done].
Defined.

Lemma bridge_terminates_witness : 4 ≤ 5.
Proof. apply (bridge_terminates both ["x"%char] [] bridge_demo 4 bridge_demo_run). Defined.

Lemma bridge_demo_clean : nsteps (clean_step both) 4 (start_bridge ["x"%char] []) bridge_demo.
Proof.
  eapply nsteps_l; [split; [apply bi_copy; [done | by apply (copy_byte both _ true "x"%char [])] | by repeat constructor]|].
  eapply nsteps_l; [split; [apply bi_copy; [done | by apply (copy_end both _ false)] | by repeat constructor]|].
  eapply nsteps_l; [split; [apply bi_copy; [done | by apply (copy_end both _ true)] | by repeat constructor]|].
  eapply nsteps_l; [split; [by apply (bi_return both _ true true) | by repeat constructor]|].
  constructor.
Qed.

Lemma bridge_completes_witness : b_result bridge_demo = ReturnedNil ∧ 4 ≤ 4.
Proof.
  destruct (bridge_completes both ["x"%char] [] 4 bridge_demo bridge_demo_clean) as [Hn Hdone].
  split; [|exact Hn]. apply Hdone. intros [b' [Hstep _]].
  inversion Hstep as [? Hr|? ? Hr]; discriminate Hr.
Defined.
