(* ===== verification/Client.v ===== *)
(** internal/client and cmd/client: the connector's configuration, the health checker, the
    stream handler, the session diagnostics and the loop that keeps a service running. *)

From S2P Require Import Prelude GoStrings Config.

(** ** pollmux's outcomes of a session, and what its connection can tell *)

Inductive Outcome :=
| OutcomeShutdown
| OutcomeSuperseded
| OutcomePeerClosed
| OutcomeTransportFailed
| OutcomeOther (n : Z).

(** ** session_detail.go *)

(** [channelClosed] receives from a channel without waiting; only closing makes these
    channels readable. *)
Definition channelClosed (closed : bool) : bool := closed.

(** The cause of the context's end, and whether the channels [SessionSuperseded] and
    [TransportFailed] of the connection are closed. *)
Definition sessionEndDetail (cause : option string) (superseded transportFailed : bool)
    (outcome : Outcome) : string :=
  match outcome with
  | OutcomeShutdown =>
      match cause with Some err => err | None => "client process shutting down" end
  | OutcomeSuperseded =>
      "session superseded by a newer connect with the same client_id " +:+
      "(duplicate httphop-client process or overlapping reconnect)"
  | OutcomePeerClosed =>
      "yamux session closed while HTTP transport was still healthy (server-side session end)"
  | OutcomeTransportFailed =>
      if channelClosed superseded then
        "HTTP transport failed after session superseded — " +:+
        "check for duplicate httphop-client using the same client_id"
      else if channelClosed transportFailed then
        "HTTP transport failed (poll/send network error, timeout, or server 410 session closed)"
      else "transport failed (see pollmux transport problem logs above for the exact HTTP error)"
  | OutcomeOther _ => ""
  end.

(** ** diagnostics.go *)

Definition reconnectWaveGap : Z := 5 * Second.

Inductive log_level := Info | Warn.

(** The log line [record] writes: its level and message, and the optional fields
    [since_last_session], [detail] and [consecutive_fast_failures]. *)
Record session_log := mkSessionLog {
  sl_level : log_level;
  sl_message : string;
  sl_gap : option Z;
  sl_detail : option string;
  sl_fast : option Z
}.

(** [lastEndedAt] is [None] for the zero time. *)
Record sessionDiagnostics := mkDiagnostics {
  lastEndedAt : option Z;
  consecutiveFast : Z
}.

Definition newSessionDiagnostics : sessionDiagnostics := mkDiagnostics None 0.

(** [record]; [now1] and [now2] are the two readings of the clock. *)
Definition record (now1 now2 : Z) (outcome : Outcome) (detail : string) (d : sessionDiagnostics)
    : sessionDiagnostics * option session_log :=
  let gap := match lastEndedAt d with None => 0%Z | Some t => (now1 - t)%Z end in
  let d := mkDiagnostics (Some now2) (consecutiveFast d) in
  let gap_field := if Z.ltb 0 gap then Some gap else None in
  let detail_field := if bool_decide (detail ≠ "") then Some detail else None in
  let log lvl msg := Some (mkSessionLog lvl msg gap_field detail_field None) in
  match outcome with
  | OutcomeSuperseded =>
      (mkDiagnostics (lastEndedAt d) 0,
       log Info "tunnel session superseded by newer connect, stopping reconnect loop")
  | OutcomeTransportFailed =>
      let waveBreak := Z.eqb gap 0 || Z.leb reconnectWaveGap gap in
      if waveBreak then
        (mkDiagnostics (lastEndedAt d) 1,
         log Warn "tunnel session ended — possible reconnect wave start (check for duplicate client processes or network blips)")
      else
        let n := wrap64 (consecutiveFast d + 1) in
        (mkDiagnostics (lastEndedAt d) n,
         Some (mkSessionLog Warn "tunnel session ended — fast reconnect loop in progress"
                 gap_field detail_field (Some n)))
  | OutcomePeerClosed =>
      (mkDiagnostics (lastEndedAt d) 0, log Info "tunnel session closed by peer, reconnecting promptly")
  | OutcomeShutdown =>
      (mkDiagnostics (lastEndedAt d) 0, log Info "tunnel session shutting down")
  | OutcomeOther _ => (d, None)
  end.

(** ** client.go: the health checker *)

(** The network as the checker sees it at one moment: the status of a GET, or a failure, and whether a
    TCP connection can be opened. *)
Class Probe := {
  http_Get : string → Z → option Z;
  net_Dial : string → Z → bool
}.

Record Checker := mkChecker {
  ck_target : string;
  ck_mode : string;
  ck_path : string;
  ck_interval : Z;
  ck_timeout : Z;
  ck_healthy : bool
}.

Definition NewChecker (cfg : HealthConfig) (target : string) : Checker :=
  mkChecker target (hc_Mode cfg) (hc_Path cfg) (hc_Interval cfg) (hc_Timeout cfg) false.

Definition Healthy (c : Checker) : bool := ck_healthy c.

Definition check `{Probe} (c : Checker) : bool :=
  if bool_decide (ck_mode c = "http") then
    let url := "http://" +:+ (ck_target c +:+ ck_path c) in
    match http_Get url (ck_timeout c) with
    | None => false
    | Some status => Z.leb 200 status && Z.ltb status 400
    end
  else net_Dial (ck_target c) (ck_timeout c).

(** One probe; the state that is logged, if it has changed. *)
Definition probe `{Probe} (c : Checker) : Checker * option string :=
  let ok := check c in
  let prev := ck_healthy c in
  let c := mkChecker (ck_target c) (ck_mode c) (ck_path c) (ck_interval c) (ck_timeout c) ok in
  (c, if bool_decide (ok ≠ prev) then Some (if ok then "ok" else "down") else None).

(** [Checker.Run] until the context ends: a probe at once, the ticker, which panics unless
    its interval is positive, and a probe for every tick; the network at the moment of each
    probe. *)
Definition Run_checker (first : Probe) (ticks : list Probe) (c : Checker) : option Checker :=
  let c := (@probe first c).1 in
  if Z.leb (ck_interval c) 0 then None
  else Some (fold_left (λ c network, (@probe network c).1) ticks c).

(** ** client.go: the connector *)

Record Connector := mkConnector {
  cn_BaseURL : string;
  cn_PathPrefix : string;
  cn_AuthToken : string;
  cn_Meta : gmap string string;
  cn_PollInterval : Z;
  cn_PollGrace : Z;
  cn_SendTimeout : Z;
  cn_CoalesceWindow : Z;
  cn_MaxSendChunk : Z;
  cn_PreferStream : bool;
  cn_UploadStreamPreference : string;
  cn_UploadProbeTimeout : Z;
  cn_PreferWebSocket : bool;
  cn_PreferResume : bool;
  cn_MaxReplayBytes : Z;
  cn_LocalHealth : option (Checker → bool);
  cn_InsecureSkipVerify : bool
}.

Definition buildConnector (c : ClientConfig) : Connector :=
  mkConnector (sr_URL (cc_Server c)) (sr_ControlPath (cc_Server c)) (sr_Token (cc_Server c))
    {["client_id" := cc_ClientID c]}
    (tr_PollInterval (cc_Transport c)) (tr_PollGrace (cc_Transport c))
    (tr_SendTimeout (cc_Transport c)) (tr_CoalesceWindow (cc_Transport c))
    (tr_MaxSendChunk (cc_Transport c)) (tr_PreferStream (cc_Transport c))
    (tr_UploadStreamPreference (cc_Transport c)) (tr_UploadProbeTimeout (cc_Transport c))
    (tr_PreferWebSocket (cc_Transport c)) (tr_PreferResume (cc_Transport c))
    (tr_MaxReplayBytes (cc_Transport c))
    (if hc_Enabled (cc_Health c) then Some Healthy else None)
    (sr_InsecureSkipVerify (cc_Server c)).

(** ** handler.go *)

Record StreamHandler := mkStreamHandler {
  sh_target : string;
  sh_hostRewrite : string;
  sh_dialTimeout : Z
}.

Definition NewStreamHandler (local : LocalConfig) (dialTimeout : Z) : StreamHandler :=
  mkStreamHandler (lc_Target local) (lc_HostRewrite local)
    (if Z.eqb dialTimeout 0 then 10 * Second else dialTimeout).

(** How [Handle] serves a stream. *)
Inductive handling :=
| DialFailed
| BridgePlain
| BridgeRewritten (newHost : string).

Definition Handle `{Probe} (h : StreamHandler) : handling :=
  if negb (net_Dial (sh_target h) (sh_dialTimeout h)) then DialFailed
  else if bool_decide (sh_hostRewrite h ≠ "") then BridgeRewritten (sh_hostRewrite h)
  else BridgePlain.

(** ** client.go: the client and its sessions *)

Record Client := mkClient {
  cl_cfg : ClientConfig;
  cl_handler : StreamHandler;
  cl_health : Checker;
  cl_diagnostics : sessionDiagnostics
}.

Definition New (cfg : ClientConfig) : Client :=
  mkClient cfg (NewStreamHandler (cc_Local cfg) (tr_DialTimeout (cc_Transport cfg)))
    (NewChecker (cc_Health cfg) (lc_Target (cc_Local cfg))) newSessionDiagnostics.

Definition set_diagnostics (d : sessionDiagnostics) (c : Client) : Client :=
  mkClient (cl_cfg c) (cl_handler c) (cl_health c) d.

(** How a session went: whether its multiplexer could be set up, and if so the outcome of
    pollmux's accept loop and what the context and the connection then tell. *)
Record session_course := mkCourse {
  co_setup : result string unit;
  co_outcome : Outcome;
  co_cause : option string;
  co_superseded : bool;
  co_transportFailed : bool
}.

(** [serveSession]; [now1] and [now2] are the clock readings of [record]. *)
Definition serveSession (now1 now2 : Z) (co : session_course) (c : Client)
    : Client * option session_log * Outcome :=
  let '(outcome, detail) :=
    match co_setup co with
    | Err err => (OutcomeTransportFailed, err)
    | Ok _ => (co_outcome co,
               sessionEndDetail (co_cause co) (co_superseded co) (co_transportFailed co)
                 (co_outcome co))
    end in
  let '(d, log) := record now1 now2 outcome detail (cl_diagnostics c) in
  (set_diagnostics d c, log, outcome).

(** ** cmd/client/main.go: the loop of one service *)

(** What [Client.Run] returned: nil (superseded), [context.Canceled] or another error. *)
Inductive run_result := RunSuperseded | RunCanceled | RunFailed (err : string).

(** Whether the loop runs the client again; [ctx_done]: the context ended before the
    second of waiting was over. *)
Definition service_again (r : run_result) (ctx_done : bool) : bool :=
  match r with
  | RunCanceled => false
  | RunFailed _ => false
  | RunSuperseded => negb ctx_done
  end.

(** The runs of a service, given what each would return: how many there are. *)
Fixpoint service_loop (runs : list (run_result * bool)) : nat :=
  match runs with
  | [] => 0
  | (r, ctx_done) :: rest => if service_again r ctx_done then S (service_loop rest) else 1
  end.

(** ** What the diagnostics count *)

(** Transport failures at the given pairs of clock readings, one after another. *)
Definition failures (times : list (Z * Z)) (detail : string) (d : sessionDiagnostics)
    : sessionDiagnostics :=
  fold_left (λ d t, (record t.1 t.2 OutcomeTransportFailed detail d).1) times d.

(** Each failure comes less than [reconnectWaveGap] after the one before it. *)
Fixpoint fast (last : Z) (times : list (Z * Z)) : Prop :=
  match times with
  | [] => True
  | (now1, now2) :: rest => (0 < now1 - last < reconnectWaveGap)%Z ∧ fast now2 rest
  end.

(** One failure: after a pause it starts a wave, otherwise it counts one more. *)
Lemma record_failed_slow now1 now2 detail d :
  match lastEndedAt d with None => True | Some t => (reconnectWaveGap ≤ now1 - t)%Z end →
  (record now1 now2 OutcomeTransportFailed detail d).1 = mkDiagnostics (Some now2) 1.
Proof.
  unfold record. destruct (lastEndedAt d) as [t|]; [|done]. intros Hgap.
  apply Z.leb_le in Hgap. rewrite Hgap, orb_true_r. done.
Qed.

Lemma record_failed_fast now1 now2 detail last n :
  (0 < now1 - last < reconnectWaveGap)%Z → (0 ≤ n < 2 ^ 62)%Z →
  (record now1 now2 OutcomeTransportFailed detail (mkDiagnostics (Some last) n)).1
  = mkDiagnostics (Some now2) (n + 1).
Proof.
  intros Hgap Hn. unfold record. cbn [lastEndedAt consecutiveFast].
  assert ((now1 - last =? 0)%Z || (reconnectWaveGap <=? now1 - last)%Z = false) as ->
    by (apply orb_false_iff; rewrite Z.eqb_neq, Z.leb_gt; lia).
  cbn [fst]. f_equal. apply wrap64_id. unfold int64; lia.
Qed.

Lemma fast_failures times detail : ∀ n last,
  (0 ≤ n)%Z → (n + Z.of_nat (length times) < 2 ^ 62)%Z → fast last times →
  consecutiveFast (failures times detail (mkDiagnostics (Some last) n))
  = (n + Z.of_nat (length times))%Z.
Proof.
  induction times as [|[t1 t2] times IH]; intros n last Hn Hlen Hfast;
    [unfold failures; simpl; lia|].
  destruct Hfast as [Hgap Hfast]. cbn [length] in *.
  change (failures ((t1, t2) :: times) detail (mkDiagnostics (Some last) n)) with
    (failures times detail
      (record t1 t2 OutcomeTransportFailed detail (mkDiagnostics (Some last) n)).1).
  rewrite record_failed_fast by lia. rewrite IH; [lia | lia | lia | done].
Qed.

(** A failure after a pause, or the first one, starts a wave at 1, and every fast failure
    after it counts one more. *)
Lemma fast_failures_counted now1 now2 times detail d :
  match lastEndedAt d with None => True | Some t => (reconnectWaveGap ≤ now1 - t)%Z end →
  fast now2 times → (1 + Z.of_nat (length times) < 2 ^ 62)%Z →
  consecutiveFast (failures ((now1, now2) :: times) detail d) = (1 + Z.of_nat (length times))%Z.
Proof.
  intros Hfirst Hfast Hlen.
  change (failures ((now1, now2) :: times) detail d) with
    (failures times detail (record now1 now2 OutcomeTransportFailed detail d).1).
  rewrite record_failed_slow by done. by apply fast_failures.
Qed.

(** A service that is superseded again and again is started again and again. *)
Lemma superseded_restarts n : service_loop (replicate n (RunSuperseded, false)) = n.
Proof. induction n; simpl; congruence. Qed.

(** Any other end of [Run], and the end of the context, is the last run. *)
Lemma service_loop_last runs r ctx_done rest :
  Forall (λ x, service_again x.1 x.2 = true) runs → service_again r ctx_done = false →
  service_loop (runs ++ (r, ctx_done) :: rest) = S (length runs).
Proof.
  intros Hruns Hr. induction Hruns as [|[x b] runs Hx _ IH]; simpl; [by rewrite Hr|].
  simpl in Hx. by rewrite Hx, IH.
Qed.

(** The health a probe leaves, and what it logs. *)
Lemma probe_outcome `{Probe} c :
  Healthy (probe c).1 = check c ∧ ((probe c).2 = None ↔ check c = Healthy c)
  ∧ check (probe c).1 = check c.
Proof.
  unfold probe, Healthy. simpl. split_and!; [done | | done].
  case_bool_decide as Hb; split; done || congruence.
Qed.

(** The multiplexed stream is closed without a byte sent when the local target is down. *)
Lemma Handle_dial `{Probe} h :
  Handle h = DialFailed ↔ net_Dial (sh_target h) (sh_dialTimeout h) = false.
Proof.
  unfold Handle. destruct (net_Dial _ _); simpl; [|done]. by case_bool_decide.
Qed.

(** Between probes the reported health is that of the last probe: the checker's target and
    settings never change. *)
Lemma probes_fixed networks c :
  fold_left (λ c network, (@probe network c).1) networks c =
    mkChecker (ck_target c) (ck_mode c) (ck_path c) (ck_interval c) (ck_timeout c)
      (ck_healthy (fold_left (λ c network, (@probe network c).1) networks c)).
Proof.
  revert c. induction networks as [|P l IH]; intros c; [by destruct c|]. exact (IH (@probe P c).1).
Qed.

Lemma Run_checker_last first ticks network c :
  Run_checker first (ticks ++ [network]) c ≠ None →
  Healthy <$> Run_checker first (ticks ++ [network]) c = Some (@check network c).
Proof.
  unfold Run_checker. destruct (Z.leb _ 0); [done|]. intros _. simpl. f_equal.
  rewrite fold_left_app. simpl fold_left. rewrite (probes_fixed ticks). done.
Qed.

(** The checker panics exactly when its interval is not positive, whatever the network. *)
Lemma Run_checker_panics first ticks c : Run_checker first ticks c = None ↔ (ck_interval c ≤ 0)%Z.
Proof.
  unfold Run_checker. destruct (Z.leb_spec (ck_interval (@probe first c).1) 0); simpl in *;
    split; done || lia.
Qed.

(** Every record sets the time; only a transport failure leaves a wave under way. *)
Lemma record_ended now1 now2 outcome detail d :
  lastEndedAt (record now1 now2 outcome detail d).1 = Some now2
  ∧ (outcome = OutcomeSuperseded ∨ outcome = OutcomePeerClosed ∨ outcome = OutcomeShutdown →
     consecutiveFast (record now1 now2 outcome detail d).1 = 0%Z).
Proof.
  unfold record. destruct outcome; simpl; (split; [|intros Ho; try reflexivity]).
  all: first [reflexivity | by destruct (_ || _) | by destruct Ho as [?|[?|?]]].
Qed.

(** A session whose multiplexer cannot be set up counts as a transport failure; any other
    outcome than a transport failure ends a wave of fast reconnects. *)
Lemma serveSession_wave now1 now2 co c :
  let '(c', _, outcome) := serveSession now1 now2 co c in
  (∀ err, co_setup co = Err err → outcome = OutcomeTransportFailed)
  ∧ (outcome = OutcomeSuperseded ∨ outcome = OutcomePeerClosed ∨ outcome = OutcomeShutdown →
     consecutiveFast (cl_diagnostics c') = 0%Z)
  ∧ lastEndedAt (cl_diagnostics c') = Some now2
  ∧ cl_cfg c' = cl_cfg c ∧ cl_health c' = cl_health c.
Proof.
  unfold serveSession. destruct (match co_setup co with Ok _ => _ | Err _ => _ end) as [o detail] eqn:Ho.
  pose proof (record_ended now1 now2 o detail (cl_diagnostics c)) as [Hlast Hwave].
  destruct (record _ _ _ _ _) as [d l]. simpl in *. split_and!; try done.
  intros err Herr. rewrite Herr in Ho. by injection Ho as <- _.
Qed.
