(* ===== verification/Handler.v ===== *)
(** internal/client/handler.go from the first byte of a stream to the last: how
    [StreamHandler.Handle] reads a request out of the bytes that arrive, replaces its host,
    and then hands the stream to [bridgeBidirectional] of Bridge. *)

From S2P Require Import Prelude GoStrings Config Rewrite Bridge Client.

(** ** net/http on the wire *)

(** What a reader finds at the start of the bytes it has: not enough of them, something that
    is not well formed, or an item and the number of bytes it takes. *)
Inductive parsed (A : Type) := NeedMore | Malformed | Parsed (x : A) (n : nat).
Arguments NeedMore {A}.
Arguments Malformed {A}.
Arguments Parsed {A} x n.

(** A request as [bridgeWithHostRewrite] sees it: the two fields it assigns to, and the
    rest. *)
Record wire_request (R : Type) := mkWireRequest {
  wr_Host : string;
  wr_Header : gmap string (list string);
  wr_rest : R
}.
Arguments mkWireRequest {R} wr_Host wr_Header wr_rest.
Arguments wr_Host {R} w.
Arguments wr_Header {R} w.
Arguments wr_rest {R} w.

(** [http.ReadRequest] on the bytes of a head, the reader of the body it returns, and
    [Request.Write] of a request whose body has been read; [None] is its error. *)
Class HTTPWire := {
  wire_rest : Type;
  http_ReadRequest : list ascii → parsed (wire_request wire_rest);
  read_body : wire_request wire_rest → list ascii → parsed (list ascii);
  http_Write : wire_request wire_rest → list ascii → option (list ascii)
}.

(** A reader that has decided stays with its decision when more bytes arrive, and does not
    take bytes that are not there. *)
Definition decided {A} (read : list ascii → parsed A) : Prop := ∀ l l',
  match read l with
  | NeedMore => True
  | Malformed => read (l ++ l') = Malformed
  | Parsed x n => n ≤ length l ∧ read (l ++ l') = Parsed x n
  end.

Class HTTPWireOk `{HTTPWire} : Prop := {
  ReadRequest_nil : http_ReadRequest [] = NeedMore;
  ReadRequest_decided : decided http_ReadRequest;
  read_body_decided r : decided (read_body r)
}.

(** ** The handler of a stream *)

(** Where the handler stands; the bytes of a failed one are those that the local service has
    got. *)
Inductive handler_pc (Q : Type) :=
| HReadHead
| HReadBody (r : Q) (n : nat)
| HReadAll (buf : list ascii) (n : nat)
| HWrite (buf : list ascii)
| HBridging (before : list ascii) (b : bridge)
| HFailed (got : list ascii).
Arguments HReadHead {Q}.
Arguments HReadBody {Q} r n.
Arguments HReadAll {Q} buf n.
Arguments HWrite {Q} buf.
Arguments HBridging {Q} before b.
Arguments HFailed {Q} got.

Section Handler.
  Context `{HTTPWire}.

(** The bytes taken off the stream so far, and those it still gives. *)
Record handler := mkHandler {
  h_pc : handler_pc (wire_request wire_rest);
  h_taken : list ascii;
  h_todo : list ascii
}.

(** The bytes the local service has got. *)
Definition local_got (h : handler) : list ascii :=
  match h_pc h with
  | HBridging before b => before ++ d_done (b_ab b)
  | HFailed got => got
  | _ => []
  end.

Definition rewrite_host (newHost : string) (r : wire_request wire_rest) : wire_request wire_rest :=
  mkWireRequest newHost (Header_Set "Host" newHost (wr_Header r)) (wr_rest r).

(** The reader wants more bytes than it has. *)
Definition wants_more (h : handler) : Prop :=
  match h_pc h with
  | HReadHead => http_ReadRequest (h_taken h) = NeedMore
  | HReadBody r n => read_body r (drop n (h_taken h)) = NeedMore
  | HReadAll _ _ => True
  | _ => False
  end.

(** [closes]: the other end closes its side of the stream after its last byte without waiting
    for an answer; it closes it in any case once it is answered.  [response]: what the local
    service will send. *)
Context (closes : bool) (newHost : string) (response : list ascii).

(** A yamux stream cannot be half-closed, a TCP connection can. *)
Definition to_local (fwd : bool) : bool := fwd.

(** The steps in which nothing goes wrong.  The body is read to its end as the request is
    written to a buffer; what the reader holds beyond it makes the handler read on to the end
    of the stream before it writes to the local service. *)
Inductive bridgeWithHostRewrite (h : handler) : handler → Prop :=
| hw_fill chunk rest :
    wants_more h → h_todo h = chunk ++ rest → chunk ≠ [] →
    bridgeWithHostRewrite h (mkHandler (h_pc h) (h_taken h ++ chunk) rest)
| hw_head r n :
    h_pc h = HReadHead → http_ReadRequest (h_taken h) = Parsed r n →
    bridgeWithHostRewrite h (mkHandler (HReadBody (rewrite_host newHost r) n) (h_taken h) (h_todo h))
| hw_body r n content m buf :
    h_pc h = HReadBody r n → read_body r (drop n (h_taken h)) = Parsed content m →
    http_Write r content = Some buf →
    bridgeWithHostRewrite h
      (mkHandler (if bool_decide (drop (n + m) (h_taken h) = []) then HWrite buf
                  else HReadAll buf (n + m)) (h_taken h) (h_todo h))
| hw_all buf n :
    h_pc h = HReadAll buf n → h_todo h = [] → closes = true →
    bridgeWithHostRewrite h (mkHandler (HWrite (buf ++ drop n (h_taken h))) (h_taken h) [])
| hw_write buf :
    h_pc h = HWrite buf →
    bridgeWithHostRewrite h
      (mkHandler (HBridging buf (start_bridge (h_todo h) response)) (h_taken h) (h_todo h))
| hw_bridge before b b' :
    h_pc h = HBridging before b → clean_step to_local b b' →
    bridgeWithHostRewrite h (mkHandler (HBridging before b') (h_taken h) (h_todo h)).

(** What can go wrong, and that the error of [io.ReadAll] is dropped. *)
Inductive handler_fails (h : handler) : handler → Prop :=
| hf_read :
    wants_more h → h_pc h = HReadHead ∨ (∃ r n, h_pc h = HReadBody r n) →
    handler_fails h (mkHandler (HFailed []) (h_taken h) (h_todo h))
| hf_head :
    h_pc h = HReadHead → http_ReadRequest (h_taken h) = Malformed →
    handler_fails h (mkHandler (HFailed []) (h_taken h) (h_todo h))
| hf_body r n :
    h_pc h = HReadBody r n → read_body r (drop n (h_taken h)) = Malformed →
    handler_fails h (mkHandler (HFailed []) (h_taken h) (h_todo h))
| hf_format r n content m :
    h_pc h = HReadBody r n → read_body r (drop n (h_taken h)) = Parsed content m →
    http_Write r content = None →
    handler_fails h (mkHandler (HFailed []) (h_taken h) (h_todo h))
| hf_all buf n :
    h_pc h = HReadAll buf n →
    handler_fails h (mkHandler (HWrite (buf ++ drop n (h_taken h))) (h_taken h) (h_todo h))
| hf_write buf k :
    h_pc h = HWrite buf →
    handler_fails h (mkHandler (HFailed (take k buf)) (h_taken h) (h_todo h))
| hf_bridge before b b' :
    h_pc h = HBridging before b → bridgeBidirectional to_local b b' →
    handler_fails h (mkHandler (HBridging before b') (h_taken h) (h_todo h)).

Definition handler_step (h h' : handler) : Prop :=
  bridgeWithHostRewrite h h' ∨ handler_fails h h'.

(** [Handle] once it is known how the stream is served. *)
Definition start_handler (how : handling) (stream : list ascii) : handler :=
  match how with
  | DialFailed => mkHandler (HFailed []) [] stream
  | BridgePlain => mkHandler (HBridging [] (start_bridge stream response)) [] stream
  | BridgeRewritten _ => mkHandler HReadHead [] stream
  end.

End Handler.

(** ** What the local service gets *)

(** The stream carries a request: its head takes [n] bytes, its body [m], and the request with
    the new host is written as [buf]. *)
Record carries_request `{HTTPWire} (newHost : string) (stream : list ascii) (n m : nat)
    (buf : list ascii) : Prop := {
  cr_head : ∃ r content,
    http_ReadRequest stream = Parsed r n
    ∧ read_body (rewrite_host newHost r) (drop n stream) = Parsed content m
    ∧ http_Write (rewrite_host newHost r) content = Some buf
}.

Lemma decided_prefix {A} (read : list ascii → parsed A) x n l1 l2 :
  decided read → read (l1 ++ l2) = Parsed x n →
  match read l1 with
  | NeedMore => True
  | Malformed => False
  | Parsed y k => y = x ∧ k = n ∧ n ≤ length l1
  end.
Proof.
  intros Hd Hl. specialize (Hd l1 l2). destruct (read l1) as [| |y k]; [done | congruence |].
  destruct Hd as [Hk Hd]. rewrite Hl in Hd. by injection Hd as -> ->.
Qed.

Section HandlerSpec.
  Context `{HTTPWireOk} (closes : bool) (newHost : string) (response : list ascii).
  Context (stream : list ascii) (r : wire_request wire_rest) (content : list ascii) (n m : nat).
  Context (buf : list ascii).
  Context (Hhead : http_ReadRequest stream = Parsed r n).
  Context (Hbody : read_body (rewrite_host newHost r) (drop n stream) = Parsed content m).
  Context (Hwrite : http_Write (rewrite_host newHost r) content = Some buf).

Local Notation clean := (bridgeWithHostRewrite closes newHost response).
Local Notation step := (handler_step closes newHost response).

Definition forwarded : list ascii := buf ++ drop (n + m) stream.

Definition handler_inv (h : handler) : Prop :=
  h_taken h ++ h_todo h = stream ∧
  match h_pc h with
  | HReadHead => True
  | HReadBody q k => q = rewrite_host newHost r ∧ k = n ∧ n ≤ length (h_taken h)
  | HReadAll b k => b = buf ∧ k = n + m ∧ n + m ≤ length (h_taken h)
      ∧ drop (n + m) (h_taken h) ≠ []
  | HWrite b => b ++ h_todo h = forwarded
  | HBridging before b => ∃ x,
      rtc (bridgeBidirectional to_local) (start_bridge x response) b ∧ before ++ x = forwarded
  | HFailed got => got `prefix_of` forwarded
  end.

(** What has been decided about a part of the stream holds of all of it. *)
Lemma head_known h :
  h_taken h ++ h_todo h = stream →
  match http_ReadRequest (h_taken h) with
  | NeedMore => True | Malformed => False | Parsed q k => q = r ∧ k = n ∧ n ≤ length (h_taken h)
  end.
Proof.
  intros Hs. apply (decided_prefix _ r n _ (h_todo h) ReadRequest_decided). by rewrite Hs.
Qed.

Lemma body_known h :
  h_taken h ++ h_todo h = stream → n ≤ length (h_taken h) →
  match read_body (rewrite_host newHost r) (drop n (h_taken h)) with
  | NeedMore => True
  | Malformed => False
  | Parsed c k => c = content ∧ k = m ∧ n + m ≤ length (h_taken h)
  end.
Proof.
  intros Hs Hn.
  pose proof (decided_prefix _ content m (drop n (h_taken h)) (h_todo h)
    (read_body_decided (rewrite_host newHost r))) as Hd.
  rewrite <-drop_app_le, Hs in Hd by done. specialize (Hd Hbody).
  destruct (read_body _ (drop n (h_taken h))) as [| |c k]; [done | done |]. rewrite length_drop in Hd.
  destruct Hd as (-> & -> & Hm). split_and!; [done | done | lia].
Qed.

Lemma rest_known h :
  h_taken h ++ h_todo h = stream → n + m ≤ length (h_taken h) →
  (buf ++ drop (n + m) (h_taken h)) ++ h_todo h = forwarded.
Proof. intros Hs Hl. unfold forwarded. by rewrite <-Hs, drop_app_le, (assoc_L (++)). Qed.

Lemma clean_inv_step h h' : clean h h' → handler_inv h → handler_inv h'.
Proof.
  intros Hstep [Hs Hi]. unfold handler_inv.
  destruct Hstep as [chunk rest Hw Ht _|q k Hpc Hq|q k c k' b Hpc Hb Hf|b k Hpc Ht _|b Hpc|before b b' Hpc Hb];
    simpl; rewrite ?Hpc in Hi.
  - rewrite <-(assoc_L (++)), <-Ht. split; [done|].
    unfold wants_more in Hw.
    destruct (h_pc h); rewrite ?length_app; try done; [by intuition lia|].
    destruct Hi as (-> & -> & Hm & Hd). rewrite drop_app_le by done.
    split_and!; [done | done | lia |]. by intros [? _]%app_eq_nil.
  - split; [done|]. pose proof (head_known h Hs) as Hh. rewrite Hq in Hh.
    by destruct Hh as (-> & -> & Hn).
  - split; [done|]. destruct Hi as (-> & -> & Hn). pose proof (body_known h Hs Hn) as Hk.
    rewrite Hb in Hk. destruct Hk as (-> & -> & Hm). rewrite Hwrite in Hf. injection Hf as <-.
    case_bool_decide as Hd; [|done]. rewrite <-(rest_known h Hs Hm), Hd. by rewrite app_nil_r.
  - rewrite Ht in Hs. split; [done|]. destruct Hi as (-> & -> & Hm & _).
    rewrite <-(rest_known h) by (by rewrite ?Ht). by rewrite Ht.
  - split; [done|]. exists (h_todo h). split; [constructor | done].
  - split; [done|]. destruct Hi as (x & Hrun & Hx). exists x. split; [|done].
    eapply rtc_r; [exact Hrun | apply Hb].
Qed.

Lemma fails_inv_step h h' : handler_fails h h' → handler_inv h → handler_inv h'.
Proof.
  intros Hstep [Hs Hi]. unfold handler_inv.
  destruct Hstep as [_ _|_ _|q k _ _|q k c k' _ _ _|b k Hpc|b k Hpc|before b b' Hpc Hb]; simpl;
    rewrite ?Hpc in Hi; (split; [done|]); try apply prefix_nil.
  - destruct Hi as (-> & -> & Hm & _). by apply rest_known.
  - rewrite <-Hi. apply prefix_app_r. rewrite <-(take_drop k b) at 2. by apply prefix_app_r.
  - destruct Hi as (x & Hrun & Hx). exists x. split; [|done]. by eapply rtc_r.
Qed.

Lemma handler_run_inv h :
  rtc step (start_handler response (BridgeRewritten newHost) stream) h → handler_inv h.
Proof.
  apply (rtc_ind_r handler_inv); [done|]. intros h1 h2 _ [Hc|Hf] Hi;
    [by eapply clean_inv_step | by eapply fails_inv_step].
Qed.

Lemma local_got_prefix h : handler_inv h → local_got h `prefix_of` forwarded.
Proof.
  intros [_ Hi]. unfold local_got. destruct (h_pc h); try apply prefix_nil; [|done].
  destruct Hi as (x & Hrun & <-). apply bidirectional_inv in Hrun as (Hx & _).
  apply prefix_app. exists (d_todo (b_ab b)). by rewrite Hx.
Qed.

(** *** Runs in which nothing goes wrong *)

Definition clean_pc (h : handler) : Prop :=
  match h_pc h with
  | HBridging _ b => ∃ k x, nsteps (clean_step to_local) k (start_bridge x response) b
  | HFailed _ => False
  | _ => True
  end.

Lemma clean_pc_step h h' : clean h h' → clean_pc h → clean_pc h'.
Proof.
  intros Hstep Hp. unfold clean_pc in *.
  destruct Hstep as [chunk rest Hw _ _|q k Hpc _|q k c k' b Hpc _ _|b k Hpc _ _|b Hpc|before b b' Hpc Hb];
    simpl; rewrite ?Hpc in Hp; [| done | by case_bool_decide | done | |].
  - by unfold wants_more in Hw; destruct (h_pc h).
  - exists 0, (h_todo h). constructor.
  - destruct Hp as (k & x & Hrun). exists (S k), x. by eapply nsteps_r.
Qed.

(** Steps left: bytes to take, stages, and the bridge. *)
Definition handler_left (h : handler) : nat :=
  let bridge := length (h_todo h) + length response + 4 in
  match h_pc h with
  | HReadHead => bridge + 4
  | HReadBody _ _ => bridge + 3
  | HReadAll _ _ => bridge + 2
  | HWrite _ => bridge + 1
  | HBridging _ b => bridge_left b
  | HFailed _ => 0
  end.

Lemma clean_step_left hc b b' : clean_step hc b b' → bridge_left b' < bridge_left b.
Proof.
  intros [Hb _]. pose proof (bidirectional_left hc 1 b b' (nsteps_once b b' Hb)). lia.
Qed.

Lemma handler_left_step h h' : clean h h' → handler_left h' < handler_left h.
Proof.
  intros Hstep. unfold handler_left.
  destruct Hstep as [chunk rest Hw Ht Hc|q k Hpc _|q k c k' b Hpc _ _|b k Hpc Ht _|b Hpc|before b b' Hpc Hb];
    simpl; rewrite ?Hpc; [| lia | case_bool_decide; lia | rewrite ?Ht; simpl; lia | |].
  - rewrite Ht, length_app. destruct chunk as [|a chunk]; [done|].
    unfold wants_more in Hw. destruct (h_pc h); simpl; try done; lia.
  - unfold start_bridge, bridge_left. simpl. lia.
  - by apply (clean_step_left to_local).
Qed.

Lemma handler_left_run k h h' : nsteps clean k h h' → k + handler_left h' ≤ handler_left h.
Proof.
  induction 1 as [|k h1 h2 h3 Hstep _ IH]; [lia|]. pose proof (handler_left_step _ _ Hstep). lia.
Qed.

(** Unless the handler waits for the other end to close, it goes on until the bridge has
    returned. *)
Lemma handler_progress h :
  handler_inv h → clean_pc h → closes = true ∨ drop (n + m) stream = [] →
  ¬ (∃ h', clean h h') →
  ∃ before b, h_pc h = HBridging before b ∧ b_result b = ReturnedNil
    ∧ local_got h = forwarded ∧ d_done (b_ba b) = response.
Proof.
  intros [Hs Hi] Hp Hcl Hstuck.
  assert (∀ a l, wants_more h → h_todo h = a :: l → False) as Hfill.
  { intros a l Hw Ht. apply Hstuck. eexists. by apply (hw_fill _ _ _ h [a] l). }
  assert (h_todo h = [] → h_taken h = stream) as Hall.
  { intros Ht. by rewrite Ht, app_nil_r in Hs. }
  destruct (h_pc h) as [|q k|b k|b|before b|got] eqn:Hpc; [exfalso.. | |].
  - pose proof (head_known h Hs) as Hh. destruct (http_ReadRequest (h_taken h)) as [| |q k] eqn:Hq.
    + destruct (h_todo h) as [|a l] eqn:Ht; [rewrite Hall in Hq by done; congruence|].
      apply (Hfill a l); [by unfold wants_more; rewrite Hpc | done].
    + done.
    + apply Hstuck. eexists. by apply (hw_head _ _ _ h q k).
  - destruct Hi as (-> & -> & Hn). pose proof (body_known h Hs Hn) as Hb.
    destruct (read_body _ (drop n (h_taken h))) as [| |c k'] eqn:Hq.
    + destruct (h_todo h) as [|a l] eqn:Ht; [rewrite Hall in Hq by done; congruence|].
      apply (Hfill a l); [by unfold wants_more; rewrite Hpc | done].
    + done.
    + destruct Hb as (-> & -> & _). apply Hstuck. eexists. by eapply hw_body.
  - destruct (h_todo h) as [|a l] eqn:Ht.
    + destruct Hcl as [Hcl | Hd].
      * apply Hstuck. eexists. by apply (hw_all _ _ _ h b k).
      * destruct Hi as (-> & -> & _ & Hne). by rewrite Hall in Hne.
    + apply (Hfill a l); [by unfold wants_more; rewrite Hpc | done].
  - apply Hstuck. eexists. by apply (hw_write _ _ _ h b).
  - unfold clean_pc in Hp. rewrite Hpc in Hp. destruct Hp as (k & x & Hrun).
    destruct (clean_stuck to_local k x response b Hrun) as (Hr & Hx & Hy).
    { intros [b' Hb']. apply Hstuck. eexists. by apply (hw_bridge _ _ _ h before b b'). }
    exists before, b. split_and!; [done | done | | done]. unfold local_got. rewrite Hpc, Hx.
    destruct Hi as (x' & Hrun' & <-). f_equal.
    apply clean_inv in Hrun as (Hrun & _). apply rtc_nsteps_2 in Hrun.
    destruct (bidirectional_inv _ _ _ _ Hrun) as (Hc & _).
    destruct (bidirectional_inv _ _ _ _ Hrun') as (Hc' & _). unfold carries in *. congruence.
  - unfold clean_pc in Hp. by rewrite Hpc in Hp.
Qed.

End HandlerSpec.

(** ** Claims *)

Section HandlerClaims.
  Context `{HTTPWireOk} (newHost : string) (response stream : list ascii) (n m : nat).
  Context (buf : list ascii).

Local Notation start := (start_handler response (BridgeRewritten newHost) stream).

(** C37: a stream whose host is rewritten: whatever goes wrong and however its bytes arrive in
    pieces, the local service gets only bytes of the request written with the new host, followed
    by what the stream carries after it, in order; and if nothing goes wrong and the other end
    either sends no more than its request or closes when it has sent everything, the handler
    comes to an end after a bounded number of steps, and then all of that has been delivered
    and the stream has got the whole response. *)
Theorem host_rewrite_delivers closes :
  carries_request newHost stream n m buf →
  (∀ h, rtc (handler_step closes newHost response) start h →
     local_got h `prefix_of` buf ++ drop (n + m) stream)
  ∧ ∀ k h, nsteps (bridgeWithHostRewrite closes newHost response) k start h →
     k ≤ length stream + length response + 8
     ∧ (closes = true ∨ drop (n + m) stream = [] →
        ¬ (∃ h', bridgeWithHostRewrite closes newHost response h h') →
        ∃ before b, h_pc h = HBridging before b ∧ b_result b = ReturnedNil
          ∧ local_got h = buf ++ drop (n + m) stream ∧ d_done (b_ba b) = response).
Proof.
  intros [(r & content & Hh & Hb & Hw)]. split.
  - intros h Hrun. eapply local_got_prefix, handler_run_inv; eauto.
  - intros k h Hrun. split.
    { pose proof (handler_left_run closes newHost response k _ _ Hrun) as Hl.
      change (handler_left response start) with (length stream + length response + 4 + 4) in Hl. lia. }
    intros Hcl Hstuck. eapply handler_progress; eauto.
    + eapply handler_run_inv; eauto. eapply rtc_nsteps_2, nsteps_congruence with (f := id), Hrun.
      by left.
    + clear Hstuck. revert Hrun. generalize (I : clean_pc response start).
      generalize start. intros h0 Hp Hrun. induction Hrun as [|k h1 h2 h3 Hstep _ IH]; [done|].
      eapply IH, clean_pc_step; eauto.
Qed.

(** A peer that sends more than its request and waits for the answer before it closes can
    leave the handler waiting for ever with nothing sent to the local service. *)
Theorem early_data_blocks :
  carries_request newHost stream n m buf → drop (n + m) stream ≠ [] →
  ∃ h, rtc (bridgeWithHostRewrite false newHost response) start h ∧ local_got h = []
    ∧ ¬ ∃ h', bridgeWithHostRewrite false newHost response h h'.
Proof.
  intros [(r & content & Hh & Hb & Hw)] Hne.
  exists (mkHandler (HReadAll buf (n + m)) stream []). split_and!; [|done|].
  - assert (stream ≠ []) as Hs by (intros ->; by rewrite drop_nil in Hne).
    eapply rtc_l.
    { apply (hw_fill _ _ _ _ stream []); [apply ReadRequest_nil | by rewrite app_nil_r | done]. }
    eapply rtc_l; [by apply (hw_head _ _ _ _ r n)|].
    eapply rtc_l; [by eapply (hw_body _ _ _ _ (rewrite_host newHost r) n content m buf)|].
    simpl. rewrite bool_decide_eq_false_2 by done. constructor.
  - intros [h' Hstep].
    inversion Hstep as [chunk rest _ Ht Hc|? ? Hpc|? ? ? ? ? Hpc|? ? ? ? Hf|? Hpc|? ? ? Hpc];
      simpl in *; try done.
    symmetry in Ht. by apply app_eq_nil in Ht as [-> _].
Qed.

End HandlerClaims.

(** ** Witnesses *)

(** A wire format with a host, a line end, and a body of one line. *)
Fixpoint line_length (l : list ascii) : option nat :=
  match l with
  | [] => None
  | c :: l => if bool_decide (c = ascii_of_nat 10) then Some 1 else S <$> line_length l
  end.

Lemma line_length_app l l' k :
  line_length l = Some k → k ≤ length l ∧ line_length (l ++ l') = Some k.
Proof.
  revert k. induction l as [|c l IH]; intros k; simpl; [done|].
  case_bool_decide; [intros [= <-]; split; [lia | done]|].
  destruct (line_length l) as [j|]; [|done]. intros [= <-].
  destruct (IH j eq_refl) as [Hj ->]. split; [lia | done].
Qed.

#[local] Instance demo_wire : HTTPWire := {|
  wire_rest := unit;
  http_ReadRequest l :=
    match line_length l with
    | None => NeedMore
    | Some k => Parsed (mkWireRequest (String.string_of_list_ascii (take (k - 1) l)) ∅ tt) k
    end;
  read_body _ l :=
    match line_length l with None => NeedMore | Some k => Parsed (take k l) k end;
  http_Write r content := Some (String.list_ascii_of_string (wr_Host r) ++ ascii_of_nat 10 :: content)
|}.

#[local] Instance demo_wire_ok : HTTPWireOk.
Proof.
  constructor; [done | |].
  - intros l l'. simpl. destruct (line_length l) as [k|] eqn:Hl; [|done].
    destruct (line_length_app l l' k Hl) as [Hk ->]. by rewrite take_app_le by lia.
  - intros r l l'. simpl. destruct (line_length l) as [k|] eqn:Hl; [|done].
    destruct (line_length_app l l' k Hl) as [Hk ->]. by rewrite take_app_le by lia.
Qed.

Definition demo_stream : list ascii :=
  String.list_ascii_of_string ("a" +:+ bytes [10] +:+ "xy" +:+ bytes [10] +:+ "z").

Definition demo_forwarded : list ascii :=
  String.list_ascii_of_string ("b" +:+ bytes [10] +:+ "xy" +:+ bytes [10]).

Lemma demo_carries : carries_request "b" demo_stream 2 3 demo_forwarded.
Proof. constructor. eexists _, _. split_and!; vm_compute; reflexivity. Qed.

Lemma host_rewrite_delivers_witness :
  (∀ h, rtc (handler_step true "b" []) (start_handler [] (BridgeRewritten "b") demo_stream) h →
    local_got h `prefix_of` demo_forwarded ++ ["z"%char])
  ∧ ∀ k h, nsteps (bridgeWithHostRewrite true "b" []) k
      (start_handler [] (BridgeRewritten "b") demo_stream) h → k ≤ 14.
Proof.
  destruct (host_rewrite_delivers "b" [] demo_stream 2 3 demo_forwarded true demo_carries)
    as [Hpre Hrun].
  split; [exact Hpre|]. intros k h Hk. exact (proj1 (Hrun k h Hk)).
Defined.

Lemma early_data_blocks_witness :
  ∃ h, rtc (bridgeWithHostRewrite false "b" []) (start_handler [] (BridgeRewritten "b") demo_stream) h
    ∧ local_got h = [].
Proof.
  destruct (early_data_blocks "b" [] demo_stream 2 3 demo_forwarded demo_carries ltac:(done))
    as (h & Hrun & Hg & _).
  exists h. exact (conj Hrun Hg).
Defined.
