(* ===== verification/ClientMain.v ===== *)
(** cmd/client/main.go and [Client.Run] of internal/client/client.go: the client process,
    its services and their health checkers. *)

From S2P Require Import Prelude GoStrings GoPath Decimal Config ControlPath Validate Load Host Lock Client.
From S2P Require Import ServerMain.

(** ** [Client.Run] and the loop around it *)

(** One service: the runs of its client so far and the checkers those have started, which
    probe until the context of the process ends. *)
Record service := mkService { sv_runs : nat; sv_checkers : list Checker }.

(** How a run goes: what it returns, whether the context has ended by the time the loop asks,
    and what the checker it starts, if it starts one, comes to see of the network while the
    process lasts: nothing if the process ends during its first probe, and otherwise the network
    at its first probe and at the ticks after it. *)
Record run_course := mkRunCourse {
  rc_result : run_result;
  rc_ctx_done : bool;
  rc_checker : option (Probe * list Probe)
}.

Definition rc_end (rc : run_course) : run_result * bool := (rc_result rc, rc_ctx_done rc).

(** The goroutine of a checker: [None] is a panic, which ends the process. *)
Definition checker_goroutine (seen : option (Probe * list Probe)) (c : Checker) : option Checker :=
  match seen with
  | None => Some c
  | Some (first, ticks) => Run_checker first ticks c
  end.

(** [Run] of a client: the checker is started before the reconnect loop, whose result is
    [Run]'s; [None] if the checker brings the process down. *)
Definition Client_Run (seen : option (Probe * list Probe)) (c : Client) (svc : service)
    : option service :=
  if hc_Enabled (cc_Health (cl_cfg c)) then
    ck ← checker_goroutine seen (cl_health c);
    Some (mkService (S (sv_runs svc)) (sv_checkers svc ++ [ck]))
  else Some (mkService (S (sv_runs svc)) (sv_checkers svc)).

(** The goroutine of a service: a new client for every run, as long as a run ends in
    supersession and the context lasts. *)
Fixpoint run_service (cfg : ClientConfig) (runs : list run_course) (svc : service)
    : option service :=
  match runs with
  | [] => Some svc
  | rc :: rest =>
      svc ← Client_Run (rc_checker rc) (New cfg) svc;
      if service_again (rc_result rc) (rc_ctx_done rc) then run_service cfg rest svc else Some svc
  end.

(** ** [main] *)

(** How the process ends: a panic with its cause (that of a checker's goroutine cuts all services
    short, so that they have no outcome), or the services that have run, by client
    id, and the lock that has been released. *)
Inductive client_exit :=
| PanicLoad (e : cfg_error)
| PanicIndex
| PanicLogger (e : string)
| PanicLock (e : string)
| PanicChecker
| ClientStopped (services : list (string * service)) (lock : option (string * string)).

Section ClientMain.
  Context `{PollmuxConsts, Viper, FileSystem, Zap}.

Definition newLogger (level : string) : result string unit :=
  if bool_decide (level ≠ "") then
    match zap_UnmarshalText level with
    | Some err => Err err
    | None => zap_Build
    end
  else zap_Build.

(** [main] with its flags, its environment, its pid and how locking went; [course] is how the
    runs of each service go. *)
Definition main (path : string) (allowDuplicate : bool) (env tmp : string) (pid : Z)
    (os : lock_calls) (course : ClientConfig → list run_course) : client_exit :=
  match LoadClient path with
  | Err e => PanicLoad e
  | Ok [] => PanicIndex
  | Ok ((cfg0 :: _) as configs) =>
      match newLogger (lg_Level (cc_Logging cfg0)) with
      | Err e => PanicLogger e
      | Ok _ =>
          match AcquireProcessLock allowDuplicate env tmp pid os with
          | Err e => PanicLock e
          | Ok lock =>
              match mapM (λ cfg, pair (cc_ClientID cfg) <$> run_service cfg (course cfg) (mkService 0 []))
                      configs with
              | None => PanicChecker
              | Some services => ClientStopped services lock
              end
          end
      end
  end.

(** ** Lemmas *)




(** The runs of a service that take place. *)
Definition runs_of (runs : list run_course) : list run_course :=
  take (service_loop (map rc_end runs)) runs.

(** A checker that panics: its interval is not positive, and it gets past its first probe. *)
Definition checker_panics (cfg : ClientConfig) (runs : list run_course) : Prop :=
  hc_Enabled (cc_Health cfg) = true ∧ (hc_Interval (cc_Health cfg) ≤ 0)%Z
  ∧ Exists (λ rc, is_Some (rc_checker rc)) (runs_of runs).

Lemma Client_Run_spec seen cfg svc :
  match Client_Run seen (New cfg) svc with
  | None => hc_Enabled (cc_Health cfg) = true ∧ (hc_Interval (cc_Health cfg) ≤ 0)%Z ∧ is_Some seen
  | Some svc' =>
      sv_runs svc' = S (sv_runs svc)
      ∧ length (sv_checkers svc') = length (sv_checkers svc) + (if hc_Enabled (cc_Health cfg) then 1 else 0)
      ∧ (hc_Enabled (cc_Health cfg) = true → (hc_Interval (cc_Health cfg) ≤ 0)%Z → seen = None)
  end.
Proof.
  unfold Client_Run. simpl. destruct (hc_Enabled _); [|split_and!; [done | simpl; lia | done]].
  destruct seen as [[first ticks]|]; simpl; [|split_and!; [done | by rewrite length_app | done]].
  pose proof (Run_checker_panics first ticks (NewChecker (cc_Health cfg) (lc_Target (cc_Local cfg)))) as HP.
  simpl in HP. destruct (Run_checker _ _ _); simpl.
  - split_and!; [done | by rewrite length_app |]. intros _ Hle. by apply HP in Hle.
  - split_and!; [done | by apply HP | by eexists].
Qed.

Lemma run_service_spec cfg runs svc :
  match run_service cfg runs svc with
  | None => checker_panics cfg runs
  | Some svc' =>
      sv_runs svc' = sv_runs svc + service_loop (map rc_end runs)
      ∧ length (sv_checkers svc') = length (sv_checkers svc)
          + (if hc_Enabled (cc_Health cfg) then service_loop (map rc_end runs) else 0)
      ∧ ¬ checker_panics cfg runs
  end.
Proof.
  revert svc. induction runs as [|rc runs IH]; intros svc; cbn [run_service].
  { split_and!; [simpl; lia | simpl; destruct (hc_Enabled _); lia |]. by intros (_ & _ & ?%Exists_nil). }
  pose proof (Client_Run_spec (rc_checker rc) cfg svc) as HC.
  destruct (Client_Run _ _ _) as [svc1|]; cbn [mbind option_bind].
  2:{ destruct HC as (He & Hi & Hs). split_and!; [done | done |]. unfold runs_of. simpl.
      destruct (service_again _ _); by left. }
  destruct HC as (Hr & Hc & Hseen). unfold checker_panics, runs_of in *.
  assert (service_loop (map rc_end (rc :: runs)) = if service_again (rc_result rc) (rc_ctx_done rc)
    then S (service_loop (map rc_end runs)) else 1) as -> by done.
  destruct (service_again _ _).
  - specialize (IH svc1). destruct (run_service _ _ _) as [svc2|].
    + destruct IH as (-> & -> & Hno). rewrite Hr, Hc. cbn [take].
      split_and!; [lia | destruct (hc_Enabled _); lia |].
      intros (He & Hi & [Hs|Hs]%Exists_cons); [|by apply Hno].
      rewrite Hseen in Hs by done. by destruct Hs.
    + destruct IH as (He & Hi & Hs). split_and!; [done | done |]. cbn [take]. by right.
  - split_and!; [lia | destruct (hc_Enabled _); lia |]. cbn [take].
    intros (He & Hi & [Hs|?%Exists_nil]%Exists_cons); [|done].
    rewrite Hseen in Hs by done. by destruct Hs.
Qed.

(** The interval of a loaded configuration is not zero: that is replaced. *)
Lemma applyClientDefaults_interval c : hc_Interval (cc_Health (applyClientDefaults c)) ≠ 0%Z.
Proof.
  unfold applyClientDefaults. simpl. unfold or_int. case_bool_decide; [done | done].
Qed.

Lemma loaded_interval path l c :
  LoadClient path = Ok l → c ∈ l → hc_Interval (cc_Health c) ≠ 0%Z.
Proof.
  unfold LoadClient. intros HL Hc. apply res_bind_ok in HL as (v & _ & HL).
  destruct (IsSet v "services").
  - apply loadMultiClient_spec in HL as (multi & services & _ & _ & _ & _ & _ & -> & _).
    apply list_elem_of_fmap in Hc as (svc & -> & _). apply applyClientDefaults_interval.
  - unfold loadSingleClient in HL. apply res_bind_ok in HL as (c0 & _ & HL). cbv zeta in HL.
    apply res_bind_ok in HL as (c1 & Hc1 & HL). apply res_bind_ok in HL as ([] & _ & [= <-]).
    apply list_elem_of_singleton in Hc as ->. unfold resolveClientAuthToken in Hc1.
    assert (cc_Health c1 = cc_Health (applyClientDefaults c0)) as ->.
    { destruct (negb _); [apply res_bind_ok in Hc1 as (tok & _ & [= <-]); done|].
      destruct (negb _); [by injection Hc1 as <- | done]. }
    apply applyClientDefaults_interval.
Qed.

(** ** Claims *)


(** A health checker of a client whose configuration has loaded brings the process down
    exactly when the configured interval is negative: [time.NewTicker] panics after the
    first probe.  Zero is replaced by the default; a negative interval is accepted. *)
Theorem negative_interval_panics path l c first ticks :
  LoadClient path = Ok l → c ∈ l →
  Run_checker first ticks (cl_health (New c)) = None ↔ (hc_Interval (cc_Health c) < 0)%Z.
Proof.
  intros HL Hc. pose proof (loaded_interval path l c HL Hc) as Hne.
  rewrite Run_checker_panics. simpl. lia.
Qed.

(** Every supersession leaves a checker behind: after [n] of them a service with health checks
    has [n + 1] checkers that probe the local service, all but the last for nobody. *)
Theorem superseded_checkers_pile_up cfg superseded rc svc :
  hc_Enabled (cc_Health cfg) = true →
  Forall (λ x, service_again (rc_result x) (rc_ctx_done x) = true) superseded →
  service_again (rc_result rc) (rc_ctx_done rc) = false →
  run_service cfg (superseded ++ [rc]) (mkService 0 []) = Some svc →
  length (sv_checkers svc) = S (length superseded).
Proof.
  intros He Hsup Hr Hsvc. pose proof (run_service_spec cfg (superseded ++ [rc]) (mkService 0 [])) as HR.
  rewrite Hsvc, He, map_app in HR. destruct HR as (_ & -> & _). simpl map.
  unfold rc_end at 2. rewrite service_loop_last; [by rewrite length_map| |done].
  apply Forall_map. by eapply Forall_impl.
Qed.

End ClientMain.

(** ** Witnesses: the example services, one with a negative interval *)

Section ClientMainDemo.
  #[local] Existing Instance example_consts.
  #[local] Existing Instance example_fs.

Definition negative_multi : MultiClientConfig :=
  mkMultiClientConfig zero_ServerRef (mc_Transport example_multi)
    (mkHealthConfig true "tcp" "" (-5) 0) (mkLoggingConfig "") (mc_Services example_multi).

Definition negative_viper : Viper := {|
  vconfig := unit;
  ReadInConfig _ _ := Ok tt;
  UnmarshalServer _ _ := Ok example_file_server;
  UnmarshalClient _ c := Ok c;
  UnmarshalMulti _ _ := Ok negative_multi;
  IsSet _ _ := true
|}.

Definition negative_loaded : list ClientConfig :=
  match @LoadClient example_consts negative_viper example_fs "/etc/httphop/client.yaml" with
  | Ok l => l
  | Err _ => []
  end.

Lemma negative_loads :
  @LoadClient example_consts negative_viper example_fs "/etc/httphop/client.yaml" = Ok negative_loaded.
Proof. vm_compute. reflexivity. Qed.

Definition demo_network : Probe := {| http_Get _ _ := None; net_Dial _ _ := true |}.

Definition negative_c : ClientConfig :=
  match negative_loaded with c :: _ => c | [] => @DefaultClient example_consts end.

Lemma negative_cons : negative_loaded = negative_c :: tail negative_loaded.
Proof. vm_compute. reflexivity. Qed.

Lemma negative_in : negative_c ∈ negative_loaded.
Proof. rewrite negative_cons. apply list_elem_of_here. Qed.

Lemma negative_interval : hc_Interval (cc_Health negative_c) = (-5)%Z.
Proof. vm_compute. reflexivity. Qed.

Lemma negative_enabled : hc_Enabled (cc_Health negative_c) = true.
Proof. vm_compute. reflexivity. Qed.

Lemma negative_interval_panics_witness :
  Run_checker demo_network [] (cl_health (New negative_c)) = None.
Proof.
  apply (negative_interval_panics (H0 := negative_viper) "/etc/httphop/client.yaml" negative_loaded
    negative_c demo_network [] negative_loads negative_in).
  rewrite negative_interval. reflexivity.
Defined.

(** The process ends before any of the two checkers has finished its first probe. *)
Definition demo_runs : list run_course :=
  [mkRunCourse RunSuperseded false None; mkRunCourse RunCanceled true None].

Definition demo_service : service :=
  default (mkService 0 []) (run_service negative_c demo_runs (mkService 0 [])).

Lemma demo_service_runs : run_service negative_c demo_runs (mkService 0 []) = Some demo_service.
Proof. vm_compute. reflexivity. Qed.

Lemma superseded_checkers_pile_up_witness : length (sv_checkers demo_service) = 2.
Proof.
  apply (superseded_checkers_pile_up negative_c [mkRunCourse RunSuperseded false None]
    (mkRunCourse RunCanceled true None) demo_service negative_enabled); [by repeat constructor | done |].
  exact demo_service_runs.
Defined.

(** A checker with the negative interval that sees its first probe through. *)
Example demo_checker_panics :
  main (H0 := negative_viper) (H2 := demo_zap) "/etc/httphop/client.yaml" true "" "/tmp" 42
    (mkLockCalls None None FlockOk "")
    (λ _, [mkRunCourse RunCanceled true (Some (demo_network, []))])
  = PanicChecker.
Proof. vm_compute. reflexivity. Qed.

(** The whole client on the example services, superseded once. *)
Example demo_client :
  main (H0 := negative_viper) (H2 := demo_zap) "/etc/httphop/client.yaml" false "/run/hop.lock" "/tmp" 42
    (mkLockCalls None None FlockWouldBlock ("17" +:+ String newline ""))
    (λ _, [])
  = PanicLock "another httphop-client is already running (lock /run/hop.lock held by PID 17); stop it before starting a second copy".
Proof. vm_compute. reflexivity. Qed.

End ClientMainDemo.
