(* ===== verification/EndToEnd.v ===== *)
(** Both ends of a tunnel together: a public request from the server's root handler through
    the stream of a tunnel to the client's stream handler and the local service, and the
    answer back.  The [Backend] of Serve is here the client of Client. *)

From S2P Require Import Prelude GoStrings GoPath Config ControlPath Validate Host Registry.
From S2P Require Import RegistryInv RegistryOps RegistryRun RegistrySpec Route Rewrite Auth.
From S2P Require Import Server Directory ServerSpec ServerDirectory Fields HopHeaders Proxy PublicSpec.
From S2P Require Import Streams Status Serve Client.

(** The configuration of the client at the other end of a multiplexer, the network it sees,
    and the HTTP exchange of the server's transport with the service at a local target, over
    connections that carry every byte (Bridge). *)
Class Tunnels `{Transport} := {
  client_of : yamux → ClientConfig;
  client_network : world → yamux → Probe;
  local_serve : world → string → proxy_settings → OutRequest
    → world * result proxy_error HTTPResponse
}.

Class TunnelsOk `{Tunnels} : Prop := {
  local_serve_error w target ps out : (local_serve w target ps out).2 ≠ Err errNoTunnel
}.

(** What [bridgeWithHostRewrite] makes of a request that it reads, changes and writes:
    [Request.Write] names Go's client where the request has no [User-Agent]. *)
Definition host_rewritten (newHost : string) (out : OutRequest) : OutRequest :=
  let h := or_Header out in
  mkOutRequest (or_Scheme out) (or_URLHost out) (or_Path out) newHost
    (if bool_decide (Header_Get h "User-Agent" = "")
     then Header_Set "User-Agent" "Go-http-client/1.1" h else h).

Section EndToEnd.
  Context `{PollmuxConsts, UnicodeTables, PollmuxServer, SliceSort, NetURL, !Mux, !Tunnels}.

(** The request as the local service gets it. *)
Definition delivered (cfg : ClientConfig) (out : OutRequest) : OutRequest :=
  let newHost := lc_HostRewrite (cc_Local cfg) in
  if bool_decide (newHost ≠ "") then host_rewritten newHost out else out.

(** An exchange over a stream of the multiplexer [y]: it is handled by the client at the other
    end, and [genuine_step] below says who that is; when it cannot dial the local target it
    closes the stream without a byte. *)
Definition stream_exchange (w : world) (y : yamux) (ps : proxy_settings) (out : OutRequest)
    : world * result proxy_error HTTPResponse :=
  let h := cl_handler (New (client_of y)) in
  match @Handle (client_network w y) h with
  | DialFailed => (w, Err (OtherProxyError "EOF"))
  | BridgePlain => local_serve w (sh_target h) ps out
  | BridgeRewritten newHost => local_serve w (sh_target h) ps (host_rewritten newHost out)
  end.

#[export] Instance tunnel_backend : Backend := {| exchange := stream_exchange |}.

#[export] Instance tunnel_backend_ok `{!TunnelsOk} : BackendOk.
Proof.
  constructor. intros w y ps out. simpl. unfold stream_exchange.
  destruct (@Handle _ _); [done | apply local_serve_error..].
Qed.

(** What the public client is told, when the world is [w] as the stream is opened. *)
Definition public_answer (srv : Server) (ctx : proxyCtx) (r : Request) (y : yamux) (w : world)
    : proxy_outcome :=
  let cfg := client_of y in
  let target := lc_Target (cc_Local cfg) in
  let bad_gateway := Answered (writeHTTPError 502 "backend error") in
  match outgoing ctx r, Yamux_Open w y with
  | Some out, (w, None) =>
      if @net_Dial (client_network w y) target (sh_dialTimeout (cl_handler (New cfg))) then
        match (local_serve w target (newProxy (sv_cfg srv)) (delivered cfg out)).2 with
        | Ok resp => backend_response ctx out resp
        | Err DeadlineExceeded => Answered (writeHTTPError 504 "backend timeout")
        | Err _ => bad_gateway
        end
      else bad_gateway
  | _, _ => bad_gateway
  end.

(** ** Who is at the other end *)

(** The steps of a server whose pollmux does what it documents when a client connects: the
    session is that of a client at the other end, whose connector sends its token and its
    metadata; the server's [Authenticate] hook is asked about these (in the store [s0] of that
    moment), and what it returns is handed to [OnConnect].  Every other step is any step of the
    server that makes no tunnel. *)
Inductive genuine_step (srv : Server) (s s' : store) : Prop :=
| gs_connect now sess w y req s0 meta r warm :
    GetBySessionID (Session_ID sess) s = None →
    ClientSession (s_world s) sess = (w, Ok y) →
    bearerToken req = cn_AuthToken (buildConnector (client_of y)) →
    Authenticate (buildHooks srv) s0 req (Some (cn_Meta (buildConnector (client_of y)))) = Ok meta →
    OnConnect (buildHooks srv) now sess meta s = (s', r, warm) →
    serves srv s0 → genuine_step srv s s'
| gs_other : server_step srv s s' → s_nexttunnel s' = s_nexttunnel s → genuine_step srv s s'.

(** Every tunnel is that of the client at its other end, which is configured and has the token
    of its binding. *)
Definition ends_known (srv : Server) (s : store) : Prop :=
  ∀ t y, ct_Yamux (tunnel s t) = Some y →
    ct_ID (tunnel s t) = cc_ClientID (client_of y)
    ∧ ∃ b, b ∈ sc_Clients (sv_cfg srv) ∧ cb_ClientID b = cc_ClientID (client_of y)
        ∧ cb_Token b = sr_Token (cc_Server (client_of y)).

Lemma genuine_server_step srv s s' : genuine_step srv s s' → server_step srv s s'.
Proof.
  intros [now sess w y req s0 meta r warm Hnew _ _ _ Hc _|]; [|done].
  simpl in Hc. eapply ss_hook, hs_connect; done.
Qed.

Lemma genuine_run_server srv s s' : rtc (genuine_step srv) s s' → rtc (server_step srv) s s'.
Proof. apply rtc_congruence with (f := id). apply genuine_server_step. Qed.

Lemma unallocated_yamux s t : reg_inv s → s_nexttunnel s ≤ t → ct_Yamux (tunnel s t) = None.
Proof. intros Hinv Ht. unfold tunnel. by rewrite (ri_tunnels s Hinv). Qed.

Lemma ends_known_step srv s s' :
  serves srv s → reg_inv s → reg_inv s' → genuine_step srv s s' → ends_known srv s → ends_known srv s'.
Proof.
  intros Hs Hinv Hinv' Hstep Hk t y Hy. pose proof (genuine_server_step _ _ _ Hstep) as Hss.
  destruct (decide (t = s_nexttunnel s)) as [->|Hne].
  2:{ pose proof (identity_step srv s s' t Hinv Hss Hne) as Hid. unfold identity in Hid.
      injection Hid as Hid HY. rewrite HY in Hy. rewrite Hid. by apply Hk. }
  destruct Hstep as [now sess w y' req s0 meta r warm _ Hyam Htok Hauth Hc Hs0|_ Hnext].
  2:{ by rewrite unallocated_yamux in Hy by (rewrite ?Hnext; done). }
  simpl in Hauth, Hc. apply auth_decides in Hauth as (b & Hb & Hid & Hbt & _ & ->); [|done].
  set (m := {["subdomain" := _; "host_key" := _; "client_id" := _]}) in Hc.
  assert (meta_get m "client_id" = cc_ClientID (client_of y')) as Hm by done.
  assert (cb_ClientID b = cc_ClientID (client_of y')) as Hbid by by rewrite Hid.
  pose proof (field_connect_new identity (λ _, True) srv s now sess m s' r warm w y' b I
    (λ _ _, eq_refl) Hyam) as HF.
  rewrite Hm in HF. specialize (HF (proj2 (sv_lookup srv s _ b Hs) (conj Hb Hbid)) Hc).
  unfold identity in HF. injection HF as HI HY. rewrite HY in Hy. injection Hy as <-.
  split; [done|]. exists b. split_and!; [done | done |]. by rewrite <-Hbt, Htok.
Qed.

Lemma genuine_run_ends c w srv s0 s :
  NewServer c w = Ok (srv, s0) → rtc (genuine_step srv) s0 s → ends_known srv s.
Proof.
  intros Hn Hrun. destruct (NewServer_serves c w srv s0 Hn) as [Hs0 Hi0].
  assert (ends_known srv s0) as Hk.
  { intros t y. unfold tunnel. by rewrite (NewServer_tunnels c w srv s0 Hn), lookup_empty. }
  clear Hn. induction Hrun as [|s0 s1 s Hstep _ IH]; [done|].
  destruct (server_run_inv srv s0 s1 (rtc_once _ _ (genuine_server_step _ _ _ Hstep)) Hs0 Hi0).
  apply IH; [done..|]. by apply (ends_known_step srv s0).
Qed.

(** ** Lemmas *)

Lemma proxied_public_answer srv ctx r y w :
  proxied_answer srv ctx r y w = public_answer srv ctx r y w.
Proof.
  unfold proxied_answer, public_answer. destruct (outgoing ctx r) as [out|]; [|done].
  unfold round_trip. destruct (Yamux_Open w y) as [w' [e|]]; [done|].
  simpl. unfold stream_exchange, Handle, delivered. simpl.
  destruct (net_Dial _ _); simpl; [|done]. by case_bool_decide.
Qed.

(** The tunnel that [servePublic] chooses for a request: a current one of the request's host,
    under the binding that covers its path best. *)
Lemma servePublic_choice srv r s s1 ctx :
  serves srv s → reg_inv s → is_rooted (rq_Path r) = true → servePublic srv r s = (s1, inr ctx) →
  ∃ h b, HostKey (rq_Host r) (sc_RootDomain (sv_cfg srv)) = Ok h
    ∧ best_binding (sc_Clients (sv_cfg srv)) h (rq_Path r) = Some b
    ∧ b ∈ sc_Clients (sv_cfg srv) ∧ cb_Subdomain b = h
    ∧ current s h (ct_ID (tunnel s (pc_tunnel ctx))) = Some (pc_tunnel ctx).
Proof.
  intros Hs Hinv Hroot Hsv. pose proof (servePublic_cases srv r s Hs Hroot) as Hc.
  destruct (HostKey _ _) as [h|]; [|congruence].
  destruct Hc as [[Hn _]|(b & p & Hb & Hh & Hp & Hcov & Hmax & Heq)]; [congruence|].
  rewrite Hsv in Heq. destruct (Pick p s).2 as [t|] eqn:E; [|congruence].
  destruct (Z.leb _ _); [congruence|]. injection Heq as _ ->.
  exists h, b. split_and!; [done | | done | done |].
  - by apply longest_is_best; [apply (sv_valid _ _ Hs)|..].
  - apply Pick_member in E as [Hm _]. apply current_iff; eauto.
Qed.

(** ** Claims *)

(** C5: from the public client to the local service and back: in any state of any run of a
    server, a request for which a tunnel is chosen goes to a client that is configured for
    the request's own host, to the one whose binding covers the path best if it is the only
    one of the host.  The process at the other end of that tunnel is this very client: it runs
    under the binding's client id and has its token.  The answer is what that client's local
    service says to the rewritten request, with the [Host] the client is told to set, or 502 or
    504 if the stream, the dialing of the local target or the exchange fails, whatever else
    happens meanwhile. *)
Theorem request_reaches_client `{!TunnelsOk} c w srv s0 s rest r s1 ctx :
  NewServer c w = Ok (srv, s0) → rtc (genuine_step srv) s0 s → some_run srv rest →
  is_rooted (rq_Path r) = true → rootHandler srv r = ToPublic →
  servePublic srv r s = (s1, inr ctx) →
  ∃ h b owner y s',
    HostKey (rq_Host r) (sc_RootDomain (sv_cfg srv)) = Ok h
    ∧ best_binding (sc_Clients (sv_cfg srv)) h (rq_Path r) = Some b
    ∧ owner ∈ sc_Clients (sv_cfg srv) ∧ cb_Subdomain owner = h
    ∧ ct_ID (tunnel s (pc_tunnel ctx)) = cb_ClientID owner
    ∧ ((∀ b', b' ∈ sc_Clients (sv_cfg srv) → cb_Subdomain b' = h → b' = b) → owner = b)
    ∧ ct_Yamux (tunnel s (pc_tunnel ctx)) = Some y
    ∧ cc_ClientID (client_of y) = cb_ClientID owner
    ∧ sr_Token (cc_Server (client_of y)) = cb_Token owner
    ∧ root_request srv rest r s =
        Some (s', PublicAnswer (public_answer srv ctx r y (s_world (rest s1))))
    ∧ ∀ out, outgoing ctx r = Some out →
        let newHost := lc_HostRewrite (cc_Local (client_of y)) in
        or_Host (delivered (client_of y) out) = (if bool_decide (newHost ≠ "") then newHost else rq_Host r)
        ∧ or_Path (delivered (client_of y) out) = or_Path (proxy_Rewrite (Some ctx) r ∅).
Proof.
  intros Hn Hgen Hrest Hroot Hpub Hsv. pose proof (genuine_run_server _ _ _ Hgen) as Hrun.
  destruct (NewServer_serves c w srv s0 Hn) as [Hs0 Hi0].
  destruct (server_run_inv srv s0 s Hrun Hs0 Hi0) as [Hs Hinv].
  destruct (servePublic_choice srv r s s1 ctx Hs Hinv Hroot Hsv) as (h & b & Hh & Hbest & Hb & Hsub & Hcur).
  destruct (current_configured c w srv s0 s h _ _ Hn Hrun Hcur) as (owner & Ho & Hosub & Hoid).
  destruct (serve_public_spec srv rest r s Hs Hinv Hroot Hrest) as (s' & o & Hserve & _ & Hans & _).
  rewrite Hsv in Hans. destruct Hans as (y & Hy & ->). rewrite proxied_public_answer in Hserve.
  destruct (genuine_run_ends c w srv s0 s Hn Hgen _ y Hy) as (Hend & e & He & Heid & Hetok).
  assert (e = owner) as ->.
  { destruct (binding_named srv s owner Hs Ho) as (_ & _ & Huniq). apply Huniq; [done|]. congruence. }
  exists h, b, owner, y, s'. split_and!; try done.
  - intros Honly. by apply Honly.
  - unfold root_request. by rewrite Hpub, Hserve.
  - intros out Hout. unfold outgoing in Hout. destruct (hop_request _) as [hh|]; [|done].
    injection Hout as <-. cbv zeta. unfold delivered, default_User_Agent.
    repeat case_bool_decide; done.
Qed.

End EndToEnd.

(** ** Witness: client [a] of the example server, with a host of its own, and its service *)

Section EndToEndDemo.
  #[local] Existing Instance example_consts.
  #[local] Existing Instance ascii_tables.
  #[local] Existing Instance demo_transport.
  #[local] Existing Instance insertion_SliceSort.
  #[local] Existing Instance demo_pollmux.
  #[local] Existing Instance demo_NetURL.
  #[local] Existing Instance demo_mux.

(** The configuration of a client of the example server, with a local service of its own. *)
Definition demo_client (id : string) (tok : ascii) (target host : string) : ClientConfig :=
  mkClientConfig id (mkServerRef "https://builderrors.com" (example_token tok) "" "/tunnel" false)
    (mkLocalConfig target host) (cc_Transport (@DefaultClient example_consts)) zero_Health
    (mkLoggingConfig "").

Definition demo_client_config : ClientConfig := demo_client "a" "a"%char "127.0.0.1:3000" "app.internal".

(** The multiplexer over session "sess-a" is number 6; the services answer with the target,
    host and path they were asked for. *)
Definition demo_tunnels : Tunnels := {|
  client_of y := if bool_decide (y = 6) then demo_client_config
                 else demo_client "b" "b"%char "127.0.0.1:4000" "";
  client_network _ _ := {| http_Get _ _ := None; net_Dial target _ := bool_decide (target = "127.0.0.1:3000") |};
  local_serve w target ps out :=
    (w, Ok (mkResponse 200 {["Location" := ["/next"]]} (target +:+ " " +:+ or_Host out +:+ or_Path out)))
|}.

  #[local] Existing Instance demo_tunnels.

#[local] Instance demo_tunnels_ok : TunnelsOk.
Proof. by constructor. Qed.

Example demo_round :
  snd <$> root_request demo_srv.1 demo_rest (demo_get "/service/x") demo_s
  = Some (PublicAnswer (Answered
      (mkResponse 200 {["Location" := ["/service/next"]]} "127.0.0.1:3000 app.internal/x"))).
Proof. vm_compute. reflexivity. Qed.

(** The client connects as pollmux documents. *)
Lemma demo_genuine_run : rtc (genuine_step demo_srv.1) demo_srv.2 demo_s.
Proof.
  apply rtc_once. apply (gs_connect demo_srv.1 demo_srv.2 demo_s 0 demo_sess demo_world 6
    (demo_request "a"%char) demo_srv.2
    {["subdomain" := "@"; "host_key" := "@"; "client_id" := "a"]} (Ok tt) demo_connected.2);
    [by vm_compute..|]. apply (proj1 demo_srv_ok).
Qed.

Lemma request_reaches_client_witness :
  ∃ owner y s' answer, owner ∈ sc_Clients (sv_cfg demo_srv.1)
    ∧ ct_ID (tunnel demo_s 0) = cb_ClientID owner ∧ ct_Yamux (tunnel demo_s 0) = Some y
    ∧ cc_ClientID (client_of y) = cb_ClientID owner
    ∧ sr_Token (cc_Server (client_of y)) = cb_Token owner
    ∧ root_request demo_srv.1 demo_rest (demo_get "/service/x") demo_s
        = Some (s', PublicAnswer answer).
Proof.
  destruct (request_reaches_client example_server demo_world demo_srv.1 demo_srv.2 demo_s demo_rest
    (demo_get "/service/x") (demo_after "/service/x") (demo_ctx "/service") demo_srv_eta
    demo_genuine_run demo_rest_run eq_refl ltac:(by vm_compute) demo_result_service)
    as (h & b & owner & y & s' & _ & _ & Ho & _ & Hid & _ & Hy & Hcl & Htok & Hans & _).
  exists owner, y, s'. eexists. exact (conj Ho (conj Hid (conj Hy (conj Hcl (conj Htok Hans))))).
Defined.

End EndToEndDemo.
