(* ===== verification/Health.v ===== *)
(** Health from the probe of the client's checker to the choice of a tunnel for a request:
    what the server believes of a client's local service is what the client last reported,
    and a report is the outcome of the client's last probe. *)

From S2P Require Import Prelude GoStrings GoPath Config ControlPath Validate Host Registry.
From S2P Require Import RegistryInv RegistryOps RegistryRun RegistrySpec Route Rewrite Auth.
From S2P Require Import Server Directory ServerSpec ServerDirectory Fields Proxy Client.

(** ** Events *)

(** A registration of a client, a report of its health, and everything else. *)
Inductive health_event :=
| Registered (sub id : string)
| Reported (sub id : string) (ok : bool)
| Unrelated.

(** What an event means for the health the server holds of a client: a registered tunnel
    counts as healthy until the first report. *)
Definition health_effect (sub id : string) (h : bool) (e : health_event) : bool :=
  match e with
  | Registered a b => if decide (a = sub ∧ b = id) then true else h
  | Reported a b ok => if decide (a = sub ∧ b = id) then ok else h
  | Unrelated => h
  end.

Definition health_of (sub id : string) (events : list health_event) : bool :=
  fold_left (health_effect sub id) events true.

Section Health.
  Context `{PollmuxConsts, UnicodeTables, PollmuxServer, SliceSort}.

Definition connect_health (srv : Server) (meta : gmap string string) (r : result conn_error unit)
    : health_event :=
  match r, cr_Lookup (sv_clientRegistry srv) (meta_get meta "client_id") with
  | Ok _, Some b => Registered (cb_Subdomain b) (meta_get meta "client_id")
  | _, _ => Unrelated
  end.

Definition poll_health (sess : session) (r : Request) : health_event :=
  let h := Header_Get (rq_Header r) HeaderLocalHealth in
  let sub := meta_get (Session_Meta sess) "subdomain" in
  let id := meta_get (Session_Meta sess) "client_id" in
  if bool_decide (h ≠ "") && (bool_decide (sub ≠ "") && bool_decide (id ≠ ""))
  then Reported sub id (bool_decide (h = "ok")) else Unrelated.

(** The steps of a server with what they mean for health. *)
Inductive health_step (srv : Server) (s : store) : health_event → store → Prop :=
| hh_connect now sess meta s' r warm :
    GetBySessionID (Session_ID sess) s = None →
    onConnect srv now sess meta s = (s', r, warm) →
    health_step srv s (connect_health srv meta r) s'
| hh_poll sess r : health_step srv s (poll_health sess r) (onPoll sess r s)
| hh_disconnect sess : health_step srv s Unrelated (onDisconnect sess s)
| hh_pick n p : Pool n s = Some p → health_step srv s Unrelated (Pick p s).1
| hh_drain i now t pc s1 o :
    s_drains s !! i = Some (t, pc) → drain_run now t pc s = (s1, o) →
    health_step srv s Unrelated (put_drain i ((λ pc', (t, pc')) <$> o) s1)
| hh_world w : health_step srv s Unrelated (set_world w s)
| hh_open t s' e :
    is_Some (s_tunnels s !! t) → OpenStream t s = Some (s', e) → health_step srv s Unrelated s'
| hh_close t :
    is_Some (s_tunnels s !! t) → health_step srv s Unrelated (countedConn_Close t s).

Inductive health_run (srv : Server) (s : store) : list health_event → store → Prop :=
| hr_nil : health_run srv s [] s
| hr_cons e s1 events s' :
    health_step srv s e s1 → health_run srv s1 events s' → health_run srv s (e :: events) s'.

Lemma health_step_server srv s e s' : health_step srv s e s' → server_step srv s s'.
Proof.
  intros [now sess meta s1 r warm Hf Hc|sess r|sess|n p Hp|i now t pc s1 o Hi Hr|w|t s1 x Ht Ho|t Ht].
  - by eapply ss_hook, hs_connect.
  - eapply ss_hook, hs_poll.
  - eapply ss_hook, hs_disconnect.
  - by eapply ss_hook, hs_pick.
  - by eapply ss_hook, hs_drain.
  - eapply ss_hook, hs_world.
  - by eapply ss_open.
  - by eapply ss_close_stream.
Qed.

(** Every step of a server is one of these. *)
Lemma server_step_health srv s s' : server_step srv s s' → ∃ e, health_step srv s e s'.
Proof.
  intros [e s1 Hh|t s1 x Ht Ho|t Ht].
  - destruct Hh; eexists; [by eapply hh_connect | apply hh_poll | apply hh_disconnect
      | by eapply hh_pick | by eapply hh_drain | apply hh_world].
  - eexists. by eapply hh_open.
  - eexists. by apply hh_close.
Qed.

Lemma health_run_server srv s events s' : health_run srv s events s' → rtc (server_step srv) s s'.
Proof. induction 1 as [|s e s1 ev s' Hs _ IH]; [done|]. by eapply rtc_l; [eapply health_step_server|]. Qed.

Lemma server_run_health srv s s' :
  rtc (server_step srv) s s' → ∃ events, health_run srv s events s'.
Proof.
  induction 1 as [s|s s1 s' Hstep _ [ev IH]]; [exists []; constructor|].
  apply server_step_health in Hstep as [e He]. exists (e :: ev). by econstructor.
Qed.

(** ** The health the server holds of a client *)

(** The current tunnel of the client, if any, has this health. *)
Definition holds (sub id : string) (h : bool) (s : store) : Prop :=
  ∀ t, current s sub id = Some t → ct_LocalHealthy (tunnel s t) = h.

Lemma holds_same sub id h s s' :
  same_reg s s' → same_field ct_LocalHealthy (λ _, True) s s' → holds sub id h s → holds sub id h s'.
Proof.
  intros Hr Hf Hh t Ht. rewrite (current_same _ _ _ _ Hr) in Ht. rewrite (Hf t I). by apply Hh.
Qed.

(** A successful connect makes a healthy tunnel, and no connect changes whose tunnel is
    current for another client. *)
Lemma connect_current srv s now sess meta s' r warm :
  reg_inv s → GetBySessionID (Session_ID sess) s = None →
  onConnect srv now sess meta s = (s', r, warm) →
  match connect_health srv meta r with
  | Registered a b => ∃ t, ct_LocalHealthy (tunnel s' t) = true ∧
      ∀ sub id, current s' sub id = if decide (sub = a ∧ id = b) then Some t else current s sub id
  | _ => ∀ sub id, current s' sub id = current s sub id
  end.
Proof.
  intros Hinv Hfr Heq. unfold onConnect, connect_health in *.
  destruct (ClientSession (s_world s) sess) as [w [y|e]].
  2:{ simplify_eq. intros. apply current_same, same_reg_world. }
  destruct (cr_Lookup _ _) as [b|].
  2:{ simplify_eq. intros. apply current_same, same_reg_world. }
  fold (connecting (meta_get meta "client_id") (cb_Subdomain b) sess y now) in Heq.
  set (c := connecting _ _ _ _ _) in Heq. set (s0 := set_world w s) in Heq.
  assert (reg_inv s0) as Hinv0 by (eapply reg_inv_same; [apply same_reg_world | done]).
  assert (∀ sub id, current s0 sub id = current s sub id) as HC0
    by (intros; apply current_same, same_reg_world).
  pose proof (new_tunnel_inv c s0 Hinv0) as Hinv1.
  assert (∀ x, ct_Session c = Some x → GetBySessionID (Session_ID x) s0 = None) as Hse
    by (intros x Hx; simpl in Hx; injection Hx as <-; exact Hfr).
  pose proof (new_tunnel_fresh c s0 Hinv0 eq_refl Hse) as Hf.
  pose proof (λ sub id, new_tunnel_current c s0 sub id Hinv0) as HC1.
  assert (tunnel (new_tunnel c s0).1 (s_nexttunnel s0) = c) as HT
    by by rewrite tunnel_new, decide_True.
  pose proof (Register_spec _ _ (cb_MaxClients b) Hinv1 Hf) as HR. rewrite HT in HR.
  destruct (new_tunnel c s0) as [s1 t] eqn:Hnew.
  assert (t = s_nexttunnel s0) as -> by by injection Hnew. simpl in HR, HT, HC1.
  destruct (Register _ (cb_MaxClients b) s1) as [s2 [[]|[]]]; simplify_eq/=.
  - destruct HR as (_ & _ & Hok). eexists. split; [apply (ro_healthy _ _ _ Hok)|].
    intros sub id. rewrite (ro_current _ _ _ Hok), HT. simpl.
    case_decide; [done|]. by rewrite HC1.
  - destruct HR as (_ & _ & _ & Hr). intros sub id.
    rewrite (current_same s2) by apply same_reg_world. by rewrite (rr_current _ _ Hr), HC1.
Qed.

Lemma holds_connect srv s now sess meta s' r warm sub id h :
  reg_inv s → GetBySessionID (Session_ID sess) s = None →
  onConnect srv now sess meta s = (s', r, warm) → holds sub id h s →
  holds sub id (health_effect sub id h (connect_health srv meta r)) s'.
Proof.
  intros Hinv Hfr Heq Hh. pose proof (connect_current srv s now sess meta s' r warm Hinv Hfr Heq) as Hc.
  assert (∀ t, current s sub id = Some t → ct_LocalHealthy (tunnel s' t) = h) as Hkeep.
  { intros t Ht. rewrite <-(Hh t Ht).
    apply (field_connect ct_LocalHealthy (λ u, u ≠ s_nexttunnel s) srv s now sess meta s' r warm);
      [done | done | done | done |].
    intros ->. apply current_member in Ht as [[x Hx] _]; [|done]. by rewrite (ri_tunnels s Hinv) in Hx. }
  destruct (connect_health srv meta r) as [a b|a b ok|] eqn:He; simpl.
  - destruct Hc as (t & Ht & Hc). intros u Hu. rewrite Hc in Hu.
    case_decide as Hd; case_decide as Hd'; [by injection Hu as <- | naive_solver | naive_solver |].
    by apply Hkeep.
  - unfold connect_health in He. by repeat case_match.
  - intros u Hu. rewrite Hc in Hu. by apply Hkeep.
Qed.

Lemma holds_poll s sess r sub id h :
  reg_inv s → holds sub id h s →
  holds sub id (health_effect sub id h (poll_health sess r)) (onPoll sess r s).
Proof.
  intros Hinv Hh. unfold poll_health, onPoll. destruct (bool_decide (Header_Get _ _ ≠ "")); [|done].
  set (a := meta_get _ "subdomain"). set (b := meta_get _ "client_id"). simpl.
  destruct (bool_decide (a ≠ "") && bool_decide (b ≠ "")); [|done]. simpl.
  set (ok := bool_decide (_ = "ok")). intros t Ht.
  rewrite (current_same _ _ _ _ (SetLocalHealth_same s a b ok Hinv)) in Ht.
  unfold SetLocalHealth. destruct (current s a b) as [u|] eqn:Hu.
  - unfold current in Hu. destruct (Pool a s) as [p|] eqn:Hp; [|done]. simpl in Hu. rewrite Hu.
    unfold upd_tunnel. rewrite tunnel_set_tunnel.
    assert (current s a b = Some u) as Hcu by (unfold current; by rewrite Hp).
    destruct (current_member s a b u Hinv Hcu) as (_ & Hua & Hub & _).
    destruct (current_member s sub id t Hinv Ht) as (_ & Hta & Htb & _).
    case_decide as Hd; case_decide as Hd'; simpl; [done | | | by apply Hh].
    + subst u. destruct Hd'. split; congruence.
    + destruct Hd' as [<- <-]. congruence.
  - case_decide as Hd; [destruct Hd as [<- <-]; congruence|].
    unfold current in Hu. destruct (Pool a s) as [p|]; [|by apply Hh]. simpl in Hu. rewrite Hu.
    by apply Hh.
Qed.

Lemma holds_disconnect s sess sub id h :
  reg_inv s → holds sub id h s → holds sub id h (onDisconnect sess s).
Proof.
  intros Hinv Hh t Ht. rewrite (field_disconnect ct_LocalHealthy (λ _, True) sess s t I). apply Hh.
  revert Ht. unfold onDisconnect. set (s1 := match GetBySessionID _ s with Some t => _ | None => s end).
  assert (same_reg s s1) as Hs by (subst s1; repeat case_match; apply same_reg_world || reflexivity).
  rewrite <-(current_same _ _ _ _ Hs). pose proof (reg_inv_same _ _ Hs Hinv) as Hinv1.
  destruct (RemoveBySessionID_spec s1 (Session_ID sess) Hinv1) as [_ HR].
  destruct (GetBySessionID (Session_ID sess) s1) as [u|]; [|by rewrite HR].
  rewrite (di_current _ _ _ _ HR). by case_decide.
Qed.

Lemma holds_step srv s e s' sub id h :
  reg_inv s → health_step srv s e s' → holds sub id h s → holds sub id (health_effect sub id h e) s'.
Proof.
  intros Hinv Hstep.
  destruct Hstep as [now sess meta s1 r warm Hf Hc|sess r|sess|n p Hp|i now t pc s1 o Hi Hr|w|t s1 x Ht Ho|t Ht];
    simpl.
  - by eapply holds_connect.
  - by apply holds_poll.
  - by apply holds_disconnect.
  - apply holds_same; [by eapply Pick_same, ri_pool | by apply field_tunnels].
  - apply holds_same; [by eapply step_drain_same | by eapply field_drain; [apply _|]].
  - apply holds_same; [apply same_reg_world | by apply field_tunnels].
  - apply holds_same; [by eapply OpenStream_same|]. unfold OpenStream in Ho.
    destruct (ct_Yamux (tunnel s t)); [|done].
    destruct (Yamux_Open _ _) as [w [err|]]; simplify_eq; [by apply field_tunnels|].
    etrans; [by apply (field_tunnels _ _ s (set_world w s)) | by apply field_upd].
  - apply holds_same; [by apply countedConn_Close_same | by apply field_upd].
Qed.

Lemma holds_run srv s events s' sub id h :
  serves srv s → reg_inv s → health_run srv s events s' → holds sub id h s →
  holds sub id (fold_left (health_effect sub id) events h) s'.
Proof.
  intros Hs Hinv Hrun. revert h Hs Hinv. induction Hrun as [|s e s1 ev s' Hstep _ IH]; [done|].
  intros h Hs Hinv Hh. pose proof (health_step_server _ _ _ _ Hstep) as Hss.
  destruct (server_run_inv srv s s1 (rtc_once _ _ Hss) Hs Hinv). simpl.
  apply IH; [done | done | exact (holds_step srv s e s1 sub id h Hinv Hstep Hh)].
Qed.

Lemma servePublic_serving srv r s s' ctx :
  servePublic srv r s = (s', inr ctx) → serving s (pc_tunnel ctx) = true.
Proof.
  unfold servePublic. destruct (HostKey _ _) as [h|]; [|congruence].
  destruct (Match _ _ _) as [route|]; [|congruence].
  destruct (Pick (rt_Pool route) s) as [s1 [u|]] eqn:Hp; [|congruence].
  pose proof (Pick_member (rt_Pool route) s u) as Hm. rewrite Hp in Hm.
  assert (serving s u = true) as Hu by by apply Hm.
  destruct (negb _); [congruence|]. destruct (Z.leb _ _); [congruence|]. by intros [= _ <-].
Qed.

(** ** The client's side *)

(** pollmux's connector: a request of the client's session, which carries the state of its
    checker at that moment if the connector has been given one. *)
Class PollWire := { poll_request : Connector → Checker → Request }.

Class PollWireOk `{PollWire} : Prop := {
  poll_header cn ck :
    Header_Get (rq_Header (poll_request cn ck)) HeaderLocalHealth =
      match cn_LocalHealth cn with
      | None => ""
      | Some healthy => if healthy ck then "ok" else "down"
      end
}.

(** The session of a client, with the metadata [authenticateConnect] has given it. *)
Definition session_for (sess : session) (sub id : string) : Prop :=
  meta_get (Session_Meta sess) "subdomain" = sub ∧ meta_get (Session_Meta sess) "client_id" = id
  ∧ sub ≠ "" ∧ id ≠ "".

(** No event of a list is a registration or a report of the client. *)
Definition silent (sub id : string) (events : list health_event) : Prop :=
  Forall (λ e, ∀ h, health_effect sub id h e = h) events.

Lemma silent_fold sub id events h :
  silent sub id events → fold_left (health_effect sub id) events h = h.
Proof. induction 1 as [|e events He _ IH]; simpl; [done|]. by rewrite He. Qed.

Lemma poll_reports `{PollWireOk} cfg ck sess sub id :
  session_for sess sub id →
  poll_health sess (poll_request (buildConnector cfg) ck)
  = if hc_Enabled (cc_Health cfg) then Reported sub id (ck_healthy ck) else Unrelated.
Proof.
  intros (Hs & Hi & Hs0 & Hi0). unfold poll_health. rewrite poll_header, Hs, Hi. simpl.
  destruct (hc_Enabled (cc_Health cfg)); [|done].
  rewrite (bool_decide_eq_true_2 (sub ≠ "")), (bool_decide_eq_true_2 (id ≠ "")) by done.
  unfold Healthy. by destruct (ck_healthy ck).
Qed.

Lemma health_effect_reported sub id h ok : health_effect sub id h (Reported sub id ok) = ok.
Proof. simpl. by rewrite decide_True. Qed.

(** The report of a session that has been replaced counts for the tunnel that replaced it:
    the tunnel is looked up by client, not by session. *)
Lemma stale_report_counts s sess r sub id t :
  reg_inv s → session_for sess sub id → Header_Get (rq_Header r) HeaderLocalHealth = "down" →
  current s sub id = Some t → ct_Session (tunnel s t) ≠ Some sess →
  ct_LocalHealthy (tunnel (onPoll sess r s) t) = false.
Proof.
  intros Hinv (Hs & Hi & Hs0 & Hi0) Hd Hcur _.
  assert (holds sub id (ct_LocalHealthy (tunnel s t)) s) as Hh by (intros u Hu; congruence).
  apply (holds_poll s sess r) in Hh; [|done].
  assert (poll_health sess r = Reported sub id false) as Hp.
  { unfold poll_health. rewrite Hd, Hs, Hi, !bool_decide_eq_true_2 by done. done. }
  rewrite Hp, health_effect_reported in Hh. apply Hh.
  unfold onPoll. rewrite Hd, Hs, Hi, !bool_decide_eq_true_2 by done. simpl.
  by rewrite (current_same _ _ _ _ (SetLocalHealth_same s sub id _ Hinv)).
Qed.

(** ** Claims *)

(** C8: the health that a running server holds of a client is what the client last reported
    since it was last registered, and healthy if it has not reported: connects of other
    clients, their reports, disconnects, requests, streams and drain goroutines, those of the
    tunnel it replaced included, change nothing about it. *)
Theorem health_follows_reports c w srv s0 events s sub id t :
  NewServer c w = Ok (srv, s0) → health_run srv s0 events s → current s sub id = Some t →
  ct_LocalHealthy (tunnel s t) = health_of sub id events.
Proof.
  intros Hnew Hrun Hcur. destruct (NewServer_serves c w srv s0 Hnew) as [Hs Hinv].
  apply (holds_run srv s0 events s sub id true Hs Hinv Hrun); [|done].
  intros u Hu. apply current_member in Hu as [[x Hx] _]; [|done].
  by rewrite (NewServer_tunnels c w srv s0 Hnew), lookup_empty in Hx.
Qed.

(** C9: from the local service to the public request: once a client whose health checks are
    enabled has probed its local service and polled, the server holds the outcome of that
    probe until the client reports or registers again; and if the service was down no public
    request is given to the client's tunnel in all that time.  Without health checks its polls
    change nothing. *)
Theorem health_check_decides_service `{PollWireOk} c w srv s0 s cfg ck network sess sub id :
  NewServer c w = Ok (srv, s0) → rtc (server_step srv) s0 s → session_for sess sub id →
  let poll := poll_request (buildConnector cfg) (@probe network ck).1 in
  if hc_Enabled (cc_Health cfg) then
    ∀ events s', health_run srv (onPoll sess poll s) events s' → silent sub id events →
      holds sub id (@check network ck) s'
      ∧ (@check network ck = false → ∀ r s'' ctx,
           servePublic srv r s' = (s'', inr ctx) → current s' sub id ≠ Some (pc_tunnel ctx))
  else onPoll sess poll s = s.
Proof.
  intros Hnew Hrun Hsess poll. destruct (NewServer_serves c w srv s0 Hnew) as [Hs0 Hinv0].
  destruct (server_run_inv srv s0 s Hrun Hs0 Hinv0) as [Hs Hinv].
  destruct (server_run_health srv s0 s Hrun) as [before Hbefore].
  pose proof (poll_reports cfg (@probe network ck).1 sess sub id Hsess) as Hp. fold poll in Hp.
  destruct (hc_Enabled (cc_Health cfg)) eqn:He.
  - intros events s' Hrun' Hsil.
    assert (health_run srv s (poll_health sess poll :: events) s') as Hall
      by (econstructor; [apply hh_poll | exact Hrun']).
    assert (holds sub id (@check network ck) s') as Hh.
    { intros t Ht. pose proof (λ h Hh, holds_run srv s _ s' sub id h Hs Hinv Hall Hh t Ht) as Hf.
      cbn [fold_left] in Hf. rewrite Hp in Hf. setoid_rewrite health_effect_reported in Hf.
      setoid_rewrite (silent_fold sub id events) in Hf; [|done].
      eapply Hf, (holds_run srv s0 before s sub id true Hs0 Hinv0 Hbefore).
      intros u Hu. apply current_member in Hu as [[x Hx] _]; [|done].
      by rewrite (NewServer_tunnels c w srv s0 Hnew), lookup_empty in Hx. }
    split; [done|]. intros Hdown r s'' ctx Hsv Hcur. apply servePublic_serving in Hsv.
    specialize (Hh _ Hcur). unfold serving in Hsv. rewrite Hh, Hdown in Hsv.
    by rewrite andb_false_r in Hsv.
  - unfold onPoll, poll. rewrite poll_header. simpl. by rewrite He.
Qed.

End Health.

(** ** Witnesses *)

Section HealthDemo.
  #[local] Existing Instance example_consts.
  #[local] Existing Instance ascii_tables.
  #[local] Existing Instance demo_transport.
  #[local] Existing Instance insertion_SliceSort.
  #[local] Existing Instance demo_pollmux.

#[local] Instance demo_poll_wire : PollWire := {|
  poll_request cn ck :=
    mkRequest "POST" "builderrors.com" "/tunnel/sess-a/poll" "/tunnel/sess-a/poll" "10.0.0.1:999"
      true
      {["X-Local-Health" := match cn_LocalHealth cn with
                            | None => []
                            | Some healthy => [if healthy ck then "ok" else "down"]
                            end]}
|}.

#[local] Instance demo_poll_wire_ok : PollWireOk.
Proof.
  constructor. intros cn ck. unfold Header_Get, Header_Values. simpl.
  rewrite lookup_singleton_eq. by destruct (cn_LocalHealth cn).
Qed.

(** A network in which nothing answers, a client with health checks, and its checker. *)
Definition nobody : Probe := {| http_Get _ _ := None; net_Dial _ _ := false |}.

Definition checked_client : ClientConfig :=
  mkClientConfig "a" zero_ServerRef (mkLocalConfig "127.0.0.1:3000" "")
    (cc_Transport (@DefaultClient example_consts))
    (mkHealthConfig true "tcp" "" Second Second) (mkLoggingConfig "").

Definition demo_checker : Checker := cl_health (New checked_client).

Lemma demo_session_for : session_for demo_sess "@" "a".
Proof. by vm_compute. Qed.

Lemma demo_connect_health : health_run demo_srv.1 demo_srv.2 [Registered "@" "a"] demo_connected.1.1.
Proof.
  eapply hr_cons; [|constructor].
  change (Registered "@" "a") with (connect_health demo_srv.1 demo_meta demo_connected.1.2).
  by apply (hh_connect _ _ 0 demo_sess demo_meta _ demo_connected.1.2 demo_connected.2); vm_compute.
Qed.

Lemma health_follows_reports_witness :
  ct_LocalHealthy (tunnel demo_connected.1.1 0) = true.
Proof.
  apply (health_follows_reports example_server demo_world demo_srv.1 demo_srv.2
    [Registered "@" "a"] demo_connected.1.1 "@" "a" 0);
    [etrans; [apply demo_srv_new | by destruct demo_srv] | apply demo_connect_health
    | by vm_compute].
Defined.

Lemma health_check_decides_service_witness :
  holds "@" "a" false
    (onPoll demo_sess (poll_request (buildConnector checked_client) (@probe nobody demo_checker).1)
      demo_connected.1.1).
Proof.
  apply (health_check_decides_service example_server demo_world demo_srv.1 demo_srv.2
    demo_connected.1.1 checked_client demo_checker nobody demo_sess "@" "a"
    ltac:(etrans; [apply demo_srv_new | by destruct demo_srv]) demo_connected_run
    demo_session_for [] _ ltac:(constructor) ltac:(constructor)).
Defined.

End HealthDemo.
